(** * AudioREV: the batch preprocessing and data-loading pipeline

  A shallow embedding of the pipeline of [AudioREV.py] (the current
  revision) and of [.old/AudioREV1_1.py] (the older revision kept in the
  repository): the score store reader [load_audio_data], the index writer
  [create_wav_jsonl], the scorer invoker [run_audio_aes], the orchestrator
  [_perform_preprocessing] with its launcher [run_preprocessing_thread],
  and the column sort [sort_column].

  Modelling conventions.
  - A Python [str] is the [string] of the bytes of its UTF-8 encoding, so
    that the order of two strings by their bytes is their order by code
    points.  [str.strip] and [str.splitlines] know the white space and the
    line boundaries of Unicode in this encoding.  The lower case of a
    string is a parameter ([str_lower]) where the program lower-cases a name
    to compare or to order it; [Py.lower_ascii], the lower-casing of A to Z, is
    used only where the program tests a name for the suffix [.wav] or
    [.jsonl], which no character outside A to Z lower-cases into.
  - A JSON number is an integer of any size ([JInt]) or a float ([JNum]),
    as [json.loads] returns them; a float is a rational, an infinity or
    NaN.
  - The file system is a finite map from path strings, as the program
    forms them, to nodes; permissions, symbolic links and decoding errors
    are not represented.
  - Library and operating-system behaviour that the program only calls
    ([json.loads], [float] on a string, [str.lower], the external scoring
    process, the clock, the stop event set by the GUI thread, and the
    order [list.sort] leaves when a key is NaN) is a parameter of the
    development.
  - Exceptions are values of [exn]; code that can raise returns [result]. *)

From Stdlib Require Import String Ascii List ZArith QArith Lia Bool DecimalString.
From Stdlib Require Import Sorted Permutation.
From stdpp Require Import gmap strings list.

Set Warnings "-register-all".
Local Open Scope Z_scope.
Local Open Scope nat_scope.

(** ** Python strings *)

Module Py.

Definition lower_char (c : ascii) : ascii :=
  let n := nat_of_ascii c in
  if (65 <=? n) && (n <=? 90) then ascii_of_nat (n + 32) else c.

(** The lower-casing of the letters A to Z; the other bytes, those of the
    characters outside ASCII among them, stay.  On a text of ASCII
    characters it is [str.lower].  For a suffix [p] made of ".", digits and
    the letters other than "i" and "k", [s.lower().endswith(p)] is
    [endswith (lower_ascii s) p] for every [s]: the only characters outside
    A to Z with an ASCII letter in their lower case are U+0130 (to "i" and a
    combining dot) and U+212A (to "k"). *)
Fixpoint lower_ascii (s : string) : string :=
  match s with
  | EmptyString => EmptyString
  | String c s' => String (lower_char c) (lower_ascii s')
  end.

(** [s.lower()] with the lower case of Unicode, which is a parameter
    ([lower_case], asked for non-empty strings); the empty string is its own
    lower case. *)
Definition unicode_lower (lower_case : string -> string) (s : string) : string :=
  match s with
  | EmptyString => EmptyString
  | _ => lower_case s
  end.

(** The white space of ASCII: tab, newline, vertical tab, form feed,
    carriage return, the four separators 28..31 and the space. *)
Definition isspace (c : ascii) : bool :=
  let n := nat_of_ascii c in
  ((9 <=? n) && (n <=? 13)) || ((28 <=? n) && (n <=? 32)).

(** The number of bytes of the white space character the text starts with,
    0 when it starts with none.  The characters [str.strip] removes are
    those of [str.isspace]: the ASCII ones and U+0085, U+00A0 (C2 85, C2 A0),
    U+1680 (E1 9A 80), U+2000..U+200A, U+2028, U+2029, U+202F
    (E2 80 80..8A, A8, A9, AF), U+205F (E2 81 9F) and U+3000 (E3 80 80). *)
Definition space_length (s : string) : nat :=
  match s with
  | EmptyString => 0
  | String a r =>
      if isspace a then 1
      else
        match r with
        | EmptyString => 0
        | String b r' =>
            let a := nat_of_ascii a in
            let b := nat_of_ascii b in
            if (a =? 194) && ((b =? 133) || (b =? 160)) then 2
            else
              match r' with
              | EmptyString => 0
              | String c _ =>
                  let c := nat_of_ascii c in
                  if ((a =? 225) && (b =? 154) && (c =? 128))
                     || ((a =? 226) && (b =? 128)
                         && (((128 <=? c) && (c <=? 138))
                             || (c =? 168) || (c =? 169) || (c =? 175)))
                     || ((a =? 226) && (b =? 129) && (c =? 159))
                     || ((a =? 227) && (b =? 128) && (c =? 128))
                  then 3
                  else 0
              end
        end
  end.

(** [str.lstrip()]; [skip] counts the bytes still to drop of the white
    space character being removed. *)
Fixpoint lstrip_from (skip : nat) (s : string) : string :=
  match s with
  | EmptyString => EmptyString
  | String _ s' =>
      match skip with
      | S k => lstrip_from k s'
      | O =>
          match space_length s with
          | O => s
          | S k => lstrip_from k s'
          end
      end
  end.

Definition lstrip (s : string) : string := lstrip_from 0 s.

(** [str.rstrip()]: the text is cut where only white space follows. *)
Fixpoint rstrip (s : string) : string :=
  match s with
  | EmptyString => EmptyString
  | String c s' =>
      match lstrip s with
      | EmptyString => EmptyString
      | _ => String c (rstrip s')
      end
  end.

Definition strip (s : string) : string := rstrip (lstrip s).

Fixpoint startswith (s p : string) {struct p} : bool :=
  match p, s with
  | EmptyString, _ => true
  | String a p', String b s' => if Ascii.eqb a b then startswith s' p' else false
  | String _ _, EmptyString => false
  end.

Definition endswith (s p : string) : bool :=
  startswith (String.rev s) (String.rev p).

(** Truth value of a string: non-empty. *)
Definition nonempty (s : string) : bool :=
  match s with EmptyString => false | _ => true end.

(** [str(n)] for integers. *)
Definition str_of_Z (z : Z) : string := NilZero.string_of_int (Z.to_int z).
Definition str_of_nat (n : nat) : string := NilZero.string_of_uint (Nat.to_uint n).

(** [sep.join(l)]. *)
Fixpoint join (sep : string) (l : list string) : string :=
  match l with
  | [] => EmptyString
  | [x] => x
  | x :: l' => x +:+ sep +:+ join sep l'
  end.

(** Splitting at one character, empty pieces kept ([str.split(c)]). *)
Fixpoint split_go (c : ascii) (cur : string) (s : string) : list string :=
  match s with
  | EmptyString => [String.rev cur]
  | String a s' =>
      if Ascii.eqb a c then String.rev cur :: split_go c EmptyString s'
      else split_go c (String a cur) s'
  end.
Definition split (c : ascii) (s : string) : list string := split_go c EmptyString s.

(** Iterating over a text file: the lines, each with its newline (the
    translation of carriage returns by the text mode is left out). *)
Fixpoint lines_go (cur : string) (s : string) : list string :=
  match s with
  | EmptyString =>
      match cur with EmptyString => [] | _ => [String.rev cur] end
  | String a s' =>
      if Ascii.eqb a "010"%char
      then String.rev (String a cur) :: lines_go EmptyString s'
      else lines_go (String a cur) s'
  end.
Definition lines (s : string) : list string := lines_go EmptyString s.

(** The line boundaries of [str.splitlines] in the ASCII range: newline,
    vertical tab, form feed, carriage return and the separators 28..30. *)
Definition islinebreak (c : ascii) : bool :=
  let n := nat_of_ascii c in
  ((10 <=? n) && (n <=? 13)) || ((28 <=? n) && (n <=? 30)).

(** The number of bytes of the line boundary the text starts with, 0 when
    it starts with none: a carriage return followed by a newline is one
    boundary, and outside ASCII the boundaries are U+0085 (C2 85), U+2028
    and U+2029 (E2 80 A8, E2 80 A9). *)
Definition break_length (s : string) : nat :=
  match s with
  | EmptyString => 0
  | String a r =>
      if Ascii.eqb a "013"%char then
        match r with
        | String b _ => if Ascii.eqb b "010"%char then 2 else 1
        | EmptyString => 1
        end
      else if islinebreak a then 1
      else
        match r with
        | EmptyString => 0
        | String b r' =>
            let a := nat_of_ascii a in
            let b := nat_of_ascii b in
            if (a =? 194) && (b =? 133) then 2
            else
              match r' with
              | EmptyString => 0
              | String c _ =>
                  let c := nat_of_ascii c in
                  if (a =? 226) && (b =? 128) && ((c =? 168) || (c =? 169))
                  then 3 else 0
              end
        end
  end.

(** [str.splitlines()]: the pieces without their line ends; [skip] counts
    the bytes still to drop of the boundary being passed. *)
Fixpoint splitlines_go (skip : nat) (cur : string) (s : string) : list string :=
  match s with
  | EmptyString =>
      match cur with EmptyString => [] | _ => [String.rev cur] end
  | String a s' =>
      match skip with
      | S k => splitlines_go k cur s'
      | O =>
          match break_length s with
          | O => splitlines_go 0 (String a cur) s'
          | S k => String.rev cur :: splitlines_go k EmptyString s'
          end
      end
  end.
Definition splitlines (s : string) : list string := splitlines_go 0 EmptyString s.

End Py.

(** ** Exceptions *)

Inductive exn_class :=
| FileNotFoundError | IsADirectoryError | NotADirectoryError | PermissionError
| OSError
| AttributeError | TypeError | ValueError | OverflowError.

(** The subclasses of [OSError]. *)
Definition is_OSError (c : exn_class) : bool :=
match c with
| FileNotFoundError | IsADirectoryError | NotADirectoryError
| PermissionError | OSError => true
| _ => false
end.

(** An exception: its class and [str(e)]. *)
Record exn := Exn { exn_cls : exn_class; exn_msg : string }.

Inductive result (A : Type) :=
| Ok (a : A)
| Raise (e : exn).
Arguments Ok {A} a.
Arguments Raise {A} e.

(** ** Paths *)

Module Path.

(** [os.path.join(a, b)] of [posixpath]. *)
Definition join (a b : string) : string :=
  if Py.startswith b "/" then b
  else if negb (Py.nonempty a) || Py.endswith a "/" then a +:+ b
  else a +:+ "/" +:+ b.

(** The components [pathlib.PurePosixPath] keeps: empty and "." pieces are
    dropped. *)
Definition parts (s : string) : list string :=
  List.filter (fun p => Py.nonempty p && negb (String.eqb p "."))
    (Py.split "/"%char s).

(** The root of a path: "//" for exactly two leading slashes, "/" for any
    other absolute path. *)
Definition root (s : string) : string :=
  if Py.startswith s "///" then "/"
  else if Py.startswith s "//" then "//"
  else if Py.startswith s "/" then "/"
  else EmptyString.

(** [str(Path(s))]. *)
Definition str (s : string) : string :=
  match root s, parts s with
  | EmptyString, [] => "."
  | r, ps => r +:+ Py.join "/" ps
  end.

(** [Path(s).name]: the last component. *)
Definition name (s : string) : string := List.last (parts s) EmptyString.

End Path.

(** ** The file system *)

Inductive node :=
| File (content : string)
| Dir (entries : list string).

Module FS.

Definition exists_ (fs : gmap string node) (p : string) : bool :=
  match fs !! p with Some _ => true | None => false end.

Definition isdir (fs : gmap string node) (p : string) : bool :=
  match fs !! p with Some (Dir _) => true | _ => false end.

(** [Path(p).is_file()], on the string form of the path. *)
Definition is_file (fs : gmap string node) (p : string) : bool :=
  match fs !! p with Some (File _) => true | _ => false end.

Definition err (c : exn_class) (what p : string) : exn :=
  Exn c (what +:+ ": '" +:+ p +:+ "'").

Definition listdir (fs : gmap string node) (p : string) : result (list string) :=
  match fs !! p with
  | Some (Dir es) => Ok es
  | Some (File _) => Raise (err NotADirectoryError "[Errno 20] Not a directory" p)
  | None => Raise (err FileNotFoundError "[Errno 2] No such file or directory" p)
  end.

(** [open(p, 'r')] followed by reading the whole text. *)
Definition read (fs : gmap string node) (p : string) : result string :=
  match fs !! p with
  | Some (File c) => Ok c
  | Some (Dir _) => Raise (err IsADirectoryError "[Errno 21] Is a directory" p)
  | None => Raise (err FileNotFoundError "[Errno 2] No such file or directory" p)
  end.

(** [os.path.getsize(p)]: for a file the length of its content; for a
    directory the size of the directory entry, which is never zero. *)
Definition getsize (fs : gmap string node) (p : string) : result nat :=
  match fs !! p with
  | Some (File c) => Ok (String.length c)
  | Some (Dir _) => Ok 4096
  | None => Raise (err FileNotFoundError "[Errno 2] No such file or directory" p)
  end.

(** The directory part and the last component of a path
    ([os.path.split]). *)
Definition dirname (p : string) : string :=
  match List.rev (Py.split "/"%char p) with
  | [] | [_] => EmptyString
  | _ :: r =>
      match Py.join "/" (List.rev r) with
      | EmptyString => "/"
      | d => d
      end
  end.
Definition basename (p : string) : string :=
  List.last (Py.split "/"%char p) EmptyString.

(** [open(p, 'w')], writing [content] and closing: an existing file is
    truncated and rewritten, a missing one is created in its directory, a
    directory cannot be opened for writing, and the parent must be an
    existing directory. *)
Definition write (fs : gmap string node) (p content : string)
  : result (gmap string node) :=
  match fs !! p with
  | Some (Dir _) => Raise (err IsADirectoryError "[Errno 21] Is a directory" p)
  | Some (File _) => Ok (<[p := File content]> fs)
  | None =>
      match fs !! dirname p with
      | Some (Dir es) =>
          Ok (<[p := File content]> (<[dirname p := Dir (es ++ [basename p])]> fs))
      | Some (File _) => Raise (err NotADirectoryError "[Errno 20] Not a directory" p)
      | None => Raise (err FileNotFoundError "[Errno 2] No such file or directory" p)
      end
  end.

End FS.

(** ** JSON values *)

(** A Python float: a rational, an infinity or NaN.  [json.loads] yields an
    infinity for the literals [Infinity] and [-Infinity] and for a float
    literal too large for a double, such as [1e999], and NaN for the
    literal [NaN]. *)
Inductive pyfloat :=
| NegInf
| Fin (q : Q)
| PosInf
| NaN.

(** [json.loads] reads a number without fraction and exponent as an [int]
    of any size ([JInt]) and every other number as a [float] ([JNum]). *)
Inductive json :=
| JNull
| JBool (b : bool)
| JInt (z : Z)
| JNum (x : pyfloat)
| JStr (s : string)
| JArr (l : list json)
| JObj (items : list (string * json)).

(** [float(z)] on an [int]: the nearest double, ties to the even mantissa;
    [None] stands for the [OverflowError] of an integer that rounds to
    2^1024 or beyond. *)
Definition float_of_int (z : Z) : option pyfloat :=
  let a := Z.abs z in
  if (a <? 2 ^ 53)%Z then Some (Fin (inject_Z z))
  else
    let e := (Z.log2 a - 52)%Z in          (* the bits below the mantissa *)
    let m := Z.shiftr a e in               (* the 53 leading bits *)
    let r := Z.land a (Z.ones e) in        (* what is cut off *)
    let half := Z.shiftl 1 (e - 1) in
    let m' := if (half <? r)%Z || ((r =? half)%Z && Z.odd m)
              then (m + 1)%Z else m in
    let v := Z.shiftl m' e in
    if (2 ^ 1024 <=? v)%Z then None
    else Some (Fin (inject_Z (Z.sgn z * v))).

(** A Python value held in a variable: [None] or a JSON value other than
    [null]. *)
Definition pyval := option json.

Definition to_pyval (j : json) : pyval :=
  match j with JNull => None | _ => Some j end.

(** Truth value, as tested by [if not x]. *)
Definition truthy (v : pyval) : bool :=
  match v with
  | None | Some JNull => false
  | Some (JBool b) => b
  | Some (JInt z) => negb (z =? 0)%Z
  | Some (JNum (Fin q)) => negb (Qeq_bool q 0)
  | Some (JNum _) => true
  | Some (JStr s) => Py.nonempty s
  | Some (JArr l) => match l with [] => false | _ => true end
  | Some (JObj l) => match l with [] => false | _ => true end
  end.

Fixpoint assoc (k : string) (items : list (string * json)) : option json :=
  match items with
  | [] => None
  | (k', v) :: r => if String.eqb k k' then Some v else assoc k r
  end.

Definition type_name (j : json) : string :=
  match j with
  | JNull => "NoneType" | JBool _ => "bool" | JInt _ => "int" | JNum _ => "float"
  | JStr _ => "str" | JArr _ => "list" | JObj _ => "dict"
  end.

(** [d.get(k)] / [d.get(k, None)]: only a dict has the method. *)
Definition py_get (d : json) (k : string) : result pyval :=
  match d with
  | JObj items =>
      Ok (match assoc k items with Some v => to_pyval v | None => None end)
  | _ => Raise (Exn AttributeError
                  ("'" +:+ type_name d +:+ "' object has no attribute 'get'"))
  end.

(** [Path(v)] for a truthy value: only a string is accepted. *)
Definition py_Path (v : pyval) : result string :=
  match v with
  | Some (JStr s) => Ok s
  | Some j => Raise (Exn TypeError
      ("expected str, bytes or os.PathLike object, not " +:+ type_name j))
  | None => Raise (Exn TypeError
      "expected str, bytes or os.PathLike object, not NoneType")
  end.

(** ** Configuration *)

Definition PATHS_FILENAME : string := "paths.jsonl".
Definition SCORES_FILENAME : string := "scores.jsonl".

(** ** The score store reader: [load_audio_data] *)

(** One loaded item: the dict built at the end of the pairing loop. *)
Record entry := Entry {
  filename : string;
  path : string;
  CE : pyval;
  CU : pyval;
  PC : pyval;
  PQ : pyval
}.

(** The local variables of [load_audio_data] that outlive one iteration. *)
Record load_state := LoadState {
  all_data : list entry;
  found_files_flag : bool;
  subdirs_scanned : nat;
  invalid_entries_count : nat
}.

Module Reader.
Section Reader.

(** [json.loads] on one line: [None] stands for [JSONDecodeError]. *)
Variable json_loads : string -> option json.

(** The loop over the lines of paths.jsonl: a line that does not parse is
    skipped and counted. *)
Definition read_paths (lines : list string) (invalid : nat) : list json * nat :=
  fold_left
    (fun '(paths_content, invalid) line =>
       match json_loads line with
       | Some v => (paths_content ++ [v], invalid)
       | None => (paths_content, S invalid)
       end)
    lines ([], invalid).

(** The loop over the lines of scores.jsonl: a line that does not parse is
    skipped; the increment of the counter is commented out in the source. *)
Definition read_scores (lines : list string) : list json :=
  fold_left
    (fun scores_content line =>
       match json_loads line with
       | Some v => scores_content ++ [v]
       | None => scores_content
       end)
    lines [].

(** The dict literal [entry = {...}]: the four [score_data.get] calls. *)
Definition make_entry (full_path_str : string) (score_data : json) : result entry :=
  match py_get score_data "CE", py_get score_data "CU",
        py_get score_data "PC", py_get score_data "PQ" with
  | Ok ce, Ok cu, Ok pc, Ok pq =>
      Ok (Entry (Path.name full_path_str) (Path.str full_path_str) ce cu pc pq)
  | Raise e, _, _, _ | _, Raise e, _, _ | _, _, Raise e, _ | _, _, _, Raise e =>
      Raise e
  end.

(** The loop over [zip(paths_content, scores_content)].  The third component
    is the exception that ended the loop, if any; what was appended and
    counted before it stays. *)
Fixpoint pair_loop (fs : gmap string node) (pairs : list (json * json))
    (data : list entry) (invalid : nat) : list entry * nat * option exn :=
  match pairs with
  | [] => (data, invalid, None)
  | (path_data, score_data) :: rest =>
      match py_get path_data "path" with
      | Raise e => (data, invalid, Some e)
      | Ok full_path_str =>
          if negb (truthy full_path_str) then pair_loop fs rest data (S invalid)
          else
            match py_Path full_path_str with
            | Raise e => (data, invalid, Some e)
            | Ok p =>
                if negb (FS.is_file fs (Path.str p))
                then pair_loop fs rest data (S invalid)
                else
                  match make_entry p score_data with
                  | Raise e => (data, invalid, Some e)
                  | Ok en => pair_loop fs rest (data ++ [en]) invalid
                  end
            end
      end
  end.

(** The part of the [try] body that follows the reading of the two files:
    the comparison of the counts and the pairing loop. *)
Definition merge_contents (fs : gmap string node)
    (paths_content scores_content : list json)
    (data : list entry) (invalid : nat) : list entry * nat :=
  if negb (length paths_content =? length scores_content)
  then (data, invalid)                      (* continue *)
  else
    match pair_loop fs (combine paths_content scores_content) data invalid with
    | (data, invalid, None) => (data, invalid)
    | (data, invalid, Some _) => (data, S invalid)
    end.

(** The body of [try: ... except Exception: invalid_entries_count += 1] for
    one subdirectory that holds both files. *)
Definition load_pair_files (fs : gmap string node) (paths_file scores_file : string)
    (data : list entry) (invalid : nat) : list entry * nat :=
  match FS.read fs paths_file with
  | Raise _ => (data, S invalid)
  | Ok ptext =>
      let '(paths_content, invalid) := read_paths (Py.lines ptext) invalid in
      match FS.read fs scores_file with
      | Raise _ => (data, S invalid)
      | Ok stext =>
          merge_contents fs paths_content (read_scores (Py.lines stext)) data invalid
      end
  end.

(** One iteration of [for item in os.listdir(base_dir)]. *)
Definition load_item (fs : gmap string node) (base_dir : string)
    (st : load_state) (item : string) : load_state :=
  let subdir_path := Path.join base_dir item in
  if FS.isdir fs subdir_path then
    let paths_file := Path.join subdir_path PATHS_FILENAME in
    let scores_file := Path.join subdir_path SCORES_FILENAME in
    if FS.exists_ fs paths_file && FS.exists_ fs scores_file then
      let '(data, invalid) :=
        load_pair_files fs paths_file scores_file
          (all_data st) (invalid_entries_count st) in
      LoadState data true (S (subdirs_scanned st)) invalid
    else
      LoadState (all_data st) (found_files_flag st)
        (S (subdirs_scanned st)) (invalid_entries_count st)
  else st.

Definition load_init : load_state := LoadState [] false 0 0.

(** The whole scanning loop, from the initial values of the locals. *)
Definition load_loop (fs : gmap string node) (base_dir : string)
    (items : list string) : load_state :=
  fold_left (load_item fs base_dir) items load_init.

(** [load_audio_data(base_dir)]: the list, the message ([None] when entries
    were loaded) and the number of subdirectories scanned.  A failure of
    [os.listdir] is not caught by the function. *)
Definition load_audio_data (fs : gmap string node) (base_dir : string)
  : result (list entry * option string * nat) :=
  if negb (Py.nonempty base_dir) || negb (FS.isdir fs base_dir)
  then Ok ([], Some "Selected path is not a valid directory.", 0)
  else
    match FS.listdir fs base_dir with
    | Raise e => Raise e
    | Ok items =>
        let st := load_loop fs base_dir items in
        match all_data st, found_files_flag st with
        | [], false =>
            Ok ([], Some ("No subdirectories with '" +:+ PATHS_FILENAME +:+ "' and '"
                          +:+ SCORES_FILENAME +:+ "' found or processed in "
                          +:+ base_dir +:+ "."),
                subdirs_scanned st)
        | [], true =>
            Ok ([], Some "Found subdirectories with jsonl files, but failed to load any valid audio entries (check paths and file existence).",
                subdirs_scanned st)
        | data, _ => Ok (data, None, subdirs_scanned st)
        end
    end.

End Reader.
End Reader.

(** ** The GUI task queue and the outside world *)

(** What a worker puts on [self.task_queue]: the GUI call to make later. *)
Inductive task :=
| StatusText (text : string)                 (* status_label.config(text=...) *)
| AppendLog (message : string)               (* _do_append_log(message) *)
| PreprocessStatus (current total : nat) (message : string)
                                             (* _update_preprocess_status(...) *)
| ShowError (title message : string)         (* messagebox.showerror *)
| ShowInfo (title message : string)          (* messagebox.showinfo *)
| ShowWarning (title message : string).      (* messagebox.showwarning *)

(** How [subprocess.run(..., check=True)] ends: it raises before any process
    ran, or the process exits with a status and its two captured streams. *)
Inductive proc_outcome :=
| SpawnFailed (e : exn)
| Exited (returncode : Z) (stdout stderr : string).

(** What the program only calls. *)
Record oracles := Oracles {
  (** the manifest line of one media file: [json.dumps] of the dict holding
      the absolute POSIX form of the joined path; [Raise] when any call of
      the inner [try] raises *)
  manifest_line : string -> result string;
  (** the external command: file system seen, argument list, working
      directory *)
  subprocess_run : gmap string node -> list string -> string -> proc_outcome;
  (** [traceback.format_exc()] for the exception being handled *)
  format_exc : exn -> string;
  (** the n-th reading of [time.time()] *)
  time_time : nat -> Q;
  (** the format [:.2f] *)
  fmt_2f : Q -> string;
  (** the n-th reading of [stop_event.is_set()] *)
  stop_is_set : nat -> bool
}.

(** The state a worker thread acts on. *)
Record world := World {
  w_fs : gmap string node;
  w_queue : list task;                    (* oldest first *)
  w_calls : list (string * list string);  (* commands run: cwd and arguments *)
  w_clock : nat;                          (* readings of the clock so far *)
  w_stops : nat;                          (* readings of the stop event so far *)
  w_thread : option nat                   (* self.preprocessing_thread (1.1 only) *)
}.

Definition set_fs (w : world) (fs : gmap string node) : world :=
  World fs (w_queue w) (w_calls w) (w_clock w) (w_stops w) (w_thread w).

(** [self.task_queue.put(t)]. *)
Definition put (t : task) (w : world) : world :=
  World (w_fs w) (w_queue w ++ [t]) (w_calls w) (w_clock w) (w_stops w) (w_thread w).

(** [self._update_status(message)]. *)
Definition _update_status (message : string) (w : world) : world :=
  put (StatusText ("Status: " +:+ message)) w.

(** [self._append_log(message)]; the log widget exists once the window is
    built. *)
Definition _append_log (message : string) (w : world) : world :=
  put (AppendLog message) w.

Definition append_logs (messages : list string) (w : world) : world :=
  fold_left (fun w m => _append_log m w) messages w.

(** One more reading of the clock, of the stop event. *)
Definition tick (w : world) : world :=
  World (w_fs w) (w_queue w) (w_calls w) (S (w_clock w)) (w_stops w) (w_thread w).
Definition poll (w : world) : world :=
  World (w_fs w) (w_queue w) (w_calls w) (w_clock w) (S (w_stops w)) (w_thread w).

(** [time.time()]. *)
Definition now (O : oracles) (w : world) : Q * world :=
  (time_time O (w_clock w), tick w).

(** [self.stop_event.is_set()]. *)
Definition is_set (O : oracles) (w : world) : bool * world :=
  (stop_is_set O (w_stops w), poll w).

(** [self.preprocessing_thread = None]. *)
Definition clear_thread (w : world) : world :=
  World (w_fs w) (w_queue w) (w_calls w) (w_clock w) (w_stops w) None.

Definition record_call (cwd : string) (command : list string) (w : world) : world :=
  World (w_fs w) (w_queue w) (w_calls w ++ [(cwd, command)]) (w_clock w) (w_stops w) (w_thread w).

(** ** The index writer: [create_wav_jsonl] (the same in both revisions) *)

Module Writer.
Section Writer.

Variable O : oracles.

(** The progress callback acts on the caller's state. *)
Context {S : Type}.
Definition callback := option (nat -> nat -> string -> S -> S).

Definition call (cb : callback) (current total : nat) (message : string) (s : S) : S :=
  match cb with
  | Some f => f current total message s
  | None => s
  end.

(** [f.lower().endswith('.wav')]. *)
Definition is_wav (f : string) : bool := Py.endswith (Py.lower_ascii f) ".wav".

(** The loop over [enumerate(wav_filenames)], from index [i]: the text
    written so far, the count and the caller's state. *)
Fixpoint write_loop (cb : callback) (target_dir : string) (total_wavs : nat)
    (i : nat) (wav_filenames : list string)
    (text : string) (count : nat) (s : S) : string * nat * S :=
  match wav_filenames with
  | [] => (text, count, s)
  | wav_file :: rest =>
      let '(text, count) :=
        match manifest_line O (Path.join target_dir wav_file) with
        | Ok line => (text +:+ line +:+ String "010"%char EmptyString, count + 1)
        | Raise _ => (text, count)
        end in
      let s :=
        if (i + 1) mod 100 =? 0
        then call cb (i + 1) total_wavs
               ("Writing paths.jsonl (" +:+ Py.str_of_nat (i + 1) +:+ "/"
                +:+ Py.str_of_nat total_wavs +:+ ")...") s
        else s in
      write_loop cb target_dir total_wavs (i + 1) rest text count s
  end.

(** [create_wav_jsonl(target_dir, output_filename, progress_callback)]: the
    count (or -1) with its message, the file system left behind and the
    caller's state after the callbacks. *)
Definition create_wav_jsonl (fs : gmap string node) (target_dir output_filename : string)
    (cb : callback) (s : S) : (Z * string) * gmap string node * S :=
  match FS.listdir fs target_dir with
  | Raise e =>
      ((-1, (if is_OSError (exn_cls e) then "OSError listing files in "
             else "Unexpected error listing files in ")
            +:+ target_dir +:+ ": " +:+ exn_msg e)%Z, fs, s)
  | Ok all_files =>
      let wav_filenames := List.filter is_wav all_files in
      let total_wavs := length wav_filenames in
      let output_path := Path.join target_dir output_filename in
      let s := call cb 0 total_wavs
                 ("Scanning " +:+ Py.str_of_nat total_wavs +:+ " WAVs...") s in
      let '(text, count, s') :=
        write_loop cb target_dir total_wavs 0 wav_filenames EmptyString 0 s in
      match FS.write fs output_path text with
      | Raise e =>
          (* open() failed: nothing of the loop has run *)
          ((-1, (if is_OSError (exn_cls e)
                 then "OSError creating " +:+ output_filename +:+ " in "
                      +:+ target_dir +:+ ": " +:+ exn_msg e
                 else "Unexpected error creating " +:+ output_filename +:+ " in "
                      +:+ target_dir +:+ ": " +:+ exn_msg e
                      +:+ String "010"%char (format_exc O e)))%Z, fs, s)
      | Ok fs' =>
          let s' := call cb count total_wavs
                      ("Finished paths.jsonl (" +:+ Py.str_of_nat count +:+ "/"
                       +:+ Py.str_of_nat total_wavs +:+ ").") s' in
          ((Z.of_nat count,
            "Created " +:+ output_filename +:+ " with " +:+ Py.str_of_nat count
            +:+ " WAV entries."), fs', s')
      end
  end.

End Writer.
End Writer.

(** ** [list.sort] *)

(** [list.sort(key=..., reverse=...)] is stable, compares keys with [<]
    only, and with [reverse=True] keeps the original order of elements with
    equal keys (the list is reversed, sorted and reversed back).  On keys
    that [<] orders as a total preorder every stable sort returns the same
    list; the model is the insertion sort. *)
Module PySort.
Section PySort.

Context {A K : Type}.
Variable key : A -> K.
Variable lt : K -> K -> bool.

Fixpoint insert (x : A) (l : list A) : list A :=
  match l with
  | [] => [x]
  | y :: l' => if lt (key y) (key x) then y :: insert x l' else x :: l
  end.

Definition sort_asc (l : list A) : list A := fold_right insert [] l.

Definition sort (reverse : bool) (l : list A) : list A :=
  if reverse then List.rev (sort_asc (List.rev l)) else sort_asc l.

(** [x] may stand before [y] in ascending, in descending order. *)
Definition asc (x y : A) : Prop := lt (key y) (key x) = false.
Definition desc (x y : A) : Prop := lt (key x) (key y) = false.

(** Equal keys: neither is less than the other. *)
Definition keq (a b : K) : bool := negb (lt a b) && negb (lt b a).

End PySort.
End PySort.

(** ** The counters of one orchestrator run *)

Record counters := Counters {
  processed_count : nat;          (* audio-aes ran successfully *)
  error_count : nat;              (* paths.jsonl or audio-aes failed *)
  skipped_no_wav_count : nat;     (* no WAV files found *)
  skipped_existing_count : nat    (* scores.jsonl exists and overwrite is off *)
}.

Definition counters0 : counters := Counters 0 0 0 0.

(** The subdirectories of the base directory, in the order the orchestrator
    processes them: [sort()] of the names that are directories. *)
Definition find_subdirs (fs : gmap string node) (base_dir : string)
  : result (list string) :=
  match FS.listdir fs base_dir with
  | Raise e => Raise e
  | Ok names =>
      Ok (PySort.sort (fun d => d) String.ltb false
            (List.filter (fun d => FS.isdir fs (Path.join base_dir d)) names))
  end.

Definition nl : string := String "010"%char EmptyString.

Definition progress_prefix (i total_dirs : nat) (subdir_name : string) : string :=
  "(" +:+ Py.str_of_nat (i + 1) +:+ "/" +:+ Py.str_of_nat total_dirs +:+ ") "
  +:+ subdir_name +:+ ":".

(** ** The current revision: [AudioREV.py] *)

Module Current.
Section Current.

Variable O : oracles.

(** The [except] clauses of [run_audio_aes] other than the one for
    [CalledProcessError], in their order. *)
Definition on_exception (audio_aes_command output_path : string) (e : exn) : bool * string :=
  match exn_cls e with
  | FileNotFoundError =>
      (false, "Error: Command '" +:+ audio_aes_command
              +:+ "' not found. Make sure it's installed and in your system PATH.")
  | c =>
      if is_OSError c then
        (false, "OSError during command execution or writing output "
                +:+ output_path +:+ ": " +:+ exn_msg e)
      else
        (false, "Unexpected error running " +:+ audio_aes_command +:+ ": "
                +:+ exn_msg e +:+ nl +:+ format_exc O e)
  end.

(** The clause for [CalledProcessError]. *)
Definition on_called_process_error (audio_aes_command : string)
    (returncode : Z) (stdout stderr : string) : bool * string :=
  (false,
   "Error running " +:+ audio_aes_command +:+ ". Exit code: " +:+ Py.str_of_Z returncode
   +:+ (if Py.nonempty stderr then nl +:+ "Stderr:" +:+ nl +:+ Py.strip stderr
        else EmptyString)
   +:+ (if Py.nonempty stdout then nl +:+ "Stdout:" +:+ nl +:+ Py.strip stdout
        else EmptyString)).

(** [run_audio_aes(target_dir, audio_aes_command, input_jsonl, output_jsonl,
    batch_size)].  [os.path.getsize] is called outside the [try]. *)
Definition run_audio_aes (w : world) (target_dir audio_aes_command
    input_jsonl output_jsonl : string) (batch_size : Z)
  : result (bool * string) * world :=
  let input_path := Path.join target_dir input_jsonl in
  let output_path := Path.join target_dir output_jsonl in
  if negb (FS.exists_ (w_fs w) input_path)
  then (Ok (false, "Input file not found: " +:+ input_path), w)
  else
    match FS.getsize (w_fs w) input_path with
    | Raise e => (Raise e, w)
    | Ok size =>
        if size =? 0
        then (Ok (false, "Input file is empty: " +:+ input_path), w)
        else
          let command :=
            [audio_aes_command; input_jsonl; "--batch-size"; Py.str_of_Z batch_size] in
          let w := record_call target_dir command w in
          match subprocess_run O (w_fs w) command target_dir with
          | SpawnFailed e => (Ok (on_exception audio_aes_command output_path e), w)
          | Exited returncode stdout stderr =>
              if (returncode =? 0)%Z then
                match FS.write (w_fs w) output_path stdout with
                | Raise e => (Ok (on_exception audio_aes_command output_path e), w)
                | Ok fs' =>
                    (Ok (true,
                         "Successfully created " +:+ output_jsonl +:+ "."
                         +:+ (if Py.nonempty stderr
                              then nl +:+ "  Command stderr output:" +:+ nl
                                   +:+ Py.strip stderr
                              else EmptyString)),
                     set_fs w fs')
                end
              else
                (Ok (on_called_process_error audio_aes_command returncode stdout stderr), w)
          end
    end.

(** [progress_reporter] of one iteration. *)
Definition progress_reporter (prefix : string)
    (current total : nat) (message : string) (w : world) : world :=
  put (PreprocessStatus current total (prefix +:+ " " +:+ message)) w.

(** How one iteration of the loop over the subdirectories ends. *)
Inductive verdict :=
| SKIPPED_EXISTING
| SKIPPED_NO_MEDIA
| ERROR
| PROCESSED
| UNCAUGHT (e : exn).       (* an exception leaves [_perform_preprocessing] *)

Definition count (v : verdict) (c : counters) : counters :=
  match v with
  | SKIPPED_EXISTING =>
      Counters (processed_count c) (error_count c) (skipped_no_wav_count c)
        (skipped_existing_count c + 1)
  | SKIPPED_NO_MEDIA =>
      Counters (processed_count c) (error_count c) (skipped_no_wav_count c + 1)
        (skipped_existing_count c)
  | ERROR =>
      Counters (processed_count c) (error_count c + 1) (skipped_no_wav_count c)
        (skipped_existing_count c)
  | PROCESSED =>
      Counters (processed_count c + 1) (error_count c) (skipped_no_wav_count c)
        (skipped_existing_count c)
  | UNCAUGHT _ => c
  end.

(** The body of [for i, subdir_name in enumerate(subdirs_found)]. *)
Definition process_subdir (base_dir audio_aes_cmd : string) (batch_size : Z)
    (overwrite_existing : bool) (total_dirs : nat)
    (w : world) (i : nat) (subdir_name : string) : verdict * world :=
  let current_subdir_path := Path.join base_dir subdir_name in
  let prefix := progress_prefix i total_dirs subdir_name in
  let w := _update_status (prefix +:+ " Starting...") w in
  let w := _append_log (nl +:+ "--- " +:+ prefix +:+ " ---") w in
  let scores_jsonl_path := Path.join current_subdir_path SCORES_FILENAME in
  if negb overwrite_existing && FS.exists_ (w_fs w) scores_jsonl_path then
    let w := _append_log ("  Skipping: " +:+ SCORES_FILENAME
                          +:+ " already exists and overwrite is OFF.") w in
    (SKIPPED_EXISTING, w)
  else
    let '((num_wavs, paths_msg), fs', w) :=
      Writer.create_wav_jsonl O (w_fs w) current_subdir_path PATHS_FILENAME
        (Some (progress_reporter prefix)) w in
    let w := set_fs w fs' in
    let w := _append_log ("  1. Create " +:+ PATHS_FILENAME +:+ ": " +:+ paths_msg) w in
    if (num_wavs <? 0)%Z then
      let w := _append_log ("  ERROR: Failed to create " +:+ PATHS_FILENAME
                            +:+ ". Skipping audio-aes.") w in
      (ERROR, w)
    else if (num_wavs =? 0)%Z then
      let w := _append_log
                 "  Skipping audio-aes: No WAV files found in this directory." w in
      (SKIPPED_NO_MEDIA, w)
    else
      let w := _append_log ("  2. Running " +:+ audio_aes_cmd +:+ "...") w in
      let w := _update_status (prefix +:+ " Running audio-aes command...") w in
      let '(run_start_time, w) := now O w in
      match run_audio_aes w current_subdir_path audio_aes_cmd
              PATHS_FILENAME SCORES_FILENAME batch_size with
      | (Raise e, w) => (UNCAUGHT e, w)
      | (Ok (success, aes_msg), w) =>
          let '(t, w) := now O w in
          let run_time := (t - run_start_time)%Q in
          let w := _append_log ("     Command finished in " +:+ fmt_2f O run_time
                                +:+ "s.") w in
          let w := _append_log ("     Result: "
                                +:+ (if success then "Success" else "FAILURE")) w in
          let w := append_logs
                     (List.map (fun line => "       " +:+ line) (Py.splitlines aes_msg)) w in
          (if success then PROCESSED else ERROR, w)
      end.

(** The loop, with the counters; it ends early only on an uncaught
    exception. *)
Fixpoint process_all (base_dir audio_aes_cmd : string) (batch_size : Z)
    (overwrite_existing : bool) (total_dirs : nat)
    (i : nat) (subdirs : list string) (c : counters) (w : world)
  : option exn * counters * world :=
  match subdirs with
  | [] => (None, c, w)
  | subdir_name :: rest =>
      match process_subdir base_dir audio_aes_cmd batch_size overwrite_existing
              total_dirs w i subdir_name with
      | (UNCAUGHT e, w) => (Some e, c, w)
      | (v, w) =>
          process_all base_dir audio_aes_cmd batch_size overwrite_existing
            total_dirs (i + 1) rest (count v c) w
      end
  end.

(** [summary_lines]. *)
Definition summary_lines (total_time : Q) (base_dir : string) (total_dirs : nat)
    (c : counters) : list string :=
  [ nl +:+ "--- Preprocessing Job Summary ---";
    "Total Time: " +:+ fmt_2f O total_time +:+ " seconds";
    "Base Directory: " +:+ base_dir;
    "Subdirectories Scanned: " +:+ Py.str_of_nat total_dirs;
    "Successfully Processed (audio-aes): " +:+ Py.str_of_nat (processed_count c);
    "Errors Encountered: " +:+ Py.str_of_nat (error_count c);
    "Skipped (No WAV files): " +:+ Py.str_of_nat (skipped_no_wav_count c);
    "Skipped (scores.jsonl existed, overwrite OFF): "
      +:+ Py.str_of_nat (skipped_existing_count c);
    "---------------------------------" ].

(** How a run of [_perform_preprocessing] ends. *)
Inductive ending :=
| ListingFailed            (* the subdirectories could not be listed *)
| NothingToDo              (* no subdirectories *)
| Summarised (c : counters)
| Died (e : exn).          (* an uncaught exception ended the thread *)

(** [self._perform_preprocessing(base_dir, audio_aes_cmd, batch_size,
    overwrite_existing)]. *)
Definition _perform_preprocessing (w : world) (base_dir audio_aes_cmd : string)
    (batch_size : Z) (overwrite_existing : bool) : ending * world :=
  let '(start_time, w) := now O w in
  match find_subdirs (w_fs w) base_dir with
  | Raise e =>
      if is_OSError (exn_cls e) then
        let w := _append_log ("FATAL ERROR: Could not list directories in "
                              +:+ base_dir +:+ ": " +:+ exn_msg e) w in
        let w := _update_status "Preprocessing failed: Could not list subdirectories." w in
        let w := put (ShowError "Preprocessing Error"
                        ("Could not list subdirectories in " +:+ base_dir +:+ ":"
                         +:+ nl +:+ exn_msg e)) w in
        (ListingFailed, w)
      else (Died e, w)
  | Ok [] =>
      let w := _append_log
                 "No subdirectories found to process in the selected base directory." w in
      let w := _update_status "Preprocessing finished: No subdirectories found." w in
      (NothingToDo, w)
  | Ok subdirs_found =>
      let total_dirs := length subdirs_found in
      let w := _append_log ("Found " +:+ Py.str_of_nat total_dirs
                            +:+ " subdirectories. Starting processing...") w in
      match process_all base_dir audio_aes_cmd batch_size overwrite_existing
              total_dirs 0 subdirs_found counters0 w with
      | (Some e, _, w) => (Died e, w)
      | (None, c, w) =>
          let '(t, w) := now O w in
          let total_time := (t - start_time)%Q in
          let lines := summary_lines total_time base_dir total_dirs c in
          let summary_msg := Py.join nl lines in
          let flat_summary := Py.join " | " (Py.split "010"%char summary_msg) in
          let w := _update_status ("Preprocessing finished. " +:+ flat_summary) w in
          let w := append_logs lines w in
          let w := put (ShowInfo "Preprocessing Complete"
                          (summary_msg +:+ nl +:+ nl
                           +:+ "Please reload the data if needed to see the results.")) w in
          (Summarised c, w)
      end
  end.

End Current.
End Current.

(** ** The older revision: [.old/AudioREV1_1.py] *)

Module V1_1.
Section V1_1.

Variable O : oracles.

(** The outer [except] clauses of [run_audio_aes] other than the one for
    [CalledProcessError]. *)
Definition on_exception (audio_aes_command output_path : string) (e : exn) : bool * string :=
  match exn_cls e with
  | FileNotFoundError =>
      (false, "ERROR: Command '" +:+ audio_aes_command
              +:+ "' not found. Make sure it's installed and in your system PATH.")
  | c =>
      if is_OSError c then
        (false, "ERROR: OSError during command execution or writing output "
                +:+ output_path +:+ ": " +:+ exn_msg e)
      else
        (false, "ERROR: Unexpected error running " +:+ audio_aes_command +:+ ": "
                +:+ exn_msg e +:+ nl +:+ format_exc O e)
  end.

Definition on_called_process_error (returncode : Z) (stdout stderr : string)
  : bool * string :=
  (false,
   "ERROR running command. Exit code: " +:+ Py.str_of_Z returncode
   +:+ (if Py.nonempty stderr
        then nl +:+ "--- Command Standard Error ---" +:+ nl +:+ Py.strip stderr
        else EmptyString)
   +:+ (if Py.nonempty stdout
        then nl +:+ "--- Command Standard Output (before error) ---" +:+ nl
             +:+ Py.strip stdout
        else EmptyString)).

(** The inner [except OSError] around the writing of the output file. *)
Definition on_write_error (e : exn) (stdout stderr : string) : bool * string :=
  (false,
   "Command seemed to succeed but failed to write scores.jsonl: " +:+ exn_msg e +:+ nl
   +:+ (if Py.nonempty stderr
        then "--- Command Stderr ---" +:+ nl +:+ Py.strip stderr +:+ nl
        else EmptyString)
   +:+ (if Py.nonempty stdout
        then "--- Command Stdout (Scores) ---" +:+ nl +:+ Py.strip stdout
        else EmptyString)).

(** [run_audio_aes] of revision 1.1: the size check and the writing of the
    output have handlers of their own. *)
Definition run_audio_aes (w : world) (target_dir audio_aes_command
    input_jsonl output_jsonl : string) (batch_size : Z)
  : (bool * string) * world :=
  let input_path := Path.join target_dir input_jsonl in
  let output_path := Path.join target_dir output_jsonl in
  if negb (FS.exists_ (w_fs w) input_path)
  then ((false, "Input file not found: " +:+ input_path), w)
  else
    match FS.getsize (w_fs w) input_path with
    | Raise e =>
        ((false, "Error checking input file size " +:+ input_path +:+ ": "
                 +:+ exn_msg e), w)
    | Ok size =>
        if size =? 0
        then ((false, "Input file is empty: " +:+ input_path), w)
        else
          let command :=
            [audio_aes_command; input_jsonl; "--batch-size"; Py.str_of_Z batch_size] in
          let w := record_call target_dir command w in
          match subprocess_run O (w_fs w) command target_dir with
          | SpawnFailed e => (on_exception audio_aes_command output_path e, w)
          | Exited returncode stdout stderr =>
              if (returncode =? 0)%Z then
                match FS.write (w_fs w) output_path stdout with
                | Raise e => (on_write_error e stdout stderr, w)
                | Ok fs' =>
                    ((true,
                      "Command executed successfully. Output written to "
                      +:+ output_jsonl +:+ "."
                      +:+ (if Py.nonempty stderr
                           then nl +:+ "--- Command Standard Error ---" +:+ nl
                                +:+ Py.strip stderr
                           else EmptyString)
                      +:+ (if Py.nonempty stdout
                           then nl +:+ "--- Command Standard Output ---" +:+ nl
                                +:+ Py.strip stdout
                           else EmptyString)),
                     set_fs w fs')
                end
              else (on_called_process_error returncode stdout stderr, w)
          end
    end.

(** [progress_reporter]: nothing is queued once a stop is requested. *)
Definition progress_reporter (prefix : string)
    (current total : nat) (message : string) (w : world) : world :=
  let '(stop, w) := is_set O w in
  if stop then w
  else put (PreprocessStatus current total (prefix +:+ " " +:+ message)) w.

(** How one iteration ends: the state of the subdirectory, if it reached
    one, and whether the loop goes on ([continue], or the end of the body)
    or stops ([break]). *)
Inductive verdict :=
| SKIPPED_EXISTING
| SKIPPED_NO_MEDIA
| ERROR
| PROCESSED
| PENDING.                   (* left before any counter changed *)

Definition count (v : verdict) (c : counters) : counters :=
  match v with
  | SKIPPED_EXISTING =>
      Counters (processed_count c) (error_count c) (skipped_no_wav_count c)
        (skipped_existing_count c + 1)
  | SKIPPED_NO_MEDIA =>
      Counters (processed_count c) (error_count c) (skipped_no_wav_count c + 1)
        (skipped_existing_count c)
  | ERROR =>
      Counters (processed_count c) (error_count c + 1) (skipped_no_wav_count c)
        (skipped_existing_count c)
  | PROCESSED =>
      Counters (processed_count c + 1) (error_count c) (skipped_no_wav_count c)
        (skipped_existing_count c)
  | PENDING => c
  end.

(** A check of the stop event that logs and breaks when it is set. *)
Definition stop_check (message : string) (w : world) : bool * world :=
  let '(stop, w) := is_set O w in
  if stop then (true, _append_log message w) else (false, w).

(** The body of the loop; the boolean says that the loop was left by
    [break]. *)
Definition process_subdir (base_dir audio_aes_cmd : string) (batch_size : Z)
    (overwrite_existing : bool) (total_dirs : nat)
    (w : world) (i : nat) (subdir_name : string) : verdict * bool * world :=
  match stop_check ("Stop requested. Halting preprocessing before processing '"
                    +:+ subdir_name +:+ "'.") w with
  | (true, w) => (PENDING, true, w)
  | (false, w) =>
  let current_subdir_path := Path.join base_dir subdir_name in
  let prefix := progress_prefix i total_dirs subdir_name in
  let w := _update_status (prefix +:+ " Starting...") w in
  let w := _append_log (nl +:+ "--- " +:+ prefix +:+ " ---") w in
  let scores_jsonl_path := Path.join current_subdir_path SCORES_FILENAME in
  if negb overwrite_existing && FS.exists_ (w_fs w) scores_jsonl_path then
    let w := _append_log ("  Skipping: " +:+ SCORES_FILENAME
                          +:+ " already exists and overwrite is OFF.") w in
    (SKIPPED_EXISTING, false, w)
  else
  match stop_check ("Stop requested detected before paths.jsonl creation for '"
                    +:+ subdir_name +:+ "'. Halting.") w with
  | (true, w) => (PENDING, true, w)
  | (false, w) =>
  let '((num_wavs, paths_msg), fs', w) :=
    Writer.create_wav_jsonl O (w_fs w) current_subdir_path PATHS_FILENAME
      (Some (progress_reporter prefix)) w in
  let w := set_fs w fs' in
  let w := _append_log ("  1. Create " +:+ PATHS_FILENAME +:+ ": " +:+ paths_msg) w in
  if (num_wavs <? 0)%Z then
    let w := _append_log ("  ERROR: Failed to create " +:+ PATHS_FILENAME
                          +:+ ". Skipping audio-aes.") w in
    let '(stop, w) :=
      stop_check ("Stop requested detected after paths.jsonl error for '"
                  +:+ subdir_name +:+ "'. Halting.") w in
    (ERROR, stop, w)
  else if (num_wavs =? 0)%Z then
    let w := _append_log "  Skipping audio-aes: No WAV files found." w in
    let '(stop, w) :=
      stop_check ("Stop requested detected after paths.jsonl check for '"
                  +:+ subdir_name +:+ "'. Halting.") w in
    (SKIPPED_NO_MEDIA, stop, w)
  else
  match stop_check ("Stop requested just before running audio-aes for '"
                    +:+ subdir_name +:+ "'. Halting.") w with
  | (true, w) => (PENDING, true, w)
  | (false, w) =>
  let w := _append_log ("  2. Running " +:+ audio_aes_cmd +:+ "...") w in
  let w := _update_status (prefix +:+ " Running audio-aes command...") w in
  let '(run_start_time, w) := now O w in
  let '((success, detailed_message), w) :=
    run_audio_aes w current_subdir_path audio_aes_cmd
      PATHS_FILENAME SCORES_FILENAME batch_size in
  let '(t, w) := now O w in
  let run_time := (t - run_start_time)%Q in
  let '(stop, w) := is_set O w in
  let status_suffix :=
    if stop then " (Stop was requested during run)" else EmptyString in
  let w :=
    if stop
    then _append_log ("     Stop requested during audio-aes run for '" +:+ subdir_name
                      +:+ "'. Processing loop will halt.") w
    else w in
  let w := _append_log ("     Command finished in " +:+ fmt_2f O run_time
                        +:+ "s. Result: " +:+ (if success then "Success" else "FAILURE")
                        +:+ status_suffix) w in
  let w :=
    if Py.nonempty detailed_message then
      append_logs (List.map (fun line => "       " +:+ line)
                     (Py.splitlines (Py.strip detailed_message))) w
    else if negb success then
      let '(stop, w) := is_set O w in
      if negb stop
      then _append_log "       Command failed with no detailed output message." w
      else w
    else w in
  let '(stop, w) := is_set O w in
  (if success then PROCESSED else ERROR, stop, w)
  end end end.

(** The loop with its counters; the boolean of [process_subdir] ends it. *)
Fixpoint process_all (base_dir audio_aes_cmd : string) (batch_size : Z)
    (overwrite_existing : bool) (total_dirs : nat)
    (i : nat) (subdirs : list string) (c : counters) (w : world)
  : counters * world :=
  match subdirs with
  | [] => (c, w)
  | subdir_name :: rest =>
      match process_subdir base_dir audio_aes_cmd batch_size overwrite_existing
              total_dirs w i subdir_name with
      | (v, true, w) => (count v c, w)
      | (v, false, w) =>
          process_all base_dir audio_aes_cmd batch_size overwrite_existing
            total_dirs (i + 1) rest (count v c) w
      end
  end.

(** The completion state of a run, as the summary words it. *)
Inductive job_state := COMPLETED | HALTED.

Definition job_status (j : job_state) : string :=
  match j with
  | COMPLETED => "Completed normally"
  | HALTED => "Halted by user request"
  end.

Definition summary_lines (j : job_state) (total_time : Q) (base_dir : string)
    (total_dirs : nat) (c : counters) : list string :=
  [ nl +:+ "--- Preprocessing Job Summary (" +:+ job_status j +:+ ") ---";
    "Total Time: " +:+ fmt_2f O total_time +:+ " seconds";
    "Base Directory: " +:+ base_dir;
    "Subdirectories Scanned: " +:+ Py.str_of_nat total_dirs;
    "Successfully Processed (audio-aes): " +:+ Py.str_of_nat (processed_count c);
    "Errors Encountered: " +:+ Py.str_of_nat (error_count c);
    "Skipped (No WAV files): " +:+ Py.str_of_nat (skipped_no_wav_count c);
    "Skipped (scores.jsonl existed, overwrite OFF): "
      +:+ Py.str_of_nat (skipped_existing_count c);
    "--------------------------------------------------" ].

Inductive ending :=
| ListingFailed
| NothingToDo
| Summarised (j : job_state) (c : counters)
| Died (e : exn).

(** [self._perform_preprocessing(...)] of revision 1.1. *)
Definition _perform_preprocessing (w : world) (base_dir audio_aes_cmd : string)
    (batch_size : Z) (overwrite_existing : bool) : ending * world :=
  let '(start_time, w) := now O w in
  match find_subdirs (w_fs w) base_dir with
  | Raise e =>
      if is_OSError (exn_cls e) then
        let w := _append_log ("FATAL ERROR: Could not list directories in "
                              +:+ base_dir +:+ ": " +:+ exn_msg e) w in
        let w := _update_status "Preprocessing failed: Could not list subdirectories." w in
        let w := put (ShowError "Preprocessing Error"
                        ("Could not list subdirectories in " +:+ base_dir +:+ ":"
                         +:+ nl +:+ exn_msg e)) w in
        (ListingFailed, clear_thread w)
      else (Died e, w)
  | Ok [] =>
      let w := _append_log
                 "No subdirectories found to process in the selected base directory." w in
      let w := _update_status "Preprocessing finished: No subdirectories found." w in
      (NothingToDo, clear_thread w)
  | Ok subdirs_found =>
      let total_dirs := length subdirs_found in
      let w := _append_log ("Found " +:+ Py.str_of_nat total_dirs
                            +:+ " subdirectories. Starting processing...") w in
      let '(c, w) :=
        process_all base_dir audio_aes_cmd batch_size overwrite_existing
          total_dirs 0 subdirs_found counters0 w in
      let '(t, w) := now O w in
      let total_time := (t - start_time)%Q in
      let '(stop, w) := is_set O w in
      let j := if stop then HALTED else COMPLETED in
      let lines := summary_lines j total_time base_dir total_dirs c in
      let summary_msg := Py.join nl lines in
      let flat_summary := Py.join " | " (Py.split "010"%char summary_msg) in
      let w := _update_status ("Preprocessing " +:+ Py.lower_ascii (job_status j) +:+ ". "
                               +:+ flat_summary) w in
      let w := append_logs lines w in
      let w := put (ShowInfo ("Preprocessing " +:+ job_status j)
                      (summary_msg +:+ nl +:+ nl
                       +:+ "Please reload the data if needed.")) w in
      (Summarised j c, clear_thread w)
  end.

End V1_1.
End V1_1.

(** ** The column sort: [sort_column] (the same in both revisions) *)

(** [a < b] and [a <= b] on floats: false when one of the two is NaN. *)
Definition pyfloat_ltb (a b : pyfloat) : bool :=
  match a, b with
  | NaN, _ | _, NaN => false
  | NegInf, NegInf => false
  | NegInf, _ => true
  | Fin x, Fin y => negb (Qle_bool y x)
  | Fin _, PosInf => true
  | _, _ => false
  end.

Definition pyfloat_leb (a b : pyfloat) : bool :=
  match a, b with
  | NaN, _ | _, NaN => false
  | NegInf, _ => true
  | _, PosInf => true
  | Fin x, Fin y => Qle_bool x y
  | _, _ => false
  end.

Definition is_nan (a : pyfloat) : bool :=
  match a with NaN => true | _ => false end.

(** [a < b] on strings: by character codes. *)
Definition str_ltb (a b : string) : bool := negb (String.leb b a).

(** The six column headings of the table; each calls [sort_column] with its
    key and, for the four scores, [is_numeric=True]. *)
Inductive column := ColFilename | ColCE | ColCU | ColPC | ColPQ | ColPath.

Definition col_key (c : column) : string :=
  match c with
  | ColFilename => "filename" | ColCE => "CE" | ColCU => "CU"
  | ColPC => "PC" | ColPQ => "PQ" | ColPath => "path"
  end.

Definition is_numeric (c : column) : bool :=
  match c with ColFilename | ColPath => false | _ => true end.

Definition column_eqb (a b : column) : bool := String.eqb (col_key a) (col_key b).

(** [item.get(col_key)] on a loaded entry. *)
Definition item_get (item : entry) (c : column) : pyval :=
  match c with
  | ColFilename => Some (JStr (filename item))
  | ColPath => Some (JStr (path item))
  | ColCE => CE item
  | ColCU => CU item
  | ColPC => PC item
  | ColPQ => PQ item
  end.

(** The part of the application object that sorting reads and writes. *)
Record view := View {
  display_audio_data : list entry;
  current_sort_column : option column;
  current_sort_reverse : bool
}.

(** What [list.sort] leaves of a list when one of the keys is NaN: [<] does
    not order such keys, the result depends on the steps of the algorithm,
    and Python promises no more than that the list is rearranged.  The
    arguments are the keys, the direction and the list. *)
Record nan_sort := NanSort {
  rearranged : list pyfloat -> bool -> list entry -> list entry;
  rearranged_perm :
    forall keys reverse l, Permutation (rearranged keys reverse l) l
}.

(** How [float(val)] ends. *)
Inductive conversion :=
| Converted (x : pyfloat)
| NotNumeric             (* [ValueError] or [TypeError] *)
| TooLarge.              (* [OverflowError] *)

Module Sorter.
Section Sorter.

(** [float(s)] on a string: [None] stands for [ValueError]. *)
Variable str_float : string -> option pyfloat.
(** The lower case of a string, for [str.lower]. *)
Variable str_lower : string -> string.
Variable unordered : nan_sort.

(** [float(val)]. *)
Definition py_float (val : json) : conversion :=
  match val with
  | JNum x => Converted x
  | JInt z =>
      match float_of_int z with
      | Some x => Converted x
      | None => TooLarge
      end
  | JBool b => Converted (Fin (if b then 1 else 0))
  | JStr s =>
      match str_float s with
      | Some x => Converted x
      | None => NotNumeric
      end
  | JNull | JArr _ | JObj _ => NotNumeric
  end.

(** The [OverflowError] of [float] on an [int]. *)
Definition int_too_large : exn :=
  Exn OverflowError "int too large to convert to float".

(** The value that stands for a missing one. *)
Definition sentinel (reverse : bool) : pyfloat :=
  if reverse then NegInf else PosInf.

(** [sort_key] on a score column ([is_numeric=True]): the clause
    [except (ValueError, TypeError)] does not catch the [OverflowError]. *)
Definition sort_key_numeric (c : column) (reverse : bool) (item : entry)
  : result pyfloat :=
  match item_get item c with
  | None => Ok (sentinel reverse)
  | Some val =>
      match py_float val with
      | Converted x => Ok x
      | NotNumeric => Ok (sentinel reverse)
      | TooLarge => Raise int_too_large
      end
  end.

(** [sort_key] on the file name and path columns, whose values are strings:
    [str(val).lower()]. *)
Definition sort_key_text (c : column) (item : entry) : string :=
  match item_get item c with
  | Some (JStr s) => Py.unicode_lower str_lower s
  | _ => EmptyString
  end.

(** [list.sort] calls [sort_key] on every item, in the order of the list,
    before it compares or moves anything: the keys, or the first exception. *)
Fixpoint keys (c : column) (reverse : bool) (l : list entry) : result (list pyfloat) :=
  match l with
  | [] => Ok []
  | item :: rest =>
      match sort_key_numeric c reverse item with
      | Raise e => Raise e
      | Ok k =>
          match keys c reverse rest with
          | Raise e => Raise e
          | Ok ks => Ok (k :: ks)
          end
      end
  end.

(** The key of an item of a list whose keys were all computed. *)
Definition key_of (c : column) (reverse : bool) (item : entry) : pyfloat :=
  match sort_key_numeric c reverse item with
  | Ok k => k
  | Raise _ => sentinel reverse
  end.

(** The direction [sort_column] chooses. *)
Definition next_reverse (v : view) (c : column) : bool :=
  match current_sort_column v with
  | Some c' => if column_eqb c' c then negb (current_sort_reverse v) else false
  | None => false
  end.

(** [self.display_audio_data.sort(key=sort_key, reverse=reverse)]: the
    sorted list, or the exception of a key, which leaves the list as it
    was. *)
Definition sorted_by (c : column) (reverse : bool) (l : list entry)
  : result (list entry) :=
  if is_numeric c then
    match keys c reverse l with
    | Raise e => Raise e
    | Ok ks =>
        if existsb is_nan ks then Ok (rearranged unordered ks reverse l)
        else Ok (PySort.sort (key_of c reverse) pyfloat_ltb reverse l)
    end
  else Ok (PySort.sort (sort_key_text c) str_ltb reverse l).

(** What [self.sort_column(col_key, is_numeric)] does to the list, the
    column and the direction; the exception is the one its clause
    [except Exception] handles, with the three as they were.  (The status
    texts, the table and the dialog are in [Viewer.sort_column].) *)
Definition sort_column (v : view) (c : column) : view * option exn :=
  match display_audio_data v with
  | [] => (v, None)
  | _ =>
      let reverse := next_reverse v c in
      match sorted_by c reverse (display_audio_data v) with
      | Ok l => (View l (Some c) reverse, None)
      | Raise e => (v, Some e)
      end
  end.

End Sorter.
End Sorter.

(** ** Starting a run: [run_preprocessing_thread] *)

(** The values the options dialog hands over when it is confirmed. *)
Record options := Options {
  aes_cmd : string;
  batch_size : Z;
  overwrite : bool
}.

(** What happens to the application between two GUI callbacks: the button
    "Preprocess Options..." is pressed (the base directory being valid or
    not, the modal dialog being confirmed with validated options or
    closed), the body of a worker returns, a worker thread ends. *)
Inductive gui_event :=
| ClickPreprocess (base_dir_valid : bool) (dialog : option options)
| BodyReturns (tid : nat)
| ThreadEnds (tid : nat).

(** The threads of the application object.  [g_running] are the workers
    inside [_perform_preprocessing], [g_ending] those that left it and are
    still alive. *)
Record gui := Gui {
  g_thread : option nat;       (* self.preprocessing_thread (1.1 only) *)
  g_running : list nat;
  g_ending : list nat;
  g_started : nat;             (* threads created so far *)
  g_out : list task            (* dialogs shown and tasks queued *)
}.

Definition gui0 : gui := Gui None [] [] 0 [].

Definition mem (t : nat) (l : list nat) : bool := existsb (Nat.eqb t) l.
Definition remove_id (t : nat) (l : list nat) : list nat :=
  List.filter (fun x => negb (Nat.eqb t x)) l.

(** [thread.is_alive()]. *)
Definition is_alive (g : gui) (t : nat) : bool := mem t (g_running g) || mem t (g_ending g).

Definition start_messages (base_dir : string) (o : options) : list task :=
  [ StatusText "Status: Starting preprocessing job...";
    AppendLog "--- Starting New Preprocessing Job ---";
    AppendLog ("Base Directory: " +:+ base_dir);
    AppendLog ("Audio-AES Command: " +:+ aes_cmd o);
    AppendLog ("Batch Size: " +:+ Py.str_of_Z (batch_size o));
    AppendLog ("Overwrite Existing scores.jsonl: "
               +:+ (if overwrite o then "True" else "False"));
    AppendLog "--------------------------------------" ].

Definition invalid_directory : task :=
  ShowError "Invalid Directory"
    "Please select a valid base directory containing the subdirectories to process.".

Definition preprocessing_busy : task :=
  ShowWarning "Preprocessing Busy"
    "A preprocessing job is already running. Please wait for it to complete or close the application and restart if it's stuck.".

(** In revision 1.1 the workers inside [_perform_preprocessing] are none, or
    the one that [self.preprocessing_thread] refers to. *)
Inductive tracked : gui -> Prop :=
| tracked_idle g : g_running g = [] -> tracked g
| tracked_busy g t : g_running g = [t] -> g_thread g = Some t -> tracked g.

Module CurrentGui.

(** [run_preprocessing_thread] of [AudioREV.py]: the thread object is a
    local variable, nothing of it is kept. *)
Definition run_preprocessing_thread (base_dir : string) (g : gui)
    (base_dir_valid : bool) (dialog : option options) : gui :=
  if negb base_dir_valid then
    Gui (g_thread g) (g_running g) (g_ending g) (g_started g)
      (g_out g ++ [invalid_directory])
  else
    match dialog with
    | None =>
        Gui (g_thread g) (g_running g) (g_ending g) (g_started g)
          (g_out g ++ [StatusText "Status: Preprocessing cancelled by user."])
    | Some o =>
        Gui (g_thread g) (g_running g ++ [g_started g]) (g_ending g)
          (S (g_started g)) (g_out g ++ start_messages base_dir o)
    end.

Definition step (base_dir : string) (g : gui) (e : gui_event) : gui :=
  match e with
  | ClickPreprocess ok dialog => run_preprocessing_thread base_dir g ok dialog
  | BodyReturns t =>
      if mem t (g_running g)
      then Gui (g_thread g) (remove_id t (g_running g)) (g_ending g ++ [t])
             (g_started g) (g_out g)
      else g
  | ThreadEnds t =>
      Gui (g_thread g) (g_running g) (remove_id t (g_ending g)) (g_started g) (g_out g)
  end.

Definition run (base_dir : string) (events : list gui_event) : gui :=
  fold_left (step base_dir) events gui0.

End CurrentGui.

Module V1_1Gui.

(** [run_preprocessing_thread] of revision 1.1: the thread is kept in
    [self.preprocessing_thread] and a live one blocks a new start. *)
Definition run_preprocessing_thread (base_dir : string) (g : gui)
    (base_dir_valid : bool) (dialog : option options) : gui :=
  if negb base_dir_valid then
    Gui (g_thread g) (g_running g) (g_ending g) (g_started g)
      (g_out g ++ [invalid_directory])
  else if match g_thread g with Some t => is_alive g t | None => false end then
    Gui (g_thread g) (g_running g) (g_ending g) (g_started g)
      (g_out g ++ [preprocessing_busy])
  else
    match dialog with
    | None =>
        Gui (g_thread g) (g_running g) (g_ending g) (g_started g)
          (g_out g ++ [StatusText "Status: Preprocessing cancelled by user."])
    | Some o =>
        Gui (Some (g_started g)) (g_running g ++ [g_started g]) (g_ending g)
          (S (g_started g)) (g_out g ++ start_messages base_dir o)
    end.

(** The body of a worker ends with [self.preprocessing_thread = None]. *)
Definition step (base_dir : string) (g : gui) (e : gui_event) : gui :=
  match e with
  | ClickPreprocess ok dialog => run_preprocessing_thread base_dir g ok dialog
  | BodyReturns t =>
      if mem t (g_running g)
      then Gui None (remove_id t (g_running g)) (g_ending g ++ [t])
             (g_started g) (g_out g)
      else g
  | ThreadEnds t =>
      Gui (g_thread g) (g_running g) (remove_id t (g_ending g)) (g_started g) (g_out g)
  end.

Definition run (base_dir : string) (events : list gui_event) : gui :=
  fold_left (step base_dir) events gui0.

End V1_1Gui.

(** ** The reader, in the words of the specification *)

Module ReaderSpec.
Section ReaderSpec.

Variable json_loads : string -> option json.

(** The lines of a file that parse, in the words of the specification: the
    valid lines. *)
Definition valid_lines (lines : list string) : list string :=
  List.filter (fun line => match json_loads line with Some _ => true | None => false end)
    lines.

Definition parsed (lines : list string) : list json :=
  flat_map (fun line => match json_loads line with Some v => [v] | None => [] end) lines.

(** What one item of the listing adds to the list. *)
Definition contribution (fs : gmap string node) (base_dir item : string) : list entry :=
  all_data (Reader.load_item json_loads fs base_dir Reader.load_init item).

(** A manifest entry of the schema: an object whose "path", when present,
    is a string, or a value that counts as false (null, false, 0, an empty
    list or object) and is read as a missing path. *)
Definition manifest_entry_ok (p : json) : bool :=
  match p with
  | JObj items =>
      match assoc "path" items with
      | Some (JStr _) | None => true
      | Some v => negb (truthy (to_pyval v))
      end
  | _ => false
  end.

(** A score entry of the schema: an object. *)
Definition score_entry_ok (s : json) : bool :=
  match s with JObj _ => true | _ => false end.

Definition manifest_path (p : json) : string :=
  match p with
  | JObj items =>
      match assoc "path" items with Some (JStr s) => s | _ => EmptyString end
  | _ => EmptyString
  end.

(** The path of a paired entry is given and resolves to a regular file. *)
Definition path_is_regular_file (fs : gmap string node) (pair : json * json) : bool :=
  Py.nonempty (manifest_path pair.1)
  && FS.is_file fs (Path.str (manifest_path pair.1)).

Definition score_of (s : json) (k : string) : pyval :=
  match py_get s k with Ok v => v | Raise _ => None end.

(** The record of a paired entry. *)
Definition record_of (pair : json * json) : entry :=
  Entry (Path.name (manifest_path pair.1)) (Path.str (manifest_path pair.1))
    (score_of pair.2 "CE") (score_of pair.2 "CU")
    (score_of pair.2 "PC") (score_of pair.2 "PQ").

End ReaderSpec.
End ReaderSpec.

(** ** Example data *)

Module ReaderExamples.

(** The double quote. *)
Definition dq : string := String "034"%char EmptyString.

(** The manifest line of a path, as the index writer emits it. *)
Definition path_json (p : string) : string :=
  "{" +:+ dq +:+ "path" +:+ dq +:+ ": " +:+ dq +:+ p +:+ dq +:+ "}".
Definition path_line (p : string) : string := path_json p +:+ nl.

(** A line of scores with the keys CE and PQ, and a line that is not JSON. *)
Definition score_line : string :=
  "{" +:+ dq +:+ "CE" +:+ dq +:+ ": 5.5, " +:+ dq +:+ "PQ" +:+ dq +:+ ": 7}" +:+ nl.
Definition bad_line : string := "{not json" +:+ nl.

Definition scores_5_7 : json := JObj [("CE", JNum (Fin (11 # 2))); ("PQ", JInt 7)].

(** Two lines that are valid JSON and not of the schema: an array, and an
    object whose path is a number. *)
Definition array_line : string := "[]" +:+ nl.
Definition number_path_line : string :=
  "{" +:+ dq +:+ "path" +:+ dq +:+ ": 5}" +:+ nl.

(** [json.loads] on the lines of the example files. *)
Definition json_loads (line : string) : option json :=
  if String.eqb line (path_line "/data/A/x.wav") then Some (JObj [("path", JStr "/data/A/x.wav")])
  else if String.eqb line (path_line "/data/A/y.wav") then Some (JObj [("path", JStr "/data/A/y.wav")])
  else if String.eqb line (path_line "/data/B/z.wav") then Some (JObj [("path", JStr "/data/B/z.wav")])
  else if String.eqb line (path_line "/data/B/gone.wav") then Some (JObj [("path", JStr "/data/B/gone.wav")])
  else if String.eqb line (path_line "/data/C/v.wav") then Some (JObj [("path", JStr "/data/C/v.wav")])
  else if String.eqb line (path_line "/odd/M/m.wav") then Some (JObj [("path", JStr "/odd/M/m.wav")])
  else if String.eqb line (path_line "/odd/S/s.wav") then Some (JObj [("path", JStr "/odd/S/s.wav")])
  else if String.eqb line score_line then Some scores_5_7
  else if String.eqb line array_line then Some (JArr [])
  else if String.eqb line number_path_line then Some (JObj [("path", JInt 5)])
  else None.

(** A base directory with three subdirectories: in A the manifest has two
    lines and the scores file one; in B both have two lines and one of the
    media files is gone; in C the scores file has a line that is not JSON
    after its one valid line. *)
Definition data_fs : gmap string node :=
  list_to_map
    [ ("/data", Dir ["A"; "B"; "C"]);
      ("/data/A", Dir ["x.wav"; "y.wav"; "paths.jsonl"; "scores.jsonl"]);
      ("/data/A/x.wav", File "RIFF");
      ("/data/A/y.wav", File "RIFF");
      ("/data/A/paths.jsonl",
        File (path_line "/data/A/x.wav" +:+ path_line "/data/A/y.wav"));
      ("/data/A/scores.jsonl", File score_line);
      ("/data/B", Dir ["z.wav"; "paths.jsonl"; "scores.jsonl"]);
      ("/data/B/z.wav", File "RIFF");
      ("/data/B/paths.jsonl",
        File (path_line "/data/B/z.wav" +:+ path_line "/data/B/gone.wav"));
      ("/data/B/scores.jsonl", File (score_line +:+ score_line));
      ("/data/C", Dir ["v.wav"; "paths.jsonl"; "scores.jsonl"]);
      ("/data/C/v.wav", File "RIFF");
      ("/data/C/paths.jsonl", File (path_line "/data/C/v.wav"));
      ("/data/C/scores.jsonl", File (score_line +:+ bad_line)) ].

(** A base directory with two subdirectories whose files have the same
    number of valid lines, not all of the schema: in M the first manifest
    line gives a number as the path; in S the first scores line is an
    array.  The media files named by the other lines exist. *)
Definition odd_fs : gmap string node :=
  list_to_map
    [ ("/odd", Dir ["M"; "S"]);
      ("/odd/M", Dir ["m.wav"; "paths.jsonl"; "scores.jsonl"]);
      ("/odd/M/m.wav", File "RIFF");
      ("/odd/M/paths.jsonl", File (number_path_line +:+ path_line "/odd/M/m.wav"));
      ("/odd/M/scores.jsonl", File (score_line +:+ score_line));
      ("/odd/S", Dir ["s.wav"; "paths.jsonl"; "scores.jsonl"]);
      ("/odd/S/s.wav", File "RIFF");
      ("/odd/S/paths.jsonl", File (path_line "/odd/S/s.wav"));
      ("/odd/S/scores.jsonl", File array_line) ].

Definition score_5_7_entry (name p : string) : entry :=
  Entry name p (Some (JNum (Fin (11 # 2)))) None None (Some (JInt 7)).

End ReaderExamples.


(** ** The invoker, in the words of the specification *)

Module InvokerSpec.

(** The kinds of failure that [run_audio_aes] of [AudioREV.py] reports: one
    for each of the two checks of the input file, and one for each of its
    [except] clauses. *)
Inductive category :=
| INPUT_NOT_FOUND        (* not os.path.exists(input_path) *)
| INPUT_EMPTY            (* os.path.getsize(input_path) == 0 *)
| COMMAND_NOT_FOUND      (* except FileNotFoundError *)
| NON_ZERO_EXIT          (* except subprocess.CalledProcessError *)
| OS_ERROR               (* except OSError: "during command execution or
                            writing output" *)
| UNEXPECTED_ERROR.      (* except Exception *)

(** The category a reader of the message recognises, by the way the message
    starts. *)
Definition category_of (message : string) : option category :=
  if Py.startswith message "Input file not found: " then Some INPUT_NOT_FOUND
  else if Py.startswith message "Input file is empty: " then Some INPUT_EMPTY
  else if Py.startswith message "Error: Command '" then Some COMMAND_NOT_FOUND
  else if Py.startswith message "Error running " then Some NON_ZERO_EXIT
  else if Py.startswith message "OSError during command execution or writing output "
  then Some OS_ERROR
  else if Py.startswith message "Unexpected error running " then Some UNEXPECTED_ERROR
  else None.

(** The category of an exception that is not a [CalledProcessError], by its
    class. *)
Definition category_of_class (c : exn_class) : category :=
  match c with
  | FileNotFoundError => COMMAND_NOT_FOUND
  | _ => if is_OSError c then OS_ERROR else UNEXPECTED_ERROR
  end.

(** [sub in s]. *)
Definition contains (s sub : string) : Prop :=
  exists before after, s = before +:+ sub +:+ after.

End InvokerSpec.

Module JobExamples.

(** A subdirectory with one media file and its manifest, and one in which
    scores.jsonl is a directory. *)
Definition job_fs : gmap string node :=
  list_to_map
    [ ("/job", Dir ["A"; "B"]);
      ("/job/A", Dir ["a.wav"; "paths.jsonl"]);
      ("/job/A/a.wav", File "RIFF");
      ("/job/A/paths.jsonl", File (ReaderExamples.path_line "/job/A/a.wav"));
      ("/job/B", Dir ["b.wav"; "paths.jsonl"; "scores.jsonl"]);
      ("/job/B/b.wav", File "RIFF");
      ("/job/B/paths.jsonl", File (ReaderExamples.path_line "/job/B/b.wav"));
      ("/job/B/scores.jsonl", Dir []) ].

Definition job_world (fs : gmap string node) : world := World fs [] [] 0 0 None.

Definition two_decimals (q : Q) : string := "0.00".

(** An environment in which the command, by its name: is missing
    ("missing"), exits with status 2 ("failing"), may not be executed
    ("locked"), or prints one line of scores and a warning and exits with
    status 0 (any other name). *)
Definition job_oracles : oracles :=
  Oracles
    (fun p => Ok (ReaderExamples.path_json p))
    (fun fs command cwd =>
       match command with
       | "missing" :: _ =>
           SpawnFailed (Exn FileNotFoundError
                          "[Errno 2] No such file or directory: 'missing'")
       | "failing" :: _ => Exited 2 "partial" " model not loaded "
       | "locked" :: _ =>
           SpawnFailed (Exn PermissionError "[Errno 13] Permission denied: 'locked'")
       | _ => Exited 0 ReaderExamples.score_line "warning: slow"
       end)
    (fun e => "Traceback (most recent call last): ...")
    (fun n => inject_Z (Z.of_nat n))
    two_decimals
    (fun n => false).

End JobExamples.

(** ** The orchestrator, in the words of the specification *)

Module OrchestratorSpec.

(** The final summary is the one information dialog of a run. *)
Definition is_summary (t : task) : bool :=
  match t with ShowInfo _ _ => true | _ => false end.

(** How many summaries a queue holds. *)
Definition summaries (queue : list task) : nat :=
  length (List.filter is_summary queue).

(** [w'] is [w] after some work: tasks were queued, none of them a summary,
    and the clock was read. *)
Definition extends (w w' : world) : Prop :=
  exists added,
    w_queue w' = w_queue w ++ added
    /\ forallb (fun t => negb (is_summary t)) added = true
    /\ w_clock w <= w_clock w'.

(** [w'] has the files and the record of commands of [w]. *)
Definition untouched (w w' : world) : Prop :=
  w_fs w' = w_fs w /\ w_calls w' = w_calls w.

(** The sum of the four per-subdirectory counters. *)
Definition accounted (c : counters) : nat :=
  processed_count c + error_count c + skipped_no_wav_count c
  + skipped_existing_count c.

(** What the index writer reports for a directory: its count and message,
    whatever the progress callback. *)
Definition writer_count (O : oracles) (fs : gmap string node) (target_dir : string) : Z :=
  (Writer.create_wav_jsonl O fs target_dir PATHS_FILENAME (@None (nat -> nat -> string -> unit -> unit)) tt).1.1.1.

(** The subdirectory is past the check for an existing scores file. *)
Definition past_skip_check (fs : gmap string node) (base_dir subdir_name : string)
    (overwrite_existing : bool) : bool :=
  negb (negb overwrite_existing
        && FS.exists_ fs (Path.join (Path.join base_dir subdir_name) SCORES_FILENAME)).

End OrchestratorSpec.

Module RunExamples.

(** A base directory with the subdirectories A (one media file) and E (no
    media file, and an old manifest), and a base directory without
    subdirectories. *)
Definition run_fs : gmap string node :=
  list_to_map
    [ ("/run", Dir ["E"; "A"; "notes.txt"]);
      ("/run/notes.txt", File "todo");
      ("/run/A", Dir ["a.wav"]);
      ("/run/A/a.wav", File "RIFF");
      ("/run/E", Dir ["readme.txt"; "paths.jsonl"]);
      ("/run/E/readme.txt", File "nothing here");
      ("/run/E/paths.jsonl", File (ReaderExamples.path_line "/run/E/old.wav"));
      ("/flat", Dir ["notes.txt"]);
      ("/flat/notes.txt", File "todo") ].

(** A base directory whose one subdirectory E holds no media file and has a
    directory in the place of its manifest. *)
Definition blocked_fs : gmap string node :=
  list_to_map
    [ ("/blk", Dir ["E"]);
      ("/blk/E", Dir ["readme.txt"; "paths.jsonl"]);
      ("/blk/E/readme.txt", File "nothing here");
      ("/blk/E/paths.jsonl", Dir []) ].

(** The environment of [JobExamples] with a stop requested from the third
    reading of the stop event on. *)
Definition stopping_oracles : oracles :=
  Oracles (manifest_line JobExamples.job_oracles) (subprocess_run JobExamples.job_oracles)
    (format_exc JobExamples.job_oracles) (time_time JobExamples.job_oracles)
    (fmt_2f JobExamples.job_oracles) (fun n => 2 <=? n).

End RunExamples.

(** ** Sorting, in the words of the specification *)

Module SortSpec.
Section SortSpec.

Variable str_float : string -> option pyfloat.
Variable str_lower : string -> string.

(** The record has no value in the column. *)
Definition absent (c : column) (item : entry) : bool :=
  match item_get item c with None => true | Some _ => false end.

(** The record has a value in the column that converts to a finite
    number. *)
Definition finite (c : column) (item : entry) : bool :=
  match item_get item c with
  | Some val =>
      match Sorter.py_float str_float val with
      | Converted (Fin _) => true
      | _ => false
      end
  | None => false
  end.

(** The record has, in a score column, an integer too large for a float. *)
Definition too_large (c : column) (item : entry) : bool :=
  is_numeric c
  && match item_get item c with
     | Some val =>
         match Sorter.py_float str_float val with
         | TooLarge => true
         | _ => false
         end
     | None => false
     end.

(** The record has, in a score column, a value that is no number: [float]
    raises [ValueError] or [TypeError] on it. *)
Definition not_numeric (c : column) (item : entry) : bool :=
  is_numeric c
  && match item_get item c with
     | Some val =>
         match Sorter.py_float str_float val with
         | NotNumeric => true
         | _ => false
         end
     | None => false
     end.

(** The record has, in a score column, a value that converts to NaN. *)
Definition nan_valued (c : column) (item : entry) : bool :=
  is_numeric c
  && match item_get item c with
     | Some val =>
         match Sorter.py_float str_float val with
         | Converted NaN => true
         | _ => false
         end
     | None => false
     end.

(** The keys of the column can be computed for the whole list; none of
    them is NaN. *)
Definition convertible (c : column) (l : list entry) : bool :=
  forallb (fun item => negb (too_large c item)) l.
Definition nan_free (c : column) (l : list entry) : bool :=
  forallb (fun item => negb (nan_valued c item)) l.

(** Two records have equal keys in a sort: neither key is less than the
    other. *)
Definition same_key (c : column) (reverse : bool) (x y : entry) : bool :=
  if is_numeric c then
    PySort.keq pyfloat_ltb (Sorter.key_of str_float c reverse x)
      (Sorter.key_of str_float c reverse y)
  else
    PySort.keq str_ltb (Sorter.sort_key_text str_lower c x)
      (Sorter.sort_key_text str_lower c y).

(** [x] comes before [y] in the list. *)
Definition before (l : list entry) (x y : entry) : Prop :=
  exists l1 l2 l3, l = l1 ++ x :: l2 ++ y :: l3.

(** The order of the floats with NaN placed with the positive infinity: a
    total preorder that is [<=] and [<] on floats other than NaN. *)
Definition total_leb (a b : pyfloat) : bool :=
  match a, b with
  | NegInf, _ => true
  | _, PosInf | _, NaN => true
  | Fin x, Fin y => Qle_bool x y
  | _, _ => false
  end.

Definition total_ltb (a b : pyfloat) : bool := negb (total_leb b a).

End SortSpec.
End SortSpec.

Module SortExamples.

(** [float] on the strings of the examples: none converts. *)
Definition str_float (s : string) : option pyfloat := None.

(** [str.lower] on the names of the examples, which are ASCII. *)
Definition str_lower (s : string) : string := Py.lower_ascii s.

(** A [list.sort] that leaves a list with a NaN key as it is. *)
Definition keep_order : nan_sort :=
  NanSort (fun _ _ l => l) (fun _ _ l => Permutation_refl l).

(** Loaded records: one without CE, one whose CE is the infinity that
    [json.loads] returns for [1e999], one with CE 5.5, one whose CE is the
    text "n/a", and one whose CE is the integer 10^400. *)
Definition no_ce : entry :=
  Entry "a.wav" "/data/a.wav" None None None (Some (JNum (Fin 7))).
Definition inf_ce : entry :=
  Entry "b.wav" "/data/b.wav" (Some (JNum PosInf)) None None (Some (JNum (Fin 7))).
Definition low_ce : entry :=
  Entry "c.wav" "/data/c.wav" (Some (JNum (Fin (11 # 2)))) None None
    (Some (JNum (Fin 7))).
Definition text_ce : entry :=
  Entry "d.wav" "/data/d.wav" (Some (JStr "n/a")) None None (Some (JNum (Fin 7))).
Definition huge_ce : entry :=
  Entry "e.wav" "/data/e.wav" (Some (JInt (10 ^ 400))) None None (Some (JNum (Fin 7))).

(** Confirmed options of the dialog. *)
Definition default_options : options := Options "audio-aes" 100 false.

End SortExamples.

(** ** The outcome of a load, in the terms of its caller *)

Module LoaderSpec.

(** The entries of the listing that are directories. *)
Definition subdirectories (fs : gmap string node) (base_dir : string)
    (items : list string) : list string :=
  List.filter (fun item => FS.isdir fs (Path.join base_dir item)) items.

(** The entry of the listing is a directory that holds both files. *)
Definition holds_both_files (fs : gmap string node) (base_dir item : string) : bool :=
  FS.isdir fs (Path.join base_dir item)
  && FS.exists_ fs (Path.join (Path.join base_dir item) PATHS_FILENAME)
  && FS.exists_ fs (Path.join (Path.join base_dir item) SCORES_FILENAME).

(** The three messages [load_audio_data] can return. *)
Definition not_a_directory : string := "Selected path is not a valid directory.".
Definition no_files_found (base_dir : string) : string :=
  "No subdirectories with 'paths.jsonl' and 'scores.jsonl' found or processed in "
  +:+ base_dir +:+ ".".
Definition nothing_loaded : string :=
  "Found subdirectories with jsonl files, but failed to load any valid audio entries (check paths and file existence).".

End LoaderSpec.

(** ** The manifest, as a function of the listing *)

Module WriterSpec.

(** The lines of the manifest for a list of names: one line, with its
    newline, for each name whose line is produced. *)
Definition manifest_lines (O : oracles) (target_dir : string) (names : list string)
  : list string :=
  flat_map
    (fun wav_file =>
       match manifest_line O (Path.join target_dir wav_file) with
       | Ok line => [line +:+ nl]
       | Raise _ => []
       end)
    names.

(** The text of a file written line by line. *)
Definition concat_lines (lines : list string) : string :=
  fold_right String.app EmptyString lines.

(** The text holds no newline. *)
Fixpoint newline_free (s : string) : bool :=
  match s with
  | EmptyString => true
  | String c s' => negb (Ascii.eqb c "010"%char) && newline_free s'
  end.

(** A progress callback that records the positions it is called with. *)
Definition record_progress (current total : nat) (message : string)
    (seen : list (nat * nat)) : list (nat * nat) :=
  seen ++ [(current, total)].

End WriterSpec.

(** ** The scorer invoker and the orchestrator, in the terms of their effects *)

Module RunSpec.

(** The input manifest is there and is not empty: the two checks of
    [run_audio_aes] pass. *)
Definition has_input (fs : gmap string node) (target_dir input_jsonl : string) : bool :=
  match FS.getsize fs (Path.join target_dir input_jsonl) with
  | Ok size => negb (size =? 0)
  | Raise _ => false
  end.

(** The argument list of the external command. *)
Definition command_line (audio_aes_command input_jsonl : string) (batch_size : Z)
  : list string :=
  [audio_aes_command; input_jsonl; "--batch-size"; Py.str_of_Z batch_size].

(** The manifest or the scores file of one of the subdirectories. *)
Definition is_pipeline_file (base_dir : string) (subdirs : list string) (p : string)
  : Prop :=
  exists name,
    In name subdirs
    /\ (p = Path.join (Path.join base_dir name) PATHS_FILENAME
        \/ p = Path.join (Path.join base_dir name) SCORES_FILENAME).

(** [fs'] keeps what [fs] holds but for the files in [changed]: the
    directories are the same, no path disappears, and the files at the other
    paths are the same, with the same content. *)
Definition keeps (changed : string -> Prop) (fs fs' : gmap string node) : Prop :=
  (forall q, FS.isdir fs' q = FS.isdir fs q)
  /\ (forall q, FS.exists_ fs q = true -> FS.exists_ fs' q = true)
  /\ (forall q content,
        ~ changed q ->
        fs' !! q = Some (File content) <-> fs !! q = Some (File content)).

(** Every subdirectory of the list has a scores file. *)
Definition all_scored (fs : gmap string node) (base_dir : string)
    (subdirs : list string) : bool :=
  forallb
    (fun name => FS.exists_ fs (Path.join (Path.join base_dir name) SCORES_FILENAME))
    subdirs.

End RunSpec.

(** ** Keys without ties *)

Module TieSpec.
Section TieSpec.

Context {A K : Type}.
Variable key : A -> K.
Variable lt : K -> K -> bool.

(** No two elements of the list have equal keys. *)
Fixpoint untied (l : list A) : bool :=
  match l with
  | [] => true
  | x :: rest =>
      forallb (fun y => negb (PySort.keq lt (key x) (key y))) rest && untied rest
  end.

(** Strictly ascending. *)
Definition below (x y : A) : Prop := lt (key x) (key y) = true.

End TieSpec.
End TieSpec.

(** ** The table after a sort *)

Module TableSpec.
Section TableSpec.

Variable str_float : string -> option pyfloat.
Variable str_lower : string -> string.

(** The two records are in the order of the sort: the key of the first is
    at most the key of the second when ascending, at least when
    descending. *)
Definition in_order (c : column) (reverse : bool) (x y : entry) : bool :=
  if is_numeric c then
    let kx := Sorter.key_of str_float c reverse x in
    let ky := Sorter.key_of str_float c reverse y in
    if reverse then pyfloat_leb ky kx else pyfloat_leb kx ky
  else
    let kx := Sorter.sort_key_text str_lower c x in
    let ky := Sorter.sort_key_text str_lower c y in
    if reverse then String.leb ky kx else String.leb kx ky.

(** The record has a key of its own in the column: any record in a text
    column, and in a score column a record whose value is there and
    converts to a number other than NaN. *)
Definition has_key (c : column) (x : entry) : bool :=
  if is_numeric c then
    match item_get x c with
    | Some val =>
        match Sorter.py_float str_float val with
        | Converted k => negb (is_nan k)
        | _ => false
        end
    | None => false
    end
  else true.

(** No two records of the list have equal keys in the column. *)
Fixpoint no_ties (c : column) (l : list entry) : bool :=
  match l with
  | [] => true
  | x :: rest =>
      forallb (fun y => negb (SortSpec.same_key str_float str_lower c false x y)) rest
      && no_ties c rest
  end.

End TableSpec.
End TableSpec.

(** ** The table of the main window: filters, rows and selection *)

(** [sub in s] on strings. *)
Fixpoint py_in (sub s : string) : bool :=
  Py.startswith s sub
  || match s with
     | EmptyString => false
     | String _ s' => py_in sub s'
     end.

(** A JSON value as a number in a comparison with a float; a string, a list
    or a dict is not one.  Python compares an [int] with a float by its
    exact value, which the rational holds. *)
Definition py_number (val : json) : option pyfloat :=
  match val with
  | JNum x => Some x
  | JInt z => Some (Fin (inject_Z z))
  | JBool b => Some (Fin (if b then 1 else 0))
  | JNull | JStr _ | JArr _ | JObj _ => None
  end.

(** The [TypeError] of a comparison with a float. *)
Definition not_supported (op : string) (val : json) : exn :=
  Exn TypeError
    ("'" +:+ op +:+ "' not supported between instances of '" +:+ type_name val
     +:+ "' and 'float'").

(** [val < bound] and [val > bound]. *)
Definition py_lt (val : json) (bound : pyfloat) : result bool :=
  match py_number val with
  | Some x => Ok (pyfloat_ltb x bound)
  | None => Raise (not_supported "<" val)
  end.

Definition py_gt (val : json) (bound : pyfloat) : result bool :=
  match py_number val with
  | Some x => Ok (pyfloat_ltb bound x)
  | None => Raise (not_supported ">" val)
  end.

(** [v is None]. *)
Definition is_None (v : pyval) : bool :=
  match v with None | Some JNull => true | Some _ => false end.

(** The texts of the nine filter fields. *)
Record filter_fields := FilterFields {
  filter_filename : string;
  filter_pq_min : string; filter_pq_max : string;
  filter_ce_min : string; filter_ce_max : string;
  filter_cu_min : string; filter_cu_max : string;
  filter_pc_min : string; filter_pc_max : string
}.

(** The fields after [clear_filters] emptied them. *)
Definition no_filters : filter_fields :=
  FilterFields EmptyString EmptyString EmptyString EmptyString EmptyString
    EmptyString EmptyString EmptyString EmptyString.

(** The four score columns, in the order [apply_filters] takes them. *)
Definition score_columns : list column := [ColPQ; ColCE; ColCU; ColPC].

Definition min_field (f : filter_fields) (c : column) : string :=
  match c with
  | ColPQ => filter_pq_min f | ColCE => filter_ce_min f
  | ColCU => filter_cu_min f | ColPC => filter_pc_min f
  | ColFilename | ColPath => EmptyString
  end.

Definition max_field (f : filter_fields) (c : column) : string :=
  match c with
  | ColPQ => filter_pq_max f | ColCE => filter_ce_max f
  | ColCU => filter_cu_max f | ColPC => filter_pc_max f
  | ColFilename | ColPath => EmptyString
  end.

(** A row of the table: its item id and its six cell values. *)
Record row := Row { iid : string; values : list string }.

(** The tree view widget: its rows in order, and the ids of the selected
    ones. *)
Record treeview := Tree {
  rows : list row;
  selected : list string
}.

(** [tree.get_children()]. *)
Definition get_children (t : treeview) : list string := List.map iid (rows t).

Definition string_mem (s : string) (l : list string) : bool :=
  existsb (String.eqb s) l.

(** [tree.selection()]: the selected items, in the order of the rows. *)
Definition selection (t : treeview) : list string :=
  List.filter (fun i => string_mem i (selected t)) (get_children t).

(** [tree.insert('', END, iid=..., values=...)]: [None] stands for the
    [TclError] raised when the id is in use.  The empty id, which names the
    root item of a Tk tree, is left out: the ids are paths of files. *)
Definition tree_insert (t : treeview) (r : row) : option treeview :=
  if string_mem (iid r) (get_children t) then None
  else Some (Tree (rows t ++ [r]) (selected t)).

(** The [TclError] of an insertion. *)
Definition item_exists (i : string) : string := "Item " +:+ i +:+ " already exists".

(** The state of the application object that the table acts on. *)
Record review_app := ReviewApp {
  full_audio_data : list entry;
  a_view : view;
  selected_directory : string;
  fields : filter_fields;
  tree : treeview;
  visible_count_label : string;
  selected_count_label : string;
  a_out : list task;          (* tasks queued and dialogs shown, in order *)
  a_clock : nat               (* readings of the clock so far *)
}.

Definition set_view (a : review_app) (v : view) : review_app :=
  ReviewApp (full_audio_data a) v (selected_directory a) (fields a) (tree a)
    (visible_count_label a) (selected_count_label a) (a_out a) (a_clock a).

Definition set_full (a : review_app) (data : list entry) : review_app :=
  ReviewApp data (a_view a) (selected_directory a) (fields a) (tree a)
    (visible_count_label a) (selected_count_label a) (a_out a) (a_clock a).

Definition set_tree (a : review_app) (t : treeview) : review_app :=
  ReviewApp (full_audio_data a) (a_view a) (selected_directory a) (fields a) t
    (visible_count_label a) (selected_count_label a) (a_out a) (a_clock a).

Definition set_fields (a : review_app) (f : filter_fields) : review_app :=
  ReviewApp (full_audio_data a) (a_view a) (selected_directory a) f (tree a)
    (visible_count_label a) (selected_count_label a) (a_out a) (a_clock a).

Definition set_directory (a : review_app) (d : string) : review_app :=
  ReviewApp (full_audio_data a) (a_view a) d (fields a) (tree a)
    (visible_count_label a) (selected_count_label a) (a_out a) (a_clock a).

(** A task is queued, or a dialog is shown. *)
Definition emit (t : task) (a : review_app) : review_app :=
  ReviewApp (full_audio_data a) (a_view a) (selected_directory a) (fields a) (tree a)
    (visible_count_label a) (selected_count_label a) (a_out a ++ [t]) (a_clock a).

(** [self._update_status(message)] on the application object. *)
Definition status (message : string) (a : review_app) : review_app :=
  emit (StatusText ("Status: " +:+ message)) a.

(** One more reading of the clock. *)
Definition tick_app (a : review_app) : review_app :=
  ReviewApp (full_audio_data a) (a_view a) (selected_directory a) (fields a) (tree a)
    (visible_count_label a) (selected_count_label a) (a_out a) (S (a_clock a)).

(** The two labels under the table are set. *)
Definition set_labels (a : review_app) (visible selected : string) : review_app :=
  ReviewApp (full_audio_data a) (a_view a) (selected_directory a) (fields a) (tree a)
    visible selected (a_out a) (a_clock a).

(** The display list alone is replaced. *)
Definition set_display (a : review_app) (l : list entry) : review_app :=
  set_view a (View l (current_sort_column (a_view a)) (current_sort_reverse (a_view a))).

(** The window as [__init__] leaves it. *)
Definition app0 : review_app :=
  ReviewApp [] (View [] None false) EmptyString no_filters (Tree [] [])
    "Visible: 0" "Selected: 0" [] 0.

Module Viewer.
Section Viewer.

(** The clock and [traceback.format_exc()]. *)
Variable O : oracles.
(** [json.loads] on one line: [None] stands for [JSONDecodeError]. *)
Variable json_loads : string -> option json.
(** [float(s)] on a string: [None] stands for [ValueError]. *)
Variable str_float : string -> option pyfloat.
(** The format [:.4f] of a number. *)
Variable fmt_4f : pyfloat -> string.
(** [traceback.format_exc()] for a [TclError] with the given message. *)
Variable tcl_traceback : string -> string.
(** The lower case of a string, for [str.lower]. *)
Variable str_lower : string -> string.
(** [list.sort] on keys with a NaN among them. *)
Variable unordered : nan_sort.

(** [time.time()]. *)
Definition now_app (a : review_app) : Q * review_app := (time_time O (a_clock a), tick_app a).

(** [self._parse_filter_value(value_str)]. *)
Definition _parse_filter_value (value_str : string) : option pyfloat :=
  if negb (Py.nonempty (Py.strip value_str)) then None
  else str_float value_str.

Definition lower_bound (f : filter_fields) (c : column) : option pyfloat :=
  _parse_filter_value (min_field f c).
Definition upper_bound (f : filter_fields) (c : column) : option pyfloat :=
  _parse_filter_value (max_field f c).

(** The first column whose two bounds are given with the minimum greater
    than the maximum. *)
Definition inverted_range (f : filter_fields) : option column :=
  List.find
    (fun c =>
       match lower_bound f c, upper_bound f c with
       | Some lo, Some hi => pyfloat_ltb hi lo
       | _, _ => false
       end)
    score_columns.

(** [a or b] on tests that can raise. *)
Definition orelse (a b : result bool) : result bool :=
  match a with
  | Ok false => b
  | _ => a
  end.

(** [bound is not None and (v is None or v < bound)], with [>] for [<] on
    the upper bound. *)
Definition misses (bound : option pyfloat) (cmp : json -> pyfloat -> result bool)
    (v : pyval) : result bool :=
  match bound with
  | None => Ok false
  | Some b =>
      match v with
      | None | Some JNull => Ok true
      | Some val => cmp val b
      end
  end.

(** The text of the file name filter: [get().lower().strip()]. *)
Definition filename_filter (f : filter_fields) : string :=
  Py.strip (Py.unicode_lower str_lower (filter_filename f)).

(** The tests of the loop body that end in [continue], in their order: the
    file name, then the two bounds of PQ, CE, CU and PC. *)
Definition skipped (f : filter_fields) (e : entry) : result bool :=
  orelse
    (Ok (Py.nonempty (filename_filter f)
         && negb (py_in (filename_filter f)
                    (Py.unicode_lower str_lower (filename e)))))
    (fold_right
       (fun c rest =>
          orelse (misses (lower_bound f c) py_lt (item_get e c))
            (orelse (misses (upper_bound f c) py_gt (item_get e c)) rest))
       (Ok false) score_columns).

(** The loop over [self.full_audio_data]: the first exception ends it. *)
Fixpoint filter_loop (f : filter_fields) (data : list entry) (filtered_data : list entry)
  : result (list entry) :=
  match data with
  | [] => Ok filtered_data
  | e :: rest =>
      match skipped f e with
      | Raise ex => Raise ex
      | Ok true => filter_loop f rest filtered_data
      | Ok false => filter_loop f rest (filtered_data ++ [e])
      end
  end.

(** [self.update_counts()]. *)
Definition update_counts (a : review_app) : review_app :=
  set_labels a
    ("Visible: " +:+ Py.str_of_nat (length (get_children (tree a))))
    ("Selected: " +:+ Py.str_of_nat (length (selection (tree a)))).

(** [self.clear_treeview()]: deleting the rows deselects them. *)
Definition clear_treeview (a : review_app) : review_app :=
  match get_children (tree a) with
  | [] => a
  | _ => set_tree a (Tree [] [])
  end.

(** A cell of a score: the format [:.4f], or "N/A" for no value.  An [int]
    is converted to a float first, which raises [OverflowError] when it is
    too large. *)
Definition format_score (v : pyval) : result string :=
  match v with
  | None | Some JNull => Ok "N/A"
  | Some (JNum x) => Ok (fmt_4f x)
  | Some (JInt z) =>
      match float_of_int z with
      | Some x => Ok (fmt_4f x)
      | None => Raise Sorter.int_too_large
      end
  | Some (JBool b) => Ok (fmt_4f (Fin (if b then 1 else 0)))
  | Some (JStr _) =>
      Raise (Exn ValueError "Unknown format code 'f' for object of type 'str'")
  | Some (JArr _) =>
      Raise (Exn TypeError "unsupported format string passed to list.__format__")
  | Some (JObj _) =>
      Raise (Exn TypeError "unsupported format string passed to dict.__format__")
  end.

(** The row of a record: its path as item id, and the six cells. *)
Definition row_of (e : entry) : result row :=
  match format_score (CE e) with
  | Raise ex => Raise ex
  | Ok ce_val =>
  match format_score (CU e) with
  | Raise ex => Raise ex
  | Ok cu_val =>
  match format_score (PC e) with
  | Raise ex => Raise ex
  | Ok pc_val =>
  match format_score (PQ e) with
  | Raise ex => Raise ex
  | Ok pq_val =>
      Ok (Row (path e) [filename e; ce_val; cu_val; pc_val; pq_val; path e])
  end end end end.

(** The first loop of [populate_treeview]: [items_to_insert]. *)
Fixpoint rows_of (data : list entry) : result (list row) :=
  match data with
  | [] => Ok []
  | e :: rest =>
      match row_of e with
      | Raise ex => Raise ex
      | Ok r =>
          match rows_of rest with
          | Raise ex => Raise ex
          | Ok rs => Ok (r :: rs)
          end
      end
  end.

(** The second loop in [AudioREV.py]: the first id that is in use ends
    it. *)
Fixpoint insert_all (items : list row) (t : treeview) : treeview * option string :=
  match items with
  | [] => (t, None)
  | r :: rest =>
      match tree_insert t r with
      | None => (t, Some (iid r))
      | Some t' => insert_all rest t'
      end
  end.

(** The second loop in revision 1.1: an id that is in use is skipped. *)
Fixpoint insert_new (items : list row) (t : treeview) : treeview :=
  match items with
  | [] => t
  | r :: rest =>
      match tree_insert t r with
      | None => insert_new rest t
      | Some t' => insert_new rest t'
      end
  end.

(** The [except Exception] clause of [populate_treeview]. *)
Definition display_failed (message traceback : string) (a : review_app) : review_app :=
  emit (ShowError "Display Error"
          ("An error occurred displaying the data:" +:+ nl +:+ message +:+ nl +:+ nl
           +:+ traceback))
    (status "Error populating table." a).

(** The end of the [try] body: the warning of a slow fill. *)
Definition after_insert (insert_start_time : Q) (a : review_app) : review_app :=
  let '(t, a) := now_app a in
  if negb (Qle_bool (t - insert_start_time) 2)
  then status ("Displaying " +:+ Py.str_of_nat (length (display_audio_data (a_view a)))
               +:+ " items (Warning: Render may be slow).") a
  else a.

(** [self.populate_treeview()] of [AudioREV.py]. *)
Definition populate_treeview (a : review_app) : review_app :=
  let a := clear_treeview a in
  let '(insert_start_time, a) := now_app a in
  let a :=
    match rows_of (display_audio_data (a_view a)) with
    | Raise ex => display_failed (exn_msg ex) (format_exc O ex) a
    | Ok items_to_insert =>
        match insert_all items_to_insert (tree a) with
        | (t, Some i) =>
            display_failed (item_exists i) (tcl_traceback (item_exists i)) (set_tree a t)
        | (t, None) => after_insert insert_start_time (set_tree a t)
        end
    end in
  update_counts a.

(** [self.populate_treeview()] of revision 1.1. *)
Definition populate_treeview_1_1 (a : review_app) : review_app :=
  let a := clear_treeview a in
  let '(insert_start_time, a) := now_app a in
  let a :=
    match rows_of (display_audio_data (a_view a)) with
    | Raise ex => display_failed (exn_msg ex) (format_exc O ex) a
    | Ok items_to_insert =>
        after_insert insert_start_time (set_tree a (insert_new items_to_insert (tree a)))
    end in
  update_counts a.

(** [self.apply_filters()]. *)
Definition apply_filters (a : review_app) : review_app :=
  let a := status "Applying filters..." a in
  match inverted_range (fields a) with
  | Some c =>
      emit (ShowWarning "Filter Warning"
              (col_key c +:+ " min value is greater than max value.")) a
  | None =>
      let '(filter_start_time, a) := now_app a in
      match filter_loop (fields a) (full_audio_data a) [] with
      | Raise ex =>
          emit (ShowError "Filter Error"
                  ("An unexpected error occurred during filtering:" +:+ nl +:+ exn_msg ex
                   +:+ nl +:+ nl +:+ format_exc O ex))
            (status "Error applying filters." a)
      | Ok filtered_data =>
          let a := set_display a filtered_data in
          let '(t, a) := now_app a in
          let a := set_view a (View filtered_data None false) in
          let a := populate_treeview a in
          status ("Filters applied. Displaying "
                  +:+ Py.str_of_nat (length (display_audio_data (a_view a)))
                  +:+ " out of " +:+ Py.str_of_nat (length (full_audio_data a))
                  +:+ " files.") a
      end
  end.

(** [self.clear_filters()]. *)
Definition clear_filters (a : review_app) : review_app :=
  apply_filters (set_fields a no_filters).

(** The [except Exception] clause of [sort_column]. *)
Definition sort_failed (c : column) (ex : exn) (a : review_app) : review_app :=
  emit (ShowError "Sort Error"
          ("Could not sort column '" +:+ col_key c +:+ "': " +:+ exn_msg ex
           +:+ nl +:+ nl +:+ format_exc O ex))
    (status "Error during sorting." a).

(** [self.sort_column(col_key, is_numeric)] with the table it fills.  An
    exception of the key leaves the list, the column and the direction as
    they were, and the table is not filled again. *)
Definition sort_column (a : review_app) (c : column) : review_app :=
  match display_audio_data (a_view a) with
  | [] => status "Nothing to sort." a
  | _ =>
      let a := status ("Sorting by " +:+ col_key c +:+ "...") a in
      let reverse := Sorter.next_reverse (a_view a) c in
      let '(sort_start_time, a) := now_app a in
      match Sorter.sorted_by str_float str_lower unordered c reverse
              (display_audio_data (a_view a)) with
      | Raise ex => sort_failed c ex a
      | Ok sorted =>
          let a := set_view a (View sorted (Some c) reverse) in
          let '(t, a) := now_app a in
          let a := populate_treeview a in
          status ("Sorted by " +:+ col_key c +:+ " "
                  +:+ (if reverse then "descending" else "ascending") +:+ ".") a
      end
  end.

(** [self.get_entry_by_iid(iid)]. *)
Definition get_entry_by_iid (a : review_app) (i : string) : option entry :=
  List.find (fun e => String.eqb (path e) i) (full_audio_data a).

(** [self.select_all_visible()]. *)
Definition select_all_visible (a : review_app) : review_app :=
  let a := status "Selecting all visible items..." a in
  let all_items := get_children (tree a) in
  let a :=
    match all_items with
    | [] => a
    | _ => set_tree a (Tree (rows (tree a)) all_items)
    end in
  let a := update_counts a in
  status ("Selected " +:+ Py.str_of_nat (length all_items) +:+ " visible items.") a.

(** [self.deselect_all()]. *)
Definition deselect_all (a : review_app) : review_app :=
  match selection (tree a) with
  | [] => a
  | _ =>
      let a := set_tree a (Tree (rows (tree a)) []) in
      let a := update_counts a in
      status "Selection cleared." a
  end.

(** [self.browse_directory()], for the answer of the directory dialog (the
    empty string when it is cancelled). *)
Definition browse_directory (a : review_app) (directory : string) : review_app :=
  if Py.nonempty directory then
    let a := set_directory a directory in
    let a := status ("Selected directory: " +:+ directory
                     +:+ ". Click 'Load Data' or 'Preprocess Options...'.") a in
    let a := set_full a [] in
    let a := set_display a [] in
    let a := clear_treeview a in
    update_counts a
  else a.

Definition large_dataset (n : nat) : task :=
  ShowWarning "Large Dataset Loaded"
    ("Loaded " +:+ Py.str_of_nat n +:+ " audio file entries." +:+ nl +:+ nl
     +:+ "Displaying and sorting this many files directly may be slow or unstable."
     +:+ nl +:+ nl
     +:+ "It is strongly recommended to use the filter options to significantly reduce the number of visible items before interacting heavily with the table.").

(** [self.load_and_display_data()], on the file system of the moment. *)
Definition load_and_display_data (fs : gmap string node) (a : review_app) : review_app :=
  let directory := selected_directory a in
  if negb (Py.nonempty directory) then
    emit (ShowWarning "No Directory"
            "Please select a directory first using 'Browse...'.") a
  else
    let a := status "Loading data..." a in
    let a := set_full a [] in
    let a := set_display a [] in
    let a := clear_treeview a in
    let a := update_counts a in
    let '(start_time, a) := now_app a in
    match Reader.load_audio_data json_loads fs directory with
    | Raise ex =>
        let '(t, a) := now_app a in
        let a := status ("Critical error during loading after "
                         +:+ fmt_2f O (t - start_time) +:+ "s.") a in
        emit (ShowError "Loading Failed"
                ("An unexpected error occurred during data loading:" +:+ nl
                 +:+ exn_msg ex +:+ nl +:+ nl +:+ format_exc O ex)) a
    | Ok (loaded_data, error_msg, subdir_count) =>
        let '(t, a) := now_app a in
        let load_time := (t - start_time)%Q in
        let a :=
          if (100000 <? Z.of_nat (length loaded_data))%Z then emit (large_dataset (length loaded_data)) a
          else a in
        match error_msg with
        | Some msg =>
            if Py.nonempty msg then
              status ("Error loading: " +:+ msg) (emit (ShowError "Loading Error" msg) a)
            else
              match loaded_data with
              | [] =>
                  status ("Scanned " +:+ Py.str_of_nat subdir_count
                          +:+ " subdirs. No data loaded. Load time: "
                          +:+ fmt_2f O load_time +:+ "s")
                    (emit (ShowInfo "No Data"
                             ("No audio data found or loaded from the "
                              +:+ Py.str_of_nat subdir_count
                              +:+ " scanned subdirectories.")) a)
              | _ =>
                  let a := apply_filters (set_full a loaded_data) in
                  status ("Loaded " +:+ Py.str_of_nat (length (full_audio_data a))
                          +:+ " files from " +:+ Py.str_of_nat subdir_count
                          +:+ " subdirs. Load time: " +:+ fmt_2f O load_time
                          +:+ "s. Use filters for large datasets.") a
              end
        | None =>
            match loaded_data with
            | [] =>
                status ("Scanned " +:+ Py.str_of_nat subdir_count
                        +:+ " subdirs. No data loaded. Load time: "
                        +:+ fmt_2f O load_time +:+ "s")
                  (emit (ShowInfo "No Data"
                           ("No audio data found or loaded from the "
                            +:+ Py.str_of_nat subdir_count
                            +:+ " scanned subdirectories.")) a)
            | _ =>
                let a := apply_filters (set_full a loaded_data) in
                status ("Loaded " +:+ Py.str_of_nat (length (full_audio_data a))
                        +:+ " files from " +:+ Py.str_of_nat subdir_count
                        +:+ " subdirs. Load time: " +:+ fmt_2f O load_time
                        +:+ "s. Use filters for large datasets.") a
            end
        end
    end.

(** What the user does with the table between two callbacks. *)
Inductive table_event :=
| Browse (directory : string)          (* "Browse...", with the dialog's answer *)
| Load (fs : gmap string node)         (* "Load Data", on the files of the moment *)
| EditFilters (f : filter_fields)      (* typing into the filter fields *)
| ApplyFilters
| ClearFilters
| ClickHeading (c : column)
| SelectAll
| DeselectAll
| UserSelects (items : list string).   (* rows picked with mouse or keyboard *)

(** The selection made by the user is a selection of rows of the table;
    the widget then fires [<<TreeviewSelect>>], bound to
    [update_selection_count]. *)
Definition user_selects (a : review_app) (items : list string) : review_app :=
  if forallb (fun i => string_mem i (get_children (tree a))) items
  then update_counts (set_tree a (Tree (rows (tree a)) items))
  else a.

Definition step (a : review_app) (ev : table_event) : review_app :=
  match ev with
  | Browse directory => browse_directory a directory
  | Load fs => load_and_display_data fs a
  | EditFilters f => set_fields a f
  | ApplyFilters => apply_filters a
  | ClearFilters => clear_filters a
  | ClickHeading c => sort_column a c
  | SelectAll => select_all_visible a
  | DeselectAll => deselect_all a
  | UserSelects items => user_selects a items
  end.

Definition run (events : list table_event) : review_app := fold_left step events app0.

End Viewer.
End Viewer.

(** ** The filters, in the terms of their user *)

Module FilterSpec.
Section FilterSpec.

Variable str_float : string -> option pyfloat.
Variable str_lower : string -> string.

(** The value is missing or is a number: comparing it with a bound cannot
    fail. *)
Definition comparable (v : pyval) : bool :=
  match v with
  | None | Some JNull => true
  | Some val => match py_number val with Some _ => true | None => false end
  end.

Definition numeric_scores (data : list entry) : bool :=
  forallb (fun e => forallb (fun c => comparable (item_get e c)) score_columns) data.

(** The value meets the bounds that are given: when one is given the value
    is there, is not less than the lower bound and is not greater than the
    upper one.  (A value or a bound that is NaN is neither less nor greater
    than anything.) *)
Definition within (lo hi : option pyfloat) (v : pyval) : bool :=
  match lo, hi with
  | None, None => true
  | _, _ =>
      match v with
      | Some val =>
          match py_number val with
          | Some x =>
              match lo with Some b => negb (pyfloat_ltb x b) | None => true end
              && match hi with Some b => negb (pyfloat_ltb b x) | None => true end
          | None => false
          end
      | None => false
      end
  end.

(** The record passes the filters: its lower-cased file name contains the
    text of the file name filter, and its four scores meet their bounds. *)
Definition matches (f : filter_fields) (e : entry) : bool :=
  (negb (Py.nonempty (Viewer.filename_filter str_lower f))
   || py_in (Viewer.filename_filter str_lower f)
        (Py.unicode_lower str_lower (filename e)))
  && forallb
       (fun c =>
          within (Viewer.lower_bound str_float f c) (Viewer.upper_bound str_float f c)
            (item_get e c))
       score_columns.

(** The last task queued or dialog shown. *)
Definition last_out (a : review_app) : option task := List.last (List.map Some (a_out a)) None.

End FilterSpec.
End FilterSpec.

(** ** The table, in the terms of its user *)

Module TableViewSpec.

(** The selected items of the widget are rows of it, as the widget
    guarantees. *)
Definition tree_ok (t : treeview) : bool :=
  forallb (fun i => string_mem i (get_children t)) (selected t).

(** The dialog of a failed fill of the table. *)
Definition is_display_error (t : task) : bool :=
  match t with
  | ShowError title _ => String.eqb title "Display Error"
  | _ => false
  end.

(** The dialog "No Data" of [load_and_display_data]. *)
Definition is_no_data (t : task) : bool :=
  match t with
  | ShowInfo title _ => String.eqb title "No Data"
  | _ => false
  end.

(** The state of the table is in order: the displayed records are loaded
    records, the ids of the rows are different and are the paths of the
    first displayed records, and the selected items are rows. *)
Definition table_ok (a : review_app) : Prop :=
  incl (display_audio_data (a_view a)) (full_audio_data a)
  /\ (exists rest,
        List.map path (display_audio_data (a_view a)) = get_children (tree a) ++ rest)
  /\ List.NoDup (get_children (tree a))
  /\ tree_ok (tree a) = true.

(** The two labels under the table show the number of rows and the number
    of selected rows. *)
Definition counts_ok (a : review_app) : Prop :=
  visible_count_label a
  = "Visible: " +:+ Py.str_of_nat (length (get_children (tree a)))
  /\ selected_count_label a
     = "Selected: " +:+ Py.str_of_nat (length (selection (tree a))).

(** From one state to the other, tasks and dialogs were added, and none of
    them is the dialog "No Data". *)
Definition without_no_data (a a' : review_app) : Prop :=
  exists added,
    a_out a' = a_out a ++ added
    /\ forallb (fun t => negb (is_no_data t)) added = true.

End TableViewSpec.

(** Tables for the examples. *)
Module TableExamples.

(** The format [:.4f] on the scores of the examples. *)
Definition four_decimals (x : pyfloat) : string :=
  match x with
  | Fin q => if Qeq_bool q (11 # 2) then "5.5000" else "7.0000"
  | PosInf => "inf"
  | NegInf => "-inf"
  | NaN => "nan"
  end.

Definition no_traceback (message : string) : string :=
  "Traceback (most recent call last): ...".

(** Two records displayed, and one record displayed twice. *)
Definition two_shown : review_app :=
  set_view app0 (View [SortExamples.low_ce; SortExamples.inf_ce] None false).
Definition one_twice : review_app :=
  set_view app0 (View [SortExamples.low_ce; SortExamples.low_ce] None false).

(** Two rows, both selected. *)
Definition both_selected : review_app :=
  set_tree app0
    (Tree [Row "/data/A/x.wav" ["x.wav"; "N/A"; "N/A"; "N/A"; "N/A"; "/data/A/x.wav"];
           Row "/data/A/y.wav" ["y.wav"; "N/A"; "N/A"; "N/A"; "N/A"; "/data/A/y.wav"]]
       ["/data/A/y.wav"; "/data/A/x.wav"]).

End TableExamples.

(** ** The task queue of the window: [process_queue] *)

(** What the queued calls act on: the text of the status bar, the content
    of the log widget, the message boxes shown, the queue itself and the
    number of times the next check was scheduled. *)
Record window := Window {
  status_label : string;
  log_text : string;
  shown : list task;
  task_queue : list task;      (* oldest first *)
  scheduled : nat              (* calls of [self.after(100, self.process_queue)] *)
}.

Definition set_queue (g : window) (q : list task) : window :=
  Window (status_label g) (log_text g) (shown g) q (scheduled g).

Module TaskQueue.
Section TaskQueue.

(** The call of a queued message box, with the arguments it was queued
    with: [None] when the call returns. *)
Variable call_dialog : task -> option exn.

(** The call [func] makes for a queued task, on the arguments queued with
    it. *)
Definition run_task (t : task) (g : window) : window * option exn :=
  match t with
  | StatusText text =>
      (Window text (log_text g) (shown g) (task_queue g) (scheduled g), None)
  | AppendLog message =>
      (Window (status_label g) (log_text g +:+ message +:+ nl) (shown g)
         (task_queue g) (scheduled g), None)
  | PreprocessStatus current total message =>
      (set_queue g (task_queue g ++ [StatusText ("Status: " +:+ message)]), None)
  | ShowError _ _ | ShowInfo _ _ | ShowWarning _ _ =>
      match call_dialog t with
      | None =>
          (Window (status_label g) (log_text g) (shown g ++ [t]) (task_queue g)
             (scheduled g), None)
      | Some e => (g, Some e)
      end
  end.

Definition is_progress (t : task) : bool :=
  match t with PreprocessStatus _ _ _ => true | _ => false end.

(** The calls the loop makes at most: one for each task, and one more for
    the status text that a progress task queues. *)
Definition calls_ahead (q : list task) : nat :=
  length q + length (List.filter is_progress q).

(** The loop [while True] of [process_queue]: it ends at [queue.Empty], or
    at the first call that raises. *)
Fixpoint drain (fuel : nat) (g : window) : window * option exn :=
  match fuel with
  | 0 => (g, None)
  | S fuel =>
      match task_queue g with
      | [] => (g, None)
      | t :: rest =>
          match run_task t (set_queue g rest) with
          | (g', Some e) => (g', Some e)
          | (g', None) => drain fuel g'
          end
      end
  end.

(** [self.process_queue()]: the [finally] clause schedules the next check
    whether or not a call raised. *)
Definition process_queue (g : window) : window * option exn :=
  let '(g', e) := drain (S (calls_ahead (task_queue g))) g in
  (Window (status_label g') (log_text g') (shown g') (task_queue g') (S (scheduled g')), e).

End TaskQueue.
End TaskQueue.

(** The queue, in the terms of its user. *)
Module QueueSpec.

Definition is_dialog (t : task) : bool :=
  match t with
  | ShowError _ _ | ShowInfo _ _ | ShowWarning _ _ => true
  | _ => false
  end.

(** The lines the log tasks of a queue add to the log. *)
Definition logged (q : list task) : list string :=
  flat_map (fun t => match t with AppendLog m => [m +:+ nl] | _ => [] end) q.

(** The texts that the status tasks of a queue set. *)
Definition status_texts (q : list task) : list string :=
  flat_map (fun t => match t with StatusText s => [s] | _ => [] end) q.

(** The status tasks that the progress tasks of a queue put behind it. *)
Definition requeued (q : list task) : list task :=
  flat_map
    (fun t =>
       match t with
       | PreprocessStatus _ _ m => [StatusText ("Status: " +:+ m)]
       | _ => []
       end) q.

End QueueSpec.

(** A queue as a preprocessing run leaves it, and two behaviours of the
    message boxes. *)
Module QueueExamples.

Definition returns (t : task) : option exn := None.
Definition rejects (t : task) : option exn :=
  Some (Exn TypeError "showinfo() takes from 0 to 2 positional arguments but 3 were given").

Definition busy_window : window :=
  Window "Status: Ready" "started" []
    [PreprocessStatus 100 250 "Indexing: 100/250"; AppendLog "Index complete.";
     StatusText "Status: Running audio-aes..."; ShowInfo "Preprocessing Complete" "Done."]
    0.

Definition stuck_window : window :=
  Window "Status: Ready" EmptyString []
    [PreprocessStatus 1 2 "Indexing: 1/2"; ShowInfo "Preprocessing Complete" "Done.";
     AppendLog "later"]
    0.

End QueueExamples.

(** ** Playing a file: [play_selected] *)

Module Player.
Section Player.

Variable O : oracles.
(** [pygame.mixer.music.stop()], [.load(file_path)] and [.play()]: [None]
    when the three calls return. *)
Variable mixer_play : gmap string node -> string -> option exn.
(** [isinstance(e, pygame.error)]. *)
Variable pygame_error : exn -> bool.

(** [self.play_selected()], with the file that plays afterwards. *)
Definition play_selected (playback_enabled : bool) (fs : gmap string node)
    (a : review_app) : review_app * option string :=
  if negb playback_enabled then
    (status "Playback disabled (mixer init failed)." a, None)
  else
    match selection (tree a) with
    | [] => (status "Select a file to play." a, None)
    | item_id :: others =>
        let a :=
          match others with
          | [] => a
          | _ => status "Multiple files selected. Playing the first one." a
          end in
        match Viewer.get_entry_by_iid a item_id with
        | None =>
            (status ("Error finding data for selected item: " +:+ item_id) a, None)
        | Some entry =>
            let file_path := path entry in
            let display_name := filename entry in
            if negb (FS.exists_ fs file_path) then
              (emit (ShowError "File Not Found"
                       ("The audio file could not be found at the expected path:" +:+ nl
                        +:+ file_path))
                 (status ("Error - File not found: " +:+ display_name) a), None)
            else
              match mixer_play fs file_path with
              | None => (status ("Playing: " +:+ display_name) a, Some file_path)
              | Some e =>
                  if pygame_error e then
                    (emit (ShowError "Playback Error"
                             ("Could not play file:" +:+ nl +:+ file_path +:+ nl +:+ nl
                              +:+ "Pygame Error: " +:+ exn_msg e))
                       (status ("Error playing " +:+ display_name +:+ ": " +:+ exn_msg e) a),
                     None)
                  else
                    (emit (ShowError "Playback Error"
                             ("An unexpected error occurred during playback attempt:" +:+ nl
                              +:+ exn_msg e +:+ nl +:+ nl +:+ format_exc O e))
                       (status ("Unexpected error playing " +:+ display_name) a),
                     None)
              end
        end
    end.

End Player.
End Player.

(** ** The list of the selected files: [export_selected_list] *)

Module ListExport.
Section ListExport.

Variable O : oracles.
(** [json.dumps({"path": p})]. *)
Variable json_dumps_path : string -> string.
(** [f.write(s)] raising, as for a text that cannot be encoded: [None]
    when the call returns. *)
Variable write_error : string -> option exn.

Definition is_jsonl (output_path : string) : bool :=
  Py.endswith (Py.lower_ascii output_path) ".jsonl".

(** The line written for a path. *)
Definition line_of (output_path file_path : string) : string :=
  (if is_jsonl output_path then json_dumps_path file_path else file_path) +:+ nl.

(** The loop of writes: the text written so far and the count, and the
    exception that ended the loop, if any. *)
Fixpoint write_paths (output_path : string) (paths : list string)
    (content : string) (count : nat) : string * nat * option exn :=
  match paths with
  | [] => (content, count, None)
  | file_path :: rest =>
      match write_error (line_of output_path file_path) with
      | Some e => (content, count, Some e)
      | None =>
          write_paths output_path rest (content +:+ line_of output_path file_path) (S count)
      end
  end.

(** The [except Exception] clause. *)
Definition export_failed (e : exn) (a : review_app) : review_app :=
  emit (ShowError "Export Error"
          ("Could not write the file list:" +:+ nl +:+ exn_msg e +:+ nl +:+ nl
           +:+ format_exc O e))
    (status "Error exporting file list." a).

(** [self.export_selected_list()], for the answer of the file dialog (the
    empty string when it is cancelled). *)
Definition export_selected_list (fs : gmap string node) (a : review_app)
    (output_path : string) : gmap string node * review_app :=
  match selection (tree a) with
  | [] =>
      (fs, emit (ShowInfo "No Selection"
                   "Please select one or more files to export their paths.") a)
  | selected_iids =>
      if negb (Py.nonempty output_path) then (fs, a)
      else
        let ordered_selection_paths :=
          List.filter (fun item => string_mem item selected_iids) (get_children (tree a)) in
        let count_to_export := length ordered_selection_paths in
        let a := status ("Exporting " +:+ Py.str_of_nat count_to_export
                         +:+ " file paths...") a in
        (* [open(output_path, 'w')] empties or creates the file *)
        match FS.write fs output_path EmptyString with
        | Raise e => (fs, export_failed e a)
        | Ok fs =>
            let '(content, count, raised) :=
              write_paths output_path ordered_selection_paths EmptyString 0 in
            (* leaving the [with] block closes the file with what was written *)
            let fs := <[output_path := File content]> fs in
            match raised with
            | Some e => (fs, export_failed e a)
            | None =>
                let a := status ("Successfully exported " +:+ Py.str_of_nat count
                                 +:+ " file paths to " +:+ Path.name output_path +:+ ".") a in
                (fs, emit (ShowInfo "Export Complete"
                             ("Successfully exported " +:+ Py.str_of_nat count
                              +:+ " file paths to:" +:+ nl +:+ output_path)) a)
            end
        end
  end.

End ListExport.
End ListExport.

(** ** The combined audio file: [_perform_audio_export] *)

(** The locals of the loop over the selected files. *)
Record export_state (segment : Type) := ExportState {
  combined_audio : option segment;
  exported_count : nat;
  error_files : list string
}.
Arguments ExportState {segment} _ _ _.
Arguments combined_audio {segment} _.
Arguments exported_count {segment} _.
Arguments error_files {segment} _.

Module AudioExport.
Section AudioExport.

Variable O : oracles.
(** [AudioSegment], [AudioSegment.from_wav(path)] and [+] on segments. *)
Variable segment : Type.
Variable from_wav : gmap string node -> string -> result segment.
Variable concat : segment -> segment -> segment.
(** [combined_audio.export(output_path, format=output_format)]: the files
    afterwards and the exception raised, if any. *)
Variable export :
  segment -> string -> string -> gmap string node -> gmap string node * option exn.
(** [isinstance(e, CouldntEncodeError)] and [type(e).__name__]. *)
Variable couldnt_encode : exn -> bool.
Variable class_name : exn -> string.

Definition position (i total : nat) : string :=
  Py.str_of_nat (i + 1) +:+ "/" +:+ Py.str_of_nat total.

(** The name a file is logged under. *)
Definition logged_name (a : review_app) (file_path : string) : string :=
  match Viewer.get_entry_by_iid a file_path with
  | None => Path.name file_path
  | Some entry => filename entry
  end.

(** One turn of the loop, for the [i]-th path. *)
Definition export_item (a : review_app) (total : nat)
    (st : export_state segment * world) (i : nat) (file_path : string)
  : export_state segment * world :=
  let '(s, w) := st in
  let w := _update_status ("Exporting audio... Processing file " +:+ position i total) w in
  let filename := logged_name a file_path in
  let w := _append_log ("  [" +:+ position i total +:+ "] Adding: " +:+ filename) w in
  if negb (FS.exists_ (w_fs w) file_path) then
    (ExportState (combined_audio s) (exported_count s)
       (error_files s ++ [filename +:+ " (Not Found)"]),
     _append_log ("    Error: File not found - " +:+ file_path) w)
  else
    match from_wav (w_fs w) file_path with
    | Ok audio_segment =>
        (ExportState
           (Some match combined_audio s with
                 | None => audio_segment
                 | Some combined => concat combined audio_segment
                 end)
           (S (exported_count s)) (error_files s),
         w)
    | Raise e =>
        match exn_cls e with
        | FileNotFoundError =>
            (ExportState (combined_audio s) (exported_count s)
               (error_files s ++ [filename +:+ " (Not Found)"]),
             _append_log ("    Error: File not found during pydub load - " +:+ filename) w)
        | _ =>
            (ExportState (combined_audio s) (exported_count s)
               (error_files s ++ [filename +:+ " (" +:+ class_name e +:+ ")"]),
             _append_log ("    Error loading/processing " +:+ filename +:+ ": "
                          +:+ class_name e +:+ " - " +:+ exn_msg e) w)
        end
    end.

(** The loop over [enumerate(ordered_selection_paths)]. *)
Fixpoint export_loop (a : review_app) (total : nat) (paths : list string) (i : nat)
    (st : export_state segment * world) : export_state segment * world :=
  match paths with
  | [] => st
  | file_path :: rest => export_loop a total rest (S i) (export_item a total st i file_path)
  end.

Definition skipped_note (errors : list string) : string :=
  nl +:+ nl +:+ "The following files encountered errors and were skipped:" +:+ nl
  +:+ " - " +:+ Py.join (nl +:+ " - ") errors.

(** [self._perform_audio_export(selected_iids, output_path, output_format)],
    in the worker thread; it reads the table and the loaded records. *)
Definition _perform_audio_export (a : review_app) (w : world)
    (selected_iids : list string) (output_path output_format : string) : world :=
  let '(start_time, w) := now O w in
  let ordered_selection_paths :=
    List.filter (fun item => string_mem item selected_iids) (get_children (tree a)) in
  let total_to_export := length ordered_selection_paths in
  let w := _append_log ("Preparing to export " +:+ Py.str_of_nat total_to_export
                        +:+ " selected files...") w in
  let '(s, w) :=
    export_loop a total_to_export ordered_selection_paths 0 (ExportState None 0 [], w) in
  match combined_audio s with
  | None =>
      let w := _update_status "Export failed - no valid audio files could be processed." w in
      let w := _append_log "Export cancelled: No valid audio segments were loaded." w in
      put (ShowError "Export Failed" "No valid audio files could be processed for export.") w
  | Some audio =>
      let w := _append_log ("Finalizing export... Saving combined audio to "
                            +:+ output_path) w in
      let w := _update_status ("Saving combined audio to " +:+ Path.name output_path
                               +:+ "...") w in
      match export audio output_path output_format (w_fs w) with
      | (fs, None) =>
          let w := set_fs w fs in
          let '(t, w) := now O w in
          let export_time := (t - start_time)%Q in
          let w := _update_status
                     ("Successfully exported " +:+ Py.str_of_nat (exported_count s)
                      +:+ " files to " +:+ Path.name output_path +:+ " in "
                      +:+ fmt_2f O export_time +:+ "s.") w in
          let w := _append_log
                     ("Successfully exported " +:+ Py.str_of_nat (exported_count s)
                      +:+ " combined files in " +:+ fmt_2f O export_time +:+ "s.") w in
          let final_message :=
            "Successfully exported " +:+ Py.str_of_nat (exported_count s)
            +:+ " combined audio files to:" +:+ nl +:+ output_path in
          match error_files s with
          | [] => put (ShowInfo "Export Complete" final_message) w
          | errors =>
              put (ShowWarning "Export Complete with Errors"
                     (final_message +:+ skipped_note errors)) w
          end
      | (fs, Some e) =>
          let w := set_fs w fs in
          if couldnt_encode e then
            let err_msg :=
              "Could not encode the audio file (format: " +:+ output_format +:+ ")." +:+ nl
              +:+ "Ensure FFmpeg is installed correctly and accessible in your system's PATH for non-WAV export."
              +:+ nl +:+ nl +:+ "Pydub Error: " +:+ exn_msg e in
            let w := _update_status "Export error (encoding). Check log." w in
            let w := _append_log ("Export Encoding Error: " +:+ err_msg +:+ nl
                                  +:+ format_exc O e) w in
            put (ShowError "Export Error" err_msg) w
          else
            let err_msg :=
              "An unexpected error occurred during the final export save step:" +:+ nl
              +:+ exn_msg e in
            let w := _update_status "Export error (saving). Check log." w in
            let w := _append_log ("Unexpected Export Error: " +:+ err_msg +:+ nl
                                  +:+ format_exc O e) w in
            put (ShowError "Export Error" err_msg) w
      end
  end.

End AudioExport.
End AudioExport.

(** The export, in the terms of its user. *)
Module ExportSpec.
Section ExportSpec.

Variable segment : Type.
Variable from_wav : gmap string node -> string -> result segment.
Variable concat : segment -> segment -> segment.

(** The rows of the table that are among the given items, in the order of
    the table. *)
Definition chosen (a : review_app) (selected_iids : list string) : list string :=
  List.filter (fun item => string_mem item selected_iids) (get_children (tree a)).

(** The segment of a file that is there and can be read. *)
Definition segment_of (fs : gmap string node) (file_path : string) : option segment :=
  if FS.exists_ fs file_path then
    match from_wav fs file_path with
    | Ok s => Some s
    | Raise _ => None
    end
  else None.

Definition segments (fs : gmap string node) (paths : list string) : list segment :=
  flat_map (fun p => match segment_of fs p with Some s => [s] | None => [] end) paths.

Definition failing (fs : gmap string node) (paths : list string) : list string :=
  List.filter (fun p => match segment_of fs p with Some _ => false | None => true end) paths.

(** The segments joined from left to right. *)
Definition joined (l : list segment) : option segment :=
  match l with
  | [] => None
  | s :: rest => Some (fold_left concat rest s)
  end.

End ExportSpec.
End ExportSpec.

(** * Properties *)

Import ReaderSpec.

(** * Properties of the score store reader *)

Module ReaderFacts.
Section ReaderFacts.

Variable json_loads : string -> option json.

Local Abbreviation valid_lines := (ReaderSpec.valid_lines json_loads).
Local Abbreviation parsed := (ReaderSpec.parsed json_loads).
Local Abbreviation contribution := (ReaderSpec.contribution json_loads).

Local Abbreviation read_paths := (Reader.read_paths json_loads).
Local Abbreviation read_scores := (Reader.read_scores json_loads).
Local Abbreviation load_item := (Reader.load_item json_loads).
Local Abbreviation load_loop := (Reader.load_loop json_loads).
Local Abbreviation load_pair_files := (Reader.load_pair_files json_loads).

Lemma read_paths_from (lines : list string) (content : list json) (invalid : nat) :
  fold_left
    (fun '(paths_content, invalid) line =>
       match json_loads line with
       | Some v => (paths_content ++ [v], invalid)
       | None => (paths_content, S invalid)
       end) lines (content, invalid)
  = (content ++ parsed lines,
     invalid + (length lines - length (valid_lines lines))).
Proof.
  revert content invalid.
  induction lines as [|line lines IH]; intros content invalid; simpl.
  - by rewrite app_nil_r, Nat.add_0_r.
  - destruct (json_loads line) as [v|]; simpl; rewrite IH.
    + by rewrite <- app_assoc.
    + f_equal.
      assert (length (valid_lines lines) <= length lines)
        by (unfold valid_lines; apply List.filter_length_le).
      lia.
Qed.

Lemma read_paths_spec (lines : list string) (invalid : nat) :
  read_paths lines invalid
  = (parsed lines, invalid + (length lines - length (valid_lines lines))).
Proof. unfold Reader.read_paths. by rewrite read_paths_from. Qed.

Lemma read_scores_from (lines : list string) (content : list json) :
  fold_left
    (fun scores_content line =>
       match json_loads line with
       | Some v => scores_content ++ [v]
       | None => scores_content
       end) lines content
  = content ++ parsed lines.
Proof.
  revert content.
  induction lines as [|line lines IH]; intros content; simpl.
  - by rewrite app_nil_r.
  - destruct (json_loads line) as [v|]; rewrite IH; [by rewrite <- app_assoc | done].
Qed.

Lemma read_scores_spec (lines : list string) : read_scores lines = parsed lines.
Proof. unfold Reader.read_scores. by rewrite read_scores_from. Qed.

Lemma parsed_length (lines : list string) :
  length (parsed lines) = length (valid_lines lines).
Proof.
  induction lines as [|line lines IH]; simpl; [done|].
  destruct (json_loads line); simpl; by rewrite ?IH.
Qed.

Lemma parsed_skip (l1 l2 : list string) (bad : string) :
  json_loads bad = None -> parsed (l1 ++ bad :: l2) = parsed (l1 ++ l2).
Proof.
  intros Hbad. unfold parsed. rewrite !flat_map_app. simpl. by rewrite Hbad.
Qed.

Lemma valid_lines_skip (l1 l2 : list string) (bad : string) :
  json_loads bad = None -> valid_lines (l1 ++ bad :: l2) = valid_lines (l1 ++ l2).
Proof.
  intros Hbad. unfold valid_lines. rewrite !List.filter_app. simpl. by rewrite Hbad.
Qed.

(** The pairing loop only appends: its result on any accumulator is the
    accumulator followed by its result on the empty one. *)
Lemma pair_loop_acc (fs : gmap string node) (pairs : list (json * json))
    (data : list entry) (invalid : nat) :
  Reader.pair_loop fs pairs data invalid
  = (data ++ (Reader.pair_loop fs pairs [] 0).1.1,
     invalid + (Reader.pair_loop fs pairs [] 0).1.2,
     (Reader.pair_loop fs pairs [] 0).2).
Proof.
  revert data invalid.
  induction pairs as [|[path_data score_data] rest IH]; intros data invalid; simpl.
  - by rewrite app_nil_r, Nat.add_0_r.
  - destruct (py_get path_data "path") as [v|e]; simpl;
      [|by rewrite app_nil_r, Nat.add_0_r].
    destruct (truthy v); simpl.
    2:{ rewrite (IH data (S invalid)), (IH [] 1). simpl. do 2 f_equal. lia. }
    destruct (py_Path v) as [p|e]; simpl; [|by rewrite app_nil_r, Nat.add_0_r].
    destruct (FS.is_file fs (Path.str p)); simpl.
    2:{ rewrite (IH data (S invalid)), (IH [] 1). simpl. do 2 f_equal. lia. }
    destruct (Reader.make_entry p score_data) as [en|e]; simpl;
      [|by rewrite app_nil_r, Nat.add_0_r].
    rewrite (IH (data ++ [en]) invalid), (IH [en] 0). simpl.
    by rewrite <- app_assoc.
Qed.

Lemma merge_contents_acc fs pc sc data invalid invalid0 :
  (Reader.merge_contents fs pc sc data invalid).1
  = data ++ (Reader.merge_contents fs pc sc [] invalid0).1.
Proof.
  unfold Reader.merge_contents.
  destruct (negb (length pc =? length sc)); simpl; [by rewrite app_nil_r|].
  rewrite (pair_loop_acc fs _ data invalid), (pair_loop_acc fs _ [] invalid0).
  destruct (Reader.pair_loop fs (combine pc sc) [] 0) as [[d i] [e|]]; done.
Qed.

Lemma load_pair_files_acc fs pf sf data invalid :
  (load_pair_files fs pf sf data invalid).1
  = data ++ (load_pair_files fs pf sf [] 0).1.
Proof.
  unfold Reader.load_pair_files.
  destruct (FS.read fs pf) as [ptext|e]; simpl; [|by rewrite app_nil_r].
  rewrite !read_paths_spec.
  destruct (FS.read fs sf) as [stext|e]; simpl; [|by rewrite app_nil_r].
  apply merge_contents_acc.
Qed.

Lemma load_item_data fs base_dir st item :
  all_data (load_item fs base_dir st item)
  = all_data st ++ contribution fs base_dir item.
Proof.
  unfold contribution, Reader.load_item.
  destruct (FS.isdir fs _); simpl; [|by rewrite app_nil_r].
  destruct (_ && _); simpl; [|by rewrite app_nil_r].
  pose proof (load_pair_files_acc fs
    (Path.join (Path.join base_dir item) PATHS_FILENAME)
    (Path.join (Path.join base_dir item) SCORES_FILENAME)
    (all_data st) (invalid_entries_count st)) as H.
  destruct (load_pair_files fs _ _ (all_data st) _) as [d i].
  destruct (load_pair_files fs _ _ [] 0) as [d0 i0]. simpl in *. done.
Qed.

Lemma load_fold_data fs base_dir items st :
  all_data (fold_left (load_item fs base_dir) items st)
  = all_data st ++ flat_map (contribution fs base_dir) items.
Proof.
  revert st. induction items as [|item items IH]; intros st; simpl.
  - by rewrite app_nil_r.
  - by rewrite IH, load_item_data, <- app_assoc.
Qed.


Lemma read_ok_exists fs p text : FS.read fs p = Ok text -> FS.exists_ fs p = true.
Proof.
  unfold FS.read, FS.exists_. destruct (fs !! p) as [[c|es]|]; by intros.
Qed.

(** The loop of the whole listing leaves the list that the function
    returns. *)
Lemma load_audio_data_returns fs base_dir items :
  Py.nonempty base_dir = true ->
  FS.listdir fs base_dir = Ok items ->
  exists msg n,
    Reader.load_audio_data json_loads fs base_dir
    = Ok (flat_map (contribution fs base_dir) items, msg, n).
Proof.
  intros Hne Hls. unfold Reader.load_audio_data. rewrite Hne, Hls.
  assert (FS.isdir fs base_dir = true) as ->.
  { unfold FS.listdir in Hls. unfold FS.isdir.
    destruct (fs !! base_dir) as [[c|es]|]; by simplify_eq. }
  simpl.
  pose proof (load_fold_data fs base_dir items Reader.load_init) as Hd.
  simpl in Hd. unfold Reader.load_loop. rewrite <- Hd.
  destruct (all_data _) as [|e data]; [destruct (found_files_flag _)|]; eauto.
Qed.

(** Every entry the pairing loop appends names a regular file. *)
Lemma pair_loop_files fs pairs data invalid :
  Forall (fun e => FS.is_file fs (path e) = true) data ->
  Forall (fun e => FS.is_file fs (path e) = true)
    (Reader.pair_loop fs pairs data invalid).1.1.
Proof.
  revert data invalid.
  induction pairs as [|[path_data score_data] rest IH]; intros data invalid Hd;
    simpl; [done|].
  destruct (py_get path_data "path") as [v|e]; simpl; [|done].
  destruct (truthy v); simpl; [|by apply IH].
  destruct (py_Path v) as [p|e]; simpl; [|done].
  destruct (FS.is_file fs (Path.str p)) eqn:Hf; simpl; [|by apply IH].
  destruct (Reader.make_entry p score_data) as [en|e] eqn:Hen; simpl; [|done].
  apply IH. apply Forall_app. split; [done|]. constructor; [|done].
  unfold Reader.make_entry in Hen.
  destruct (py_get score_data "CE"), (py_get score_data "CU"),
    (py_get score_data "PC"), (py_get score_data "PQ"); by simplify_eq.
Qed.

Lemma contribution_files fs base_dir item :
  Forall (fun e => FS.is_file fs (path e) = true) (contribution fs base_dir item).
Proof.
  unfold contribution, Reader.load_item.
  destruct (FS.isdir fs _); simpl; [|done].
  destruct (_ && _); simpl; [|done].
  unfold Reader.load_pair_files.
  destruct (FS.read fs _) as [ptext|e]; simpl; [|done].
  rewrite read_paths_spec.
  destruct (FS.read fs _) as [stext|e]; simpl; [|done].
  unfold Reader.merge_contents.
  destruct (negb _); simpl; [done|].
  pose proof (pair_loop_files fs
    (combine (parsed (Py.lines ptext)) (read_scores (Py.lines stext))) []
    (0 + (length (Py.lines ptext) - length (valid_lines (Py.lines ptext))))
    (List.Forall_nil _)) as H.
  destruct (Reader.pair_loop _ _ _ _) as [[d i] [e|]]; done.
Qed.

(** A path value that counts as false gives no path. *)
Lemma falsy_path_empty (v : json) :
  truthy (to_pyval v) = false ->
  Py.nonempty (match v with JStr s => s | _ => EmptyString end) = false.
Proof. by destruct v. Qed.

Lemma pair_loop_well_formed fs pairs data invalid :
  Forall (fun pair => manifest_entry_ok pair.1 = true /\ score_entry_ok pair.2 = true)
    pairs ->
  exists skipped,
    Reader.pair_loop fs pairs data invalid
    = (data ++ List.map record_of (List.filter (path_is_regular_file fs) pairs),
       invalid + skipped, None).
Proof.
  revert data invalid.
  induction pairs as [|[p s] rest IH]; intros data invalid Hwf; simpl.
  - exists 0. by rewrite app_nil_r, Nat.add_0_r.
  - apply Forall_cons in Hwf as [[Hp Hs] Hrest]. simpl in Hp, Hs.
    destruct s as [| | | | | |sitems]; try done.
    destruct p as [| | | | | |items]; try done.
    assert (forall v, assoc "path" items = v ->
              truthy (match v with Some j => to_pyval j | None => None end) = false ->
              exists skipped,
                (if negb (truthy (match v with Some j => to_pyval j | None => None end))
                 then Reader.pair_loop fs rest data (S invalid)
                 else Reader.pair_loop fs rest data (S invalid))
                = (data ++ List.map record_of (List.filter (path_is_regular_file fs) rest),
                   invalid + skipped, None)) as Hskip.
    { intros v _ ->. simpl. destruct (IH data (S invalid) Hrest) as [k Hk].
      rewrite Hk. exists (S k). do 2 f_equal. lia. }
    unfold path_is_regular_file at 1. simpl. simpl in Hp.
    destruct (assoc "path" items) as [v|] eqn:Ha; simpl.
    + destruct (truthy (to_pyval v)) eqn:Htr; simpl.
      * destruct v as [| | | |str| |]; simpl in Hp, Htr; try congruence.
        simpl. rewrite Htr. simpl.
        destruct (FS.is_file fs (Path.str str)) eqn:Hf; simpl.
        -- destruct (IH (data ++ [Entry (Path.name str) (Path.str str)
                 (match assoc "CE" sitems with Some v => to_pyval v | None => None end)
                 (match assoc "CU" sitems with Some v => to_pyval v | None => None end)
                 (match assoc "PC" sitems with Some v => to_pyval v | None => None end)
                 (match assoc "PQ" sitems with Some v => to_pyval v | None => None end)])
               invalid Hrest) as [k Hk].
           unfold Reader.make_entry. simpl. rewrite Hk. exists k.
           rewrite <- app_assoc. simpl. do 3 f_equal.
           unfold record_of, manifest_path, score_of. simpl. by rewrite Ha.
        -- destruct (IH data (S invalid) Hrest) as [k Hk]. rewrite Hk.
           exists (S k). do 2 f_equal. lia.
      * rewrite (falsy_path_empty v Htr). simpl.
        destruct (IH data (S invalid) Hrest) as [k Hk]. rewrite Hk.
        exists (S k). do 2 f_equal. lia.
    + destruct (IH data (S invalid) Hrest) as [k Hk]. rewrite Hk.
      exists (S k). do 2 f_equal. lia.
Qed.

(** C2. A subdirectory whose manifest and scores files have different
    numbers of valid lines contributes no record, and the load goes on with
    the other subdirectories: the list returned for the base directory is
    the one the remaining subdirectories contribute. *)
Theorem C2_mismatch_contributes_nothing
    (fs : gmap string node) (base_dir item ptext stext : string)
    (before after : list string) :
  Py.nonempty base_dir = true ->
  FS.listdir fs base_dir = Ok (before ++ item :: after) ->
  FS.isdir fs (Path.join base_dir item) = true ->
  FS.read fs (Path.join (Path.join base_dir item) PATHS_FILENAME) = Ok ptext ->
  FS.read fs (Path.join (Path.join base_dir item) SCORES_FILENAME) = Ok stext ->
  length (valid_lines (Py.lines ptext)) <> length (valid_lines (Py.lines stext)) ->
  contribution fs base_dir item = []
  /\ (forall st, all_data (load_item fs base_dir st item) = all_data st)
  /\ exists msg n,
       Reader.load_audio_data json_loads fs base_dir
       = Ok (flat_map (contribution fs base_dir) (before ++ after), msg, n).
Proof.
  intros Hne Hls Hdir Hp Hs Hlen.
  assert (contribution fs base_dir item = []) as Hc.
  { unfold contribution, Reader.load_item. rewrite Hdir.
    rewrite (read_ok_exists _ _ _ Hp), (read_ok_exists _ _ _ Hs). simpl.
    unfold Reader.load_pair_files. rewrite Hp, read_paths_spec, Hs.
    unfold Reader.merge_contents.
    rewrite read_scores_spec, !parsed_length.
    apply Nat.eqb_neq in Hlen. by rewrite Hlen. }
  split; [done|]. split.
  - intros st. by rewrite load_item_data, Hc, app_nil_r.
  - destruct (load_audio_data_returns fs base_dir _ Hne Hls) as (msg & n & Hr).
    exists msg, n. rewrite Hr. do 2 f_equal.
    rewrite !flat_map_app. simpl. by rewrite Hc.
Qed.

(** C6, as the code has it. A line that is not valid JSON is skipped and the
    remaining lines of the file are read as if it were not there; in the
    manifest file it adds one to the count of invalid entries, in the scores
    file it is not counted. *)
Theorem C6_invalid_line_skipped (l1 l2 : list string) (bad : string) (invalid : nat) :
  json_loads bad = None ->
  read_paths (l1 ++ bad :: l2) invalid
  = ((read_paths (l1 ++ l2) invalid).1, S (read_paths (l1 ++ l2) invalid).2)
  /\ read_scores (l1 ++ bad :: l2) = read_scores (l1 ++ l2).
Proof.
  intros Hbad. split.
  - rewrite !read_paths_spec. simpl.
    rewrite (parsed_skip _ _ _ Hbad), (valid_lines_skip _ _ _ Hbad). f_equal.
    assert (length (valid_lines (l1 ++ l2)) <= length (l1 ++ l2))
      by (unfold valid_lines; apply List.filter_length_le).
    rewrite !length_app in *. simpl. lia.
  - by rewrite !read_scores_spec, (parsed_skip _ _ _ Hbad).
Qed.

Lemma load_loop_files fs base_dir items :
  Forall (fun e => FS.is_file fs (path e) = true)
    (all_data (load_loop fs base_dir items)).
Proof.
  unfold Reader.load_loop. rewrite load_fold_data. simpl.
  induction items as [|i items IH]; simpl; [done|].
  apply Forall_app. split; [apply contribution_files | done].
Qed.

(** C1, as the code has it. For every load, every record of the returned
    list names a regular file, and the list is what the listed entries
    contribute, one after the other.  A subdirectory whose two files have
    the same number of valid lines, all of them objects of the schema,
    contributes exactly the records of the paired entries whose path is
    given and is a regular file, in the order of the lines.  A subdirectory
    whose two files have different numbers of valid lines contributes no
    record. *)
Theorem C1_records_are_the_regular_files (fs : gmap string node) (base_dir : string) :
  (forall data msg n,
     Reader.load_audio_data json_loads fs base_dir = Ok (data, msg, n) ->
     Forall (fun e => FS.is_file fs (path e) = true) data)
  /\ (forall items,
        Py.nonempty base_dir = true ->
        FS.listdir fs base_dir = Ok items ->
        exists msg n,
          Reader.load_audio_data json_loads fs base_dir
          = Ok (flat_map (contribution fs base_dir) items, msg, n))
  /\ (forall item ptext stext,
        FS.isdir fs (Path.join base_dir item) = true ->
        FS.read fs (Path.join (Path.join base_dir item) PATHS_FILENAME) = Ok ptext ->
        FS.read fs (Path.join (Path.join base_dir item) SCORES_FILENAME) = Ok stext ->
        length (valid_lines (Py.lines ptext)) = length (valid_lines (Py.lines stext)) ->
        forallb manifest_entry_ok (parsed (Py.lines ptext)) = true ->
        forallb score_entry_ok (parsed (Py.lines stext)) = true ->
        contribution fs base_dir item
        = List.map record_of
            (List.filter (path_is_regular_file fs)
               (combine (parsed (Py.lines ptext)) (parsed (Py.lines stext)))))
  /\ (forall item ptext stext,
        FS.isdir fs (Path.join base_dir item) = true ->
        FS.read fs (Path.join (Path.join base_dir item) PATHS_FILENAME) = Ok ptext ->
        FS.read fs (Path.join (Path.join base_dir item) SCORES_FILENAME) = Ok stext ->
        length (valid_lines (Py.lines ptext)) <> length (valid_lines (Py.lines stext)) ->
        contribution fs base_dir item = []).
Proof.
  split; [|split; [|split]].
  4:{ intros item ptext stext Hdir Hp Hs Hlen.
      unfold contribution, Reader.load_item. rewrite Hdir.
      rewrite (read_ok_exists _ _ _ Hp), (read_ok_exists _ _ _ Hs). simpl.
      unfold Reader.load_pair_files. rewrite Hp, read_paths_spec, Hs.
      unfold Reader.merge_contents.
      rewrite read_scores_spec, !parsed_length.
      apply Nat.eqb_neq in Hlen. by rewrite Hlen. }
  - intros data msg n. unfold Reader.load_audio_data.
    destruct (negb (Py.nonempty base_dir) || negb (FS.isdir fs base_dir)).
    { intros [= <- _ _]. constructor. }
    destruct (FS.listdir fs base_dir) as [items|e]; [|done].
    pose proof (load_loop_files fs base_dir items) as Hf.
    destruct (all_data (load_loop fs base_dir items)) as [|e l];
      [destruct (found_files_flag _); intros [= <- _ _]; constructor|].
    by intros [= <- _ _].
  - intros items. apply load_audio_data_returns.
  - intros item ptext stext Hdir Hp Hs Hlen Hpok Hsok.
    unfold contribution, Reader.load_item. rewrite Hdir.
    rewrite (read_ok_exists _ _ _ Hp), (read_ok_exists _ _ _ Hs). simpl.
    unfold Reader.load_pair_files. rewrite Hp, read_paths_spec, Hs.
    unfold Reader.merge_contents.
    rewrite read_scores_spec, !parsed_length.
    apply Nat.eqb_eq in Hlen. rewrite Hlen. simpl.
    edestruct (pair_loop_well_formed fs
      (combine (parsed (Py.lines ptext)) (parsed (Py.lines stext))) []) as [k Hk];
      [|rewrite Hk; done].
    apply Forall_forall. intros [p s] Hin. simpl.
    rewrite forallb_forall in Hpok, Hsok.
    split; [apply Hpok; eapply in_combine_l | apply Hsok; eapply in_combine_r];
      apply list_elem_of_In; done.
Qed.

End ReaderFacts.

Import ReaderExamples.


Lemma C2_witness :
  ReaderSpec.contribution ReaderExamples.json_loads data_fs "/data" "A" = []
  /\ (forall st, all_data (Reader.load_item ReaderExamples.json_loads data_fs "/data" st "A") = all_data st)
  /\ exists msg n,
       Reader.load_audio_data ReaderExamples.json_loads data_fs "/data"
       = Ok (flat_map (ReaderSpec.contribution ReaderExamples.json_loads data_fs "/data") ([] ++ ["B"; "C"]), msg, n).
Proof.
  apply (C2_mismatch_contributes_nothing ReaderExamples.json_loads data_fs "/data" "A"
           (path_line "/data/A/x.wav" +:+ path_line "/data/A/y.wav") score_line
           [] ["B"; "C"]);
    try (vm_compute; reflexivity).
  vm_compute. lia.
Defined.

(** C6 at a manifest of three lines whose second is not JSON. *)
Lemma C6_witness :
  Reader.read_paths ReaderExamples.json_loads
    ([path_line "/data/A/x.wav"] ++ bad_line :: [path_line "/data/A/y.wav"]) 0
  = ((Reader.read_paths ReaderExamples.json_loads
        ([path_line "/data/A/x.wav"] ++ [path_line "/data/A/y.wav"]) 0).1,
     S (Reader.read_paths ReaderExamples.json_loads
          ([path_line "/data/A/x.wav"] ++ [path_line "/data/A/y.wav"]) 0).2)
  /\ Reader.read_scores ReaderExamples.json_loads
       ([path_line "/data/A/x.wav"] ++ bad_line :: [path_line "/data/A/y.wav"])
     = Reader.read_scores ReaderExamples.json_loads
         ([path_line "/data/A/x.wav"] ++ [path_line "/data/A/y.wav"]).
Proof.
  apply (C6_invalid_line_skipped ReaderExamples.json_loads
           [path_line "/data/A/x.wav"] [path_line "/data/A/y.wav"] bad_line 0).
  vm_compute. reflexivity.
Defined.

(** C6 fails for the scores file: subdirectory C holds a scores file whose
    second line is not valid JSON, and loading it leaves the count of
    invalid entries at zero. *)
Lemma C6_scores_line_not_counted :
  FS.read data_fs "/data/C/scores.jsonl" = Ok (score_line +:+ bad_line)
  /\ In bad_line (Py.lines (score_line +:+ bad_line))
  /\ ReaderExamples.json_loads bad_line = None
  /\ Reader.load_item ReaderExamples.json_loads data_fs "/data" Reader.load_init "C"
     = LoadState [score_5_7_entry "v.wav" "/data/C/v.wav"] true 1 0.
Proof. vm_compute. repeat split; auto. Qed.

(** C1 at the base directory /data: the two records returned name regular
    files, and of the two paired entries of subdirectory B the one whose
    file exists is loaded. *)
Lemma C1_witness :
  Forall (fun e => FS.is_file data_fs (path e) = true)
    [score_5_7_entry "z.wav" "/data/B/z.wav"; score_5_7_entry "v.wav" "/data/C/v.wav"]
  /\ ReaderSpec.contribution ReaderExamples.json_loads data_fs "/data" "B"
     = List.map ReaderSpec.record_of
         (List.filter (ReaderSpec.path_is_regular_file data_fs)
            (combine
               (ReaderSpec.parsed ReaderExamples.json_loads
                  (Py.lines (path_line "/data/B/z.wav" +:+ path_line "/data/B/gone.wav")))
               (ReaderSpec.parsed ReaderExamples.json_loads
                  (Py.lines (score_line +:+ score_line)))))
  /\ ReaderSpec.contribution ReaderExamples.json_loads data_fs "/data" "A" = [].
Proof.
  split; [|split].
  3:{ apply (proj2 (proj2 (proj2 (C1_records_are_the_regular_files
                                    ReaderExamples.json_loads data_fs "/data"))) "A"
               (path_line "/data/A/x.wav" +:+ path_line "/data/A/y.wav") score_line);
        vm_compute; (reflexivity || discriminate). }
  - apply (proj1 (C1_records_are_the_regular_files ReaderExamples.json_loads
                    data_fs "/data")
             [score_5_7_entry "z.wav" "/data/B/z.wav";
              score_5_7_entry "v.wav" "/data/C/v.wav"] None 3).
    vm_compute. reflexivity.
  - apply (proj1 (proj2 (proj2 (C1_records_are_the_regular_files
                                  ReaderExamples.json_loads data_fs "/data"))) "B"
             (path_line "/data/B/z.wav" +:+ path_line "/data/B/gone.wav")
             (score_line +:+ score_line));
      vm_compute; reflexivity.
Defined.

(** C1 fails as stated, in three ways: a manifest line names a regular
    file and the returned list has no record of it.  In subdirectory S of
    /odd the two files have one valid line each and the scores line is an
    array; in subdirectory M they have two valid lines each and the path of
    the first manifest line is a number: in both the handler of the
    subdirectory's [try] takes over, and the load of /odd returns no
    record.  In subdirectory A of /data the manifest has two valid lines and
    the scores file one. *)
Lemma C1_regular_file_without_record :
  (FS.read odd_fs "/odd/S/paths.jsonl" = Ok (path_line "/odd/S/s.wav")
   /\ ReaderSpec.parsed ReaderExamples.json_loads (Py.lines (path_line "/odd/S/s.wav"))
      = [JObj [("path", JStr "/odd/S/s.wav")]]
   /\ FS.is_file odd_fs (Path.str "/odd/S/s.wav") = true
   /\ FS.read odd_fs "/odd/S/scores.jsonl" = Ok array_line
   /\ ReaderSpec.parsed ReaderExamples.json_loads (Py.lines array_line) = [JArr []])
  /\ (FS.read odd_fs "/odd/M/paths.jsonl"
      = Ok (number_path_line +:+ path_line "/odd/M/m.wav")
      /\ ReaderSpec.parsed ReaderExamples.json_loads
           (Py.lines (number_path_line +:+ path_line "/odd/M/m.wav"))
         = [JObj [("path", JInt 5)]; JObj [("path", JStr "/odd/M/m.wav")]]
      /\ FS.is_file odd_fs (Path.str "/odd/M/m.wav") = true
      /\ FS.read odd_fs "/odd/M/scores.jsonl" = Ok (score_line +:+ score_line)
      /\ ReaderSpec.parsed ReaderExamples.json_loads (Py.lines (score_line +:+ score_line))
         = [scores_5_7; scores_5_7])
  /\ Reader.load_audio_data ReaderExamples.json_loads odd_fs "/odd"
     = Ok ([], Some "Found subdirectories with jsonl files, but failed to load any valid audio entries (check paths and file existence).", 2)
  /\ (FS.read data_fs "/data/A/paths.jsonl"
      = Ok (path_line "/data/A/x.wav" +:+ path_line "/data/A/y.wav")
      /\ ReaderSpec.parsed ReaderExamples.json_loads
           (Py.lines (path_line "/data/A/x.wav" +:+ path_line "/data/A/y.wav"))
         = [JObj [("path", JStr "/data/A/x.wav")]; JObj [("path", JStr "/data/A/y.wav")]]
      /\ FS.is_file data_fs (Path.str "/data/A/x.wav") = true
      /\ FS.read data_fs "/data/A/scores.jsonl" = Ok score_line
      /\ Reader.load_audio_data ReaderExamples.json_loads data_fs "/data"
         = Ok ([score_5_7_entry "z.wav" "/data/B/z.wav";
                score_5_7_entry "v.wav" "/data/C/v.wav"], None, 3)).
Proof. vm_compute. repeat split; reflexivity. Qed.

End ReaderFacts.

(** * Properties of the scorer invoker *)

Module InvokerFacts.
Import InvokerSpec.

Lemma app_assoc (a b c : string) : (a +:+ b) +:+ c = a +:+ b +:+ c.
Proof.
  induction a as [|x a IH]; [done|].
  change (String x ((a +:+ b) +:+ c) = String x (a +:+ b +:+ c)). by rewrite IH.
Qed.

Lemma app_empty_r (a : string) : a +:+ EmptyString = a.
Proof.
  induction a as [|x a IH]; [done|].
  change (String x (a +:+ EmptyString) = String x a). by rewrite IH.
Qed.

Lemma contains_here (a sub b : string) : contains (a +:+ sub +:+ b) sub.
Proof. by exists a, b. Qed.

Lemma contains_empty (s : string) : contains s EmptyString.
Proof. exists s, EmptyString. change (s = s +:+ EmptyString). by rewrite app_empty_r. Qed.

Lemma contains_app_l (a s sub : string) : contains s sub -> contains (a +:+ s) sub.
Proof. intros (x & y & ->). exists (a +:+ x), y. by rewrite app_assoc. Qed.

Lemma contains_app_r (s b sub : string) : contains s sub -> contains (s +:+ b) sub.
Proof.
  intros (x & y & ->). exists x, (y +:+ b). by rewrite !app_assoc.
Qed.

Lemma contains_refl (s : string) : contains s s.
Proof.
  exists EmptyString, EmptyString. change (s = s +:+ EmptyString).
  by rewrite app_empty_r.
Qed.

(** Finds a piece in a concatenation. *)
Ltac contains_tac :=
  solve [ apply contains_refl
        | apply (contains_here EmptyString)
        | apply contains_app_l; contains_tac
        | apply contains_app_r; contains_tac ].

Lemma strip_empty : Py.strip EmptyString = EmptyString.
Proof. reflexivity. Qed.

Lemma nonempty_false (s : string) : Py.nonempty s = false -> s = EmptyString.
Proof. by destruct s. Qed.

Lemma exists_getsize fs p :
  FS.exists_ fs p = true -> exists n, FS.getsize fs p = Ok n.
Proof.
  unfold FS.exists_, FS.getsize. destruct (fs !! p) as [[c|es]|]; eauto; done.
Qed.

Section Invoker.

Variable O : oracles.

(** The message for a non-zero exit holds the exit code and what
    [strip] leaves of the two streams. *)
Lemma called_process_error_message cmd returncode stdout stderr :
  let message := (Current.on_called_process_error cmd returncode stdout stderr).2 in
  category_of message = Some NON_ZERO_EXIT
  /\ contains message (Py.str_of_Z returncode)
  /\ contains message (Py.strip stderr)
  /\ contains message (Py.strip stdout).
Proof.
  unfold Current.on_called_process_error. simpl. split; [by vm_compute|].
  split; [|split].
  - contains_tac.
  - destruct (Py.nonempty stderr) eqn:He; [contains_tac|].
    apply nonempty_false in He as ->. apply contains_empty.
  - destruct (Py.nonempty stdout) eqn:Ho; [contains_tac|].
    apply nonempty_false in Ho as ->. apply contains_empty.
Qed.

(** C9. When the external command exits with a non-zero status,
    [run_audio_aes] returns failure and leaves the file system as it was;
    and whenever it changes the file system at all, the command has exited
    with status zero and the change is the writing of the captured standard
    output to the output file. *)
Theorem C9_output_written_only_on_zero_exit
    (w : world) (target_dir audio_aes_command input_jsonl output_jsonl : string)
    (batch_size : Z) :
  let command :=
    [audio_aes_command; input_jsonl; "--batch-size"; Py.str_of_Z batch_size] in
  let r := Current.run_audio_aes O w target_dir audio_aes_command
             input_jsonl output_jsonl batch_size in
  (forall returncode stdout stderr,
      subprocess_run O (w_fs w) command target_dir = Exited returncode stdout stderr ->
      returncode <> 0%Z ->
      (exists message, r.1 = Ok (false, message)) /\ w_fs r.2 = w_fs w)
  /\ (w_fs r.2 <> w_fs w ->
      exists stdout stderr,
        subprocess_run O (w_fs w) command target_dir = Exited 0 stdout stderr
        /\ FS.write (w_fs w) (Path.join target_dir output_jsonl) stdout = Ok (w_fs r.2)).
Proof.
  intros command r. subst r command. unfold Current.run_audio_aes.
  destruct (FS.exists_ (w_fs w) _) eqn:Hex; simpl.
  2:{ split; [eauto | done]. }
  destruct (exists_getsize _ _ Hex) as [size ->].
  destruct (size =? 0); simpl.
  { split; [eauto | done]. }
  destruct (subprocess_run O _ _ _) as [e|returncode stdout stderr]; simpl.
  { split; [done | done]. }
  destruct (returncode =? 0)%Z eqn:Hrc; simpl.
  - apply Z.eqb_eq in Hrc as ->. split.
    + intros ??? [= <- _ _] ?. done.
    + destruct (FS.write _ _ _) as [fs'|e] eqn:Hw; simpl; [intros _; by eexists _, _ | by intros []].
  - split; [|done].
    intros ??? [= <- <- <-] _. unfold Current.on_called_process_error. eauto.
Qed.

(** The message of the clauses other than the one for a non-zero exit
    starts as the category of the class of the exception says; in the
    category OS_ERROR it holds the path of the output file and the text of
    the exception. *)
Lemma on_exception_message cmd output e :
  let message := (Current.on_exception O cmd output e).2 in
  (Current.on_exception O cmd output e).1 = false
  /\ category_of message = Some (category_of_class (exn_cls e))
  /\ (category_of_class (exn_cls e) = OS_ERROR ->
      contains message output /\ contains message (exn_msg e)).
Proof.
  unfold Current.on_exception.
  destruct (exn_cls e); simpl; (split; [done|]); (split; [by vm_compute|]);
    try done; intros _; split; contains_tac.
Qed.

(** C7, as the code has it. A failure of [run_audio_aes] tells its cause by
    the way its message starts.  An input file that is missing and one that
    is empty have categories of their own, and no command is started.  A
    non-zero exit has a category of its own, the message holding the exit
    code and both captured streams, stripped.  An exception on starting the
    command is reported by its class: a command that is not found, any
    other [OSError], any other exception.  An error on writing the output
    file after a zero exit, unless it is a [FileNotFoundError], is reported
    as an [OSError], with the path of the output file: in the category of
    an [OSError] on starting the command, and apart from a command not found
    and from a non-zero exit. *)
Theorem C7_failure_categories
    (w : world) (target_dir audio_aes_command input_jsonl output_jsonl : string)
    (batch_size : Z) :
  let command :=
    [audio_aes_command; input_jsonl; "--batch-size"; Py.str_of_Z batch_size] in
  let input_path := Path.join target_dir input_jsonl in
  let output_path := Path.join target_dir output_jsonl in
  let r := (Current.run_audio_aes O w target_dir audio_aes_command
              input_jsonl output_jsonl batch_size).1 in
  if negb (FS.exists_ (w_fs w) input_path) then
    exists message,
      r = Ok (false, message) /\ category_of message = Some INPUT_NOT_FOUND
  else
    match FS.getsize (w_fs w) input_path with
    | Raise e => r = Raise e
    | Ok 0 =>
        exists message,
          r = Ok (false, message) /\ category_of message = Some INPUT_EMPTY
    | Ok _ =>
        match subprocess_run O (w_fs w) command target_dir with
        | SpawnFailed e =>
            exists message,
              r = Ok (false, message)
              /\ category_of message = Some (category_of_class (exn_cls e))
              /\ (exn_cls e = FileNotFoundError ->
                  category_of message = Some COMMAND_NOT_FOUND)
              /\ (exn_cls e <> FileNotFoundError -> is_OSError (exn_cls e) = true ->
                  category_of message = Some OS_ERROR)
        | Exited returncode stdout stderr =>
            if (returncode =? 0)%Z then
              match FS.write (w_fs w) output_path stdout with
              | Ok _ => exists message, r = Ok (true, message)
              | Raise e =>
                  exn_cls e <> FileNotFoundError ->
                  exists message,
                    r = Ok (false, message)
                    /\ category_of message = Some OS_ERROR
                    /\ contains message output_path
                    /\ contains message (exn_msg e)
              end
            else
              exists message,
                r = Ok (false, message)
                /\ category_of message = Some NON_ZERO_EXIT
                /\ contains message (Py.str_of_Z returncode)
                /\ contains message (Py.strip stderr)
                /\ contains message (Py.strip stdout)
        end
    end.
Proof.
  intros command input_path output_path r. subst r command input_path output_path.
  unfold Current.run_audio_aes.
  destruct (FS.exists_ (w_fs w) _) eqn:Hex; simpl.
  2:{ eexists. split; [done|]. by vm_compute. }
  destruct (FS.getsize (w_fs w) _) as [size|e]; [|done].
  destruct size as [|size]; simpl.
  { eexists. split; [done|]. by vm_compute. }
  destruct (subprocess_run O _ _ _) as [e|returncode stdout stderr]; simpl.
  - destruct (on_exception_message audio_aes_command
                (Path.join target_dir output_jsonl) e) as (Hf & Hc & _).
    destruct (Current.on_exception O _ _ e) as [ok message]. simpl in Hf, Hc.
    subst ok. exists message. split; [done|]. split; [done|]. rewrite Hc. split.
    + by intros ->.
    + intros Hn Hos. destruct (exn_cls e); simpl in *; congruence.
  - destruct (returncode =? 0)%Z; simpl.
    + destruct (FS.write _ _ _) as [fs'|e] eqn:Hw; simpl; [by eexists|].
      intros Hn.
      assert (category_of_class (exn_cls e) = OS_ERROR) as Hcls.
      { unfold FS.write in Hw.
        destruct (w_fs w !! Path.join target_dir output_jsonl) as [[c|es]|];
          [done | by injection Hw as <- |].
        destruct (w_fs w !! FS.dirname _) as [[c|es]|]; [|done|];
          injection Hw as <-; done. }
      destruct (on_exception_message audio_aes_command
                  (Path.join target_dir output_jsonl) e) as (Hf & Hc & Hm).
      destruct (Current.on_exception O _ _ e) as [ok message]. simpl in Hf, Hc, Hm.
      subst ok. exists message. rewrite Hc, Hcls. destruct (Hm Hcls). done.
    + eexists. split; [done|].
      apply (called_process_error_message audio_aes_command returncode stdout stderr).
Qed.

End Invoker.

Import JobExamples.

Lemma C9_witness :
  (exists message,
      (Current.run_audio_aes job_oracles (job_world job_fs) "/job/A" "failing"
         PATHS_FILENAME SCORES_FILENAME 100).1 = Ok (false, message))
  /\ w_fs (Current.run_audio_aes job_oracles (job_world job_fs) "/job/A" "failing"
             PATHS_FILENAME SCORES_FILENAME 100).2 = job_fs.
Proof.
  apply (C9_output_written_only_on_zero_exit job_oracles (job_world job_fs)
           "/job/A" "failing" PATHS_FILENAME SCORES_FILENAME 100)
    with (returncode := 2%Z) (stdout := "partial") (stderr := " model not loaded ").
  - vm_compute. reflexivity.
  - discriminate.
Defined.

(** C7 on the example world: a command that exits with status 2, a command
    that is missing, and a scores file that cannot be written after a zero
    exit. *)
Lemma C7_witness :
  (exists message,
     (Current.run_audio_aes job_oracles (job_world job_fs) "/job/A" "failing"
        PATHS_FILENAME SCORES_FILENAME 100).1 = Ok (false, message)
     /\ category_of message = Some NON_ZERO_EXIT
     /\ contains message (Py.str_of_Z 2)
     /\ contains message (Py.strip " model not loaded ")
     /\ contains message (Py.strip "partial"))
  /\ (exists message,
        (Current.run_audio_aes job_oracles (job_world job_fs) "/job/A" "missing"
           PATHS_FILENAME SCORES_FILENAME 100).1 = Ok (false, message)
        /\ category_of message = Some COMMAND_NOT_FOUND)
  /\ (exists message,
        (Current.run_audio_aes job_oracles (job_world job_fs) "/job/B" "audio-aes"
           PATHS_FILENAME SCORES_FILENAME 100).1 = Ok (false, message)
        /\ category_of message = Some OS_ERROR
        /\ contains message "/job/B/scores.jsonl"
        /\ contains message "[Errno 21] Is a directory: '/job/B/scores.jsonl'").
Proof.
  split; [|split].
  - exact (C7_failure_categories job_oracles (job_world job_fs)
             "/job/A" "failing" PATHS_FILENAME SCORES_FILENAME 100).
  - destruct (C7_failure_categories job_oracles (job_world job_fs)
                "/job/A" "missing" PATHS_FILENAME SCORES_FILENAME 100)
      as (message & Hr & Hc & _).
    exists message. split; [exact Hr | exact Hc].
  - refine (C7_failure_categories job_oracles (job_world job_fs)
              "/job/B" "audio-aes" PATHS_FILENAME SCORES_FILENAME 100 _).
    discriminate.
Defined.

(** C7 fails as stated: a command that may not be executed (no process
    runs) and a scores file that cannot be written after a zero exit are
    reported in one category, by messages that start alike. *)
Lemma C7_spawn_error_reported_as_write_error :
  subprocess_run job_oracles job_fs ["locked"; PATHS_FILENAME; "--batch-size"; "100"]
    "/job/A"
  = SpawnFailed (Exn PermissionError "[Errno 13] Permission denied: 'locked'")
  /\ (Current.run_audio_aes job_oracles (job_world job_fs) "/job/A" "locked"
        PATHS_FILENAME SCORES_FILENAME 100).1
     = Ok (false, "OSError during command execution or writing output /job/A/scores.jsonl: [Errno 13] Permission denied: 'locked'")
  /\ subprocess_run job_oracles job_fs
       ["audio-aes"; PATHS_FILENAME; "--batch-size"; "100"] "/job/B"
     = Exited 0 ReaderExamples.score_line "warning: slow"
  /\ FS.write job_fs "/job/B/scores.jsonl" ReaderExamples.score_line
     = Raise (Exn IsADirectoryError "[Errno 21] Is a directory: '/job/B/scores.jsonl'")
  /\ (Current.run_audio_aes job_oracles (job_world job_fs) "/job/B" "audio-aes"
        PATHS_FILENAME SCORES_FILENAME 100).1
     = Ok (false, "OSError during command execution or writing output /job/B/scores.jsonl: [Errno 21] Is a directory: '/job/B/scores.jsonl'")
  /\ category_of "OSError during command execution or writing output /job/A/scores.jsonl: [Errno 13] Permission denied: 'locked'"
     = category_of "OSError during command execution or writing output /job/B/scores.jsonl: [Errno 21] Is a directory: '/job/B/scores.jsonl'".
Proof. vm_compute. repeat split; reflexivity. Qed.

Example run_audio_aes_messages :
  (Current.run_audio_aes job_oracles (job_world job_fs) "/job/A" "failing"
     PATHS_FILENAME SCORES_FILENAME 100).1
  = Ok (false, "Error running failing. Exit code: 2" +:+ nl +:+ "Stderr:" +:+ nl
               +:+ "model not loaded" +:+ nl +:+ "Stdout:" +:+ nl +:+ "partial")
  /\ (Current.run_audio_aes job_oracles (job_world job_fs) "/job/A" "missing"
        PATHS_FILENAME SCORES_FILENAME 100).1
     = Ok (false, "Error: Command 'missing' not found. Make sure it's installed and in your system PATH.")
  /\ (Current.run_audio_aes job_oracles (job_world job_fs) "/job/B" "audio-aes"
        PATHS_FILENAME SCORES_FILENAME 100).1
     = Ok (false, "OSError during command execution or writing output /job/B/scores.jsonl: [Errno 21] Is a directory: '/job/B/scores.jsonl'")
  /\ (Current.run_audio_aes job_oracles (job_world job_fs) "/job/A" "audio-aes"
        PATHS_FILENAME SCORES_FILENAME 100).1
     = Ok (true, "Successfully created scores.jsonl." +:+ nl
                 +:+ "  Command stderr output:" +:+ nl +:+ "warning: slow").
Proof. vm_compute. repeat split; reflexivity. Qed.

End InvokerFacts.

(** * Properties of the orchestrator *)

Module OrchestratorFacts.
Import OrchestratorSpec.

(** ** Work that queues no summary *)

Lemma extends_refl w : extends w w.
Proof. exists []. by rewrite app_nil_r. Qed.

Lemma extends_trans w1 w2 w3 : extends w1 w2 -> extends w2 w3 -> extends w1 w3.
Proof.
  intros (a & Ha & Hqa & Hca) (b & Hb & Hqb & Hcb).
  exists (a ++ b). rewrite Hb, Ha, <- app_assoc, forallb_app, Hqa, Hqb.
  split; [done|]. split; [done | lia].
Qed.

Lemma extends_put t w : is_summary t = false -> extends w (put t w).
Proof. intros Ht. exists [t]. simpl. by rewrite Ht. Qed.

Lemma extends_status m w : extends w (_update_status m w).
Proof. by apply extends_put. Qed.

Lemma extends_log m w : extends w (_append_log m w).
Proof. by apply extends_put. Qed.

Lemma extends_logs ms w : extends w (append_logs ms w).
Proof.
  revert w. induction ms as [|m ms IH]; intros w; simpl; [apply extends_refl|].
  eapply extends_trans; [apply extends_log | apply IH].
Qed.

Lemma extends_tick w : extends w (tick w).
Proof. exists []. simpl. rewrite app_nil_r. repeat split; lia. Qed.

Lemma extends_poll w : extends w (poll w).
Proof. exists []. simpl. by rewrite app_nil_r. Qed.

Lemma extends_set_fs w fs : extends w (set_fs w fs).
Proof. exists []. simpl. by rewrite app_nil_r. Qed.

Lemma extends_record_call cwd command w : extends w (record_call cwd command w).
Proof. exists []. simpl. by rewrite app_nil_r. Qed.

Lemma extends_clear_thread w : extends w (clear_thread w).
Proof. exists []. simpl. by rewrite app_nil_r. Qed.

#[local] Instance extends_preorder : PreOrder extends.
Proof. split; [intros w; apply extends_refl | intros ???; apply extends_trans]. Qed.

#[local] Instance untouched_preorder : PreOrder untouched.
Proof.
  split; [by intros w|].
  intros w1 w2 w3 [H1 H2] [H3 H4]. split; congruence.
Qed.


(** The operations on the world stay folded in goals; their projections
    are rewritten. *)
#[local] Arguments put : simpl never.
#[local] Arguments tick : simpl never.
#[local] Arguments poll : simpl never.
#[local] Arguments set_fs : simpl never.
#[local] Arguments record_call : simpl never.
#[local] Arguments clear_thread : simpl never.
#[local] Arguments _update_status : simpl never.
#[local] Arguments _append_log : simpl never.
#[local] Arguments append_logs : simpl never.

Lemma untouched_put t w : untouched w (put t w).
Proof. done. Qed.
Lemma untouched_status m w : untouched w (_update_status m w).
Proof. done. Qed.
Lemma untouched_log m w : untouched w (_append_log m w).
Proof. done. Qed.
Lemma untouched_logs ms w : untouched w (append_logs ms w).
Proof.
  revert w. induction ms as [|m ms IH]; intros w; [done|].
  etrans; [apply (untouched_log m)|apply IH].
Qed.
Lemma untouched_tick w : untouched w (tick w).
Proof. done. Qed.
Lemma untouched_poll w : untouched w (poll w).
Proof. done. Qed.
Lemma untouched_clear_thread w : untouched w (clear_thread w).
Proof. done. Qed.

(** Peels the last operation off the world of the goal. *)
Ltac peel :=
  lazymatch goal with
  | |- extends _ (_update_status _ _) => eapply extends_trans; [| apply extends_status]
  | |- extends _ (_append_log _ _) => eapply extends_trans; [| apply extends_log]
  | |- extends _ (append_logs _ _) => eapply extends_trans; [| apply extends_logs]
  | |- extends _ (set_fs _ _) => eapply extends_trans; [| apply extends_set_fs]
  | |- extends _ (record_call _ _ _) =>
      eapply extends_trans; [| apply extends_record_call]
  | |- extends _ (clear_thread _) => eapply extends_trans; [| apply extends_clear_thread]
  | |- extends _ (put _ _) => eapply extends_trans; [| apply extends_put; reflexivity]
  | |- extends _ (tick _) => eapply extends_trans; [| apply extends_tick]
  | |- extends _ (poll _) => eapply extends_trans; [| apply extends_poll]
  end.

Ltac step_extends :=
  repeat peel;
  first [ apply extends_refl
        | eassumption
        | eapply extends_trans; [| eassumption ]; step_extends ].

(** ** The index writer *)

Section WriterFacts.

Variable O : oracles.
Context {S : Type}.

(** What the loop writes and counts does not depend on the callback. *)
Lemma write_loop_result (cb : Writer.callback) target_dir total i names text count (s : S) :
  (Writer.write_loop O cb target_dir total i names text count s).1
  = (Writer.write_loop O (@None (nat -> nat -> string -> unit -> unit))
       target_dir total i names text count tt).1.
Proof.
  revert i text count s.
  induction names as [|name names IH]; intros i text count s; simpl; [done|].
  destruct (manifest_line O _) as [line|e]; simpl.
  - rewrite IH. by destruct (_ =? 0).
  - rewrite IH. by destruct (_ =? 0).
Qed.

(** The count only grows, and the text only changes with it. *)
Lemma write_loop_count (cb : Writer.callback) target_dir total i names text count (s : S) :
  let r := Writer.write_loop O cb target_dir total i names text count s in
  count <= r.1.2 /\ (r.1.2 = count -> r.1.1 = text).
Proof.
  revert i text count s.
  induction names as [|name names IH]; intros i text count s; simpl; [done|].
  destruct (manifest_line O _) as [line|e]; simpl.
  - match goal with
    | |- context [Writer.write_loop O cb _ _ _ _ _ _ ?x] => generalize x
    end.
    intros s'.
    destruct (IH (i + 1) (text +:+ line +:+ String "010"%char EmptyString)
                (count + 1) s') as [H1 H2].
    split; [lia | intros; exfalso; lia].
  - apply IH.
Qed.

(** The count and message of [create_wav_jsonl], and the file system it
    leaves, do not depend on the callback. *)
Lemma create_wav_jsonl_result (cb : Writer.callback) fs target_dir output (s : S) :
  (Writer.create_wav_jsonl O fs target_dir output cb s).1
  = (Writer.create_wav_jsonl O fs target_dir output
       (@None (nat -> nat -> string -> unit -> unit)) tt).1.
Proof.
  unfold Writer.create_wav_jsonl.
  destruct (FS.listdir fs target_dir) as [all_files|e]; [|done].
  simpl.
  pose proof (write_loop_result cb target_dir
    (length (List.filter Writer.is_wav all_files)) 0
    (List.filter Writer.is_wav all_files) EmptyString 0
    (Writer.call cb 0 (length (List.filter Writer.is_wav all_files))
       ("Scanning " +:+ Py.str_of_nat (length (List.filter Writer.is_wav all_files))
        +:+ " WAVs...") s)) as H.
  destruct (Writer.write_loop O cb _ _ _ _ _ _ _) as [[text count] s'].
  destruct (Writer.write_loop O None _ _ _ _ _ _ _) as [[text0 count0] u].
  simpl in H. injection H as -> ->.
  by destruct (FS.write fs _ _).
Qed.

(** A count of zero or more means the manifest was written, and a count of
    zero means it was written empty. *)
Lemma create_wav_jsonl_manifest (cb : Writer.callback) fs target_dir output (s : S) :
  let r := Writer.create_wav_jsonl O fs target_dir output cb s in
  (0 <= r.1.1.1)%Z ->
  exists text,
    r.1.2 !! Path.join target_dir output = Some (File text)
    /\ (r.1.1.1 = 0%Z -> text = EmptyString).
Proof.
  unfold Writer.create_wav_jsonl.
  destruct (FS.listdir fs target_dir) as [all_files|e]; [|simpl; lia].
  simpl.
  pose proof (write_loop_count cb target_dir
    (length (List.filter Writer.is_wav all_files)) 0
    (List.filter Writer.is_wav all_files) EmptyString 0
    (Writer.call cb 0 (length (List.filter Writer.is_wav all_files))
       ("Scanning " +:+ Py.str_of_nat (length (List.filter Writer.is_wav all_files))
        +:+ " WAVs...") s)) as [_ H].
  destruct (Writer.write_loop O cb _ _ _ _ _ _ _) as [[text count] s'].
  simpl in H.
  destruct (FS.write fs _ text) as [fs'|e] eqn:Hw; simpl; [|lia].
  intros _. exists text. split.
  - unfold FS.write in Hw.
    destruct (fs !! Path.join target_dir output) as [[c|es]|]; [| done |].
    + injection Hw as <-. apply lookup_insert_eq.
    + destruct (fs !! FS.dirname _) as [[c|es]|]; [done| |done].
      injection Hw as <-. apply lookup_insert_eq.
  - intros Hc. apply H. lia.
Qed.

End WriterFacts.

(** A relation between worlds that every call of the callback respects is
    respected by the writer as a whole. *)
Lemma write_loop_rel (R : relation world) `{!PreOrder R} O
    (f : nat -> nat -> string -> world -> world)
    target_dir total i names text count w :
  (forall a b m w, R w (f a b m w)) ->
  R w (Writer.write_loop O (Some f) target_dir total i names text count w).2.
Proof.
  intros Hf. revert i text count w.
  induction names as [|name names IH]; intros i text count w; simpl; [done|].
  destruct (manifest_line O _) as [line|e]; simpl;
    (etrans; [|apply IH]); by destruct (_ =? 0).
Qed.

Lemma create_wav_jsonl_rel (R : relation world) `{!PreOrder R} O
    (f : nat -> nat -> string -> world -> world) fs target_dir output w :
  (forall a b m w, R w (f a b m w)) ->
  R w (Writer.create_wav_jsonl O fs target_dir output (Some f) w).2.
Proof.
  intros Hf. unfold Writer.create_wav_jsonl.
  destruct (FS.listdir fs target_dir) as [all_files|e]; [|done].
  simpl.
  pose proof (write_loop_rel R O f target_dir
    (length (List.filter Writer.is_wav all_files)) 0
    (List.filter Writer.is_wav all_files) EmptyString 0
    (f 0 (length (List.filter Writer.is_wav all_files))
       ("Scanning " +:+ Py.str_of_nat (length (List.filter Writer.is_wav all_files))
        +:+ " WAVs...") w) Hf) as H.
  destruct (Writer.write_loop O (Some f) _ _ _ _ _ _ _) as [[text count] w'].
  simpl in H.
  destruct (FS.write fs _ text) as [fs'|e]; simpl; [|done].
  etrans; [apply Hf|]. etrans; [apply H|]. apply Hf.
Qed.

(** Joining to one directory two names that are not absolute paths gives
    different paths for different names. *)
Lemma join_inj a b1 b2 :
  Py.startswith b1 "/" = false -> Py.startswith b2 "/" = false ->
  Path.join a b1 = Path.join a b2 -> b1 = b2.
Proof.
  unfold Path.join. intros -> ->.
  destruct (negb (Py.nonempty a) || Py.endswith a "/"); intros H.
  - by apply (inj (String.app a)) in H.
  - apply (inj (String.app a)) in H. by apply (inj (String.app "/")) in H.
Qed.

(** ** The current revision *)

Section CurrentFacts.

Variable O : oracles.

Lemma progress_reporter_extends prefix a b m w :
  extends w (Current.progress_reporter prefix a b m w).
Proof. by apply extends_put. Qed.

(** After the check that the input file exists, [os.path.getsize] cannot
    fail: [run_audio_aes] always returns. *)
Lemma run_audio_aes_returns w target_dir cmd input output batch :
  exists success message,
    (Current.run_audio_aes O w target_dir cmd input output batch).1
    = Ok (success, message).
Proof.
  unfold Current.run_audio_aes.
  destruct (FS.exists_ (w_fs w) _) eqn:Hex; simpl; [|eauto].
  destruct (InvokerFacts.exists_getsize _ _ Hex) as [size ->].
  destruct (size =? 0); simpl; [eauto|].
  destruct (subprocess_run O _ _ _) as [e|rc out err]; simpl.
  - destruct (Current.on_exception O cmd _ e); eauto.
  - destruct (rc =? 0)%Z; simpl.
    + destruct (FS.write _ _ _); simpl; [eauto|].
      destruct (Current.on_exception O cmd _ e); eauto.
    + unfold Current.on_called_process_error. eauto.
Qed.

Lemma run_audio_aes_extends w target_dir cmd input output batch :
  extends w (Current.run_audio_aes O w target_dir cmd input output batch).2.
Proof.
  unfold Current.run_audio_aes.
  destruct (FS.exists_ (w_fs w) _); simpl; [|apply extends_refl].
  destruct (FS.getsize _ _); simpl; [|apply extends_refl].
  destruct (_ =? 0); simpl; [apply extends_refl|].
  destruct (subprocess_run O _ _ _) as [e|rc out err]; simpl.
  - apply extends_record_call.
  - destruct (rc =? 0)%Z; simpl; [|apply extends_record_call].
    destruct (FS.write _ _ _); simpl; [|apply extends_record_call].
    eapply extends_trans; [apply extends_record_call | apply extends_set_fs].
Qed.

Lemma progress_reporter_untouched prefix a b m w :
  untouched w (Current.progress_reporter prefix a b m w).
Proof. done. Qed.

(** The iteration for a subdirectory, case by case. *)
Lemma process_subdir_cases base_dir cmd batch overwrite total w i name :
  let r := Current.process_subdir O base_dir cmd batch overwrite total w i name in
  let dir := Path.join base_dir name in
  extends w r.2
  /\ (forall e, r.1 <> Current.UNCAUGHT e)
  /\ (past_skip_check (w_fs w) base_dir name overwrite = false ->
      r.1 = Current.SKIPPED_EXISTING /\ untouched w r.2)
  /\ (past_skip_check (w_fs w) base_dir name overwrite = true ->
      (writer_count O (w_fs w) dir < 0)%Z ->
      r.1 = Current.ERROR /\ w_calls r.2 = w_calls w)
  /\ (past_skip_check (w_fs w) base_dir name overwrite = true ->
      writer_count O (w_fs w) dir = 0%Z ->
      r.1 = Current.SKIPPED_NO_MEDIA /\ w_calls r.2 = w_calls w
      /\ w_fs r.2 !! Path.join dir PATHS_FILENAME = Some (File EmptyString))
  /\ (past_skip_check (w_fs w) base_dir name overwrite = true ->
      (0 < writer_count O (w_fs w) dir)%Z ->
      r.1 = Current.PROCESSED \/ r.1 = Current.ERROR).
Proof.
  unfold past_skip_check, writer_count, Current.process_subdir. simpl.
  destruct (negb overwrite && FS.exists_ (w_fs w) _) eqn:Hskip; simpl.
  { split; [step_extends|]. repeat split; intros; done. }
  set (w0 := _append_log _ (_update_status _ w)).
  set (f := Current.progress_reporter _).
  pose proof (create_wav_jsonl_result O (Some f) (w_fs w)
                (Path.join base_dir name) PATHS_FILENAME w0) as Hres.
  pose proof (create_wav_jsonl_rel extends O f (w_fs w)
                (Path.join base_dir name) PATHS_FILENAME w0
                (progress_reporter_extends _)) as Hext.
  pose proof (create_wav_jsonl_rel untouched O f (w_fs w)
                (Path.join base_dir name) PATHS_FILENAME w0
                (progress_reporter_untouched _)) as [_ Hcalls].
  pose proof (create_wav_jsonl_manifest O (Some f) (w_fs w)
                (Path.join base_dir name) PATHS_FILENAME w0) as Hman.
  simpl in Hman.
  destruct (Writer.create_wav_jsonl O (w_fs w) _ _ (Some f) w0)
    as [[[num_wavs paths_msg] fs'] w1].
  destruct (Writer.create_wav_jsonl O (w_fs w) _ _ None tt)
    as [[[num0 msg0] fs0] u].
  simpl in Hres, Hext, Hcalls, Hman. injection Hres as -> -> ->. simpl.
  assert (extends w w1) as Hw1 by (etrans; [|apply Hext]; subst w0; step_extends).
  assert (w_calls w1 = w_calls w) as Hc by (by rewrite Hcalls).
  clear Hext Hcalls. clearbody w0.
  destruct (num0 <? 0)%Z eqn:Hneg; simpl.
  { apply Z.ltb_lt in Hneg.
    split; [step_extends|].
    split; [done|]. split; [done|]. split; [done|].
    split; intros; lia. }
  apply Z.ltb_ge in Hneg.
  destruct (num0 =? 0)%Z eqn:Hzero; simpl.
  { apply Z.eqb_eq in Hzero as ->.
    split; [step_extends|].
    split; [done|]. split; [done|]. split; [intros; lia|]. split; [|intros; lia].
    intros _ _. split; [done|]. split; [done|].
    destruct (Hman Hneg) as (text & Htext & Hempty). by rewrite Htext, Hempty. }
  apply Z.eqb_neq in Hzero.
  match goal with
  | |- context [Current.run_audio_aes O ?W ?d ?c ?inp ?out ?b] =>
      destruct (run_audio_aes_returns W d c inp out b) as (success & message & Hret);
      pose proof (run_audio_aes_extends W d c inp out b) as Hrun;
      destruct (Current.run_audio_aes O W d c inp out b) as [res w3]
  end.
  simpl in Hret, Hrun. subst res. simpl.
  split; [step_extends|].
  split; [by destruct success|]. split; [done|].
  split; [intros; lia|]. split; [intros; lia|].
  intros _ _. destruct success; auto.
Qed.

Lemma calls_logs ms w : w_calls (append_logs ms w) = w_calls w.
Proof. by destruct (untouched_logs ms w). Qed.

(** Reduces the record of commands of a world built by logging. *)
Ltac calls_simp :=
  repeat first
    [ rewrite calls_logs
    | progress (unfold _update_status, _append_log, put, tick, poll, set_fs,
                  clear_thread; cbn [w_calls]) ].

(** [run_audio_aes] records at most one command, run in its directory. *)
Lemma run_audio_aes_calls w target_dir cmd input output batch :
  let r := Current.run_audio_aes O w target_dir cmd input output batch in
  w_calls r.2 = w_calls w
  \/ exists command, w_calls r.2 = w_calls w ++ [(target_dir, command)].
Proof.
  unfold Current.run_audio_aes.
  destruct (FS.exists_ (w_fs w) _); simpl; [|by left].
  destruct (FS.getsize _ _); simpl; [|by left].
  destruct (_ =? 0); simpl; [by left|].
  right. eexists.
  destruct (subprocess_run O _ _ _) as [e|rc out err]; simpl; [done|].
  destruct (rc =? 0)%Z; simpl; [|done].
  by destruct (FS.write _ _ _).
Qed.

(** So does one iteration, in the directory of its subdirectory. *)
Lemma process_subdir_calls base_dir cmd batch overwrite total w i name :
  let r := Current.process_subdir O base_dir cmd batch overwrite total w i name in
  w_calls r.2 = w_calls w
  \/ exists command,
       w_calls r.2 = w_calls w ++ [(Path.join base_dir name, command)].
Proof.
  unfold Current.process_subdir. simpl.
  destruct (negb overwrite && FS.exists_ (w_fs w) _); simpl; [by left|].
  set (w0 := _append_log _ (_update_status _ w)).
  set (f := Current.progress_reporter _).
  pose proof (create_wav_jsonl_rel untouched O f (w_fs w)
                (Path.join base_dir name) PATHS_FILENAME w0
                (progress_reporter_untouched _)) as [_ Hcalls].
  destruct (Writer.create_wav_jsonl O (w_fs w) _ _ (Some f) w0)
    as [[[num_wavs paths_msg] fs'] w1].
  simpl in Hcalls. simpl.
  assert (w_calls w1 = w_calls w) as Hc by (by rewrite Hcalls).
  clear Hcalls. clearbody w0.
  destruct (num_wavs <? 0)%Z; simpl; [left; by calls_simp|].
  destruct (num_wavs =? 0)%Z; simpl; [left; by calls_simp|].
  match goal with
  | |- context [Current.run_audio_aes O ?W ?d ?c ?inp ?out ?b] =>
      destruct (run_audio_aes_returns W d c inp out b) as (success & message & Hret);
      pose proof (run_audio_aes_calls W d c inp out b) as Hrun;
      destruct (Current.run_audio_aes O W d c inp out b) as [res w3]
  end.
  simpl in Hret, Hrun. subst res. simpl.
  revert Hrun. calls_simp. rewrite Hc. intros [Hrun|[command Hrun]].
  - left. destruct success; by calls_simp.
  - right. exists command. destruct success; by calls_simp.
Qed.

Lemma count_accounted v c :
  (forall e, v <> Current.UNCAUGHT e) ->
  accounted (Current.count v c) = accounted c + 1.
Proof.
  unfold accounted. destruct v; simpl; intros H; try lia. by destruct (H e).
Qed.

(** The loop ends without an exception, having accounted for every
    subdirectory and queued no summary. *)
Lemma process_all_ends base_dir cmd batch overwrite total i subdirs c w :
  exists c' w',
    Current.process_all O base_dir cmd batch overwrite total i subdirs c w
    = (None, c', w')
    /\ extends w w'
    /\ accounted c' = accounted c + length subdirs.
Proof.
  revert i c w. induction subdirs as [|name rest IH]; intros i c w; simpl.
  - exists c, w. split; [done|]. split; [apply extends_refl | lia].
  - destruct (process_subdir_cases base_dir cmd batch overwrite total w i name)
      as (Hext & Hv & _).
    destruct (Current.process_subdir O _ _ _ _ _ w i name) as [v w1].
    simpl in Hext, Hv.
    destruct (IH (i + 1) (Current.count v c) w1) as (c' & w' & Heq & Hext' & Hacc).
    exists c', w'.
    rewrite (count_accounted v c Hv) in Hacc.
    split; [|split; [by etrans|lia]].
    destruct v; try done. by destruct (Hv e).
Qed.

(** The loop over a concatenation is the loop over its second part, started
    where the loop over the first part ends. *)
Lemma process_all_app base_dir cmd batch overwrite total i l1 l2 c w :
  Current.process_all O base_dir cmd batch overwrite total i (l1 ++ l2) c w
  = Current.process_all O base_dir cmd batch overwrite total (i + length l1) l2
      (Current.process_all O base_dir cmd batch overwrite total i l1 c w).1.2
      (Current.process_all O base_dir cmd batch overwrite total i l1 c w).2.
Proof.
  revert i c w. induction l1 as [|name l1 IH]; intros i c w; simpl.
  - by rewrite Nat.add_0_r.
  - destruct (process_subdir_cases base_dir cmd batch overwrite total w i name)
      as (_ & Hv & _).
    destruct (Current.process_subdir O _ _ _ _ _ w i name) as [v w1].
    simpl in Hv.
    replace (i + Datatypes.S (length l1)) with (i + 1 + length l1) by lia.
    destruct v as [| | | |e]; try (by rewrite IH).
    by destruct (Hv e).
Qed.

(** The commands of a loop are run in the directories of its
    subdirectories. *)
Lemma process_all_calls base_dir cmd batch overwrite total i names c w :
  exists added,
    w_calls (Current.process_all O base_dir cmd batch overwrite total i names c w).2
    = w_calls w ++ added
    /\ forall call, In call added ->
         exists name, In name names /\ call.1 = Path.join base_dir name.
Proof.
  revert i c w. induction names as [|name names IH]; intros i c w; simpl.
  - exists []. by rewrite app_nil_r.
  - pose proof (process_subdir_calls base_dir cmd batch overwrite total w i name) as Hc.
    destruct (process_subdir_cases base_dir cmd batch overwrite total w i name)
      as (_ & Hv & _).
    destruct (Current.process_subdir O _ _ _ _ _ w i name) as [v w1].
    simpl in Hc, Hv.
    destruct (IH (i + 1) (Current.count v c) w1) as (added & Hadd & Hin).
    assert (exists first,
               w_calls w1 = w_calls w ++ first
               /\ forall call, In call first -> call.1 = Path.join base_dir name)
      as (first & Hfirst & Hone).
    { destruct Hc as [Hc|[command Hc]].
      - exists []. rewrite app_nil_r. by split.
      - exists [(Path.join base_dir name, command)]. split; [done|].
        by intros call [<-|[]]. }
    exists (first ++ added). split.
    + destruct v as [| | | |e]; try (rewrite Hadd, Hfirst; by rewrite app_assoc).
      by destruct (Hv e).
    + intros call Hcall. apply in_app_or in Hcall as [Hcall|Hcall].
      * exists name. split; [by left | by apply Hone].
      * destruct (Hin call Hcall) as (n & Hn & Heq). exists n. split; [by right|done].
Qed.

End CurrentFacts.

(** ** Revision 1.1 *)

Section V1_1Facts.

Variable O : oracles.

Lemma progress_reporter_1_1_extends prefix a b m w :
  extends w (V1_1.progress_reporter O prefix a b m w).
Proof.
  unfold V1_1.progress_reporter. simpl.
  destruct (stop_is_set O _); step_extends.
Qed.

Lemma run_audio_aes_1_1_extends w target_dir cmd input output batch :
  extends w (V1_1.run_audio_aes O w target_dir cmd input output batch).2.
Proof.
  unfold V1_1.run_audio_aes.
  destruct (FS.exists_ (w_fs w) _); simpl; [|apply extends_refl].
  destruct (FS.getsize _ _); simpl; [|apply extends_refl].
  destruct (_ =? 0); simpl; [apply extends_refl|].
  destruct (subprocess_run O _ _ _) as [e|rc out err]; simpl; [step_extends|].
  destruct (rc =? 0)%Z; simpl; [|step_extends].
  destruct (FS.write _ _ _); simpl; step_extends.
Qed.

(** Destructs the tests of a body one after the other. *)
Ltac split_tests :=
  repeat match goal with
    | |- context [stop_is_set O ?n] => destruct (stop_is_set O n); simpl
    | |- context [if ?b then _ else _] => destruct b; simpl
    end.

Lemma process_subdir_1_1_extends base_dir cmd batch overwrite total w i name :
  extends w (V1_1.process_subdir O base_dir cmd batch overwrite total w i name).2.
Proof.
  unfold V1_1.process_subdir, V1_1.stop_check. simpl.
  destruct (stop_is_set O (w_stops w)); simpl; [step_extends|].
  destruct (negb overwrite && _); simpl; [step_extends|].
  destruct (stop_is_set O _); simpl; [step_extends|].
  match goal with
  | |- context [Writer.create_wav_jsonl O ?fs ?d ?out (Some ?f) ?w0] =>
      pose proof (create_wav_jsonl_rel extends O f fs d out w0
                    (progress_reporter_1_1_extends _)) as Hext;
      destruct (Writer.create_wav_jsonl O fs d out (Some f) w0)
        as [[[num_wavs paths_msg] fs'] w1]
  end.
  simpl in Hext. simpl.
  destruct (num_wavs <? 0)%Z; simpl.
  { destruct (stop_is_set O _); simpl; step_extends. }
  destruct (num_wavs =? 0)%Z; simpl.
  { destruct (stop_is_set O _); simpl; step_extends. }
  destruct (stop_is_set O _); simpl; [step_extends|].
  match goal with
  | |- context [V1_1.run_audio_aes O ?W ?d ?c ?inp ?out ?b] =>
      pose proof (run_audio_aes_1_1_extends W d c inp out b) as Hrun;
      destruct (V1_1.run_audio_aes O W d c inp out b) as [[success message] w3]
  end.
  simpl in Hrun. simpl.
  split_tests; step_extends.
Qed.

Lemma count_1_1_accounted v c :
  accounted (V1_1.count v c) <= accounted c + 1.
Proof. unfold accounted. destruct v; simpl; lia. Qed.

Lemma process_all_1_1_ends base_dir cmd batch overwrite total i subdirs c w :
  let r := V1_1.process_all O base_dir cmd batch overwrite total i subdirs c w in
  extends w r.2 /\ accounted r.1 <= accounted c + length subdirs.
Proof.
  revert i c w. induction subdirs as [|name rest IH]; intros i c w; simpl.
  - split; [apply extends_refl | lia].
  - pose proof (process_subdir_1_1_extends base_dir cmd batch overwrite total w i name)
      as Hext.
    destruct (V1_1.process_subdir O _ _ _ _ _ w i name) as [[v stop] w1].
    simpl in Hext. pose proof (count_1_1_accounted v c).
    destruct stop; simpl; [split; [done|lia]|].
    destruct (IH (i + 1) (V1_1.count v c) w1) as [Hext' Hacc].
    split; [by etrans | lia].
Qed.

End V1_1Facts.

(** ** The claims on the orchestrator *)

Section Claims.

Variable O : oracles.

(** What the index writer reports for a directory that it lists without
    finding a media file: zero when the manifest can be opened for writing,
    -1 when it cannot. *)
Lemma writer_count_zero_media fs dir names :
  FS.listdir fs dir = Ok names ->
  List.filter Writer.is_wav names = [] ->
  writer_count O fs dir
  = match FS.write fs (Path.join dir PATHS_FILENAME) EmptyString with
    | Ok _ => 0%Z
    | Raise _ => (-1)%Z
    end.
Proof.
  intros Hls Hwav. unfold writer_count, Writer.create_wav_jsonl.
  rewrite Hls, Hwav. simpl. by destruct (FS.write fs _ _).
Qed.

(** C8, as the code has it. In a run over the subdirectories
    [before ++ subdir_name :: after], when the index writer lists the
    directory of [subdir_name] and finds no name ending in ".wav": no
    command is run in the iteration; when the empty manifest can be written
    the iteration ends as SKIPPED_NO_MEDIA and the loop goes on with the
    skipped-no-media counter incremented; when the manifest cannot be opened
    the iteration ends as ERROR and the loop goes on with the error counter
    incremented; and (the names of a directory listing being distinct and
    free of slashes) no command of the whole run is run in the directory of
    [subdir_name]. *)
Theorem C8_zero_media_never_scored
    (base_dir audio_aes_cmd : string) (batch_size : Z) (overwrite_existing : bool)
    (total_dirs i : nat) (subdir_name : string) (before after : list string)
    (c : counters) (w : world) (names : list string) :
  let start := Current.process_all O base_dir audio_aes_cmd batch_size
                 overwrite_existing total_dirs i before c w in
  let dir := Path.join base_dir subdir_name in
  let r := Current.process_subdir O base_dir audio_aes_cmd batch_size
             overwrite_existing total_dirs start.2 (i + length before) subdir_name in
  let whole := Current.process_all O base_dir audio_aes_cmd batch_size
                 overwrite_existing total_dirs i (before ++ subdir_name :: after) c w in
  past_skip_check (w_fs start.2) base_dir subdir_name overwrite_existing = true ->
  FS.listdir (w_fs start.2) dir = Ok names ->
  List.filter Writer.is_wav names = [] ->
  w_calls r.2 = w_calls start.2
  /\ match FS.write (w_fs start.2) (Path.join dir PATHS_FILENAME) EmptyString with
     | Ok _ =>
         r.1 = Current.SKIPPED_NO_MEDIA
         /\ whole
            = Current.process_all O base_dir audio_aes_cmd batch_size overwrite_existing
                total_dirs (i + length before + 1) after
                (Counters (processed_count start.1.2) (error_count start.1.2)
                   (skipped_no_wav_count start.1.2 + 1)
                   (skipped_existing_count start.1.2))
                r.2
     | Raise _ =>
         r.1 = Current.ERROR
         /\ whole
            = Current.process_all O base_dir audio_aes_cmd batch_size overwrite_existing
                total_dirs (i + length before + 1) after
                (Counters (processed_count start.1.2) (error_count start.1.2 + 1)
                   (skipped_no_wav_count start.1.2)
                   (skipped_existing_count start.1.2))
                r.2
     end
  /\ (~ In subdir_name before -> ~ In subdir_name after ->
      (forall name, In name (before ++ subdir_name :: after) ->
                    Py.startswith name "/" = false) ->
      forall call, In call (w_calls whole.2) ->
                   In call (w_calls w) \/ call.1 <> Path.join base_dir subdir_name).
Proof.
  intros start dir r whole Hpast Hls Hwav.
  pose proof (writer_count_zero_media (w_fs start.2) dir names Hls Hwav) as Hcount.
  destruct (process_subdir_cases O base_dir audio_aes_cmd batch_size
              overwrite_existing total_dirs start.2 (i + length before) subdir_name)
    as (_ & _ & _ & Hneg & H0 & _).
  fold r dir in Hneg, H0.
  assert (whole
          = Current.process_all O base_dir audio_aes_cmd batch_size overwrite_existing
              total_dirs (i + length before + 1) after
              (Current.count r.1 start.1.2) r.2) as Hwhole.
  { unfold whole. rewrite process_all_app. fold start. simpl. fold r.
    destruct r as [v w']. simpl in *.
    destruct (FS.write (w_fs start.2) _ _).
    - destruct (H0 Hpast Hcount) as [-> _]. done.
    - destruct (Hneg Hpast) as [-> _]; [lia | done]. }
  assert (w_calls r.2 = w_calls start.2 /\
          (r.1 = Current.SKIPPED_NO_MEDIA \/ r.1 = Current.ERROR)) as [Hcalls Hv].
  { destruct (FS.write (w_fs start.2) _ _).
    - destruct (H0 Hpast Hcount) as (? & ? & _). auto.
    - destruct (Hneg Hpast) as (? & ?); [lia | auto]. }
  split; [done|]. split.
  { destruct (FS.write (w_fs start.2) _ _).
    - destruct (H0 Hpast Hcount) as (Hr & _). split; [done|].
      rewrite Hwhole, Hr. done.
    - destruct (Hneg Hpast) as (Hr & _); [lia|]. split; [done|].
      rewrite Hwhole, Hr. done. }
  intros Hb Ha Hnames call Hcall. rewrite Hwhole in Hcall.
  destruct (process_all_calls O base_dir audio_aes_cmd batch_size overwrite_existing
              total_dirs (i + length before + 1) after
              (Current.count r.1 start.1.2) r.2) as (added2 & Hadd2 & Hin2).
  destruct (process_all_calls O base_dir audio_aes_cmd batch_size overwrite_existing
              total_dirs i before c w) as (added1 & Hadd1 & Hin1).
  fold start in Hadd1. rewrite Hadd2, Hcalls, Hadd1 in Hcall.
  apply in_app_or in Hcall as [Hcall|Hcall];
    [apply in_app_or in Hcall as [Hcall|Hcall]; [by left|]|]; right; intros Heq.
  - destruct (Hin1 call Hcall) as (n & Hn & Hjoin). rewrite Heq in Hjoin.
    apply join_inj in Hjoin;
      [congruence | apply Hnames, in_or_app; right; by left
                  | apply Hnames, in_or_app; by left].
  - destruct (Hin2 call Hcall) as (n & Hn & Hjoin). rewrite Heq in Hjoin.
    apply join_inj in Hjoin;
      [congruence | apply Hnames, in_or_app; right; by left
                  | apply Hnames, in_or_app; right; by right].
Qed.


Lemma append_logs_stops ms w : w_stops (append_logs ms w) = w_stops w.
Proof.
  revert w. induction ms as [|m ms IH]; intros w; [done|].
  change (w_stops (append_logs ms (_append_log m w)) = w_stops w). by rewrite IH.
Qed.

Lemma w_queue_clear_thread w : w_queue (clear_thread w) = w_queue w.
Proof. reflexivity. Qed.

Lemma final_stops t ms m w :
  w_stops (clear_thread (put t (append_logs ms (_update_status m (poll w)))))
  = Datatypes.S (w_stops w).
Proof.
  change (w_stops (append_logs ms (_update_status m (poll w)))
          = Datatypes.S (w_stops w)).
  by rewrite append_logs_stops.
Qed.

Lemma summaries_app q1 q2 : summaries (q1 ++ q2) = summaries q1 + summaries q2.
Proof. unfold summaries. by rewrite List.filter_app, length_app. Qed.

Lemma summaries_quiet added :
  forallb (fun t => negb (is_summary t)) added = true -> summaries added = 0.
Proof.
  unfold summaries. induction added as [|t added IH]; simpl; [done|].
  destruct (is_summary t); simpl; [done | apply IH].
Qed.

Lemma extends_queue w w' t :
  extends w w' ->
  exists queued,
    w_queue (put t w') = w_queue w ++ queued ++ [t]
    /\ summaries queued = 0
    /\ w_clock w <= w_clock w'.
Proof.
  intros (added & Hq & Hquiet & Hclock). exists added.
  split; [|split; [by apply summaries_quiet | done]].
  unfold put. simpl. by rewrite Hq, <- app_assoc.
Qed.

(** C3, as the code has it. A run that finds at least one subdirectory
    queues its summary exactly once, as the last task of the run: the
    counters, which account for the subdirectories, and the elapsed time
    between the first reading of the clock and a later one.  In revision 1.1
    the summary also names the completion state, halted when the stop event
    is set at the end, and is queued whether or not the loop was left
    early; the current revision has neither a stop event nor a completion
    state. *)
Theorem C3_summary_once_per_run_with_subdirectories
    (w : world) (base_dir audio_aes_cmd : string) (batch_size : Z)
    (overwrite_existing : bool) (subdirs_found : list string) :
  find_subdirs (w_fs w) base_dir = Ok subdirs_found ->
  subdirs_found <> [] ->
  (let r := Current._perform_preprocessing O w base_dir audio_aes_cmd batch_size
              overwrite_existing in
   exists c queued k,
     r.1 = Current.Summarised c
     /\ w_queue r.2
        = w_queue w ++ queued
          ++ [ShowInfo "Preprocessing Complete"
                (Py.join nl
                   (Current.summary_lines O
                      (time_time O k - time_time O (w_clock w))%Q
                      base_dir (length subdirs_found) c)
                 +:+ nl +:+ nl
                 +:+ "Please reload the data if needed to see the results.")]
     /\ summaries queued = 0
     /\ w_clock w < k
     /\ accounted c = length subdirs_found)
  /\ (let r := V1_1._perform_preprocessing O w base_dir audio_aes_cmd batch_size
                 overwrite_existing in
      exists j c queued k n,
        r.1 = V1_1.Summarised j c
        /\ w_queue r.2
           = w_queue w ++ queued
             ++ [ShowInfo ("Preprocessing " +:+ V1_1.job_status j)
                   (Py.join nl
                      (V1_1.summary_lines O j
                         (time_time O k - time_time O (w_clock w))%Q
                         base_dir (length subdirs_found) c)
                    +:+ nl +:+ nl +:+ "Please reload the data if needed.")]
        /\ summaries queued = 0
        /\ w_clock w < k
        /\ accounted c <= length subdirs_found
        /\ j = (if stop_is_set O n then V1_1.HALTED else V1_1.COMPLETED)
        /\ w_stops r.2 = Datatypes.S n
        /\ w_thread r.2 = None).
Proof.
  intros Hfind Hne. split.
  - unfold Current._perform_preprocessing, now. cbv beta iota zeta.
    change (w_fs (tick w)) with (w_fs w). rewrite Hfind.
    destruct subdirs_found as [|d ds]; [done|].
    match goal with
    | |- context [Current.process_all O ?b ?c ?bs ?ov ?t ?i ?l ?c0 ?W] =>
        destruct (process_all_ends O b c bs ov t i l c0 W)
          as (c' & w' & -> & Hext & Hacc)
    end.
    cbv beta iota zeta.
    match goal with
    | |- context [put ?t (append_logs ?ls (_update_status ?m (tick w')))] =>
        destruct (extends_queue w (append_logs ls (_update_status m (tick w'))) t)
          as (queued & Hq & Hs & Hc)
    end.
    { etrans; [|etrans; [apply Hext|]]; step_extends. }
    exists c', queued, (w_clock w').
    cbn [fst snd].
    split; [reflexivity|]. split; [exact Hq|]. split; [exact Hs|].
    split; [|by rewrite Hacc].
    destruct Hext as (_ & _ & _ & Hclock). simpl in Hclock. lia.
  - unfold V1_1._perform_preprocessing, now, is_set. cbv beta iota zeta.
    change (w_fs (tick w)) with (w_fs w). rewrite Hfind.
    destruct subdirs_found as [|d ds]; [done|].
    match goal with
    | |- context [V1_1.process_all O ?b ?c ?bs ?ov ?t ?i ?l ?c0 ?W] =>
        destruct (process_all_1_1_ends O b c bs ov t i l c0 W) as [Hext Hacc];
        destruct (V1_1.process_all O b c bs ov t i l c0 W) as [c' w']
    end.
    cbv beta iota zeta. simpl in Hext, Hacc.
    match goal with
    | |- context [put ?t (append_logs ?ls (_update_status ?m (poll (tick w'))))] =>
        destruct (extends_queue w
                    (append_logs ls (_update_status m (poll (tick w')))) t)
          as (queued & Hq & Hs & Hc)
    end.
    { etrans; [|etrans; [apply Hext|]]; step_extends. }
    exists (if stop_is_set O (w_stops (tick w')) then V1_1.HALTED else V1_1.COMPLETED),
      c', queued, (w_clock w'), (w_stops (tick w')).
    cbn [fst snd].
    split; [reflexivity|]. rewrite w_queue_clear_thread.
    split; [exact Hq|]. split; [exact Hs|].
    split.
    { destruct Hext as (_ & _ & _ & Hclock). simpl in Hclock. lia. }
    split; [cbn [length]; exact Hacc|]. split; [reflexivity|]. split; [|reflexivity].
    apply final_stops.
Qed.

End Claims.

Import JobExamples RunExamples.

(** C8 at the run over the subdirectories A and E of /run, E holding no
    media file and a manifest that can be rewritten. *)
Lemma C8_witness :
  let start := Current.process_all job_oracles "/run" "audio-aes" 100 false 2 0 ["A"]
                 counters0 (job_world run_fs) in
  let r := Current.process_subdir job_oracles "/run" "audio-aes" 100 false 2
             start.2 (0 + length ["A"]) "E" in
  let whole := Current.process_all job_oracles "/run" "audio-aes" 100 false 2 0
                 (["A"] ++ "E" :: []) counters0 (job_world run_fs) in
  w_calls r.2 = w_calls start.2
  /\ (r.1 = Current.SKIPPED_NO_MEDIA
      /\ whole
         = Current.process_all job_oracles "/run" "audio-aes" 100 false 2
             (0 + length ["A"] + 1) []
             (Counters (processed_count start.1.2) (error_count start.1.2)
                (skipped_no_wav_count start.1.2 + 1) (skipped_existing_count start.1.2))
             r.2)
  /\ (~ In "E" ["A"] -> ~ In "E" [] ->
      (forall name, In name (["A"] ++ "E" :: []) -> Py.startswith name "/" = false) ->
      forall call, In call (w_calls whole.2) ->
                   In call (w_calls (job_world run_fs))
                   \/ call.1 <> Path.join "/run" "E").
Proof.
  apply (C8_zero_media_never_scored job_oracles "/run" "audio-aes" 100 false 2 0 "E"
           ["A"] [] counters0 (job_world run_fs) ["readme.txt"; "paths.jsonl"]);
    vm_compute; reflexivity.
Defined.

(** C8 fails as stated: subdirectory E of /blk holds no media file, and a
    directory stands in the place of its manifest; the index writer cannot
    open the manifest and reports -1, and the run counts the subdirectory
    as an error, not as skipped for want of media files.  No command is
    run. *)
Lemma C8_zero_media_counted_as_error :
  FS.listdir blocked_fs "/blk/E" = Ok ["readme.txt"; "paths.jsonl"]
  /\ List.filter Writer.is_wav ["readme.txt"; "paths.jsonl"] = []
  /\ writer_count job_oracles blocked_fs "/blk/E" = (-1)%Z
  /\ (Current.process_subdir job_oracles "/blk" "audio-aes" 100 false 1
        (job_world blocked_fs) 0 "E").1 = Current.ERROR
  /\ (Current.process_all job_oracles "/blk" "audio-aes" 100 false 1 0 ["E"]
        counters0 (job_world blocked_fs)).1
     = (None, Counters 0 1 0 0)
  /\ w_calls (Current.process_all job_oracles "/blk" "audio-aes" 100 false 1 0 ["E"]
                counters0 (job_world blocked_fs)).2 = [].
Proof. vm_compute. repeat split; reflexivity. Qed.


(** C3 at the example with two subdirectories, the stop event being set
    from its third reading on. *)
Lemma C3_witness :
  (exists c queued k,
     (Current._perform_preprocessing stopping_oracles (job_world run_fs)
        "/run" "audio-aes" 100 false).1 = Current.Summarised c
     /\ summaries queued = 0
     /\ w_queue (Current._perform_preprocessing stopping_oracles (job_world run_fs)
                   "/run" "audio-aes" 100 false).2
        = w_queue (job_world run_fs) ++ queued
          ++ [ShowInfo "Preprocessing Complete"
                (Py.join nl
                   (Current.summary_lines stopping_oracles
                      (time_time stopping_oracles k
                       - time_time stopping_oracles (w_clock (job_world run_fs)))%Q
                      "/run" (length ["A"; "E"]) c)
                 +:+ nl +:+ nl
                 +:+ "Please reload the data if needed to see the results.")])
  /\ (exists c queued k,
        (V1_1._perform_preprocessing stopping_oracles (job_world run_fs)
           "/run" "audio-aes" 100 false).1 = V1_1.Summarised V1_1.HALTED c
        /\ summaries queued = 0
        /\ w_queue (V1_1._perform_preprocessing stopping_oracles (job_world run_fs)
                      "/run" "audio-aes" 100 false).2
           = w_queue (job_world run_fs) ++ queued
             ++ [ShowInfo "Preprocessing Halted by user request"
                   (Py.join nl
                      (V1_1.summary_lines stopping_oracles V1_1.HALTED
                         (time_time stopping_oracles k
                          - time_time stopping_oracles (w_clock (job_world run_fs)))%Q
                         "/run" (length ["A"; "E"]) c)
                    +:+ nl +:+ nl +:+ "Please reload the data if needed.")]).
Proof.
  destruct (C3_summary_once_per_run_with_subdirectories stopping_oracles
              (job_world run_fs) "/run" "audio-aes" 100 false ["A"; "E"])
    as [(c & queued & k & Hr & Hq & Hs & _)
        (j & c2 & queued2 & k2 & n & Hr2 & Hq2 & Hs2 & _)].
  - vm_compute. reflexivity.
  - discriminate.
  - split.
    { exists c, queued, k. split; [exact Hr|]. split; [exact Hs|]. exact Hq. }
    assert (j = V1_1.HALTED) as ->.
    { revert Hr2. vm_compute. congruence. }
    exists c2, queued2, k2. split; [exact Hr2|]. split; [exact Hs2|]. exact Hq2.
Defined.

(** C3 fails as stated: a run on a base directory without subdirectories
    ends, in both revisions, with two diagnostics queued and no summary. *)
Lemma C3_no_summary_without_subdirectories :
  find_subdirs run_fs "/flat" = Ok []
  /\ Current._perform_preprocessing job_oracles (job_world run_fs)
       "/flat" "audio-aes" 100 false
     = (Current.NothingToDo,
        World run_fs
          [AppendLog "No subdirectories found to process in the selected base directory.";
           StatusText "Status: Preprocessing finished: No subdirectories found."]
          [] 1 0 None)
  /\ V1_1._perform_preprocessing job_oracles (job_world run_fs)
       "/flat" "audio-aes" 100 false
     = (V1_1.NothingToDo,
        World run_fs
          [AppendLog "No subdirectories found to process in the selected base directory.";
           StatusText "Status: Preprocessing finished: No subdirectories found."]
          [] 1 0 None)
  /\ summaries
       [AppendLog "No subdirectories found to process in the selected base directory.";
        StatusText "Status: Preprocessing finished: No subdirectories found."] = 0.
Proof. vm_compute. repeat split; reflexivity. Qed.

(** The example run of the specification: A is processed, E is skipped for
    want of media, and the summary counts one of each. *)
Example run_of_two_subdirectories :
  (Current._perform_preprocessing job_oracles (job_world run_fs)
     "/run" "audio-aes" 100 false).1
  = Current.Summarised (Counters 1 0 1 0)
  /\ w_calls (Current._perform_preprocessing job_oracles (job_world run_fs)
               "/run" "audio-aes" 100 false).2
     = [("/run/A", ["audio-aes"; "paths.jsonl"; "--batch-size"; "100"])].
Proof. vm_compute. split; reflexivity. Qed.

End OrchestratorFacts.

(** * Properties of the launcher *)

Module LauncherFacts.
Import SortExamples.

Lemma mem_singleton t u : mem t [u] = true -> t = u.
Proof.
  unfold mem. simpl. rewrite orb_false_r. intros H. by apply Nat.eqb_eq in H.
Qed.

Lemma tracked_step base_dir g e : tracked g -> tracked (V1_1Gui.step base_dir g e).
Proof.
  intros Hg. destruct e as [ok dialog|t|t]; simpl.
  - unfold V1_1Gui.run_preprocessing_thread.
    destruct ok; simpl; [|by inversion Hg; [apply tracked_idle|eapply tracked_busy]].
    inversion Hg as [g0 Hrun|g0 t Hrun Hth]; subst g0.
    + destruct (match g_thread g with Some t => is_alive g t | None => false end);
        [by apply tracked_idle|].
      destruct dialog as [o|]; [|by apply tracked_idle].
      apply (tracked_busy _ (g_started g)); simpl; [by rewrite Hrun | done].
    + unfold is_alive. rewrite Hth, Hrun. simpl. rewrite Nat.eqb_refl. simpl.
      by eapply tracked_busy.
  - destruct (mem t (g_running g)) eqn:Hm; [|done].
    inversion Hg as [g0 Hrun|g0 u Hrun Hth]; subst g0.
    + by rewrite Hrun in Hm.
    + rewrite Hrun in Hm. apply mem_singleton in Hm as ->.
      apply tracked_idle. simpl. rewrite Hrun. simpl. by rewrite Nat.eqb_refl.
  - inversion Hg as [g0 Hrun|g0 u Hrun Hth]; subst g0;
      [by apply tracked_idle | by eapply tracked_busy].
Qed.

Lemma tracked_from base_dir events g :
  tracked g -> tracked (fold_left (V1_1Gui.step base_dir) events g).
Proof.
  revert g. induction events as [|e events IH]; intros g Hg; simpl; [done|].
  apply IH. by apply tracked_step.
Qed.

Lemma tracked_run base_dir events : tracked (V1_1Gui.run base_dir events).
Proof. apply tracked_from. by apply tracked_idle. Qed.

(** C4, as the code has it. In revision 1.1, after any sequence of clicks
    and worker events at most one worker is inside the orchestrator, and
    while one is, a click on the button with a valid base directory only
    shows the "Preprocessing Busy" warning: no dialog, no new thread. *)
Theorem C4_second_run_rejected_in_1_1 (base_dir : string) (events : list gui_event) :
  let g := V1_1Gui.run base_dir events in
  length (g_running g) <= 1
  /\ (g_running g <> [] ->
      forall dialog,
        V1_1Gui.step base_dir g (ClickPreprocess true dialog)
        = Gui (g_thread g) (g_running g) (g_ending g) (g_started g)
            (g_out g ++ [preprocessing_busy])).
Proof.
  intros g. pose proof (tracked_run base_dir events) as Hg. fold g in Hg.
  inversion Hg as [g0 Hrun|g0 t Hrun Hth]; subst g0.
  - rewrite Hrun. split; [simpl; lia | done].
  - rewrite Hrun. split; [simpl; lia|]. intros _ dialog. simpl.
    unfold V1_1Gui.run_preprocessing_thread, is_alive. simpl.
    rewrite Hth, Hrun. simpl. by rewrite Nat.eqb_refl.
Qed.

(** C4 after one confirmed start in revision 1.1: the second click is
    answered by the warning. *)
Lemma C4_witness :
  V1_1Gui.step "/data" (V1_1Gui.run "/data" [ClickPreprocess true (Some default_options)])
    (ClickPreprocess true (Some default_options))
  = Gui (Some 0) [0] [] 1
      (start_messages "/data" default_options ++ [preprocessing_busy]).
Proof.
  destruct (C4_second_run_rejected_in_1_1 "/data"
              [ClickPreprocess true (Some default_options)]) as [_ H].
  rewrite H; [reflexivity | discriminate].
Defined.

(** C4 fails on [AudioREV.py]: two confirmed clicks start two workers, both
    inside the orchestrator, and nothing but the start messages is shown. *)
Lemma C4_two_runs_in_current_revision :
  CurrentGui.run "/data"
    [ClickPreprocess true (Some default_options);
     ClickPreprocess true (Some default_options)]
  = Gui None [0; 1] [] 2
      (start_messages "/data" default_options ++ start_messages "/data" default_options).
Proof. reflexivity. Qed.

End LauncherFacts.

(** * Properties of the column sort *)

Module SortFacts.
Import SortSpec SortExamples.

(** ** The stable sort on any keys that [<] orders as a total preorder *)

Section Stable.

Context {A K : Type}.
Variable key : A -> K.
Variable lt : K -> K -> bool.
Hypothesis lt_asym : forall a b, lt a b = true -> lt b a = false.
Hypothesis lt_negtrans : forall a b c, lt a b = false -> lt b c = false -> lt a c = false.

Local Abbreviation insert := (PySort.insert key lt).
Local Abbreviation sort_asc := (PySort.sort_asc key lt).
Local Abbreviation sort := (PySort.sort key lt).

Local Abbreviation asc := (PySort.asc key lt).
Local Abbreviation desc := (PySort.desc key lt).
Local Abbreviation keq := (PySort.keq lt).

Lemma insert_perm x l : Permutation (x :: l) (insert x l).
Proof.
  induction l as [|y l IH]; simpl; [done|].
  destruct (lt (key y) (key x)); [|done].
  etrans; [apply perm_swap|]. by constructor.
Qed.

Lemma sort_asc_perm l : Permutation l (sort_asc l).
Proof.
  induction l as [|x l IH]; simpl; [done|].
  etrans; [|apply insert_perm]. by constructor.
Qed.

Lemma sort_perm reverse l : Permutation l (sort reverse l).
Proof.
  unfold PySort.sort. destruct reverse; [|apply sort_asc_perm].
  etrans; [apply Permutation_rev|].
  etrans; [apply sort_asc_perm|]. apply Permutation_rev.
Qed.

Lemma insert_sorted x l :
  StronglySorted asc l -> StronglySorted asc (insert x l).
Proof.
  induction 1 as [|y l Hs IH Hy]; simpl.
  - by repeat constructor.
  - destruct (lt (key y) (key x)) eqn:Hyx.
    + constructor; [done|].
      rewrite List.Forall_forall in Hy |- *. intros z Hz.
      apply (Permutation_in _ (Permutation_sym (insert_perm x l))) in Hz.
      destruct Hz as [<-|Hz]; [|by apply Hy].
      by apply lt_asym.
    + constructor; [by constructor|].
      constructor; [done|].
      rewrite List.Forall_forall in Hy |- *. intros z Hz.
      eapply lt_negtrans; [apply (Hy z Hz) | done].
Qed.

Lemma sort_asc_sorted l : StronglySorted asc (sort_asc l).
Proof.
  induction l as [|x l IH]; simpl; [constructor | by apply insert_sorted].
Qed.

Lemma sorted_app_inv (R : A -> A -> Prop) l1 l2 :
  StronglySorted R (l1 ++ l2) ->
  StronglySorted R l1 /\ StronglySorted R l2
  /\ forall x y, In x l1 -> In y l2 -> R x y.
Proof.
  induction l1 as [|a l1 IH]; simpl; intros Hs.
  - split; [constructor|]. split; [done|]. by intros ?? [].
  - apply StronglySorted_inv in Hs as [Hs Ha].
    destruct (IH Hs) as (H1 & H2 & H3).
    rewrite List.Forall_forall in Ha.
    split.
    { constructor; [done|]. rewrite List.Forall_forall. intros z Hz.
      apply Ha, in_or_app. by left. }
    split; [done|].
    intros x y [<-|Hx] Hy; [apply Ha, in_or_app; by right | by apply H3].
Qed.

Lemma sorted_app (R : A -> A -> Prop) l1 l2 :
  StronglySorted R l1 -> StronglySorted R l2 ->
  (forall x y, In x l1 -> In y l2 -> R x y) ->
  StronglySorted R (l1 ++ l2).
Proof.
  induction l1 as [|a l1 IH]; simpl; intros H1 H2 H3; [done|].
  apply StronglySorted_inv in H1 as [H1 Ha].
  constructor.
  - apply IH; [done | done | intros; apply H3; auto].
  - rewrite List.Forall_forall in Ha |- *. intros z Hz.
    apply in_app_or in Hz as [Hz|Hz]; [by apply Ha | apply H3; auto].
Qed.

Lemma sorted_rev (R : A -> A -> Prop) l :
  StronglySorted R l -> StronglySorted (fun x y => R y x) (List.rev l).
Proof.
  induction 1 as [|a l Hs IH Ha]; simpl; [constructor|].
  apply sorted_app; [done | by repeat constructor |].
  rewrite List.Forall_forall in Ha.
  intros x y Hx Hy. destruct Hy as [<-|Hy]; [|destruct Hy].
  apply Ha. by apply in_rev.
Qed.

(** The result is in order: ascending, or descending when reversed. *)
Lemma sort_sorted (reverse : bool) l :
  StronglySorted (if reverse then desc else asc) (sort reverse l).
Proof.
  unfold PySort.sort. destruct reverse; [|apply sort_asc_sorted].
  apply (sorted_rev asc), sort_asc_sorted.
Qed.

(** In a list in order, an element before another is related to it. *)
Lemma sorted_before (R : A -> A -> Prop) l l1 x l2 y l3 :
  StronglySorted R l -> l = l1 ++ x :: l2 ++ y :: l3 -> R x y.
Proof.
  intros Hs ->.
  apply sorted_app_inv in Hs as (_ & Hs & _).
  apply StronglySorted_inv in Hs as [_ Hx].
  rewrite List.Forall_forall in Hx. apply Hx, in_or_app. right. by left.
Qed.

(** Stability: the elements whose key equals a given one keep their
    order. *)
Lemma insert_stable k x l :
  List.filter (fun y => keq (key y) k) (insert x l)
  = List.filter (fun y => keq (key y) k) (x :: l).
Proof.
  induction l as [|y l IH]; simpl; [done|].
  destruct (lt (key y) (key x)) eqn:Hyx; [|done].
  simpl. simpl in IH. rewrite IH.
  destruct (keq (key x) k) eqn:Hx; [|done].
  destruct (keq (key y) k) eqn:Hy; [|done].
  exfalso. unfold PySort.keq in Hx, Hy.
  apply andb_prop in Hx as [Hx1 Hx2]. apply andb_prop in Hy as [Hy1 Hy2].
  apply negb_true_iff in Hx1, Hx2, Hy1, Hy2.
  pose proof (lt_negtrans _ _ _ Hy1 Hx2). congruence.
Qed.

Lemma sort_asc_stable k l :
  List.filter (fun y => keq (key y) k) (sort_asc l)
  = List.filter (fun y => keq (key y) k) l.
Proof.
  induction l as [|x l IH]; simpl; [done|].
  rewrite insert_stable. simpl. by rewrite IH.
Qed.

Lemma filter_rev (f : A -> bool) l :
  List.filter f (List.rev l) = List.rev (List.filter f l).
Proof.
  induction l as [|x l IH]; simpl; [done|].
  rewrite List.filter_app, IH. simpl. destruct (f x); simpl; [done|].
  by rewrite app_nil_r.
Qed.

Lemma sort_stable reverse k l :
  List.filter (fun y => keq (key y) k) (sort reverse l)
  = List.filter (fun y => keq (key y) k) l.
Proof.
  unfold PySort.sort. destruct reverse; [|apply sort_asc_stable].
  by rewrite filter_rev, sort_asc_stable, filter_rev, rev_involutive.
Qed.

End Stable.

(** ** The sort looks at the keys of the elements only *)

Section Agree.

Context {A K : Type}.
Variable key : A -> K.
Variables lt lt' : K -> K -> bool.

Lemma insert_agree x l :
  (forall y, In y l -> lt (key y) (key x) = lt' (key y) (key x)) ->
  PySort.insert key lt x l = PySort.insert key lt' x l.
Proof.
  induction l as [|y l IH]; simpl; intros H; [done|].
  rewrite <- (H y) by (by left).
  destruct (lt (key y) (key x)); [|done].
  f_equal. apply IH. intros z Hz. apply H. by right.
Qed.

Lemma sort_asc_agree l :
  (forall x y, In x l -> In y l -> lt (key x) (key y) = lt' (key x) (key y)) ->
  PySort.sort_asc key lt l = PySort.sort_asc key lt' l.
Proof.
  induction l as [|x l IH]; simpl; intros H; [done|].
  rewrite <- IH by (intros; apply H; by right).
  apply insert_agree. intros y Hy. apply H; [right | by left].
  apply (Permutation_in _ (Permutation_sym (sort_asc_perm key lt l))), Hy.
Qed.

Lemma sort_agree reverse l :
  (forall x y, In x l -> In y l -> lt (key x) (key y) = lt' (key x) (key y)) ->
  PySort.sort key lt reverse l = PySort.sort key lt' reverse l.
Proof.
  intros H. unfold PySort.sort. destruct reverse; [|by apply sort_asc_agree].
  f_equal. apply sort_asc_agree. intros x y Hx Hy.
  apply H; by apply in_rev.
Qed.

End Agree.

(** ** The two orders of keys *)

Lemma total_leb_total a b : total_leb a b = true \/ total_leb b a = true.
Proof.
  destruct a as [|x| |], b as [|y| |]; simpl; auto.
  rewrite !Qle_bool_iff. destruct (Qlt_le_dec x y) as [H|H]; [left|right]; [|done].
  by apply Qlt_le_weak.
Qed.

Lemma total_leb_trans a b c :
  total_leb a b = true -> total_leb b c = true -> total_leb a c = true.
Proof.
  destruct a as [|x| |], b as [|y| |], c as [|z| |]; simpl; try done.
  rewrite !Qle_bool_iff. apply Qle_trans.
Qed.

Lemma total_ltb_asym a b : total_ltb a b = true -> total_ltb b a = false.
Proof.
  unfold total_ltb. intros H%negb_true_iff.
  destruct (total_leb_total a b) as [H1|H1]; [by rewrite H1 | congruence].
Qed.

Lemma total_ltb_negtrans a b c :
  total_ltb a b = false -> total_ltb b c = false -> total_ltb a c = false.
Proof.
  unfold total_ltb. intros H1%negb_false_iff H2%negb_false_iff.
  apply negb_false_iff. by apply (total_leb_trans c b a).
Qed.

(** On floats other than NaN, [<] is the total order. *)
Lemma pyfloat_ltb_total a b :
  is_nan a = false -> is_nan b = false -> pyfloat_ltb a b = total_ltb a b.
Proof. by destruct a, b. Qed.

Lemma str_ltb_asym a b : str_ltb a b = true -> str_ltb b a = false.
Proof.
  unfold str_ltb. intros H%negb_true_iff.
  destruct (String.leb_total a b) as [H1|H1]; [by rewrite H1 | congruence].
Qed.

Lemma str_leb_trans a b c :
  String.leb a b = true -> String.leb b c = true -> String.leb a c = true.
Proof.
  intros H1 H2. apply Is_true_true.
  apply (@transitivity _ String.le _ a b c); by apply Is_true_true.
Qed.

Lemma str_ltb_negtrans a b c :
  str_ltb a b = false -> str_ltb b c = false -> str_ltb a c = false.
Proof.
  unfold str_ltb. intros H1%negb_false_iff H2%negb_false_iff.
  apply negb_false_iff. by apply (str_leb_trans c b a).
Qed.

(** ** [sort_column] *)

Section SortColumn.

Variable str_float : string -> option pyfloat.
Variable str_lower : string -> string.
Variable unordered : nan_sort.

Local Abbreviation sort_key_numeric := (Sorter.sort_key_numeric str_float).
Local Abbreviation key_of := (Sorter.key_of str_float).
Local Abbreviation keys := (Sorter.keys str_float).
Local Abbreviation sorted_by := (Sorter.sorted_by str_float str_lower unordered).
Local Abbreviation sort_column := (Sorter.sort_column str_float str_lower unordered).
Local Abbreviation too_large := (SortSpec.too_large str_float).
Local Abbreviation nan_valued := (SortSpec.nan_valued str_float).
Local Abbreviation convertible := (SortSpec.convertible str_float).
Local Abbreviation nan_free := (SortSpec.nan_free str_float).
Local Abbreviation same_key := (SortSpec.same_key str_float str_lower).
Local Abbreviation finite := (SortSpec.finite str_float).

Lemma column_eqb_refl c : column_eqb c c = true.
Proof. by destruct c. Qed.

Lemma column_eqb_neq c c' : c' <> c -> column_eqb c' c = false.
Proof. by destruct c, c'. Qed.

(** The key of a record is computed unless its value is too large. *)
Lemma sort_key_numeric_cases c reverse item :
  is_numeric c = true ->
  if too_large c item
  then sort_key_numeric c reverse item = Raise Sorter.int_too_large
  else sort_key_numeric c reverse item = Ok (key_of c reverse item).
Proof.
  intros Hnum. unfold SortSpec.too_large, Sorter.key_of, Sorter.sort_key_numeric.
  rewrite Hnum. simpl.
  destruct (item_get item c) as [val|]; [|done].
  by destruct (Sorter.py_float str_float val).
Qed.

Lemma keys_convertible c reverse l :
  is_numeric c = true ->
  if convertible c l
  then keys c reverse l = Ok (List.map (key_of c reverse) l)
  else keys c reverse l = Raise Sorter.int_too_large.
Proof.
  intros Hnum. unfold SortSpec.convertible.
  induction l as [|item l IH]; simpl; [done|].
  pose proof (sort_key_numeric_cases c reverse item Hnum) as Hk.
  destruct (too_large c item); simpl; rewrite Hk; [done|].
  destruct (forallb _ l); by rewrite IH.
Qed.

(** The key of a record is NaN when its value converts to NaN. *)
Lemma key_of_nan c reverse item :
  is_numeric c = true ->
  is_nan (key_of c reverse item) = nan_valued c item.
Proof.
  intros Hnum. unfold SortSpec.nan_valued, Sorter.key_of, Sorter.sort_key_numeric.
  rewrite Hnum. simpl.
  destruct (item_get item c) as [val|]; [|by destruct reverse].
  destruct (Sorter.py_float str_float val) as [[| | |]| |]; simpl; try done;
    by destruct reverse.
Qed.

Lemma keys_nan_free c reverse l :
  is_numeric c = true ->
  existsb is_nan (List.map (key_of c reverse) l) = negb (nan_free c l).
Proof.
  intros Hnum. unfold SortSpec.nan_free.
  induction l as [|item l IH]; simpl; [done|].
  rewrite IH, key_of_nan by done. by destruct (nan_valued c item).
Qed.

Lemma nan_free_in c l x :
  nan_free c l = true -> In x l -> nan_valued c x = false.
Proof.
  unfold SortSpec.nan_free. rewrite forallb_forall. intros H Hx.
  apply negb_true_iff, H, Hx.
Qed.

Lemma nan_free_perm c l l' :
  Permutation l l' -> nan_free c l = true -> nan_free c l' = true.
Proof.
  unfold SortSpec.nan_free. rewrite !forallb_forall. intros Hp H x Hx.
  apply H. by apply (Permutation_in _ (Permutation_sym Hp)).
Qed.

Lemma convertible_perm c l l' :
  Permutation l l' -> convertible c l = true -> convertible c l' = true.
Proof.
  unfold SortSpec.convertible. rewrite !forallb_forall. intros Hp H x Hx.
  apply H. by apply (Permutation_in _ (Permutation_sym Hp)).
Qed.

Lemma convertible_text c l : is_numeric c = false -> convertible c l = true.
Proof.
  intros Hnum. unfold SortSpec.convertible, SortSpec.too_large. rewrite Hnum.
  by induction l.
Qed.

(** A sort whose keys can be computed returns a rearrangement of the
    list; a sort with a key that cannot be computed raises. *)
Lemma sorted_by_convertible c reverse l :
  if convertible c l
  then exists l', sorted_by c reverse l = Ok l' /\ Permutation l l'
  else sorted_by c reverse l = Raise Sorter.int_too_large.
Proof.
  unfold Sorter.sorted_by. destruct (is_numeric c) eqn:Hnum.
  - pose proof (keys_convertible c reverse l Hnum) as Hk.
    destruct (convertible c l); rewrite Hk; [|done].
    destruct (existsb is_nan _); eexists; (split; [done|]).
    + apply Permutation_sym, rearranged_perm.
    + apply sort_perm.
  - rewrite (convertible_text c l Hnum). eexists. split; [done|]. apply sort_perm.
Qed.

(** Without a NaN among the keys the sort is the stable sort by the total
    order. *)
Lemma sorted_by_nan_free c reverse l :
  is_numeric c = true ->
  convertible c l = true -> nan_free c l = true ->
  sorted_by c reverse l
  = Ok (PySort.sort (key_of c reverse) total_ltb reverse l).
Proof.
  intros Hnum Hc Hn. unfold Sorter.sorted_by. rewrite Hnum.
  pose proof (keys_convertible c reverse l Hnum) as Hk. rewrite Hc in Hk.
  rewrite Hk, keys_nan_free, Hn by done. simpl. f_equal.
  apply sort_agree. intros x y Hx Hy.
  apply pyfloat_ltb_total; rewrite key_of_nan by done; by eapply nan_free_in.
Qed.

Lemma keq_total a b :
  is_nan a = false -> is_nan b = false ->
  PySort.keq pyfloat_ltb a b = PySort.keq total_ltb a b.
Proof. intros Ha Hb. unfold PySort.keq. by rewrite !pyfloat_ltb_total. Qed.

(** Records with equal keys keep their order. *)
Lemma sorted_by_stable c reverse l l' x :
  convertible c l = true -> nan_free c l = true ->
  sorted_by c reverse l = Ok l' ->
  In x l ->
  List.filter (fun y => same_key c reverse y x) l'
  = List.filter (fun y => same_key c reverse y x) l.
Proof.
  intros Hc Hn Hs Hx. unfold SortSpec.same_key.
  destruct (is_numeric c) eqn:Hnum.
  - rewrite sorted_by_nan_free in Hs by done. injection Hs as <-.
    assert (forall l0, (forall y, In y l0 -> In y l) ->
              List.filter (fun y => PySort.keq pyfloat_ltb (key_of c reverse y)
                                      (key_of c reverse x)) l0
              = List.filter (fun y => PySort.keq total_ltb (key_of c reverse y)
                                        (key_of c reverse x)) l0) as Hext.
    { intros l0 Hl0. apply List.filter_ext_in. intros y Hy.
      apply keq_total; rewrite key_of_nan by done; eapply nan_free_in; eauto. }
    rewrite !Hext; [| done |].
    + apply (sort_stable (key_of c reverse) total_ltb total_ltb_negtrans).
    + intros y Hy.
      by apply (Permutation_in _
                  (Permutation_sym (sort_perm (key_of c reverse) total_ltb reverse l))).
  - unfold Sorter.sorted_by in Hs. rewrite Hnum in Hs. injection Hs as <-.
    apply (sort_stable (Sorter.sort_key_text str_lower c) str_ltb str_ltb_negtrans).
Qed.

(** A record without a value is never placed before one with a finite
    value. *)
Lemma sorted_by_absent_last c reverse l l' x y :
  convertible c l = true -> nan_free c l = true ->
  sorted_by c reverse l = Ok l' ->
  SortSpec.before l' x y ->
  SortSpec.absent c x = true -> finite c y = false.
Proof.
  intros Hc Hn Hs (l1 & l2 & l3 & Hl) Hx.
  destruct (finite c y) eqn:Hy; [exfalso|done].
  unfold SortSpec.absent in Hx. unfold SortSpec.finite in Hy.
  destruct (item_get x c) as [vx|] eqn:Hgx; [done|].
  destruct (item_get y c) as [vy|] eqn:Hgy; [|done].
  destruct (Sorter.py_float str_float vy) as [[|q| |]| |] eqn:Hfy; try done.
  assert (is_numeric c = true) as Hnum by (by destruct c).
  rewrite sorted_by_nan_free in Hs by done. injection Hs as <-.
  pose proof (sort_sorted (key_of c reverse) total_ltb
                total_ltb_asym total_ltb_negtrans reverse l) as Hsorted.
  pose proof (sorted_before _ _ _ _ _ _ _ Hsorted Hl) as Hxy.
  destruct reverse;
    unfold PySort.desc, PySort.asc, Sorter.key_of, Sorter.sort_key_numeric in Hxy;
    rewrite Hgx, Hgy, Hfy in Hxy; done.
Qed.


End SortColumn.


(** What the two sorts of the example return. *)
Example sort_by_CE_twice :
  let v := View [no_ce; low_ce; inf_ce] None false in
  let v1 := (Sorter.sort_column SortExamples.str_float str_lower keep_order v ColCE).1 in
  let v2 := (Sorter.sort_column SortExamples.str_float str_lower keep_order v1 ColCE).1 in
  v1 = View [low_ce; no_ce; inf_ce] (Some ColCE) false
  /\ v2 = View [inf_ce; low_ce; no_ce] (Some ColCE) true.
Proof. vm_compute. split; reflexivity. Qed.


(** The sentinel of a missing value is the infinity that a value can be: in
    an ascending sort by CE the record without CE stays before the record
    whose CE is infinite (the comment of the key has the missing values at
    the end when ascending). *)
Example absent_before_present_infinity :
  (Sorter.sort_column SortExamples.str_float str_lower keep_order
     (View [no_ce; inf_ce] None false) ColCE).1
  = View [no_ce; inf_ce] (Some ColCE) false
  /\ item_get no_ce ColCE = None
  /\ item_get inf_ce ColCE = Some (JNum PosInf).
Proof. vm_compute. repeat split; reflexivity. Qed.

End SortFacts.

(** * Further properties of the score store reader *)

Module LoaderFacts.
Import LoaderSpec ReaderFacts.

Section LoaderFacts.

Variable json_loads : string -> option json.

Local Abbreviation load_item := (Reader.load_item json_loads).
Local Abbreviation load_loop := (Reader.load_loop json_loads).

(** The counter of subdirectories and the flag, after any part of the
    listing. *)
Lemma load_fold_scanned fs base_dir items st :
  subdirs_scanned (fold_left (load_item fs base_dir) items st)
  = subdirs_scanned st + length (subdirectories fs base_dir items)
  /\ found_files_flag (fold_left (load_item fs base_dir) items st)
     = found_files_flag st || existsb (holds_both_files fs base_dir) items.
Proof.
  revert st. induction items as [|item items IH]; intros st; simpl.
  - by rewrite Nat.add_0_r, orb_false_r.
  - destruct (IH (load_item fs base_dir st item)) as [-> ->].
    unfold Reader.load_item, holds_both_files.
    destruct (FS.isdir fs (Path.join base_dir item)); simpl; [|done].
    destruct (FS.exists_ fs (Path.join (Path.join base_dir item) PATHS_FILENAME));
      simpl; [|split; [lia|done]].
    destruct (FS.exists_ fs (Path.join (Path.join base_dir item) SCORES_FILENAME));
      simpl; [|split; [lia|done]].
    destruct (Reader.load_pair_files _ _ _ _ _ _) as [d i]. simpl.
    split; [lia | by rewrite orb_true_r].
Qed.

(** An entry of the listing that does not hold both files adds nothing. *)
Lemma contribution_without_files fs base_dir item :
  holds_both_files fs base_dir item = false ->
  ReaderSpec.contribution json_loads fs base_dir item = [].
Proof.
  unfold holds_both_files, ReaderSpec.contribution, Reader.load_item.
  destruct (FS.isdir fs _); simpl; [|done].
  intros ->. done.
Qed.

(** A message comes with the empty list and is not empty; without a
    message the list is not empty. *)
Lemma load_audio_data_message fs base_dir data msg n :
  Reader.load_audio_data json_loads fs base_dir = Ok (data, msg, n) ->
  match msg with
  | Some m => data = [] /\ Py.nonempty m = true
  | None => data <> []
  end.
Proof.
  unfold Reader.load_audio_data.
  destruct (negb (Py.nonempty base_dir) || negb (FS.isdir fs base_dir)).
  { by intros [= <- <- <-]. }
  destruct (FS.listdir fs base_dir) as [items|ex]; [|done]. cbv zeta.
  destruct (all_data _) as [|e l]; [destruct (found_files_flag _)|];
    by intros [= <- <- <-].
Qed.

(** X1. What [load_audio_data] returns.  A path that is empty or not a
    directory gives the empty list, the message for it and the count 0.
    For a directory, the call returns; the third component is the number of
    entries of the listing that are directories, whether or not they hold
    the two files; the message is [None] exactly when the list is not
    empty; and an empty list comes with one of two messages, according to
    whether some subdirectory holds both files. *)
Theorem load_audio_data_outcome (fs : gmap string node) (base_dir : string) :
  (Py.nonempty base_dir = false \/ FS.isdir fs base_dir = false ->
   Reader.load_audio_data json_loads fs base_dir = Ok ([], Some not_a_directory, 0))
  /\ (forall items,
        Py.nonempty base_dir = true -> FS.listdir fs base_dir = Ok items ->
        exists data msg,
          Reader.load_audio_data json_loads fs base_dir
          = Ok (data, msg, length (subdirectories fs base_dir items))
          /\ (msg = None <-> data <> [])
          /\ (existsb (holds_both_files fs base_dir) items = false ->
              data = [] /\ msg = Some (no_files_found base_dir))
          /\ (existsb (holds_both_files fs base_dir) items = true -> data = [] ->
              msg = Some nothing_loaded)).
Proof.
  split.
  - unfold Reader.load_audio_data. intros [-> | ->]; [done | by rewrite orb_true_r].
  - intros items Hne Hls. unfold Reader.load_audio_data. rewrite Hne, Hls.
    assert (FS.isdir fs base_dir = true) as ->.
    { unfold FS.listdir in Hls. unfold FS.isdir.
      destruct (fs !! base_dir) as [[c|es]|]; by simplify_eq. }
    simpl.
    pose proof (load_fold_data json_loads fs base_dir items Reader.load_init) as Hd.
    destruct (load_fold_scanned fs base_dir items Reader.load_init) as [Hn Hf].
    simpl in Hd, Hn, Hf. unfold Reader.load_loop.
    rewrite Hn.
    destruct (all_data _) as [|e data] eqn:Hdata.
    + destruct (found_files_flag _) eqn:Hflag.
      * eexists [], _. split; [done|]. split; [done|].
        split; [by rewrite <- Hf | done].
      * eexists [], _. split; [done|]. split; [done|].
        split; [done | by rewrite <- Hf].
    + eexists (e :: data), None. split; [done|]. split; [done|].
      split; [|done].
      intros Hnone. exfalso.
      assert (flat_map (ReaderSpec.contribution json_loads fs base_dir) items = []) as Hnil.
      { clear -Hnone.
        induction items as [|item items IH]; simpl; [done|].
        simpl in Hnone. apply orb_false_iff in Hnone as [H1 H2].
        rewrite contribution_without_files; [by apply IH | done]. }
      by rewrite Hnil in Hd.
Qed.

End LoaderFacts.

End LoaderFacts.

(** * Facts on strings and on the file system *)

Module TextFacts.

Lemma append_assoc (a b c : string) : (a +:+ b) +:+ c = a +:+ b +:+ c.
Proof. exact (InvokerFacts.app_assoc a b c). Qed.

Lemma append_nil_r (a : string) : a +:+ EmptyString = a.
Proof. exact (InvokerFacts.app_empty_r a). Qed.

Lemma app_cons (c : ascii) (a b : string) : String c a +:+ b = String c (a +:+ b).
Proof. reflexivity. Qed.

Lemma rev_app_spec (s t : string) : String.rev_app s t = String.rev s +:+ t.
Proof.
  unfold String.rev. revert t.
  induction s as [|c s IH]; intros t; simpl; [done|].
  rewrite (IH (String c t)), (IH (String c EmptyString)).
  by rewrite append_assoc.
Qed.

Lemma rev_cons (c : ascii) (s : string) :
  String.rev (String c s) = String.rev s +:+ String c EmptyString.
Proof. unfold String.rev at 1. simpl. apply rev_app_spec. Qed.

Lemma rev_app_distr (a b : string) : String.rev (a +:+ b) = String.rev b +:+ String.rev a.
Proof.
  induction a as [|c a IH].
  - change (EmptyString +:+ b) with b. by rewrite append_nil_r.
  - rewrite app_cons, !rev_cons, IH. by rewrite append_assoc.
Qed.

Lemma rev_involutive (s : string) : String.rev (String.rev s) = s.
Proof.
  induction s as [|c s IH]; [done|].
  rewrite rev_cons, rev_app_distr, IH. reflexivity.
Qed.

Lemma startswith_app (p s : string) : Py.startswith (p +:+ s) p = true.
Proof.
  induction p as [|c p IH]; [done|].
  rewrite app_cons. simpl. by rewrite Ascii.eqb_refl.
Qed.

Lemma endswith_app (s p : string) : Py.endswith (s +:+ p) p = true.
Proof. unfold Py.endswith. rewrite rev_app_distr. apply startswith_app. Qed.

Lemma endswith_refl (p : string) : Py.endswith p p = true.
Proof. apply (endswith_app EmptyString p). Qed.

(** A joined path ends with the name that was joined. *)
Lemma join_endswith (a b : string) : Py.endswith (Path.join a b) b = true.
Proof.
  unfold Path.join. destruct (Py.startswith b "/"); [apply endswith_refl|].
  destruct (_ || _); [apply endswith_app|].
  rewrite <- append_assoc. apply endswith_app.
Qed.

End TextFacts.

Module FSFacts.

(** What [open(p, 'w')] with a write changes: the file itself and, for a
    new file, the listing of its directory.  Directories stay directories,
    nothing disappears, and the other files keep their content. *)
Lemma write_frame fs p content fs' :
  FS.write fs p content = Ok fs' ->
  fs' !! p = Some (File content)
  /\ (forall q, q <> p -> q <> FS.dirname p -> fs' !! q = fs !! q)
  /\ (forall q, FS.isdir fs' q = FS.isdir fs q)
  /\ (forall q, FS.exists_ fs q = true -> FS.exists_ fs' q = true)
  /\ (forall q c, q <> p -> fs' !! q = Some (File c) <-> fs !! q = Some (File c)).
Proof.
  unfold FS.write, FS.isdir, FS.exists_.
  destruct (fs !! p) as [[c0|es0]|] eqn:Hp; [|done|].
  - intros [= <-]. split; [apply lookup_insert_eq|].
    split; [intros q Hq _; by rewrite lookup_insert_ne|].
    split; [|split].
    + intros q. destruct (decide (q = p)) as [->|Hq].
      * by rewrite lookup_insert_eq, Hp.
      * by rewrite lookup_insert_ne.
    + intros q. destruct (decide (q = p)) as [->|Hq].
      * by rewrite lookup_insert_eq.
      * by rewrite lookup_insert_ne.
    + intros q c Hq. by rewrite lookup_insert_ne.
  - destruct (fs !! FS.dirname p) as [[c1|es1]|] eqn:Hd; [done| |done].
    intros [= <-]. split; [apply lookup_insert_eq|].
    split; [intros q Hq1 Hq2; by rewrite !lookup_insert_ne|].
    assert (FS.dirname p <> p) as Hne by (intros Heq; rewrite Heq in Hd; congruence).
    split; [|split].
    + intros q. destruct (decide (q = p)) as [->|Hq].
      * by rewrite lookup_insert_eq, Hp.
      * rewrite lookup_insert_ne by done.
        destruct (decide (q = FS.dirname p)) as [->|Hq2].
        -- by rewrite lookup_insert_eq, Hd.
        -- by rewrite lookup_insert_ne.
    + intros q. destruct (decide (q = p)) as [->|Hq].
      * by rewrite lookup_insert_eq.
      * rewrite lookup_insert_ne by done.
        destruct (decide (q = FS.dirname p)) as [->|Hq2].
        -- by rewrite lookup_insert_eq.
        -- by rewrite lookup_insert_ne.
    + intros q c Hq. rewrite lookup_insert_ne by done.
      destruct (decide (q = FS.dirname p)) as [->|Hq2].
      * rewrite lookup_insert_eq, Hd. split; intros; congruence.
      * by rewrite lookup_insert_ne.
Qed.

(** Reading back what was written. *)
Lemma read_write fs p content fs' :
  FS.write fs p content = Ok fs' -> FS.read fs' p = Ok content.
Proof.
  intros H. destruct (write_frame _ _ _ _ H) as [Hp _].
  unfold FS.read. by rewrite Hp.
Qed.

End FSFacts.

(** * Further properties of the index writer *)

Module ManifestFacts.
Import WriterSpec TextFacts FSFacts.

Section ManifestFacts.

Variable O : oracles.

(** The loop appends the lines of its names to the text and adds their
    number to the count. *)
Lemma write_loop_lines {S : Type} (cb : Writer.callback) target_dir total i names
    text count (s : S) :
  (Writer.write_loop O cb target_dir total i names text count s).1
  = (text +:+ concat_lines (manifest_lines O target_dir names),
     count + length (manifest_lines O target_dir names)).
Proof.
  revert i text count s.
  induction names as [|name names IH]; intros i text count s; simpl.
  - by rewrite TextFacts.append_nil_r, Nat.add_0_r.
  - unfold manifest_lines at 1 2. simpl.
    destruct (manifest_line O (Path.join target_dir name)) as [line|e]; simpl.
    + rewrite IH. fold (manifest_lines O target_dir names).
      f_equal; [|lia]. unfold nl. by rewrite !TextFacts.append_assoc.
    + by rewrite IH.
Qed.

Lemma manifest_lines_length target_dir names :
  length (manifest_lines O target_dir names) <= length names.
Proof.
  induction names as [|name names IH]; simpl; [done|].
  unfold manifest_lines in *. simpl.
  destruct (manifest_line O _); simpl; lia.
Qed.

Lemma manifest_lines_all target_dir names :
  (forall name, In name names ->
                exists line, manifest_line O (Path.join target_dir name) = Ok line) ->
  length (manifest_lines O target_dir names) = length names.
Proof.
  induction names as [|name names IH]; intros H; simpl; [done|].
  unfold manifest_lines in *. simpl.
  destruct (H name) as [line ->]; [by left|]. simpl.
  f_equal. apply IH. intros n Hn. apply H. by right.
Qed.

(** X2. The index writer as a function of the listing.  When the directory
    cannot be listed, or the manifest cannot be opened for writing, the
    count is -1 and the file system is as before.  Otherwise the manifest
    holds one line for each listed name that ends in ".wav" (in any case of
    the letters) and whose line is produced, in the order of the listing;
    the count is the number of these lines, at most the number of such
    names and equal to it when every line is produced. *)
Theorem create_wav_jsonl_writes_the_wav_names {S : Type}
    (cb : Writer.callback) (fs : gmap string node) (target_dir output : string) (s : S) :
  let r := Writer.create_wav_jsonl O fs target_dir output cb s in
  match FS.listdir fs target_dir with
  | Raise e => r.1.1.1 = (-1)%Z /\ r.1.2 = fs /\ r.2 = s
  | Ok all_files =>
      let wav_filenames := List.filter Writer.is_wav all_files in
      let lines := manifest_lines O target_dir wav_filenames in
      length lines <= length wav_filenames
      /\ ((forall name, In name wav_filenames ->
             exists line, manifest_line O (Path.join target_dir name) = Ok line) ->
          length lines = length wav_filenames)
      /\ match FS.write fs (Path.join target_dir output) (concat_lines lines) with
         | Raise e => r.1.1.1 = (-1)%Z /\ r.1.2 = fs
         | Ok fs' =>
             r.1.1 = (Z.of_nat (length lines),
                      "Created " +:+ output +:+ " with "
                      +:+ Py.str_of_nat (length lines) +:+ " WAV entries.")
             /\ r.1.2 = fs'
             /\ FS.read fs' (Path.join target_dir output) = Ok (concat_lines lines)
         end
  end.
Proof.
  unfold Writer.create_wav_jsonl.
  destruct (FS.listdir fs target_dir) as [all_files|e]; [|done].
  cbv zeta.
  split; [apply manifest_lines_length|].
  split; [apply manifest_lines_all|].
  match goal with
  | |- context [Writer.write_loop O cb ?d ?t ?i ?names ?text ?count ?s0] =>
      pose proof (write_loop_lines cb d t i names text count s0) as H;
      destruct (Writer.write_loop O cb d t i names text count s0) as [[text' count'] s']
  end.
  simpl in H. injection H as -> ->.
  change (EmptyString +:+ ?x) with x.
  destruct (FS.write fs _ _) as [fs'|e] eqn:Hw; simpl; [|done].
  split; [done|]. split; [done|]. by apply read_write in Hw.
Qed.

(** The positions the loop reports: the multiples of 100 among the indices
    it passes. *)
Lemma write_loop_progress target_dir total i names text count seen :
  (Writer.write_loop O (Some record_progress) target_dir total i names text count seen).2
  = seen ++ List.map (fun j => (j, total))
              (List.filter (fun j => j mod 100 =? 0) (seq (i + 1) (length names))).
Proof.
  revert i text count seen.
  induction names as [|name names IH]; intros i text count seen.
  - simpl. by rewrite List.app_nil_r.
  - cbn [Writer.write_loop length seq List.filter].
    destruct (manifest_line O _) as [line|e];
      cbv beta iota zeta; rewrite IH; replace (Datatypes.S (i + 1)) with (i + 1 + 1) by lia;
      destruct (_ =? 0); simpl; unfold record_progress;
      by rewrite <- ?List.app_assoc.
Qed.

(** X3. Progress reports of the index writer.  The callback is called with
    position 0 before the manifest is opened; when the manifest is written,
    it is then called at every multiple of 100 up to the number of names
    found, and a last time with the count. *)
Theorem create_wav_jsonl_reports_every_100
    (fs : gmap string node) (target_dir output : string) (seen : list (nat * nat))
    (all_files : list string) :
  FS.listdir fs target_dir = Ok all_files ->
  let r := Writer.create_wav_jsonl O fs target_dir output (Some record_progress) seen in
  let total_wavs := length (List.filter Writer.is_wav all_files) in
  ((r.1.1.1 < 0)%Z -> r.2 = seen ++ [(0, total_wavs)])
  /\ ((0 <= r.1.1.1)%Z ->
      r.2 = seen ++ [(0, total_wavs)]
            ++ List.map (fun j => (j, total_wavs))
                 (List.filter (fun j => j mod 100 =? 0) (seq 1 total_wavs))
            ++ [(Z.to_nat r.1.1.1, total_wavs)]).
Proof.
  intros Hls. unfold Writer.create_wav_jsonl. rewrite Hls. cbv zeta.
  match goal with
  | |- context [Writer.write_loop O ?cb ?d ?t ?i ?names ?text ?count ?s0] =>
      pose proof (write_loop_progress d t i names text count s0) as H;
      destruct (Writer.write_loop O cb d t i names text count s0) as [[text' count'] s']
  end.
  simpl in H. subst s'.
  destruct (FS.write fs _ _) as [fs'|e]; simpl.
  - split; [lia|]. intros _. unfold record_progress.
    by rewrite Nat2Z.id, <- !List.app_assoc.
  - split; [done | lia].
Qed.

(** ** Reading the manifest back *)

(** A line without a newline, followed by a newline, is the first line of
    the text. *)
Lemma lines_go_line (line cur rest : string) :
  newline_free line = true ->
  Py.lines_go cur (line +:+ nl +:+ rest)
  = (String.rev cur +:+ line +:+ nl) :: Py.lines_go EmptyString rest.
Proof.
  revert cur. induction line as [|c line IH]; intros cur Hfree.
  - change (EmptyString +:+ nl +:+ rest) with (String "010"%char rest).
    cbn [Py.lines_go]. rewrite Ascii.eqb_refl. by rewrite rev_cons.
  - simpl in Hfree. apply andb_true_iff in Hfree as [Hc Hfree].
    apply negb_true_iff in Hc.
    rewrite !app_cons. cbn [Py.lines_go]. rewrite Hc.
    rewrite (IH (String c cur) Hfree), rev_cons.
    by rewrite TextFacts.append_assoc.
Qed.

(** The lines of a text written line by line are the lines written. *)
Lemma lines_concat (lines : list string) :
  Forall (fun line => newline_free line = true) lines ->
  Py.lines (concat_lines (List.map (fun line => line +:+ nl) lines))
  = List.map (fun line => line +:+ nl) lines.
Proof.
  unfold Py.lines. induction 1 as [|line lines Hline _ IH]; [done|].
  cbn [List.map].
  change (concat_lines ((line +:+ nl) :: ?l)) with ((line +:+ nl) +:+ concat_lines l).
  rewrite TextFacts.append_assoc, lines_go_line by done. by rewrite IH.
Qed.

Section RoundTrip.

Variable json_loads : string -> option json.

(** X4. The manifest round trip.  When every line of the manifest is
    produced without a newline in it and [json.loads] reads it back as the
    object with the path of its file, the manifest that [create_wav_jsonl]
    leaves is read by the manifest loop of [load_audio_data] as one path
    object for each listed ".wav" name, in the order of the listing, with
    no line counted as invalid; and the count returned is their number. *)
Theorem manifest_round_trip {S : Type}
    (cb : Writer.callback) (fs : gmap string node) (target_dir : string) (s : S)
    (all_files : list string) (full_path : string -> string) (invalid : nat) :
  FS.listdir fs target_dir = Ok all_files ->
  (forall name, In name all_files -> Writer.is_wav name = true ->
     exists line,
       manifest_line O (Path.join target_dir name) = Ok line
       /\ newline_free line = true
       /\ json_loads (line +:+ nl) = Some (JObj [("path", JStr (full_path name))])) ->
  let r := Writer.create_wav_jsonl O fs target_dir PATHS_FILENAME cb s in
  (0 <= r.1.1.1)%Z ->
  exists text,
    FS.read r.1.2 (Path.join target_dir PATHS_FILENAME) = Ok text
    /\ Reader.read_paths json_loads (Py.lines text) invalid
       = (List.map (fun name => JObj [("path", JStr (full_path name))])
            (List.filter Writer.is_wav all_files),
          invalid)
    /\ r.1.1.1 = Z.of_nat (length (List.filter Writer.is_wav all_files)).
Proof.
  intros Hls Hlines r Hcount.
  pose proof (create_wav_jsonl_writes_the_wav_names cb fs target_dir PATHS_FILENAME s) as H.
  fold r in H. rewrite Hls in H. cbv zeta in H.
  destruct H as (_ & Hall & H).
  assert (forall name, In name (List.filter Writer.is_wav all_files) ->
            exists line,
              manifest_line O (Path.join target_dir name) = Ok line
              /\ newline_free line = true
              /\ json_loads (line +:+ nl) = Some (JObj [("path", JStr (full_path name))]))
    as Hwav.
  { intros name Hin. apply List.filter_In in Hin as [Hin Hw]. by apply Hlines. }
  clear Hlines.
  rewrite Hall in H by (intros name Hin; destruct (Hwav name Hin) as (line & ? & _); eauto).
  clear Hall.
  destruct (FS.write fs _ _) as [fs'|e]; [|destruct H as [H _]; lia].
  destruct H as (Hr & Hfs & Hread).
  exists (concat_lines (manifest_lines O target_dir (List.filter Writer.is_wav all_files))).
  rewrite Hfs. split; [done|]. split; [|by rewrite Hr].
  clear Hr Hfs Hread Hcount r.
  generalize dependent (List.filter Writer.is_wav all_files). intros names Hwav.
  assert (exists lines,
             manifest_lines O target_dir names = List.map (fun line => line +:+ nl) lines
             /\ Forall (fun line => newline_free line = true) lines
             /\ ReaderSpec.parsed json_loads (List.map (fun line => line +:+ nl) lines)
                = List.map (fun name => JObj [("path", JStr (full_path name))]) names
             /\ ReaderSpec.valid_lines json_loads (List.map (fun line => line +:+ nl) lines)
                = List.map (fun line => line +:+ nl) lines)
    as (lines & -> & Hfree & Hparsed & Hvalid).
  { induction names as [|name names IH].
    - exists []. by repeat split.
    - destruct IH as (lines & Heq & Hfree & Hparsed & Hvalid);
        [intros n Hn; apply Hwav; by right|].
      destruct (Hwav name) as (line & Hline & Hnl & Hjson); [by left|].
      exists (line :: lines). unfold manifest_lines in *. simpl.
      rewrite Hline, Hjson. simpl. rewrite Heq, Hparsed, Hvalid.
      repeat split; by try constructor. }
  rewrite lines_concat by done.
  rewrite (ReaderFacts.read_paths_spec json_loads), Hparsed, Hvalid.
  f_equal. lia.
Qed.

End RoundTrip.

End ManifestFacts.

End ManifestFacts.

(** * Further properties of the scorer invoker *)

Module ScorerFacts.
Import RunSpec TextFacts FSFacts.

Section ScorerFacts.

Variable O : oracles.

Lemma has_input_exists fs target_dir input_jsonl :
  has_input fs target_dir input_jsonl = true ->
  FS.exists_ fs (Path.join target_dir input_jsonl) = true.
Proof.
  unfold has_input, FS.getsize, FS.exists_.
  by destruct (fs !! Path.join target_dir input_jsonl) as [[c|es]|].
Qed.

(** The command recorded by a call, in the current revision. *)
Lemma run_audio_aes_calls_exact w target_dir cmd input output batch :
  w_calls (Current.run_audio_aes O w target_dir cmd input output batch).2
  = w_calls w ++ (if has_input (w_fs w) target_dir input
                  then [(target_dir, command_line cmd input batch)] else []).
Proof.
  unfold has_input, command_line, Current.run_audio_aes.
  destruct (FS.exists_ (w_fs w) (Path.join target_dir input)) eqn:Hex; simpl.
  - destruct (InvokerFacts.exists_getsize _ _ Hex) as [size ->].
    destruct (size =? 0); simpl; [by rewrite List.app_nil_r|].
    destruct (subprocess_run O _ _ _) as [e|rc out err]; simpl; [done|].
    destruct (rc =? 0)%Z; simpl; [|done]. by destruct (FS.write _ _ _).
  - assert (FS.getsize (w_fs w) (Path.join target_dir input)
            = Raise (FS.err FileNotFoundError "[Errno 2] No such file or directory"
                       (Path.join target_dir input))) as ->.
    { unfold FS.getsize, FS.exists_ in *.
      by destruct (w_fs w !! Path.join target_dir input) as [[c|es]|]. }
    by rewrite List.app_nil_r.
Qed.

(** A call that reports success had its input. *)
Lemma run_audio_aes_success_input w target_dir cmd input output batch message :
  (Current.run_audio_aes O w target_dir cmd input output batch).1 = Ok (true, message) ->
  has_input (w_fs w) target_dir input = true.
Proof.
  unfold has_input, Current.run_audio_aes.
  destruct (FS.exists_ (w_fs w) (Path.join target_dir input)) eqn:Hex; simpl; [|done].
  destruct (InvokerFacts.exists_getsize _ _ Hex) as [size ->].
  by destruct (size =? 0).
Qed.

(** X5. The external command is run only on a manifest that is there and
    not empty, and then exactly once, in the target directory, with the
    command name, the name of the manifest, "--batch-size" and the batch
    size as its arguments; this holds in both revisions.  Without such a
    manifest the call fails and changes nothing. *)
Theorem run_audio_aes_runs_the_command_once
    (w : world) (target_dir audio_aes_command input_jsonl output_jsonl : string)
    (batch_size : Z) :
  let ran :=
    if has_input (w_fs w) target_dir input_jsonl
    then [(target_dir, command_line audio_aes_command input_jsonl batch_size)]
    else [] in
  let r := Current.run_audio_aes O w target_dir audio_aes_command
             input_jsonl output_jsonl batch_size in
  let r' := V1_1.run_audio_aes O w target_dir audio_aes_command
              input_jsonl output_jsonl batch_size in
  w_calls r.2 = w_calls w ++ ran
  /\ w_calls r'.2 = w_calls w ++ ran
  /\ (has_input (w_fs w) target_dir input_jsonl = false ->
      (exists message, r.1 = Ok (false, message)) /\ r.2 = w
      /\ (exists message, r'.1 = (false, message)) /\ r'.2 = w).
Proof.
  unfold has_input, command_line, Current.run_audio_aes, V1_1.run_audio_aes.
  destruct (FS.exists_ (w_fs w) (Path.join target_dir input_jsonl)) eqn:Hex; simpl.
  - destruct (InvokerFacts.exists_getsize _ _ Hex) as [size ->].
    destruct (size =? 0); simpl.
    { rewrite List.app_nil_r. repeat split; eauto. }
    split; [|split; [|done]].
    + destruct (subprocess_run O _ _ _) as [e|rc out err]; simpl; [done|].
      destruct (rc =? 0)%Z; simpl; [|done]. by destruct (FS.write _ _ _).
    + destruct (subprocess_run O _ _ _) as [e|rc out err]; simpl; [done|].
      destruct (rc =? 0)%Z; simpl; [|done]. by destruct (FS.write _ _ _).
  - assert (FS.getsize (w_fs w) (Path.join target_dir input_jsonl)
            = Raise (FS.err FileNotFoundError "[Errno 2] No such file or directory"
                       (Path.join target_dir input_jsonl))) as ->.
    { unfold FS.getsize, FS.exists_ in *.
      by destruct (w_fs w !! Path.join target_dir input_jsonl) as [[c|es]|]. }
    rewrite List.app_nil_r. repeat split; eauto.
Qed.

(** X6. A call that reports success has run the command to exit status 0
    and left its standard output as the content of the output file; by the
    writes of the function itself no directory was added or removed, and
    every other file is as it was.  This holds in both revisions. *)
Theorem run_audio_aes_success_leaves_the_output
    (w : world) (target_dir audio_aes_command input_jsonl output_jsonl : string)
    (batch_size : Z) (message : string) :
  let command := command_line audio_aes_command input_jsonl batch_size in
  let output_path := Path.join target_dir output_jsonl in
  let r := Current.run_audio_aes O w target_dir audio_aes_command
             input_jsonl output_jsonl batch_size in
  let r' := V1_1.run_audio_aes O w target_dir audio_aes_command
              input_jsonl output_jsonl batch_size in
  r.1 = Ok (true, message) \/ r'.1 = (true, message) ->
  exists stdout stderr,
    subprocess_run O (w_fs w) command target_dir = Exited 0 stdout stderr
    /\ has_input (w_fs w) target_dir input_jsonl = true
    /\ w_fs r.2 = w_fs r'.2
    /\ FS.read (w_fs r.2) output_path = Ok stdout
    /\ (forall q, FS.isdir (w_fs r.2) q = FS.isdir (w_fs w) q)
    /\ (forall q content,
          q <> output_path ->
          w_fs r.2 !! q = Some (File content) <-> w_fs w !! q = Some (File content)).
Proof.
  unfold has_input, command_line, Current.run_audio_aes, V1_1.run_audio_aes.
  cbv zeta.
  destruct (FS.exists_ (w_fs w) (Path.join target_dir input_jsonl)) eqn:Hex; simpl;
    [|by intros [|]].
  destruct (InvokerFacts.exists_getsize _ _ Hex) as [size ->].
  destruct (size =? 0); simpl; [by intros [|]|].
  destruct (subprocess_run O _ _ _) as [e|rc out err]; simpl.
  { unfold Current.on_exception, V1_1.on_exception.
    destruct (exn_cls e); simpl; by intros [|]. }
  destruct (rc =? 0)%Z eqn:Hrc; simpl; [|by intros [|]].
  apply Z.eqb_eq in Hrc as ->.
  destruct (FS.write (w_fs w) (Path.join target_dir output_jsonl) out) as [fs'|e] eqn:Hw;
    simpl.
  2:{ unfold Current.on_exception, V1_1.on_write_error.
      destruct (exn_cls e); simpl; by intros [|]. }
  intros _. exists out, err.
  destruct (write_frame _ _ _ _ Hw) as (_ & _ & Hdir & _ & Hfile).
  split; [done|]. split; [done|]. split; [done|].
  split; [by apply read_write in Hw|]. split; [done|].
  intros q c Hq. by apply Hfile.
Qed.

End ScorerFacts.

End ScorerFacts.

(** * Further properties of the orchestrator *)

Module RunFacts.
Import OrchestratorSpec RunSpec TextFacts FSFacts.

#[local] Arguments put : simpl never.
#[local] Arguments tick : simpl never.
#[local] Arguments poll : simpl never.
#[local] Arguments set_fs : simpl never.
#[local] Arguments record_call : simpl never.
#[local] Arguments clear_thread : simpl never.
#[local] Arguments _update_status : simpl never.
#[local] Arguments _append_log : simpl never.
#[local] Arguments append_logs : simpl never.

#[local] Existing Instance OrchestratorFacts.untouched_preorder.

(** ** What a run keeps *)

#[local] Instance keeps_preorder (changed : string -> Prop) : PreOrder (keeps changed).
Proof.
  split.
  - intros fs. by repeat split.
  - intros fs1 fs2 fs3 (Hd1 & He1 & Hf1) (Hd2 & He2 & Hf2). split; [|split].
    + intros q. by rewrite Hd2, Hd1.
    + intros q Hq. by apply He2, He1.
    + intros q c Hq. by rewrite Hf2, Hf1.
Qed.

Lemma keeps_mono (P Q : string -> Prop) fs fs' :
  (forall q, P q -> Q q) -> keeps P fs fs' -> keeps Q fs fs'.
Proof.
  intros HPQ (Hd & He & Hf). split; [done|]. split; [done|].
  intros q c Hq. apply Hf. intros HP. apply Hq, HPQ, HP.
Qed.

(** Writing a file keeps the rest. *)
Lemma write_keeps fs p content fs' :
  FS.write fs p content = Ok fs' -> keeps (fun q => q = p) fs fs'.
Proof.
  intros Hw. destruct (write_frame _ _ _ _ Hw) as (_ & _ & Hdir & Hex & Hfile).
  split; [done|]. split; [done|].
  intros q c Hq. apply Hfile. intros ->. by apply Hq.
Qed.

Lemma pipeline_paths base_dir name names :
  In name names ->
  is_pipeline_file base_dir names (Path.join (Path.join base_dir name) PATHS_FILENAME).
Proof. intros Hin. exists name. auto. Qed.

Lemma pipeline_scores base_dir name names :
  In name names ->
  is_pipeline_file base_dir names (Path.join (Path.join base_dir name) SCORES_FILENAME).
Proof. intros Hin. exists name. auto. Qed.

Lemma pipeline_mono base_dir l l' q :
  incl l l' -> is_pipeline_file base_dir l q -> is_pipeline_file base_dir l' q.
Proof. intros Hincl (name & Hin & Hq). exists name. split; [by apply Hincl | done]. Qed.

Lemma fs_logs ms w : w_fs (append_logs ms w) = w_fs w.
Proof. by destruct (OrchestratorFacts.untouched_logs ms w). Qed.

Lemma fs_log m w : w_fs (_append_log m w) = w_fs w.
Proof. reflexivity. Qed.
Lemma fs_status m w : w_fs (_update_status m w) = w_fs w.
Proof. reflexivity. Qed.
Lemma fs_put t w : w_fs (put t w) = w_fs w.
Proof. reflexivity. Qed.
Lemma fs_tick w : w_fs (tick w) = w_fs w.
Proof. reflexivity. Qed.
Lemma fs_poll w : w_fs (poll w) = w_fs w.
Proof. reflexivity. Qed.
Lemma fs_record_call d c w : w_fs (record_call d c w) = w_fs w.
Proof. reflexivity. Qed.
Lemma fs_clear_thread w : w_fs (clear_thread w) = w_fs w.
Proof. reflexivity. Qed.
Lemma fs_set_fs w fs : w_fs (set_fs w fs) = fs.
Proof. reflexivity. Qed.

Lemma calls_log m w : w_calls (_append_log m w) = w_calls w.
Proof. reflexivity. Qed.
Lemma calls_status m w : w_calls (_update_status m w) = w_calls w.
Proof. reflexivity. Qed.
Lemma calls_put t w : w_calls (put t w) = w_calls w.
Proof. reflexivity. Qed.
Lemma calls_tick w : w_calls (tick w) = w_calls w.
Proof. reflexivity. Qed.
Lemma calls_poll w : w_calls (poll w) = w_calls w.
Proof. reflexivity. Qed.
Lemma calls_clear_thread w : w_calls (clear_thread w) = w_calls w.
Proof. reflexivity. Qed.
Lemma calls_set_fs w fs : w_calls (set_fs w fs) = w_calls w.
Proof. reflexivity. Qed.

(** Reduces the file system, or the record of commands, of a world built
    by logging. *)
Ltac fs_simp :=
  repeat match goal with
    | |- context [w_fs (append_logs ?ms ?w)] => rewrite (fs_logs ms w)
    | |- context [w_fs (_append_log ?m ?w)] => rewrite (fs_log m w)
    | |- context [w_fs (_update_status ?m ?w)] => rewrite (fs_status m w)
    | |- context [w_fs (put ?t ?w)] => rewrite (fs_put t w)
    | |- context [w_fs (tick ?w)] => rewrite (fs_tick w)
    | |- context [w_fs (poll ?w)] => rewrite (fs_poll w)
    | |- context [w_fs (record_call ?d ?c ?w)] => rewrite (fs_record_call d c w)
    | |- context [w_fs (clear_thread ?w)] => rewrite (fs_clear_thread w)
    | |- context [w_fs (set_fs ?w ?fs)] => rewrite (fs_set_fs w fs)
    end.

Ltac calls_simp :=
  repeat match goal with
    | |- context [w_calls (append_logs ?ms ?w)] =>
        rewrite (OrchestratorFacts.calls_logs ms w)
    | |- context [w_calls (_append_log ?m ?w)] => rewrite (calls_log m w)
    | |- context [w_calls (_update_status ?m ?w)] => rewrite (calls_status m w)
    | |- context [w_calls (put ?t ?w)] => rewrite (calls_put t w)
    | |- context [w_calls (tick ?w)] => rewrite (calls_tick w)
    | |- context [w_calls (poll ?w)] => rewrite (calls_poll w)
    | |- context [w_calls (clear_thread ?w)] => rewrite (calls_clear_thread w)
    | |- context [w_calls (set_fs ?w ?fs)] => rewrite (calls_set_fs w fs)
    end.

Section Keeps.

Variable O : oracles.

Lemma writer_keeps {S : Type} (cb : Writer.callback) fs base_dir name (s : S) :
  keeps (is_pipeline_file base_dir [name]) fs
    (Writer.create_wav_jsonl O fs (Path.join base_dir name) PATHS_FILENAME cb s).1.2.
Proof.
  unfold Writer.create_wav_jsonl.
  destruct (FS.listdir fs _) as [all_files|e]; [|done].
  cbv zeta.
  destruct (Writer.write_loop O cb _ _ _ _ _ _ _) as [[text count] s'].
  destruct (FS.write fs _ text) as [fs'|e] eqn:Hw; simpl; [|done].
  eapply keeps_mono; [|by eapply write_keeps].
  intros q ->. apply pipeline_paths. by left.
Qed.

Lemma run_audio_aes_keeps w base_dir name cmd batch :
  keeps (is_pipeline_file base_dir [name]) (w_fs w)
    (w_fs (Current.run_audio_aes O w (Path.join base_dir name) cmd
             PATHS_FILENAME SCORES_FILENAME batch).2).
Proof.
  unfold Current.run_audio_aes.
  destruct (FS.exists_ (w_fs w) _); simpl; [|done].
  destruct (FS.getsize _ _); simpl; [|done].
  destruct (_ =? 0); simpl; [done|].
  destruct (subprocess_run O _ _ _) as [e|rc out err]; simpl; [done|].
  destruct (rc =? 0)%Z; simpl; [|done].
  fs_simp.
  destruct (FS.write _ _ _) as [fs'|e] eqn:Hw; simpl; fs_simp; [|done].
  eapply keeps_mono; [|by eapply write_keeps].
  intros q ->. apply pipeline_scores. by left.
Qed.

Lemma run_audio_aes_1_1_keeps w base_dir name cmd batch :
  keeps (is_pipeline_file base_dir [name]) (w_fs w)
    (w_fs (V1_1.run_audio_aes O w (Path.join base_dir name) cmd
             PATHS_FILENAME SCORES_FILENAME batch).2).
Proof.
  unfold V1_1.run_audio_aes.
  destruct (FS.exists_ (w_fs w) _); simpl; [|done].
  destruct (FS.getsize _ _); simpl; [|done].
  destruct (_ =? 0); simpl; [done|].
  destruct (subprocess_run O _ _ _) as [e|rc out err]; simpl; [done|].
  destruct (rc =? 0)%Z; simpl; [|done].
  fs_simp.
  destruct (FS.write _ _ _) as [fs'|e] eqn:Hw; simpl; fs_simp; [|done].
  eapply keeps_mono; [|by eapply write_keeps].
  intros q ->. apply pipeline_scores. by left.
Qed.

Lemma process_subdir_keeps base_dir cmd batch overwrite total w i name :
  keeps (is_pipeline_file base_dir [name]) (w_fs w)
    (w_fs (Current.process_subdir O base_dir cmd batch overwrite total w i name).2).
Proof.
  unfold Current.process_subdir. simpl.
  destruct (negb overwrite && FS.exists_ (w_fs w) _); simpl; [by fs_simp|].
  set (w0 := _append_log _ (_update_status _ w)).
  set (f := Current.progress_reporter _).
  pose proof (writer_keeps (Some f) (w_fs w) base_dir name w0) as Hk.
  destruct (Writer.create_wav_jsonl O (w_fs w) _ _ (Some f) w0)
    as [[[num_wavs paths_msg] fs'] w1].
  simpl in Hk. simpl. clearbody w0.
  destruct (num_wavs <? 0)%Z; simpl; [by fs_simp|].
  destruct (num_wavs =? 0)%Z; simpl; [by fs_simp|].
  match goal with
  | |- context [Current.run_audio_aes O ?W ?d ?c ?inp ?out ?b] =>
      pose proof (run_audio_aes_keeps W base_dir name c b) as Hrun;
      destruct (Current.run_audio_aes O W d c inp out b) as [[[success message]|e] w3]
  end.
  - simpl in Hrun. revert Hrun. fs_simp. intros Hrun. simpl. fs_simp.
    destruct success; by etrans.
  - simpl in Hrun. revert Hrun. fs_simp. intros Hrun. simpl. by etrans.
Qed.

Lemma process_all_keeps base_dir cmd batch overwrite total i names c w :
  keeps (is_pipeline_file base_dir names) (w_fs w)
    (w_fs (Current.process_all O base_dir cmd batch overwrite total i names c w).2).
Proof.
  revert i c w. induction names as [|name names IH]; intros i c w; simpl; [done|].
  pose proof (process_subdir_keeps base_dir cmd batch overwrite total w i name) as Hk.
  destruct (Current.process_subdir O _ _ _ _ _ w i name) as [v w1].
  simpl in Hk.
  apply (keeps_mono _ (is_pipeline_file base_dir (name :: names))) in Hk;
    [|intros q; apply pipeline_mono; intros n [<-|[]]; by left].
  assert (forall i c w,
            keeps (is_pipeline_file base_dir (name :: names)) (w_fs w)
              (w_fs (Current.process_all O base_dir cmd batch overwrite total i names
                       c w).2)) as IH'.
  { intros i' c' w'. eapply keeps_mono; [|apply IH].
    intros q. apply pipeline_mono. intros n Hn. by right. }
  destruct v; simpl; try (etrans; [apply Hk | apply IH']). done.
Qed.

(** Destructs the tests of a body one after the other. *)
Ltac split_tests :=
  repeat match goal with
    | |- context [stop_is_set O ?n] => destruct (stop_is_set O n); simpl
    | |- context [if ?b then _ else _] => destruct b; simpl
    end.

Lemma progress_reporter_1_1_untouched prefix a b m w :
  untouched w (V1_1.progress_reporter O prefix a b m w).
Proof. unfold V1_1.progress_reporter. simpl. by destruct (stop_is_set O _). Qed.

Lemma process_subdir_1_1_keeps base_dir cmd batch overwrite total w i name :
  keeps (is_pipeline_file base_dir [name]) (w_fs w)
    (w_fs (V1_1.process_subdir O base_dir cmd batch overwrite total w i name).2).
Proof.
  unfold V1_1.process_subdir, V1_1.stop_check. simpl.
  destruct (stop_is_set O (w_stops w)); simpl; [by fs_simp|].
  destruct (negb overwrite && _); simpl; [by fs_simp|].
  destruct (stop_is_set O _); simpl; [by fs_simp|].
  match goal with
  | |- context [Writer.create_wav_jsonl O ?fs ?d ?out (Some ?f) ?w0] =>
      pose proof (writer_keeps (Some f) fs base_dir name w0) as Hk;
      destruct (Writer.create_wav_jsonl O fs d out (Some f) w0)
        as [[[num_wavs paths_msg] fs'] w1]
  end.
  revert Hk. fs_simp. simpl. intros Hk.
  destruct (num_wavs <? 0)%Z; simpl.
  { destruct (stop_is_set O _); simpl; by fs_simp. }
  destruct (num_wavs =? 0)%Z; simpl.
  { destruct (stop_is_set O _); simpl; by fs_simp. }
  destruct (stop_is_set O _); simpl; [by fs_simp|].
  match goal with
  | |- context [V1_1.run_audio_aes O ?W ?d ?c ?inp ?out ?b] =>
      pose proof (run_audio_aes_1_1_keeps W base_dir name c b) as Hrun;
      destruct (V1_1.run_audio_aes O W d c inp out b) as [[success message] w3]
  end.
  revert Hrun. fs_simp. simpl. intros Hrun.
  assert (keeps (is_pipeline_file base_dir [name]) (w_fs w) (w_fs w3)) as Hall
    by (by etrans).
  clear Hrun Hk.
  split_tests; by fs_simp.
Qed.

Lemma process_all_1_1_keeps base_dir cmd batch overwrite total i names c w :
  keeps (is_pipeline_file base_dir names) (w_fs w)
    (w_fs (V1_1.process_all O base_dir cmd batch overwrite total i names c w).2).
Proof.
  revert i c w. induction names as [|name names IH]; intros i c w; simpl; [done|].
  pose proof (process_subdir_1_1_keeps base_dir cmd batch overwrite total w i name) as Hk.
  destruct (V1_1.process_subdir O _ _ _ _ _ w i name) as [[v stop] w1].
  simpl in Hk.
  apply (keeps_mono _ (is_pipeline_file base_dir (name :: names))) in Hk;
    [|intros q; apply pipeline_mono; intros n [<-|[]]; by left].
  destruct stop; simpl; [done|].
  etrans; [apply Hk|]. eapply keeps_mono; [|apply IH].
  intros q. apply pipeline_mono. intros n Hn. by right.
Qed.

(** X7. What a preprocessing run never does, by its own writes: it removes
    no path, it creates and removes no directory, and it creates, removes
    or changes no file other than the files paths.jsonl and scores.jsonl
    that lie directly in the subdirectories of the base directory it found
    at its start; in particular every media file is left as it was.  This
    holds in both revisions, however the run ends. *)
Theorem preprocessing_keeps_the_media
    (w : world) (base_dir audio_aes_cmd : string) (batch_size : Z)
    (overwrite_existing : bool) :
  let subdirs :=
    match find_subdirs (w_fs w) base_dir with
    | Ok names => names
    | Raise _ => []
    end in
  keeps (is_pipeline_file base_dir subdirs) (w_fs w)
    (w_fs (Current._perform_preprocessing O w base_dir audio_aes_cmd batch_size
             overwrite_existing).2)
  /\ keeps (is_pipeline_file base_dir subdirs) (w_fs w)
       (w_fs (V1_1._perform_preprocessing O w base_dir audio_aes_cmd batch_size
                overwrite_existing).2).
Proof.
  cbv zeta. split.
  - unfold Current._perform_preprocessing, now. cbv beta iota zeta.
    change (w_fs (tick w)) with (w_fs w).
    destruct (find_subdirs (w_fs w) base_dir) as [[|name names]|e].
    + by fs_simp.
    + match goal with
      | |- context [Current.process_all O ?b ?c ?bs ?o ?t ?i ?l ?c0 ?w0] =>
          pose proof (process_all_keeps b c bs o t i l c0 w0) as Hk;
          destruct (Current.process_all O b c bs o t i l c0 w0) as [[[e|] c'] w']
      end; revert Hk; fs_simp; simpl; intros Hk; by fs_simp.
    + destruct (is_OSError (exn_cls e)); by fs_simp.
  - unfold V1_1._perform_preprocessing, now. cbv beta iota zeta.
    change (w_fs (tick w)) with (w_fs w).
    destruct (find_subdirs (w_fs w) base_dir) as [[|name names]|e].
    + by fs_simp.
    + match goal with
      | |- context [V1_1.process_all O ?b ?c ?bs ?o ?t ?i ?l ?c0 ?w0] =>
          pose proof (process_all_1_1_keeps b c bs o t i l c0 w0) as Hk;
          destruct (V1_1.process_all O b c bs o t i l c0 w0) as [c' w']
      end.
      revert Hk. fs_simp. simpl. intros Hk. unfold is_set. simpl. exact Hk.
    + destruct (is_OSError (exn_cls e)); by fs_simp.
Qed.

End Keeps.

(** ** Subdirectories that are scored already *)

Section Rerun.

Variable O : oracles.

Lemma all_scored_skip fs base_dir name :
  FS.exists_ fs (Path.join (Path.join base_dir name) SCORES_FILENAME) = true ->
  past_skip_check fs base_dir name false = false.
Proof. unfold past_skip_check. by intros ->. Qed.

Lemma process_all_skips base_dir cmd batch total i names c w :
  all_scored (w_fs w) base_dir names = true ->
  exists w',
    Current.process_all O base_dir cmd batch false total i names c w
    = (None,
       Counters (processed_count c) (error_count c) (skipped_no_wav_count c)
         (skipped_existing_count c + length names),
       w')
    /\ untouched w w'.
Proof.
  revert i c w. induction names as [|name names IH]; intros i c w Hall.
  - exists w. simpl. rewrite Nat.add_0_r. by destruct c.
  - simpl in Hall. apply andb_true_iff in Hall as [Hname Hall].
    destruct (OrchestratorFacts.process_subdir_cases O base_dir cmd batch false total w i name)
      as (_ & _ & Hskip & _).
    destruct (Hskip (all_scored_skip _ _ _ Hname)) as [Hv [Hfs Hcalls]].
    cbn [Current.process_all].
    destruct (Current.process_subdir O base_dir cmd batch false total w i name) as [v w1].
    simpl in Hv, Hfs, Hcalls. subst v.
    destruct (IH (i + 1) (Current.count Current.SKIPPED_EXISTING c) w1) as (w' & Heq & Hfs' & Hcalls').
    { by rewrite Hfs. }
    exists w'. rewrite Heq. simpl. split; [|split; congruence].
    do 3 f_equal. lia.
Qed.

Lemma process_subdir_1_1_skips base_dir cmd batch total w i name :
  FS.exists_ (w_fs w) (Path.join (Path.join base_dir name) SCORES_FILENAME) = true ->
  let r := V1_1.process_subdir O base_dir cmd batch false total w i name in
  untouched w r.2 /\ (r.1.1 = V1_1.SKIPPED_EXISTING \/ r.1.1 = V1_1.PENDING).
Proof.
  intros Hex. unfold V1_1.process_subdir, V1_1.stop_check. simpl.
  destruct (stop_is_set O (w_stops w)); simpl; [by split; [|right]|].
  fs_simp. rewrite Hex. simpl. by split; [|left].
Qed.

Lemma process_all_1_1_skips base_dir cmd batch total i names c w :
  all_scored (w_fs w) base_dir names = true ->
  let r := V1_1.process_all O base_dir cmd batch false total i names c w in
  untouched w r.2
  /\ exists n,
       n <= length names
       /\ r.1 = Counters (processed_count c) (error_count c) (skipped_no_wav_count c)
                  (skipped_existing_count c + n).
Proof.
  revert i c w. induction names as [|name names IH]; intros i c w Hall.
  - simpl. split; [done|]. exists 0. rewrite Nat.add_0_r. by destruct c.
  - simpl in Hall. apply andb_true_iff in Hall as [Hname Hall].
    destruct (process_subdir_1_1_skips base_dir cmd batch total w i name Hname)
      as [[Hfs Hcalls] Hv].
    cbn [V1_1.process_all].
    destruct (V1_1.process_subdir O base_dir cmd batch false total w i name)
      as [[v stop] w1].
    simpl in Hv, Hfs, Hcalls.
    destruct stop.
    + simpl. split; [done|].
      destruct Hv as [-> | ->]; simpl.
      * exists 1. split; [lia | done].
      * exists 0. split; [lia|]. rewrite Nat.add_0_r. by destruct c.
    + destruct (IH (i + 1) (V1_1.count v c) w1) as ([Hfs' Hcalls'] & n & Hn & Heq).
      { by rewrite Hfs. }
      split; [split; congruence|]. rewrite Heq.
      destruct Hv as [-> | ->]; simpl.
      * exists (1 + n). split; [lia|]. f_equal. lia.
      * exists n. split; [lia | done].
Qed.

(** X8. Running the job again is harmless.  With overwrite off, a run over
    subdirectories that all have a scores file writes no file and runs no
    command; in the current revision its summary counts every
    subdirectory as skipped, in revision 1.1 it counts nothing but
    skipped subdirectories. *)
Theorem rerun_skips_scored_subdirectories
    (w : world) (base_dir audio_aes_cmd : string) (batch_size : Z)
    (subdirs_found : list string) :
  find_subdirs (w_fs w) base_dir = Ok subdirs_found ->
  subdirs_found <> [] ->
  all_scored (w_fs w) base_dir subdirs_found = true ->
  let r := Current._perform_preprocessing O w base_dir audio_aes_cmd batch_size false in
  let r' := V1_1._perform_preprocessing O w base_dir audio_aes_cmd batch_size false in
  r.1 = Current.Summarised (Counters 0 0 0 (length subdirs_found))
  /\ untouched w r.2
  /\ (exists j n, r'.1 = V1_1.Summarised j (Counters 0 0 0 n) /\ n <= length subdirs_found)
  /\ untouched w r'.2.
Proof.
  intros Hfind Hne Hall. cbv zeta. split; [|split; [|split]].
  - unfold Current._perform_preprocessing, now. cbv beta iota zeta.
    change (w_fs (tick w)) with (w_fs w). rewrite Hfind.
    destruct subdirs_found as [|name names]; [done|].
    match goal with
    | |- context [Current.process_all O ?b ?c ?bs ?o ?t ?i ?l ?c0 ?w0] =>
        destruct (process_all_skips b c bs t i l c0 w0) as (w' & -> & _); [done|]
    end.
    done.
  - unfold Current._perform_preprocessing, now. cbv beta iota zeta.
    change (w_fs (tick w)) with (w_fs w). rewrite Hfind.
    destruct subdirs_found as [|name names]; [done|].
    match goal with
    | |- context [Current.process_all O ?b ?c ?bs ?o ?t ?i ?l ?c0 ?w0] =>
        destruct (process_all_skips b c bs t i l c0 w0) as (w' & -> & [Hfs Hcalls]);
          [done|]
    end.
    revert Hfs Hcalls. cbn [fst snd]. unfold untouched. fs_simp. calls_simp. by intros.
  - unfold V1_1._perform_preprocessing, now. cbv beta iota zeta.
    change (w_fs (tick w)) with (w_fs w). rewrite Hfind.
    destruct subdirs_found as [|name names]; [done|].
    match goal with
    | |- context [V1_1.process_all O ?b ?c ?bs ?o ?t ?i ?l ?c0 ?w0] =>
        destruct (process_all_1_1_skips b c bs t i l c0 w0) as (_ & n & Hn & Heq);
          [done|];
        destruct (V1_1.process_all O b c bs o t i l c0 w0) as [c' w']
    end.
    simpl in Heq. subst c'. unfold is_set. simpl. eauto.
  - unfold V1_1._perform_preprocessing, now. cbv beta iota zeta.
    change (w_fs (tick w)) with (w_fs w). rewrite Hfind.
    destruct subdirs_found as [|name names]; [done|].
    match goal with
    | |- context [V1_1.process_all O ?b ?c ?bs ?o ?t ?i ?l ?c0 ?w0] =>
        destruct (process_all_1_1_skips b c bs t i l c0 w0) as ([Hfs Hcalls] & _);
          [done|];
        destruct (V1_1.process_all O b c bs o t i l c0 w0) as [c' w']
    end.
    revert Hfs Hcalls. unfold is_set. cbv beta iota zeta. cbn [fst snd].
    unfold untouched. fs_simp. calls_simp. by intros.
Qed.

(** A stop that is set when an iteration begins ends the loop there. *)
Lemma process_subdir_1_1_stopped base_dir cmd batch overwrite total w i name :
  stop_is_set O (w_stops w) = true ->
  V1_1.process_subdir O base_dir cmd batch overwrite total w i name
  = (V1_1.PENDING, true,
     _append_log ("Stop requested. Halting preprocessing before processing '"
                  +:+ name +:+ "'.") (poll w)).
Proof.
  intros Hstop. unfold V1_1.process_subdir, V1_1.stop_check, is_set.
  rewrite Hstop. reflexivity.
Qed.

Lemma queue_tick w : w_queue (tick w) = w_queue w.
Proof. reflexivity. Qed.
Lemma queue_poll w : w_queue (poll w) = w_queue w.
Proof. reflexivity. Qed.

Lemma in_queue_put t' w t : In t (w_queue w) -> In t (w_queue (put t' w)).
Proof. intros Ht. unfold put. cbn [w_queue]. apply in_or_app. by left. Qed.

Lemma in_queue_logs ms w t : In t (w_queue w) -> In t (w_queue (append_logs ms w)).
Proof.
  revert w. induction ms as [|m ms IH]; intros w Ht; [done|].
  apply IH. by apply in_queue_put.
Qed.

(** X9. Revision 1.1: a stop requested before the run reaches its first
    subdirectory halts it there.  No file is written and no command is run,
    the counters of the summary are all zero, the summary says that the run
    was halted, the log names the subdirectory the run stopped before, and
    the reference to the worker thread is cleared. *)
Theorem stop_before_the_first_subdirectory
    (w : world) (base_dir audio_aes_cmd : string) (batch_size : Z)
    (overwrite_existing : bool) (first : string) (rest : list string) :
  find_subdirs (w_fs w) base_dir = Ok (first :: rest) ->
  (forall n, w_stops w <= n -> stop_is_set O n = true) ->
  let r := V1_1._perform_preprocessing O w base_dir audio_aes_cmd batch_size
             overwrite_existing in
  r.1 = V1_1.Summarised V1_1.HALTED counters0
  /\ untouched w r.2
  /\ w_thread r.2 = None
  /\ In (AppendLog ("Stop requested. Halting preprocessing before processing '"
                    +:+ first +:+ "'."))
       (w_queue r.2).
Proof.
  intros Hfind Hstop.
  unfold V1_1._perform_preprocessing, now. cbv beta iota zeta.
  change (w_fs (tick w)) with (w_fs w). rewrite Hfind.
  cbn [V1_1.process_all].
  rewrite process_subdir_1_1_stopped by (apply Hstop; done).
  unfold is_set. cbv beta iota zeta.
  match goal with
  | |- context [stop_is_set O ?n] =>
      replace (stop_is_set O n) with true by (symmetry; apply Hstop; simpl; lia)
  end.
  cbn [fst snd].
  split; [done|]. split; [|split].
  - unfold untouched. by fs_simp; calls_simp.
  - done.
  - rewrite OrchestratorFacts.w_queue_clear_thread.
    apply in_queue_put, in_queue_logs.
    unfold _update_status. apply in_queue_put.
    rewrite queue_poll, queue_tick.
    unfold _append_log at 1. unfold put at 1. cbn [w_queue].
    apply in_or_app. right. by left.
Qed.

End Rerun.

(** ** The counters and the commands *)

Section Commands.

Variable O : oracles.

(** [run_audio_aes] records at most one command, and one when it reports
    success. *)
Lemma run_audio_aes_ran w target_dir cmd input output batch :
  let r := Current.run_audio_aes O w target_dir cmd input output batch in
  exists success message ran,
    r.1 = Ok (success, message)
    /\ w_calls r.2 = w_calls w ++ ran
    /\ length ran <= 1
    /\ (success = true -> length ran = 1).
Proof.
  intros r.
  destruct (OrchestratorFacts.run_audio_aes_returns O w target_dir cmd input output batch)
    as (success & message & Hret).
  pose proof (ScorerFacts.run_audio_aes_calls_exact O w target_dir cmd input output batch)
    as Hcalls.
  pose proof (ScorerFacts.run_audio_aes_success_input O w target_dir cmd input output batch)
    as Hinput.
  fold r in Hret, Hcalls, Hinput.
  exists success, message.
  eexists. split; [exact Hret|]. split; [exact Hcalls|].
  split.
  - destruct (has_input _ _ _); simpl; lia.
  - intros ->. by rewrite (Hinput message Hret).
Qed.

(** What one iteration records, by its verdict. *)
Lemma process_subdir_ran base_dir cmd batch overwrite total w i name :
  let r := Current.process_subdir O base_dir cmd batch overwrite total w i name in
  exists ran,
    w_calls r.2 = w_calls w ++ ran
    /\ match r.1 with
       | Current.PROCESSED => length ran = 1
       | Current.ERROR => length ran <= 1
       | Current.SKIPPED_EXISTING | Current.SKIPPED_NO_MEDIA => ran = []
       | Current.UNCAUGHT _ => False
       end.
Proof.
  unfold Current.process_subdir. simpl.
  destruct (negb overwrite && FS.exists_ (w_fs w) _); simpl.
  { exists []. rewrite List.app_nil_r. split; [by calls_simp | done]. }
  set (w0 := _append_log _ (_update_status _ w)).
  set (f := Current.progress_reporter _).
  pose proof (OrchestratorFacts.create_wav_jsonl_rel untouched O f (w_fs w)
                (Path.join base_dir name) PATHS_FILENAME w0
                (OrchestratorFacts.progress_reporter_untouched _)) as [_ Hcalls].
  destruct (Writer.create_wav_jsonl O (w_fs w) _ _ (Some f) w0)
    as [[[num_wavs paths_msg] fs'] w1].
  simpl in Hcalls. simpl.
  assert (w_calls w1 = w_calls w) as Hc by (by rewrite Hcalls).
  clear Hcalls. clearbody w0.
  destruct (num_wavs <? 0)%Z; simpl.
  { exists []. rewrite List.app_nil_r. split; [by calls_simp | simpl; lia]. }
  destruct (num_wavs =? 0)%Z; simpl.
  { exists []. rewrite List.app_nil_r. split; [by calls_simp | done]. }
  match goal with
  | |- context [Current.run_audio_aes O ?W ?d ?c ?inp ?out ?b] =>
      destruct (run_audio_aes_ran W d c inp out b)
        as (success & message & ran & Hret & Hran & Hle & Hone);
      destruct (Current.run_audio_aes O W d c inp out b) as [res w3]
  end.
  simpl in Hret, Hran. subst res. simpl.
  revert Hran. calls_simp. rewrite Hc. intros Hran.
  exists ran. split; [by calls_simp|].
  destruct success; [by apply Hone | done].
Qed.

Lemma process_all_ran base_dir cmd batch overwrite total i names c w :
  let r := Current.process_all O base_dir cmd batch overwrite total i names c w in
  exists ran p e,
    w_calls r.2 = w_calls w ++ ran
    /\ processed_count r.1.2 = processed_count c + p
    /\ error_count r.1.2 = error_count c + e
    /\ p <= length ran <= p + e.
Proof.
  revert i c w. induction names as [|name names IH]; intros i c w; simpl.
  - exists [], 0, 0. rewrite List.app_nil_r. repeat split; simpl; lia.
  - destruct (process_subdir_ran base_dir cmd batch overwrite total w i name)
      as (ran1 & Hran1 & Hv).
    destruct (Current.process_subdir O _ _ _ _ _ w i name) as [v w1].
    simpl in Hran1, Hv.
    destruct (IH (i + 1) (Current.count v c) w1) as (ran & p & e & Hran & Hp & He & Hle).
    destruct v; simpl in *; try done.
    + exists ran, p, e. subst ran1. rewrite List.app_nil_r in Hran1.
      rewrite Hran, Hran1. repeat split; lia.
    + exists ran, p, e. subst ran1. rewrite List.app_nil_r in Hran1.
      rewrite Hran, Hran1. repeat split; lia.
    + exists (ran1 ++ ran), p, (1 + e).
      rewrite Hran, Hran1, List.app_assoc, List.length_app. repeat split; lia.
    + exists (ran1 ++ ran), (1 + p), e.
      rewrite Hran, Hran1, List.app_assoc, List.length_app. repeat split; lia.
Qed.

(** X10. The counters of the summary and the commands that were run.  In
    a run of the current revision that ends with its summary, every
    subdirectory counted as processed had the command run in it, and every
    command run is counted as processed or as an error: the number of
    commands lies between the processed count and the sum of the processed
    and the error counts. *)
Theorem processed_directories_ran_the_command
    (w : world) (base_dir audio_aes_cmd : string) (batch_size : Z)
    (overwrite_existing : bool) (c : counters) :
  let r := Current._perform_preprocessing O w base_dir audio_aes_cmd batch_size
             overwrite_existing in
  r.1 = Current.Summarised c ->
  exists ran,
    w_calls r.2 = w_calls w ++ ran
    /\ processed_count c <= length ran <= processed_count c + error_count c.
Proof.
  unfold Current._perform_preprocessing, now. cbv beta iota zeta.
  change (w_fs (tick w)) with (w_fs w).
  destruct (find_subdirs (w_fs w) base_dir) as [[|name names]|e]; [done| |].
  2:{ by destruct (is_OSError (exn_cls e)). }
  match goal with
  | |- context [Current.process_all O ?b ?cm ?bs ?o ?t ?i ?l ?c0 ?w0] =>
      destruct (process_all_ran b cm bs o t i l c0 w0) as (ran & p & e & Hran & Hp & He & Hle);
      destruct (Current.process_all O b cm bs o t i l c0 w0) as [[[ex|] c'] w']
  end; [done|].
  simpl in Hran, Hp, He. cbn [fst snd]. intros [= <-]. exists ran.
  revert Hran. calls_simp. intros Hran. split; [exact Hran | lia].
Qed.

End Commands.

(** ** The order of the subdirectories *)

Lemma ltb_str_ltb (a b : string) : String.ltb a b = str_ltb a b.
Proof.
  unfold str_ltb, String.ltb, String.leb.
  rewrite (String.compare_antisym a b).
  by destruct (String.compare b a).
Qed.

Lemma sorted_impl {A : Type} (R R' : A -> A -> Prop) (l : list A) :
  (forall x y, R x y -> R' x y) -> StronglySorted R l -> StronglySorted R' l.
Proof.
  intros HR. induction 1 as [|a l Hs IH Ha]; constructor; [done|].
  eapply List.Forall_impl; [|exact Ha]. intros y. apply HR.
Qed.

(** X11. The orchestrator takes the subdirectories in the order of their
    names, whatever the order of the listing: the list it works through
    holds exactly the entries of the listing that are directories, each as
    often as it is listed, in ascending order of the names compared as
    strings. *)
Theorem find_subdirs_sorted (fs : gmap string node) (base_dir : string)
    (names : list string) :
  FS.listdir fs base_dir = Ok names ->
  exists subdirs_found,
    find_subdirs fs base_dir = Ok subdirs_found
    /\ Permutation (LoaderSpec.subdirectories fs base_dir names) subdirs_found
    /\ StronglySorted (fun a b => String.leb a b = true) subdirs_found.
Proof.
  intros Hls. unfold find_subdirs. rewrite Hls. eexists. split; [done|].
  split; [apply SortFacts.sort_perm|].
  assert (forall a b, String.ltb a b = true -> String.ltb b a = false) as Hasym.
  { intros a b. rewrite !ltb_str_ltb. apply SortFacts.str_ltb_asym. }
  assert (forall a b c, String.ltb a b = false -> String.ltb b c = false ->
                        String.ltb a c = false) as Htrans.
  { intros a b c. rewrite !ltb_str_ltb. apply SortFacts.str_ltb_negtrans. }
  pose proof (SortFacts.sort_sorted (fun d : string => d) String.ltb Hasym Htrans false
                (List.filter (fun d => FS.isdir fs (Path.join base_dir d)) names))
    as Hsorted.
  eapply sorted_impl; [|exact Hsorted].
  intros a b. unfold PySort.asc. rewrite ltb_str_ltb. unfold str_ltb.
  by intros H%negb_false_iff.
Qed.

End RunFacts.

(** * Further properties of the column sort *)

Module TableFacts.
Import SortSpec TableSpec TieSpec.

(** ** Sorting keys without ties *)

Section Unique.

Context {A K : Type}.
Variable key : A -> K.
Variable lt : K -> K -> bool.
Hypothesis lt_asym : forall a b, lt a b = true -> lt b a = false.
Hypothesis lt_negtrans : forall a b c, lt a b = false -> lt b c = false -> lt a c = false.

Local Abbreviation sort_asc := (PySort.sort_asc key lt).
Local Abbreviation sort := (PySort.sort key lt).
Local Abbreviation asc := (PySort.asc key lt).
Local Abbreviation keq := (PySort.keq lt).

Local Abbreviation untied := (TieSpec.untied key lt).
Local Abbreviation below := (TieSpec.below key lt).

Lemma keq_sym a b : keq a b = keq b a.
Proof. unfold PySort.keq. apply andb_comm. Qed.

Lemma forallb_perm (f : A -> bool) l l' :
  Permutation l l' -> forallb f l = forallb f l'.
Proof.
  induction 1 as [|x l l' _ IH|x y l|l l' l'' _ IH1 _ IH2]; simpl.
  - done.
  - by rewrite IH.
  - by rewrite !andb_assoc, (andb_comm (f y)).
  - congruence.
Qed.

Lemma untied_perm l l' : Permutation l l' -> untied l = true -> untied l' = true.
Proof.
  induction 1 as [|x l l' Hp IH|x y l|l l' l'' _ IH1 _ IH2]; simpl.
  - done.
  - intros [H1 H2]%andb_true_iff. apply andb_true_iff. split; [|by apply IH].
    by rewrite <- (forallb_perm _ _ _ Hp).
  - intros [[Hyx Hy]%andb_true_iff [Hx Hl]%andb_true_iff]%andb_true_iff.
    rewrite keq_sym in Hyx. by rewrite Hyx, Hx, Hy, Hl.
  - auto.
Qed.

Lemma sorted_untied_below l :
  StronglySorted asc l -> untied l = true -> StronglySorted below l.
Proof.
  induction 1 as [|x l Hs IH Hx]; [constructor|].
  simpl. intros [Hties Hl]%andb_true_iff. constructor; [by apply IH|].
  rewrite List.Forall_forall in Hx |- *. intros y Hy.
  rewrite forallb_forall in Hties. specialize (Hties y Hy). specialize (Hx y Hy).
  unfold PySort.asc in Hx. unfold PySort.keq in Hties. unfold TieSpec.below.
  rewrite Hx in Hties. simpl in Hties.
  destruct (lt (key x) (key y)); [done|]. done.
Qed.

(** Two strictly ascending lists with the same elements are the same
    list. *)
Lemma below_unique l1 l2 :
  StronglySorted below l1 -> StronglySorted below l2 -> Permutation l1 l2 -> l1 = l2.
Proof.
  intros Hs1. revert l2. induction Hs1 as [|a l1 Hs1 IH Ha]; intros l2 Hs2 Hp.
  - by apply Permutation_nil in Hp.
  - destruct Hs2 as [|b l2 Hs2 Hb].
    { apply Permutation_sym, Permutation_nil in Hp. done. }
    rewrite List.Forall_forall in Ha, Hb.
    assert (a = b) as <-.
    { assert (In a (b :: l2)) as [Hab|Hab]
        by (eapply Permutation_in; [exact Hp | by left]); [done|].
      assert (In b (a :: l1)) as [Hba|Hba]
        by (eapply Permutation_in; [exact (Permutation_sym Hp) | by left]); [done|].
      specialize (Ha b Hba). specialize (Hb a Hab). unfold TieSpec.below in Ha, Hb.
      apply lt_asym in Ha. congruence. }
    f_equal. apply IH; [done|]. by apply Permutation_cons_inv in Hp.
Qed.

(** Without ties the result of the sort does not depend on the order of
    its input. *)
Lemma sort_asc_perm_eq l l' :
  Permutation l l' -> untied l = true -> sort_asc l = sort_asc l'.
Proof.
  intros Hp Hl.
  pose proof (SortFacts.sort_asc_perm key lt l) as Hpl.
  pose proof (SortFacts.sort_asc_perm key lt l') as Hpl'.
  apply below_unique.
  - apply sorted_untied_below;
      [exact (SortFacts.sort_asc_sorted key lt lt_asym lt_negtrans l)|].
    by apply (untied_perm l).
  - apply sorted_untied_below;
      [exact (SortFacts.sort_asc_sorted key lt lt_asym lt_negtrans l')|].
    apply (untied_perm l); [exact (Permutation_trans Hp Hpl') | done].
  - etrans; [apply Permutation_sym, Hpl|]. exact (Permutation_trans Hp Hpl').
Qed.

(** Sorting the sorted list in the other direction reverses it. *)
Lemma sort_again_reverses (reverse : bool) l :
  untied l = true -> sort (negb reverse) (sort reverse l) = List.rev (sort reverse l).
Proof.
  intros Hl. unfold PySort.sort.
  pose proof (SortFacts.sort_asc_perm key lt l) as Hpl.
  pose proof (SortFacts.sort_asc_perm key lt (List.rev l)) as Hpr.
  pose proof (Permutation_rev l) as Hrev.
  destruct reverse; simpl.
  - rewrite List.rev_involutive.
    etrans; [|apply (sort_asc_perm_eq l (List.rev l)); done].
    symmetry. apply sort_asc_perm_eq; [|done].
    etrans; [exact Hrev|]. etrans; [exact Hpr|]. apply Permutation_rev.
  - f_equal. symmetry. apply sort_asc_perm_eq; [|done].
    etrans; [exact Hpl|]. apply Permutation_rev.
Qed.

End Unique.

(** The sort depends on the key function through the keys of the elements
    of the list only. *)
Lemma insert_key_ext {A K : Type} (key key' : A -> K) (lt : K -> K -> bool) x l :
  key x = key' x -> (forall y, In y l -> key y = key' y) ->
  PySort.insert key lt x l = PySort.insert key' lt x l.
Proof.
  intros Hx. induction l as [|y l IH]; intros Hl; simpl; [done|].
  rewrite <- Hx, <- (Hl y) by (by left).
  destruct (lt (key y) (key x)); [|done].
  f_equal. apply IH. intros z Hz. apply Hl. by right.
Qed.

Lemma sort_asc_key_ext {A K : Type} (key key' : A -> K) (lt : K -> K -> bool) l :
  (forall y, In y l -> key y = key' y) ->
  PySort.sort_asc key lt l = PySort.sort_asc key' lt l.
Proof.
  induction l as [|x l IH]; intros Hl; simpl; [done|].
  rewrite IH by (intros y Hy; apply Hl; by right).
  apply insert_key_ext; [apply Hl; by left|].
  intros y Hy. apply Hl. right.
  eapply Permutation_in;
    [apply Permutation_sym, (SortFacts.sort_asc_perm key' lt l) | exact Hy].
Qed.

Lemma sort_key_ext {A K : Type} (key key' : A -> K) (lt : K -> K -> bool) reverse l :
  (forall y, In y l -> key y = key' y) ->
  PySort.sort key lt reverse l = PySort.sort key' lt reverse l.
Proof.
  intros Hl. unfold PySort.sort. destruct reverse; [|by apply sort_asc_key_ext].
  f_equal. apply sort_asc_key_ext. intros y Hy. apply Hl. by apply in_rev.
Qed.

Lemma forallb_agree {A : Type} (f g : A -> bool) l :
  (forall x, In x l -> f x = g x) -> forallb f l = forallb g l.
Proof.
  induction l as [|x l IH]; simpl; intros H; [done|].
  rewrite (H x) by (by left). f_equal. apply IH. intros y Hy. apply H. by right.
Qed.

(** A list in order stays in order under a relation that holds between its
    elements wherever the first one does. *)
Lemma sorted_impl_in {A : Type} (R R' : A -> A -> Prop) l :
  (forall x y, In x l -> In y l -> R x y -> R' x y) ->
  StronglySorted R l -> StronglySorted R' l.
Proof.
  intros H Hs. induction Hs as [|x l Hs IH Hx]; [constructor|].
  constructor.
  - apply IH. intros y z Hy Hz. apply H; by right.
  - rewrite List.Forall_forall in Hx |- *. intros y Hy.
    apply H; [by left | by right | by apply Hx].
Qed.

(** ** [sort_column] *)

Section Table.

Variable str_float : string -> option pyfloat.
Variable str_lower : string -> string.
Variable unordered : nan_sort.

Local Abbreviation key_of := (Sorter.key_of str_float).
Local Abbreviation sorted_by := (Sorter.sorted_by str_float str_lower unordered).
Local Abbreviation sort_column := (Sorter.sort_column str_float str_lower unordered).
Local Abbreviation convertible := (SortSpec.convertible str_float).
Local Abbreviation nan_free := (SortSpec.nan_free str_float).
Local Abbreviation has_key := (TableSpec.has_key str_float).
Local Abbreviation no_ties := (TableSpec.no_ties str_float str_lower).
Local Abbreviation in_order := (TableSpec.in_order str_float str_lower).

(** The sort of a list whose keys can be computed and are free of NaN. *)
Lemma sorted_by_total c reverse l :
  convertible c l = true -> nan_free c l = true ->
  sorted_by c reverse l
  = Ok (if is_numeric c
        then PySort.sort (key_of c reverse) total_ltb reverse l
        else PySort.sort (Sorter.sort_key_text str_lower c) str_ltb reverse l).
Proof.
  intros Hc Hn. destruct (is_numeric c) eqn:Hnum.
  - by apply SortFacts.sorted_by_nan_free.
  - unfold Sorter.sorted_by. by rewrite Hnum.
Qed.

Lemma sort_column_total v c :
  display_audio_data v <> [] ->
  convertible c (display_audio_data v) = true ->
  nan_free c (display_audio_data v) = true ->
  sort_column v c
  = (View (if is_numeric c
           then PySort.sort (key_of c (Sorter.next_reverse v c)) total_ltb
                  (Sorter.next_reverse v c) (display_audio_data v)
           else PySort.sort (Sorter.sort_key_text str_lower c) str_ltb
                  (Sorter.next_reverse v c) (display_audio_data v))
       (Some c) (Sorter.next_reverse v c), None).
Proof.
  intros Hne Hc Hn. unfold Sorter.sort_column.
  rewrite (sorted_by_total c _ _ Hc Hn). by destruct (display_audio_data v).
Qed.

(** X12. After a sort the table is in order.  Sorting a non-empty table
    by a column whose keys can all be computed, none of them NaN, leaves
    its records ordered by their keys in the column (for a text column the
    value in lower case, for a score column the number, with the sentinel
    for a missing value and for a value that is no number): every record has
    a key at most that of every later record when the direction is
    ascending, and at least that when it is descending. *)
Theorem sort_column_orders_the_table (v : view) (c : column) :
  display_audio_data v <> [] ->
  convertible c (display_audio_data v) = true ->
  nan_free c (display_audio_data v) = true ->
  let v1 := (sort_column v c).1 in
  StronglySorted
    (fun x y => in_order c (current_sort_reverse v1) x y = true)
    (display_audio_data v1).
Proof.
  intros Hne Hc Hn v1. unfold v1. rewrite (sort_column_total v c Hne Hc Hn). simpl.
  unfold TableSpec.in_order.
  destruct (is_numeric c) eqn:Hnum.
  - pose proof (SortFacts.sort_sorted
                  (key_of c (Sorter.next_reverse v c))
                  total_ltb SortFacts.total_ltb_asym SortFacts.total_ltb_negtrans
                  (Sorter.next_reverse v c) (display_audio_data v)) as Hs.
    eapply sorted_impl_in; [|exact Hs].
    assert (forall x,
              In x (PySort.sort (key_of c (Sorter.next_reverse v c)) total_ltb
                      (Sorter.next_reverse v c) (display_audio_data v)) ->
              is_nan (key_of c (Sorter.next_reverse v c) x) = false) as Hnan.
    { intros x Hx. rewrite SortFacts.key_of_nan by done.
      eapply SortFacts.nan_free_in; [exact Hn|].
      eapply Permutation_in; [|exact Hx].
      apply Permutation_sym, (SortFacts.sort_perm _ total_ltb). }
    intros x y Hx Hy. specialize (Hnan x Hx) as Hnx. specialize (Hnan y Hy) as Hny.
    destruct (Sorter.next_reverse v c);
      unfold PySort.desc, PySort.asc, total_ltb; intros H%negb_false_iff;
      destruct (key_of c _ x), (key_of c _ y); done.
  - pose proof (SortFacts.sort_sorted (Sorter.sort_key_text str_lower c)
                  str_ltb SortFacts.str_ltb_asym SortFacts.str_ltb_negtrans
                  (Sorter.next_reverse v c) (display_audio_data v)) as Hs.
    eapply RunFacts.sorted_impl; [|exact Hs].
    intros x y. destruct (Sorter.next_reverse v c);
      unfold PySort.desc, PySort.asc, str_ltb; by intros H%negb_false_iff.
Qed.

(** A record with a key of its own has the same key in both directions,
    and the key is computed and is not NaN. *)
Lemma has_key_numeric c reverse x :
  is_numeric c = true -> has_key c x = true ->
  key_of c reverse x = key_of c false x.
Proof.
  unfold TableSpec.has_key, Sorter.key_of, Sorter.sort_key_numeric. intros ->.
  destruct (item_get x c) as [val|]; [|done].
  by destruct (Sorter.py_float str_float val).
Qed.

Lemma has_key_convertible c l :
  forallb (has_key c) l = true -> convertible c l = true /\ nan_free c l = true.
Proof.
  unfold SortSpec.convertible, SortSpec.nan_free. rewrite !forallb_forall.
  intros H. split; intros x Hx; specialize (H x Hx);
    unfold TableSpec.has_key in H;
    unfold SortSpec.too_large, SortSpec.nan_valued;
    destruct (is_numeric c); try done; simpl;
    destruct (item_get x c) as [val|]; try done;
    destruct (Sorter.py_float str_float val) as [[| | |]| |]; done.
Qed.

Lemma has_key_not_nan c x :
  is_numeric c = true -> has_key c x = true -> is_nan (key_of c false x) = false.
Proof.
  unfold TableSpec.has_key, Sorter.key_of, Sorter.sort_key_numeric. intros ->.
  destruct (item_get x c) as [val|]; [|done].
  destruct (Sorter.py_float str_float val) as [[| | |]| |]; done.
Qed.

Lemma sorted_by_direction c reverse l :
  forallb (has_key c) l = true ->
  sorted_by c reverse l
  = Ok (if is_numeric c
        then PySort.sort (key_of c false) total_ltb reverse l
        else PySort.sort (Sorter.sort_key_text str_lower c) str_ltb reverse l).
Proof.
  intros Hl. destruct (has_key_convertible c l Hl) as [Hc Hn].
  rewrite (sorted_by_total c reverse l Hc Hn). f_equal.
  destruct (is_numeric c) eqn:Hnum; [|done].
  apply sort_key_ext. intros y Hy.
  rewrite forallb_forall in Hl. by apply has_key_numeric, Hl.
Qed.

Lemma no_ties_untied c l :
  forallb (has_key c) l = true ->
  no_ties c l
  = if is_numeric c
    then untied (key_of c false) total_ltb l
    else untied (Sorter.sort_key_text str_lower c) str_ltb l.
Proof.
  induction l as [|x l IH]; simpl; [by destruct (is_numeric c)|].
  intros [Hx Hl]%andb_true_iff. rewrite (IH Hl).
  unfold SortSpec.same_key. destruct (is_numeric c) eqn:Hnum; [|done].
  f_equal. apply forallb_agree. intros y Hy. f_equal.
  rewrite forallb_forall in Hl.
  apply SortFacts.keq_total; apply has_key_not_nan; auto.
Qed.

(** X13. A second click on the same heading reverses the table.  When
    every record of a non-empty table has a key of its own in the column
    (in a score column: a value that converts to a number other than NaN)
    and no two records have equal keys, sorting by the column and then
    sorting by it again leaves the table of the first sort in exactly the
    reverse order. *)
Theorem second_click_reverses_the_table (v : view) (c : column) :
  display_audio_data v <> [] ->
  forallb (has_key c) (display_audio_data v) = true ->
  no_ties c (display_audio_data v) = true ->
  let v1 := (sort_column v c).1 in
  let v2 := (sort_column v1 c).1 in
  display_audio_data v2 = List.rev (display_audio_data v1).
Proof.
  intros Hne Hkeys Hties v1 v2.
  set (r := Sorter.next_reverse v c).
  set (l := display_audio_data v) in *.
  set (l1 := if is_numeric c
             then PySort.sort (key_of c false) total_ltb r l
             else PySort.sort (Sorter.sort_key_text str_lower c) str_ltb r l).
  assert (Permutation l l1) as Hp.
  { unfold l1. destruct (is_numeric c); apply SortFacts.sort_perm. }
  assert (v1 = View l1 (Some c) r) as Hv1.
  { unfold v1, Sorter.sort_column. fold l r.
    rewrite (sorted_by_direction c r l Hkeys). fold l1. by destruct l. }
  assert (l1 <> []) as Hne1.
  { intros Hnil. rewrite Hnil in Hp. by apply Permutation_sym, Permutation_nil in Hp. }
  assert (forallb (has_key c) l1 = true) as Hkeys1.
  { rewrite <- (forallb_perm _ _ _ Hp). exact Hkeys. }
  assert (v2 = View (if is_numeric c
                     then PySort.sort (key_of c false) total_ltb (negb r) l1
                     else PySort.sort (Sorter.sort_key_text str_lower c) str_ltb
                            (negb r) l1)
                 (Some c) (negb r)) as Hv2.
  { unfold v2, Sorter.sort_column. rewrite Hv1. simpl.
    assert (Sorter.next_reverse (View l1 (Some c) r) c = negb r) as ->.
    { unfold Sorter.next_reverse. simpl. by rewrite SortFacts.column_eqb_refl. }
    rewrite (sorted_by_direction c (negb r) l1 Hkeys1). by destruct l1. }
  rewrite Hv2, Hv1. simpl.
  rewrite (no_ties_untied c l Hkeys) in Hties.
  unfold l1. destruct (is_numeric c).
  - apply sort_again_reverses;
      [apply SortFacts.total_ltb_asym | apply SortFacts.total_ltb_negtrans | done].
  - apply sort_again_reverses;
      [apply SortFacts.str_ltb_asym | apply SortFacts.str_ltb_negtrans | done].
Qed.

End Table.

End TableFacts.

(** * Properties of the table of the main window *)

Module ViewerFacts.
Import FilterSpec TableViewSpec.

#[local] Arguments status : simpl never.
#[local] Arguments emit : simpl never.
#[local] Arguments tick_app : simpl never.
#[local] Arguments set_labels : simpl never.
#[local] Arguments set_view : simpl never.
#[local] Arguments set_full : simpl never.
#[local] Arguments set_tree : simpl never.
#[local] Arguments set_fields : simpl never.
#[local] Arguments set_directory : simpl never.
#[local] Arguments set_display : simpl never.

(** ** The operations on the state of the application *)

Lemma full_status x a : full_audio_data (status x a) = full_audio_data a.
Proof. reflexivity. Qed.
Lemma view_status x a : a_view (status x a) = a_view a.
Proof. reflexivity. Qed.
Lemma tree_status x a : tree (status x a) = tree a.
Proof. reflexivity. Qed.
Lemma fields_status x a : fields (status x a) = fields a.
Proof. reflexivity. Qed.
Lemma out_status x a : a_out (status x a) = a_out a ++ [StatusText ("Status: " +:+ x)].
Proof. reflexivity. Qed.
Lemma full_emit x a : full_audio_data (emit x a) = full_audio_data a.
Proof. reflexivity. Qed.
Lemma view_emit x a : a_view (emit x a) = a_view a.
Proof. reflexivity. Qed.
Lemma tree_emit x a : tree (emit x a) = tree a.
Proof. reflexivity. Qed.
Lemma fields_emit x a : fields (emit x a) = fields a.
Proof. reflexivity. Qed.
Lemma out_emit x a : a_out (emit x a) = a_out a ++ [x].
Proof. reflexivity. Qed.
Lemma full_tick_app a : full_audio_data (tick_app a) = full_audio_data a.
Proof. reflexivity. Qed.
Lemma view_tick_app a : a_view (tick_app a) = a_view a.
Proof. reflexivity. Qed.
Lemma tree_tick_app a : tree (tick_app a) = tree a.
Proof. reflexivity. Qed.
Lemma fields_tick_app a : fields (tick_app a) = fields a.
Proof. reflexivity. Qed.
Lemma out_tick_app a : a_out (tick_app a) = a_out a.
Proof. reflexivity. Qed.
Lemma full_set_labels a x y : full_audio_data (set_labels a x y) = full_audio_data a.
Proof. reflexivity. Qed.
Lemma view_set_labels a x y : a_view (set_labels a x y) = a_view a.
Proof. reflexivity. Qed.
Lemma tree_set_labels a x y : tree (set_labels a x y) = tree a.
Proof. reflexivity. Qed.
Lemma fields_set_labels a x y : fields (set_labels a x y) = fields a.
Proof. reflexivity. Qed.
Lemma out_set_labels a x y : a_out (set_labels a x y) = a_out a.
Proof. reflexivity. Qed.
Lemma full_set_view a x : full_audio_data (set_view a x) = full_audio_data a.
Proof. reflexivity. Qed.
Lemma view_set_view a x : a_view (set_view a x) = x.
Proof. reflexivity. Qed.
Lemma tree_set_view a x : tree (set_view a x) = tree a.
Proof. reflexivity. Qed.
Lemma fields_set_view a x : fields (set_view a x) = fields a.
Proof. reflexivity. Qed.
Lemma out_set_view a x : a_out (set_view a x) = a_out a.
Proof. reflexivity. Qed.
Lemma full_set_full a x : full_audio_data (set_full a x) = x.
Proof. reflexivity. Qed.
Lemma view_set_full a x : a_view (set_full a x) = a_view a.
Proof. reflexivity. Qed.
Lemma tree_set_full a x : tree (set_full a x) = tree a.
Proof. reflexivity. Qed.
Lemma fields_set_full a x : fields (set_full a x) = fields a.
Proof. reflexivity. Qed.
Lemma out_set_full a x : a_out (set_full a x) = a_out a.
Proof. reflexivity. Qed.
Lemma full_set_tree a x : full_audio_data (set_tree a x) = full_audio_data a.
Proof. reflexivity. Qed.
Lemma view_set_tree a x : a_view (set_tree a x) = a_view a.
Proof. reflexivity. Qed.
Lemma tree_set_tree a x : tree (set_tree a x) = x.
Proof. reflexivity. Qed.
Lemma fields_set_tree a x : fields (set_tree a x) = fields a.
Proof. reflexivity. Qed.
Lemma out_set_tree a x : a_out (set_tree a x) = a_out a.
Proof. reflexivity. Qed.
Lemma full_set_fields a x : full_audio_data (set_fields a x) = full_audio_data a.
Proof. reflexivity. Qed.
Lemma view_set_fields a x : a_view (set_fields a x) = a_view a.
Proof. reflexivity. Qed.
Lemma tree_set_fields a x : tree (set_fields a x) = tree a.
Proof. reflexivity. Qed.
Lemma fields_set_fields a x : fields (set_fields a x) = x.
Proof. reflexivity. Qed.
Lemma out_set_fields a x : a_out (set_fields a x) = a_out a.
Proof. reflexivity. Qed.
Lemma full_set_directory a x : full_audio_data (set_directory a x) = full_audio_data a.
Proof. reflexivity. Qed.
Lemma view_set_directory a x : a_view (set_directory a x) = a_view a.
Proof. reflexivity. Qed.
Lemma tree_set_directory a x : tree (set_directory a x) = tree a.
Proof. reflexivity. Qed.
Lemma fields_set_directory a x : fields (set_directory a x) = fields a.
Proof. reflexivity. Qed.
Lemma out_set_directory a x : a_out (set_directory a x) = a_out a.
Proof. reflexivity. Qed.
Lemma full_set_display a x : full_audio_data (set_display a x) = full_audio_data a.
Proof. reflexivity. Qed.
Lemma view_set_display a x : a_view (set_display a x) = View x (current_sort_column (a_view a)) (current_sort_reverse (a_view a)).
Proof. reflexivity. Qed.
Lemma tree_set_display a x : tree (set_display a x) = tree a.
Proof. reflexivity. Qed.
Lemma fields_set_display a x : fields (set_display a x) = fields a.
Proof. reflexivity. Qed.
Lemma out_set_display a x : a_out (set_display a x) = a_out a.
Proof. reflexivity. Qed.

(** Rewrites the projections of a state built by these operations. *)
Ltac app_simp :=
  repeat match goal with
    | |- context [full_audio_data (status ?x ?a)] => rewrite (full_status x a)
    | |- context [a_view (status ?x ?a)] => rewrite (view_status x a)
    | |- context [tree (status ?x ?a)] => rewrite (tree_status x a)
    | |- context [fields (status ?x ?a)] => rewrite (fields_status x a)
    | |- context [a_out (status ?x ?a)] => rewrite (out_status x a)
    | |- context [full_audio_data (emit ?x ?a)] => rewrite (full_emit x a)
    | |- context [a_view (emit ?x ?a)] => rewrite (view_emit x a)
    | |- context [tree (emit ?x ?a)] => rewrite (tree_emit x a)
    | |- context [fields (emit ?x ?a)] => rewrite (fields_emit x a)
    | |- context [a_out (emit ?x ?a)] => rewrite (out_emit x a)
    | |- context [full_audio_data (tick_app ?a)] => rewrite (full_tick_app a)
    | |- context [a_view (tick_app ?a)] => rewrite (view_tick_app a)
    | |- context [tree (tick_app ?a)] => rewrite (tree_tick_app a)
    | |- context [fields (tick_app ?a)] => rewrite (fields_tick_app a)
    | |- context [a_out (tick_app ?a)] => rewrite (out_tick_app a)
    | |- context [full_audio_data (set_labels ?a ?x ?y)] => rewrite (full_set_labels a x y)
    | |- context [a_view (set_labels ?a ?x ?y)] => rewrite (view_set_labels a x y)
    | |- context [tree (set_labels ?a ?x ?y)] => rewrite (tree_set_labels a x y)
    | |- context [fields (set_labels ?a ?x ?y)] => rewrite (fields_set_labels a x y)
    | |- context [a_out (set_labels ?a ?x ?y)] => rewrite (out_set_labels a x y)
    | |- context [full_audio_data (set_view ?a ?x)] => rewrite (full_set_view a x)
    | |- context [a_view (set_view ?a ?x)] => rewrite (view_set_view a x)
    | |- context [tree (set_view ?a ?x)] => rewrite (tree_set_view a x)
    | |- context [fields (set_view ?a ?x)] => rewrite (fields_set_view a x)
    | |- context [a_out (set_view ?a ?x)] => rewrite (out_set_view a x)
    | |- context [full_audio_data (set_full ?a ?x)] => rewrite (full_set_full a x)
    | |- context [a_view (set_full ?a ?x)] => rewrite (view_set_full a x)
    | |- context [tree (set_full ?a ?x)] => rewrite (tree_set_full a x)
    | |- context [fields (set_full ?a ?x)] => rewrite (fields_set_full a x)
    | |- context [a_out (set_full ?a ?x)] => rewrite (out_set_full a x)
    | |- context [full_audio_data (set_tree ?a ?x)] => rewrite (full_set_tree a x)
    | |- context [a_view (set_tree ?a ?x)] => rewrite (view_set_tree a x)
    | |- context [tree (set_tree ?a ?x)] => rewrite (tree_set_tree a x)
    | |- context [fields (set_tree ?a ?x)] => rewrite (fields_set_tree a x)
    | |- context [a_out (set_tree ?a ?x)] => rewrite (out_set_tree a x)
    | |- context [full_audio_data (set_fields ?a ?x)] => rewrite (full_set_fields a x)
    | |- context [a_view (set_fields ?a ?x)] => rewrite (view_set_fields a x)
    | |- context [tree (set_fields ?a ?x)] => rewrite (tree_set_fields a x)
    | |- context [fields (set_fields ?a ?x)] => rewrite (fields_set_fields a x)
    | |- context [a_out (set_fields ?a ?x)] => rewrite (out_set_fields a x)
    | |- context [full_audio_data (set_directory ?a ?x)] => rewrite (full_set_directory a x)
    | |- context [a_view (set_directory ?a ?x)] => rewrite (view_set_directory a x)
    | |- context [tree (set_directory ?a ?x)] => rewrite (tree_set_directory a x)
    | |- context [fields (set_directory ?a ?x)] => rewrite (fields_set_directory a x)
    | |- context [a_out (set_directory ?a ?x)] => rewrite (out_set_directory a x)
    | |- context [full_audio_data (set_display ?a ?x)] => rewrite (full_set_display a x)
    | |- context [a_view (set_display ?a ?x)] => rewrite (view_set_display a x)
    | |- context [tree (set_display ?a ?x)] => rewrite (tree_set_display a x)
    | |- context [fields (set_display ?a ?x)] => rewrite (fields_set_display a x)
    | |- context [a_out (set_display ?a ?x)] => rewrite (out_set_display a x)
    end.

Section ViewerFacts.

Variable O : oracles.
Variable json_loads : string -> option json.
Variable str_float : string -> option pyfloat.
Variable fmt_4f : pyfloat -> string.
Variable tcl_traceback : string -> string.
Variable str_lower : string -> string.
Variable unordered : nan_sort.

Local Abbreviation load_and_display_data := (Viewer.load_and_display_data O json_loads str_float fmt_4f tcl_traceback str_lower).
Local Abbreviation populate_treeview := (Viewer.populate_treeview O fmt_4f tcl_traceback).
Local Abbreviation apply_filters := (Viewer.apply_filters O str_float fmt_4f tcl_traceback str_lower).
Local Abbreviation clear_filters := (Viewer.clear_filters O str_float fmt_4f tcl_traceback str_lower).
Local Abbreviation sort_column := (Viewer.sort_column O str_float fmt_4f tcl_traceback str_lower unordered).
Local Abbreviation rows_of := (Viewer.rows_of fmt_4f).
Local Abbreviation skipped := (Viewer.skipped str_float str_lower).
Local Abbreviation filter_loop := (Viewer.filter_loop str_float str_lower).
Local Abbreviation lower_bound := (Viewer.lower_bound str_float).
Local Abbreviation upper_bound := (Viewer.upper_bound str_float).
Local Abbreviation matches := (FilterSpec.matches str_float str_lower).
Local Abbreviation sorted_by := (Sorter.sorted_by str_float str_lower unordered).

(** What the tree holds after [clear_treeview]: no row, and so no selected
    row. *)
Lemma clear_treeview_table a :
  full_audio_data (Viewer.clear_treeview a) = full_audio_data a
  /\ a_view (Viewer.clear_treeview a) = a_view a
  /\ fields (Viewer.clear_treeview a) = fields a
  /\ a_out (Viewer.clear_treeview a) = a_out a
  /\ get_children (tree (Viewer.clear_treeview a)) = []
  /\ selection (tree (Viewer.clear_treeview a)) = [].
Proof.
  unfold Viewer.clear_treeview.
  destruct (get_children (tree a)) eqn:Hc; [|by app_simp].
  repeat split; [done|]. unfold selection. by rewrite Hc.
Qed.

(** The rows built for a list of records have the paths of the records as
    their ids. *)
Lemma rows_of_ids data items :
  rows_of data = Ok items -> List.map iid items = List.map path data.
Proof.
  revert items. induction data as [|e data IH]; intros items; simpl.
  - by intros [= <-].
  - unfold Viewer.row_of.
    destruct (Viewer.format_score fmt_4f (CE e)); [|done].
    destruct (Viewer.format_score fmt_4f (CU e)); [|done].
    destruct (Viewer.format_score fmt_4f (PC e)); [|done].
    destruct (Viewer.format_score fmt_4f (PQ e)); [|done].
    destruct (rows_of data) as [rs|ex]; [|done].
    intros [= <-]. simpl. by rewrite (IH rs).
Qed.

(** The insertion loop appends a part of its rows: all of them when no id
    is met twice. *)
Lemma insert_all_spec items t :
  let r := Viewer.insert_all items t in
  selected r.1 = selected t
  /\ exists added rest,
       rows r.1 = rows t ++ added
       /\ items = added ++ rest
       /\ match r.2 with
          | None => rest = []
          | Some i => exists r' rest', rest = r' :: rest' /\ iid r' = i
                                       /\ In i (get_children t ++ List.map iid added)
          end.
Proof.
  revert t. induction items as [|r items IH]; intros t; simpl.
  - split; [done|]. exists [], []. by rewrite List.app_nil_r.
  - unfold tree_insert.
    destruct (string_mem (iid r) (get_children t)) eqn:Hmem; simpl.
    + split; [done|]. exists [], (r :: items). rewrite !List.app_nil_r.
      repeat split. exists r, items. repeat split.
      unfold string_mem in Hmem. apply existsb_exists in Hmem as (x & Hx & Heq).
      apply String.eqb_eq in Heq. by subst.
    + destruct (IH (Tree (rows t ++ [r]) (selected t))) as (Hsel & added & rest & Hrows & Hitems & Hres).
      split; [done|]. exists (r :: added), rest.
      split; [rewrite Hrows; simpl; by rewrite <- List.app_assoc|].
      split; [simpl; by f_equal|].
      revert Hres.
      destruct (Viewer.insert_all items _).2 as [i|]; [|done].
      intros (r' & rest' & -> & Hi & Hin).
      exists r', rest'. repeat split; [done|].
      unfold get_children in *. simpl in Hin.
      by rewrite List.map_app, <- List.app_assoc in Hin.
Qed.

Lemma insert_all_nodup items t :
  List.NoDup (get_children t ++ List.map iid items) ->
  Viewer.insert_all items t = (Tree (rows t ++ items) (selected t), None).
Proof.
  revert t. induction items as [|r items IH]; intros t Hnd; simpl.
  - rewrite List.app_nil_r. by destruct t.
  - unfold tree_insert.
    assert (string_mem (iid r) (get_children t) = false) as ->.
    { apply not_true_is_false. intros Hmem.
      unfold string_mem in Hmem. apply existsb_exists in Hmem as (x & Hx & Heq).
      apply String.eqb_eq in Heq. subst x.
      simpl in Hnd. apply NoDup_remove_2 in Hnd. apply Hnd, in_or_app. by left. }
    rewrite IH; simpl.
    + by rewrite <- List.app_assoc.
    + unfold get_children. simpl. rewrite List.map_app, <- List.app_assoc. done.
Qed.

Lemma string_mem_in i l : string_mem i l = true <-> In i l.
Proof.
  unfold string_mem. rewrite existsb_exists. split.
  - intros (x & Hx & Heq). apply String.eqb_eq in Heq. by subst.
  - intros Hi. exists i. by rewrite String.eqb_refl.
Qed.

(** An insertion keeps the ids of the rows different. *)
Lemma insert_all_ids_nodup items t :
  List.NoDup (get_children t) -> List.NoDup (get_children (Viewer.insert_all items t).1).
Proof.
  revert t. induction items as [|r items IH]; intros t Hnd; simpl; [done|].
  unfold tree_insert.
  destruct (string_mem (iid r) (get_children t)) eqn:Hmem; simpl; [done|].
  apply IH. unfold get_children. simpl. rewrite List.map_app. simpl.
  apply NoDup_rev in Hnd. rewrite <- (List.rev_involutive (_ ++ _)).
  apply NoDup_rev. rewrite List.rev_app_distr. simpl. constructor; [|done].
  rewrite <- in_rev. intros Hin. apply string_mem_in in Hin.
  unfold get_children in Hmem. congruence.
Qed.

(** The loop of revision 1.1 adds the ids that are not yet in the table,
    each once. *)
Lemma insert_new_spec items t :
  selected (Viewer.insert_new items t) = selected t
  /\ (List.NoDup (get_children t) ->
      List.NoDup (get_children (Viewer.insert_new items t)))
  /\ (forall i, In i (get_children (Viewer.insert_new items t))
                <-> In i (get_children t) \/ In i (List.map iid items)).
Proof.
  clear O json_loads str_float fmt_4f tcl_traceback str_lower unordered.
  revert t. induction items as [|r items IH]; intros t; simpl.
  - repeat split; [done | tauto | tauto].
  - unfold tree_insert.
    destruct (string_mem (iid r) (get_children t)) eqn:Hmem; simpl.
    + destruct (IH t) as (Hsel & Hnd & Hin). split; [done|]. split; [done|].
      intros i. rewrite Hin. apply string_mem_in in Hmem.
      split; [tauto|]. intros [?|[<-|?]]; tauto.
    + destruct (IH (Tree (rows t ++ [r]) (selected t))) as (Hsel & Hnd & Hin).
      split; [done|]. split.
      * intros Ht. apply Hnd. unfold get_children. simpl. rewrite List.map_app. simpl.
        apply NoDup_rev in Ht. rewrite <- (List.rev_involutive (_ ++ _)).
        apply NoDup_rev. rewrite List.rev_app_distr. simpl. constructor; [|done].
        rewrite <- in_rev. intros Hi. apply string_mem_in in Hi.
        unfold get_children in Hmem. congruence.
      * intros i. rewrite Hin. unfold get_children. simpl.
        rewrite List.map_app, in_app_iff. simpl. tauto.
Qed.

(** [populate_treeview], as one expression of the state it starts from. *)
Lemma populate_treeview_unfold a :
  populate_treeview a
  = let a0 := tick_app (Viewer.clear_treeview a) in
    Viewer.update_counts
      match rows_of (display_audio_data (a_view a)) with
      | Raise ex => Viewer.display_failed (exn_msg ex) (format_exc O ex) a0
      | Ok items_to_insert =>
          match Viewer.insert_all items_to_insert (tree (Viewer.clear_treeview a)) with
          | (t, Some i) =>
              Viewer.display_failed (item_exists i) (tcl_traceback (item_exists i))
                (set_tree a0 t)
          | (t, None) =>
              Viewer.after_insert O
                (time_time O (a_clock (Viewer.clear_treeview a))) (set_tree a0 t)
          end
      end.
Proof.
  unfold Viewer.populate_treeview, Viewer.now_app. cbv beta iota zeta.
  destruct (clear_treeview_table a) as (_ & Hview & _).
  by rewrite view_tick_app, tree_tick_app, Hview.
Qed.

(** The tasks a fill of the table can add: a status text or the dialog of
    its failure. *)
Lemma after_insert_table t0 a :
  let a' := Viewer.after_insert O t0 a in
  full_audio_data a' = full_audio_data a /\ a_view a' = a_view a
  /\ fields a' = fields a /\ tree a' = tree a
  /\ exists added,
       a_out a' = a_out a ++ added
       /\ Forall (fun t => match t with StatusText _ => True | _ => False end) added.
Proof.
  unfold Viewer.after_insert, Viewer.now_app. cbv beta iota zeta.
  destruct (negb _).
  - app_simp. repeat split. eexists. split; [done|]. by repeat constructor.
  - app_simp. repeat split. exists []. by rewrite List.app_nil_r.
Qed.

Lemma display_failed_table m tb a :
  let a' := Viewer.display_failed m tb a in
  full_audio_data a' = full_audio_data a /\ a_view a' = a_view a
  /\ fields a' = fields a /\ tree a' = tree a
  /\ a_out a'
     = a_out a ++ [StatusText "Status: Error populating table.";
                   ShowError "Display Error"
                     ("An error occurred displaying the data:" +:+ nl +:+ m +:+ nl +:+ nl
                      +:+ tb)].
Proof.
  unfold Viewer.display_failed. app_simp. repeat split. by rewrite <- List.app_assoc.
Qed.

Lemma update_counts_table a :
  let a' := Viewer.update_counts a in
  full_audio_data a' = full_audio_data a /\ a_view a' = a_view a
  /\ fields a' = fields a /\ tree a' = tree a /\ a_out a' = a_out a
  /\ visible_count_label a'
     = "Visible: " +:+ Py.str_of_nat (length (get_children (tree a)))
  /\ selected_count_label a'
     = "Selected: " +:+ Py.str_of_nat (length (selection (tree a))).
Proof. unfold Viewer.update_counts. by app_simp. Qed.

(** What every fill of the table keeps, and how it ends: with the rows of
    all the records; at the first record whose path is the id of a row
    already; or, when a cell cannot be formatted, with no row at all. *)
Lemma populate_treeview_cases a :
  let a' := populate_treeview a in
  let data := display_audio_data (a_view a) in
  full_audio_data a' = full_audio_data a
  /\ a_view a' = a_view a
  /\ fields a' = fields a
  /\ selected (tree a') = selected (tree (Viewer.clear_treeview a))
  /\ visible_count_label a'
     = "Visible: " +:+ Py.str_of_nat (length (get_children (tree a')))
  /\ selected_count_label a'
     = "Selected: " +:+ Py.str_of_nat (length (selection (tree a')))
  /\ List.NoDup (get_children (tree a'))
  /\ ((exists items statuses,
         rows_of data = Ok items
         /\ rows (tree a') = items
         /\ a_out a' = a_out a ++ statuses
         /\ Forall (fun t => match t with StatusText _ => True | _ => False end) statuses)
      \/ (exists items shown r rest,
            rows_of data = Ok items
            /\ items = shown ++ r :: rest
            /\ rows (tree a') = shown
            /\ In (iid r) (List.map iid shown)
            /\ a_out a'
               = a_out a ++ [StatusText "Status: Error populating table.";
                             ShowError "Display Error"
                               ("An error occurred displaying the data:" +:+ nl
                                +:+ item_exists (iid r) +:+ nl +:+ nl
                                +:+ tcl_traceback (item_exists (iid r)))])
      \/ (exists ex,
            rows_of data = Raise ex
            /\ rows (tree a') = []
            /\ a_out a'
               = a_out a ++ [StatusText "Status: Error populating table.";
                             ShowError "Display Error"
                               ("An error occurred displaying the data:" +:+ nl
                                +:+ exn_msg ex +:+ nl +:+ nl +:+ format_exc O ex)])).
Proof.
  cbv zeta. rewrite populate_treeview_unfold. cbv zeta.
  destruct (clear_treeview_table a) as (Hfull & Hview & Hfields & Hout & Hchildren & _).
  assert (rows (tree (Viewer.clear_treeview a)) = []) as Hrows0.
  { unfold get_children in Hchildren. by apply List.map_eq_nil in Hchildren. }
  match goal with
  | |- context [Viewer.update_counts ?x] =>
      destruct (update_counts_table x) as (-> & -> & -> & -> & -> & -> & ->)
  end.
  destruct (rows_of (display_audio_data (a_view a))) as [items|ex] eqn:Hrows.
  - pose proof (insert_all_spec items (tree (Viewer.clear_treeview a))) as Hspec.
    pose proof (insert_all_ids_nodup items (tree (Viewer.clear_treeview a))) as Hnd.
    rewrite Hchildren in Hnd. specialize (Hnd (List.NoDup_nil _)).
    destruct (Viewer.insert_all items (tree (Viewer.clear_treeview a))) as [t [i|]];
      simpl in Hspec, Hnd;
      destruct Hspec as (Hsel & added & rest & Hadded & Hitems & Hres).
    + destruct (display_failed_table (item_exists i) (tcl_traceback (item_exists i))
                  (set_tree (tick_app (Viewer.clear_treeview a)) t))
        as (-> & -> & -> & -> & ->).
      app_simp. repeat split; try done.
      right. left. destruct Hres as (r' & rest' & -> & <- & Hin).
      rewrite Hchildren in Hin. rewrite Hrows0 in Hadded. simpl in Hin, Hadded.
      exists items, added, r', rest'. by rewrite Hout, Hadded.
    + destruct (after_insert_table (time_time O (a_clock (Viewer.clear_treeview a)))
                  (set_tree (tick_app (Viewer.clear_treeview a)) t))
        as (-> & -> & -> & -> & statuses & -> & Hst).
      app_simp. repeat split; try done.
      left. subst rest. rewrite List.app_nil_r in Hitems. subst added.
      rewrite Hrows0 in Hadded. simpl in Hadded.
      exists items, statuses. by rewrite Hout.
  - destruct (display_failed_table (exn_msg ex) (format_exc O ex)
                (tick_app (Viewer.clear_treeview a))) as (-> & -> & -> & -> & ->).
    app_simp. rewrite Hchildren. repeat split; try done; [constructor|].
    right. right. exists ex. by rewrite Hout, Hrows0.
Qed.

Lemma selection_none t : selected t = [] -> selection t = [].
Proof.
  unfold selection. intros ->. induction (get_children t) as [|i l IH]; [done|].
  simpl. exact IH.
Qed.

(** Clearing a widget that is in order leaves nothing selected. *)
Lemma clear_treeview_selected a :
  tree_ok (tree a) = true -> selected (tree (Viewer.clear_treeview a)) = [].
Proof.
  unfold tree_ok, Viewer.clear_treeview. intros Hok.
  destruct (get_children (tree a)) eqn:Hc; [|done].
  destruct (selected (tree a)) as [|i l]; [done|]. simpl in Hok. done.
Qed.

Lemma nodup_app_in {A : Type} (l1 l2 : list A) (x : A) :
  In x l1 -> ~ List.NoDup (l1 ++ x :: l2).
Proof.
  intros Hin Hnd. apply NoDup_remove_2 in Hnd. apply Hnd, in_or_app. by left.
Qed.

(** The fill without a failure leaves the rows of the displayed records. *)
Lemma populate_treeview_shows_the_rows (a : review_app) (items : list row) :
  rows_of (display_audio_data (a_view a)) = Ok items ->
  List.NoDup (List.map path (display_audio_data (a_view a))) ->
  rows (tree (populate_treeview a)) = items
  /\ get_children (tree (populate_treeview a))
     = List.map path (display_audio_data (a_view a)).
Proof.
  intros Hrows Hnd.
  destruct (populate_treeview_cases a) as (_ & _ & _ & _ & _ & _ & _ & Hcases).
  cbv zeta in Hcases.
  pose proof (rows_of_ids _ _ Hrows) as Hids.
  destruct Hcases as [(items' & statuses & Hrows' & Htree & _)
                     |[(items' & shown & r & rest & Hrows' & Hitems & _ & Hin & _)
                      |(ex & Hrows' & _)]].
  - rewrite Hrows in Hrows'. injection Hrows' as <-.
    split; [done|]. unfold get_children. by rewrite Htree.
  - exfalso. rewrite Hrows in Hrows'. injection Hrows' as <-.
    rewrite <- Hids, Hitems, List.map_app in Hnd. simpl in Hnd.
    by apply (nodup_app_in _ _ _ Hin) in Hnd.
  - congruence.
Qed.

(** X14. Filling the table.  When the cells of all displayed records can
    be formatted and no two displayed records have the same path, the fill
    leaves one row for each displayed record, in the order of the display
    list, with the path of the record as the id of its row; no row is
    selected, the two labels under the table show the number of rows and
    0, and no dialog is shown. *)
Theorem populate_treeview_shows_the_records (a : review_app) (items : list row) :
  rows_of (display_audio_data (a_view a)) = Ok items ->
  List.NoDup (List.map path (display_audio_data (a_view a))) ->
  tree_ok (tree a) = true ->
  let a' := populate_treeview a in
  rows (tree a') = items
  /\ get_children (tree a') = List.map path (display_audio_data (a_view a))
  /\ selection (tree a') = []
  /\ visible_count_label a'
     = "Visible: " +:+ Py.str_of_nat (length (display_audio_data (a_view a)))
  /\ selected_count_label a' = "Selected: " +:+ Py.str_of_nat 0
  /\ exists statuses,
       a_out a' = a_out a ++ statuses
       /\ Forall (fun t => match t with StatusText _ => True | _ => False end) statuses.
Proof.
  intros Hrows Hnd Hok a'.
  destruct (populate_treeview_shows_the_rows a items Hrows Hnd) as [Htree Hc].
  destruct (populate_treeview_cases a)
    as (_ & _ & _ & Hsel & Hvis & Hcount & _ & Hcases).
  fold a' in Htree, Hc, Hsel, Hvis, Hcount, Hcases. cbv zeta in Hcases.
  rewrite (clear_treeview_selected a Hok) in Hsel.
  rewrite Hcount, Hvis, Hc, (selection_none _ Hsel), List.length_map.
  repeat split; try done.
  destruct Hcases as [(items' & statuses & _ & _ & Hout & Hst)
                     |[(items' & shown & r & rest & Hrows' & Hitems & Hshown & Hin & _)
                      |(ex & Hrows' & _)]].
  - by exists statuses.
  - exfalso. rewrite Hrows in Hrows'. injection Hrows' as <-.
    rewrite Hshown in Htree. rewrite Htree in Hitems at 1.
    apply (f_equal (@length row)) in Hitems. rewrite List.length_app in Hitems.
    simpl in Hitems. lia.
  - congruence.
Qed.

(** [populate_treeview] of revision 1.1, as one expression of the state it
    starts from. *)
Lemma populate_treeview_1_1_unfold a :
  Viewer.populate_treeview_1_1 O fmt_4f a
  = let a0 := tick_app (Viewer.clear_treeview a) in
    Viewer.update_counts
      match rows_of (display_audio_data (a_view a)) with
      | Raise ex => Viewer.display_failed (exn_msg ex) (format_exc O ex) a0
      | Ok items_to_insert =>
          Viewer.after_insert O (time_time O (a_clock (Viewer.clear_treeview a)))
            (set_tree a0
               (Viewer.insert_new items_to_insert (tree (Viewer.clear_treeview a))))
      end.
Proof.
  unfold Viewer.populate_treeview_1_1, Viewer.now_app. cbv beta iota zeta.
  destruct (clear_treeview_table a) as (_ & Hview & _).
  by rewrite view_tick_app, tree_tick_app, Hview.
Qed.

(** X15. Two records with the same path.  When the cells can be formatted
    but two displayed records have the same path, the fill of [AudioREV.py]
    stops at the first record whose path is already the id of a row: the
    table holds the rows of the records before it, and a "Display Error"
    dialog is shown.  The fill of revision 1.1 skips such a record instead:
    the table holds one row for each different path, and no dialog is
    shown. *)
Theorem repeated_path_in_the_table (a : review_app) (items : list row) :
  rows_of (display_audio_data (a_view a)) = Ok items ->
  ~ List.NoDup (List.map path (display_audio_data (a_view a))) ->
  let paths := List.map path (display_audio_data (a_view a)) in
  let a' := populate_treeview a in
  let a1 := Viewer.populate_treeview_1_1 O fmt_4f a in
  (exists shown i rest,
     paths = shown ++ i :: rest
     /\ In i shown
     /\ List.NoDup shown
     /\ get_children (tree a') = shown
     /\ exists t, In t (a_out a') /\ is_display_error t = true)
  /\ List.NoDup (get_children (tree a1))
  /\ (forall p, In p (get_children (tree a1)) <-> In p paths)
  /\ exists statuses,
       a_out a1 = a_out a ++ statuses
       /\ Forall (fun t => match t with StatusText _ => True | _ => False end) statuses.
Proof.
  intros Hrows Hdup paths a' a1. subst paths.
  pose proof (rows_of_ids _ _ Hrows) as Hids.
  split.
  - destruct (populate_treeview_cases a) as (_ & _ & _ & _ & _ & _ & Hnd & Hcases).
    fold a' in Hnd, Hcases. cbv zeta in Hcases.
    destruct Hcases as [(items' & statuses & Hrows' & Htree & _)
                       |[(items' & shown & r & rest & Hrows' & Hitems & Htree & Hin & Hout)
                        |(ex & Hrows' & _)]].
    + exfalso. rewrite Hrows in Hrows'. injection Hrows' as <-.
      apply Hdup. rewrite <- Hids. unfold get_children in Hnd. by rewrite Htree in Hnd.
    + rewrite Hrows in Hrows'. injection Hrows' as <-.
      exists (List.map iid shown), (iid r), (List.map iid rest).
      unfold get_children in *. rewrite Htree in Hnd |- *.
      split; [by rewrite <- Hids, Hitems, List.map_app|].
      split; [done|]. split; [done|]. split; [done|].
      eexists. split; [rewrite Hout; apply in_or_app; right; right; by left | done].
    + congruence.
  - unfold a1. rewrite populate_treeview_1_1_unfold. cbv zeta. rewrite Hrows.
    destruct (clear_treeview_table a) as (_ & _ & _ & Hout & Hchildren & _).
    match goal with
    | |- context [Viewer.update_counts ?x] =>
        destruct (update_counts_table x) as (_ & _ & _ & -> & -> & _)
    end.
    match goal with
    | |- context [Viewer.after_insert O ?t0 ?x] =>
        destruct (after_insert_table t0 x) as (_ & _ & _ & -> & statuses & -> & Hst)
    end.
    app_simp.
    destruct (insert_new_spec items (tree (Viewer.clear_treeview a)))
      as (_ & Hnd & Hin).
    rewrite Hchildren in Hnd, Hin.
    split; [apply Hnd; constructor|]. split.
    + intros p. rewrite Hin, Hids. simpl. split; [by intros [[]|H] | by right].
    + exists statuses. by rewrite Hout.
Qed.

(** ** The filters *)

(** The loop keeps the records that are not skipped, in their order. *)
Lemma filter_loop_spec f (keep : entry -> bool) data filtered_data :
  (forall e, In e data -> skipped f e = Ok (negb (keep e))) ->
  filter_loop f data filtered_data = Ok (filtered_data ++ List.filter keep data).
Proof.
  revert filtered_data. induction data as [|e data IH]; intros acc Hskip; simpl.
  - by rewrite List.app_nil_r.
  - rewrite (Hskip e) by (by left).
    destruct (keep e); simpl.
    + rewrite IH by (intros x Hx; apply Hskip; by right). by rewrite <- List.app_assoc.
    + apply IH. intros x Hx. apply Hskip. by right.
Qed.

(** The two tests of a column agree with the bounds, on a value that can
    be compared. *)
Lemma misses_within lo hi v rest :
  comparable v = true ->
  Viewer.orelse (Viewer.misses lo py_lt v) (Viewer.orelse (Viewer.misses hi py_gt v) rest)
  = if within lo hi v then rest else Ok true.
Proof.
  unfold comparable, within, Viewer.misses, py_lt, py_gt.
  destruct v as [val|]; [|by destruct lo, hi].
  destruct (py_number val) as [x|] eqn:Hx.
  - intros _.
    assert (match val with JNull => False | _ => True end) as Hval
      by (by destruct val).
    destruct lo as [lo|], hi as [hi|]; destruct val; try done; cbn [Viewer.orelse];
      repeat match goal with
        | |- context [pyfloat_ltb ?p ?q] => destruct (pyfloat_ltb p q)
        end; cbn [negb andb Viewer.orelse]; try done; by destruct rest as [[|]|].
  - destruct val; try done. intros _. by destruct lo, hi.
Qed.

Lemma skipped_matches f e :
  forallb (fun c => comparable (item_get e c)) score_columns = true ->
  skipped f e = Ok (negb (matches f e)).
Proof.
  unfold Viewer.skipped, FilterSpec.matches, score_columns. intros Hc. simpl in Hc.
  repeat (apply andb_true_iff in Hc as [? Hc]).
  cbn [fold_right forallb].
  rewrite !misses_within by done.
  destruct (Py.nonempty _); simpl;
    [destruct (py_in _ _); simpl; [|done]|];
    repeat match goal with
      | |- context [within ?lo ?hi ?v] => destruct (within lo hi v); simpl
      end; done.
Qed.

(** [apply_filters], as one expression of the state it starts from. *)
Lemma apply_filters_unfold a :
  apply_filters a
  = let a1 := status "Applying filters..." a in
    match Viewer.inverted_range str_float (fields a) with
    | Some c =>
        emit (ShowWarning "Filter Warning"
                (col_key c +:+ " min value is greater than max value.")) a1
    | None =>
        match filter_loop (fields a) (full_audio_data a) [] with
        | Raise ex =>
            emit (ShowError "Filter Error"
                    ("An unexpected error occurred during filtering:" +:+ nl
                     +:+ exn_msg ex +:+ nl +:+ nl +:+ format_exc O ex))
              (status "Error applying filters." (tick_app a1))
        | Ok filtered_data =>
            let a2 :=
              populate_treeview
                (set_view (tick_app (set_display (tick_app a1) filtered_data))
                   (View filtered_data None false)) in
            status ("Filters applied. Displaying "
                    +:+ Py.str_of_nat (length (display_audio_data (a_view a2)))
                    +:+ " out of " +:+ Py.str_of_nat (length (full_audio_data a2))
                    +:+ " files.") a2
        end
    end.
Proof.
  unfold Viewer.apply_filters, Viewer.now_app. cbv beta iota zeta.
  rewrite fields_status. destruct (Viewer.inverted_range str_float (fields a)); [done|].
  by rewrite fields_tick_app, full_tick_app, fields_status, full_status.
Qed.

(** X16. What "Apply Filters" shows.  When one of PQ, CE, CU and PC has
    both bounds given with the minimum greater than the maximum, a warning
    names the first such column and the records, the view and the table
    stay as they were.  Otherwise, with scores that are numbers or missing,
    the display list becomes the records that pass the filters (the
    lower-cased file name contains the lower-cased and stripped filter
    text, and every score with a bound is there, not less than the lower
    bound and not greater than the upper one, so that a score or a bound
    that is NaN excludes nothing), in the order of the loaded list; the sort
    column and direction are reset; and the last status text tells how many
    of the records are displayed. *)
Theorem apply_filters_shows_the_matches (a : review_app) :
  let a' := apply_filters a in
  let shown := List.filter (matches (fields a)) (full_audio_data a) in
  match Viewer.inverted_range str_float (fields a) with
  | Some c =>
      full_audio_data a' = full_audio_data a
      /\ a_view a' = a_view a
      /\ tree a' = tree a
      /\ a_out a'
         = a_out a ++ [StatusText "Status: Applying filters...";
                       ShowWarning "Filter Warning"
                         (col_key c +:+ " min value is greater than max value.")]
  | None =>
      numeric_scores (full_audio_data a) = true ->
      full_audio_data a' = full_audio_data a
      /\ a_view a' = View shown None false
      /\ last_out a'
         = Some (StatusText
                   ("Status: Filters applied. Displaying "
                    +:+ Py.str_of_nat (length shown) +:+ " out of "
                    +:+ Py.str_of_nat (length (full_audio_data a)) +:+ " files."))
  end.
Proof.
  cbv zeta. rewrite apply_filters_unfold. cbv zeta.
  destruct (Viewer.inverted_range str_float (fields a)) as [c|].
  - app_simp. repeat split. by rewrite <- List.app_assoc.
  - intros Hnum.
    rewrite (filter_loop_spec (fields a) (matches (fields a))).
    2:{ intros e He. apply skipped_matches.
        unfold numeric_scores in Hnum. rewrite forallb_forall in Hnum. by apply Hnum. }
    cbn [List.app].
    match goal with
    | |- context [populate_treeview ?x] =>
        destruct (populate_treeview_cases x) as (Hfull & Hview & _);
        generalize dependent (populate_treeview x)
    end.
    intros a2. app_simp. intros -> ->. app_simp.
    repeat split. unfold last_out. app_simp.
    rewrite List.map_app. simpl. by rewrite List.last_last.
Qed.

Lemma no_filters_skip_nothing e : skipped no_filters e = Ok false.
Proof. reflexivity. Qed.

(** X17. "Clear Filters" shows every record.  Whatever the records hold,
    the filter fields are emptied, the display list becomes the whole
    loaded list in its order, and the sort column and direction are
    reset. *)
Theorem clear_filters_shows_everything (a : review_app) :
  let a' := clear_filters a in
  fields a' = no_filters
  /\ full_audio_data a' = full_audio_data a
  /\ a_view a' = View (full_audio_data a) None false.
Proof.
  cbv zeta. unfold Viewer.clear_filters. rewrite apply_filters_unfold. cbv zeta.
  rewrite fields_set_fields, full_set_fields.
  change (Viewer.inverted_range str_float no_filters) with (@None column).
  rewrite (filter_loop_spec no_filters (fun _ => true))
    by (intros e _; apply no_filters_skip_nothing).
  cbn [List.app].
  assert (List.filter (fun _ : entry => true) (full_audio_data a) = full_audio_data a)
    as -> by (induction (full_audio_data a) as [|e l IH]; simpl; congruence).
  match goal with
  | |- context [populate_treeview ?x] =>
      destruct (populate_treeview_cases x) as (Hfull & Hview & Hfields & _);
      generalize dependent (populate_treeview x)
  end.
  intros a2. app_simp. intros -> -> ->. by app_simp.
Qed.

(** ** Sorting the table *)

(** [sort_column], as one expression of the state it starts from. *)
Lemma sort_column_unfold a c :
  sort_column a c
  = match display_audio_data (a_view a) with
    | [] => status "Nothing to sort." a
    | _ =>
        let reverse := Sorter.next_reverse (a_view a) c in
        let a1 := tick_app (status ("Sorting by " +:+ col_key c +:+ "...") a) in
        match sorted_by c reverse (display_audio_data (a_view a)) with
        | Raise ex => Viewer.sort_failed O c ex a1
        | Ok sorted =>
            let a2 :=
              populate_treeview
                (tick_app (set_view a1 (View sorted (Some c) reverse))) in
            status ("Sorted by " +:+ col_key c +:+ " "
                    +:+ (if reverse then "descending" else "ascending") +:+ ".") a2
        end
    end.
Proof.
  unfold Viewer.sort_column, Viewer.now_app.
  destruct (display_audio_data (a_view a)) eqn:Hd; [done|].
  cbv beta iota zeta. rewrite view_tick_app, view_status, Hd.
  by destruct (sorted_by c _ _).
Qed.

(** What the clause [except Exception] of [sort_column] leaves. *)
Lemma sort_failed_table c ex a :
  let a' := Viewer.sort_failed O c ex a in
  full_audio_data a' = full_audio_data a /\ a_view a' = a_view a
  /\ fields a' = fields a /\ tree a' = tree a
  /\ visible_count_label a' = visible_count_label a
  /\ selected_count_label a' = selected_count_label a
  /\ a_out a'
     = a_out a ++ [StatusText "Status: Error during sorting.";
                   ShowError "Sort Error"
                     ("Could not sort column '" +:+ col_key c +:+ "': " +:+ exn_msg ex
                      +:+ nl +:+ nl +:+ format_exc O ex)].
Proof.
  unfold Viewer.sort_failed. app_simp. repeat split. by rewrite <- List.app_assoc.
Qed.

(** The table-level [sort_column] changes the view as the sort of the view
    alone does. *)
Lemma sort_column_view a c :
  a_view (sort_column a c)
  = (Sorter.sort_column str_float str_lower unordered (a_view a) c).1
  /\ full_audio_data (sort_column a c) = full_audio_data a.
Proof.
  rewrite sort_column_unfold. unfold Sorter.sort_column.
  destruct (display_audio_data (a_view a)) eqn:Hd.
  - app_simp. split; [by destruct (a_view a)|done].
  - cbv zeta. destruct (sorted_by c _ _) as [sorted|ex].
    + match goal with
      | |- context [populate_treeview ?x] =>
          destruct (populate_treeview_cases x) as (Hfull & Hview & _);
          generalize dependent (populate_treeview x)
      end.
      intros a2. app_simp. intros -> ->. by app_simp.
    + destruct (sort_failed_table c ex
                  (tick_app (status ("Sorting by " +:+ col_key c +:+ "...") a)))
        as (-> & -> & _). by app_simp.
Qed.

(** X18. A click on a heading sorts the view and shows it.  The click
    leaves the loaded records alone and changes the display list, the sort
    column and the direction as the sort of the view does.  On an empty
    display list it only says that there is nothing to sort.  When the keys
    of the column can all be computed, the display list is rearranged, the
    column and the direction are recorded, the last status text names them,
    and (when the cells can be formatted and no two displayed records have
    the same path) the rows of the table are the displayed records in their
    new order.  When a key cannot be computed (a value is an integer too
    large for a float), the view and the table stay as they were and a
    "Sort Error" dialog is shown. *)
Theorem heading_click_shows_the_sorted_records (a : review_app) (c : column) :
  let a' := sort_column a c in
  let l := display_audio_data (a_view a) in
  let reverse := Sorter.next_reverse (a_view a) c in
  full_audio_data a' = full_audio_data a
  /\ a_view a' = (Sorter.sort_column str_float str_lower unordered (a_view a) c).1
  /\ (l = [] -> a' = status "Nothing to sort." a)
  /\ (l <> [] -> SortSpec.convertible str_float c l = true ->
      exists sorted,
        Permutation l sorted
        /\ a_view a' = View sorted (Some c) reverse
        /\ last_out a'
           = Some (StatusText
                     ("Status: Sorted by " +:+ col_key c +:+ " "
                      +:+ (if reverse then "descending" else "ascending") +:+ "."))
        /\ (forall items,
              rows_of sorted = Ok items ->
              List.NoDup (List.map path l) ->
              rows (tree a') = items
              /\ get_children (tree a') = List.map path sorted))
  /\ (l <> [] -> SortSpec.convertible str_float c l = false ->
      a_view a' = a_view a
      /\ tree a' = tree a
      /\ a_out a'
         = a_out a
           ++ [StatusText ("Status: Sorting by " +:+ col_key c +:+ "...");
               StatusText "Status: Error during sorting.";
               ShowError "Sort Error"
                 ("Could not sort column '" +:+ col_key c
                  +:+ "': int too large to convert to float" +:+ nl +:+ nl
                  +:+ format_exc O Sorter.int_too_large)]).
Proof.
  intros a' l reverse. destruct (sort_column_view a c) as [Hview Hfull].
  split; [done|]. split; [done|]. clear Hview Hfull.
  unfold a'. rewrite sort_column_unfold. fold l. split; [by intros ->|].
  pose proof (SortFacts.sorted_by_convertible str_float str_lower unordered
                c reverse l) as Hs.
  split.
  - intros Hne Hc. rewrite Hc in Hs. destruct Hs as (sorted & Hs & Hp).
    destruct l as [|e l'] eqn:Hl; [done|]. rewrite <- Hl in *.
    cbv zeta. fold reverse. rewrite Hs.
    exists sorted. split; [done|].
    match goal with
    | |- context [populate_treeview ?x] =>
        destruct (populate_treeview_cases x) as (_ & Hview & _);
        pose proof (populate_treeview_shows_the_rows x) as Hrows;
        generalize dependent (populate_treeview x)
    end.
    app_simp. intros a2 Hview Hrows. app_simp. cbn [display_audio_data] in Hrows.
    split; [done|]. split.
    + unfold last_out. app_simp. rewrite List.map_app. simpl.
      by rewrite List.last_last.
    + intros items Hitems Hnd. apply Hrows; [done|].
      eapply Permutation_NoDup; [|exact Hnd]. by apply Permutation_map.
  - intros Hne Hc. rewrite Hc in Hs.
    destruct l as [|e l'] eqn:Hl; [done|]. rewrite <- Hl in *.
    cbv zeta. fold reverse. rewrite Hs.
    destruct (sort_failed_table c Sorter.int_too_large
                (tick_app (status ("Sorting by " +:+ col_key c +:+ "...") a)))
      as (_ & -> & _ & -> & _ & _ & ->).
    app_simp. repeat split. by rewrite <- List.app_assoc.
Qed.

(** ** The state of the table between two callbacks *)

Lemma table_ok_ext a a' :
  full_audio_data a' = full_audio_data a -> a_view a' = a_view a -> tree a' = tree a ->
  table_ok a -> table_ok a'.
Proof. unfold table_ok. by intros -> -> ->. Qed.

(** A new selection of rows. *)
Lemma table_ok_select a a' items :
  full_audio_data a' = full_audio_data a -> a_view a' = a_view a ->
  tree a' = Tree (rows (tree a)) items ->
  forallb (fun i => string_mem i (get_children (tree a))) items = true ->
  table_ok a -> table_ok a'.
Proof.
  unfold table_ok, tree_ok. intros -> -> -> Hitems (Hincl & Hpre & Hnd & _).
  by unfold get_children in *.
Qed.

Lemma filter_loop_incl f data acc l :
  filter_loop f data acc = Ok l -> incl l (acc ++ data).
Proof.
  revert acc. induction data as [|e data IH]; intros acc; simpl.
  - intros [= <-]. rewrite List.app_nil_r. apply incl_refl.
  - destruct (skipped f e) as [[|]|ex]; [| |done].
    + intros H x Hx. apply (IH _ H), in_app_or in Hx as [Hx|Hx];
        apply in_or_app; [by left | right; by right].
    + intros H. apply IH in H. by rewrite <- List.app_assoc in H.
Qed.

(** Every fill of the table leaves it in order. *)
Lemma populate_treeview_ok a :
  incl (display_audio_data (a_view a)) (full_audio_data a) ->
  tree_ok (tree a) = true ->
  table_ok (populate_treeview a).
Proof.
  intros Hincl Hok.
  destruct (populate_treeview_cases a)
    as (Hfull & Hview & _ & Hsel & _ & _ & Hnd & Hcases).
  cbv zeta in Hcases. rewrite (clear_treeview_selected a Hok) in Hsel.
  unfold table_ok. rewrite Hfull, Hview. split; [done|]. split; [|split; [done|]].
  - destruct Hcases as [(items & st & Hrows & Htree & _)
                       |[(items & shown & r & rest & Hrows & Hitems & Htree & _)
                        |(ex & _ & Htree & _)]].
    + exists []. rewrite List.app_nil_r. unfold get_children. rewrite Htree.
      symmetry. by apply rows_of_ids.
    + exists (List.map iid (r :: rest)). unfold get_children.
      rewrite Htree, <- List.map_app, <- Hitems. symmetry. by apply rows_of_ids.
    + exists (List.map path (display_audio_data (a_view a))). unfold get_children.
      by rewrite Htree.
  - unfold tree_ok. by rewrite Hsel.
Qed.

Lemma clear_treeview_ok a :
  display_audio_data (a_view a) = [] -> tree_ok (tree a) = true ->
  table_ok (Viewer.clear_treeview a).
Proof.
  intros Hd Hok.
  destruct (clear_treeview_table a) as (_ & Hview & _ & _ & Hc & _).
  pose proof (clear_treeview_selected a Hok) as Hsel.
  unfold table_ok, tree_ok. rewrite Hview, Hd, Hc, Hsel.
  split; [by intros x []|]. split; [by exists []|]. split; [constructor|done].
Qed.

Lemma apply_filters_ok a : table_ok a -> table_ok (apply_filters a).
Proof.
  intros Hok. rewrite apply_filters_unfold. cbv zeta.
  destruct (Viewer.inverted_range str_float (fields a)).
  { eapply table_ok_ext; [..|exact Hok]; by app_simp. }
  destruct (filter_loop (fields a) (full_audio_data a) []) as [filtered|ex] eqn:Hf.
  2:{ eapply table_ok_ext; [..|exact Hok]; by app_simp. }
  match goal with
  | |- context [populate_treeview ?x] =>
      pose proof (populate_treeview_ok x) as Hp;
      generalize dependent (populate_treeview x)
  end.
  app_simp. intros a2 Hp. cbn [display_audio_data] in Hp.
  eapply table_ok_ext; [..|apply Hp]; try by app_simp.
  - by apply filter_loop_incl in Hf.
  - by destruct Hok as (_ & _ & _ & H).
Qed.

Lemma sort_column_ok a c : table_ok a -> table_ok (sort_column a c).
Proof.
  intros Hok. rewrite sort_column_unfold.
  pose proof Hok as (Hincl & _ & _ & Htree).
  destruct (display_audio_data (a_view a)) as [|e l] eqn:Hd.
  { eapply table_ok_ext; [..|exact Hok]; by app_simp. }
  cbv zeta.
  pose proof (SortFacts.sorted_by_convertible str_float str_lower unordered c
                (Sorter.next_reverse (a_view a) c) (e :: l)) as Hs.
  destruct (sorted_by c _ (e :: l)) as [sorted|ex].
  - assert (Permutation (e :: l) sorted) as Hperm.
    { destruct (SortSpec.convertible str_float c (e :: l)); [|done].
      by destruct Hs as (l' & [= <-] & Hp). }
    match goal with
    | |- context [populate_treeview ?x] =>
        pose proof (populate_treeview_ok x) as Hp;
        generalize dependent (populate_treeview x)
    end.
    app_simp. intros a2 Hp. cbn [display_audio_data] in Hp.
    eapply table_ok_ext; [..|apply Hp]; try by app_simp.
    intros x Hx. apply Hincl.
    eapply Permutation_in; [apply Permutation_sym, Hperm | exact Hx].
  - destruct (sort_failed_table c ex
                (tick_app (status ("Sorting by " +:+ col_key c +:+ "...") a)))
      as (Hf & Hv & _ & Ht & _).
    eapply table_ok_ext; [..|exact Hok]; [rewrite Hf|rewrite Hv|rewrite Ht]; by app_simp.
Qed.

Lemma select_all_visible_ok a : table_ok a -> table_ok (Viewer.select_all_visible a).
Proof.
  intros Hok. unfold Viewer.select_all_visible, Viewer.update_counts. cbv zeta.
  app_simp. destruct (get_children (tree a)) as [|i l] eqn:Hc.
  { eapply table_ok_ext; [..|exact Hok]; by app_simp. }
  eapply (table_ok_select a _ (i :: l)); [by app_simp..| |exact Hok].
  rewrite Hc. apply forallb_forall. intros x Hx. by apply string_mem_in.
Qed.

Lemma deselect_all_ok a : table_ok a -> table_ok (Viewer.deselect_all a).
Proof.
  intros Hok. unfold Viewer.deselect_all, Viewer.update_counts.
  destruct (selection (tree a)); [done|].
  eapply (table_ok_select a _ []); [by app_simp..|done|exact Hok].
Qed.

Lemma user_selects_ok a items : table_ok a -> table_ok (Viewer.user_selects a items).
Proof.
  intros Hok. unfold Viewer.user_selects, Viewer.update_counts.
  destruct (forallb _ items) eqn:Hitems; [|done].
  eapply (table_ok_select a _ items); [by app_simp..|done|exact Hok].
Qed.

Lemma browse_directory_ok a directory :
  table_ok a -> table_ok (Viewer.browse_directory a directory).
Proof.
  intros Hok. unfold Viewer.browse_directory, Viewer.update_counts.
  destruct (Py.nonempty directory); [|done]. cbv zeta.
  eapply table_ok_ext; [by app_simp..|].
  apply clear_treeview_ok; app_simp; [done|]. by destruct Hok as (_ & _ & _ & H).
Qed.

(** ** Loading *)

Lemma without_no_data_out a a' : a_out a' = a_out a -> without_no_data a a'.
Proof. intros H. exists []. by rewrite List.app_nil_r. Qed.

Lemma without_no_data_trans a b c :
  without_no_data a b -> without_no_data b c -> without_no_data a c.
Proof.
  intros (l1 & H1 & Hq1) (l2 & H2 & Hq2). exists (l1 ++ l2).
  rewrite H2, H1, List.app_assoc, forallb_app, Hq1, Hq2. done.
Qed.

Lemma without_no_data_emit t a a' :
  is_no_data t = false -> without_no_data a a' -> without_no_data a (emit t a').
Proof.
  intros Ht Ha. eapply without_no_data_trans; [exact Ha|].
  exists [t]. rewrite out_emit. simpl. by rewrite Ht.
Qed.

Lemma without_no_data_status x a a' :
  without_no_data a a' -> without_no_data a (status x a').
Proof. apply without_no_data_emit. done. Qed.

Lemma populate_treeview_out a : without_no_data a (populate_treeview a).
Proof.
  destruct (populate_treeview_cases a) as (_ & _ & _ & _ & _ & _ & _ & Hcases).
  cbv zeta in Hcases.
  destruct Hcases as [(items & st & _ & _ & Hout & Hst)
                     |[(items & shown & r & rest & _ & _ & _ & _ & Hout)
                      |(ex & _ & _ & Hout)]].
  - exists st. split; [done|]. apply forallb_forall. intros t Ht.
    rewrite List.Forall_forall in Hst. apply Hst in Ht. by destruct t.
  - eexists. split; [exact Hout|done].
  - eexists. split; [exact Hout|done].
Qed.

Lemma apply_filters_out a :
  without_no_data a (apply_filters a)
  /\ full_audio_data (apply_filters a) = full_audio_data a.
Proof.
  rewrite apply_filters_unfold. cbv zeta.
  destruct (Viewer.inverted_range str_float (fields a)).
  { split; [|by app_simp].
    apply without_no_data_emit; [done|]. by apply without_no_data_status, without_no_data_out. }
  destruct (filter_loop (fields a) (full_audio_data a) []) as [filtered|ex].
  2:{ split; [|by app_simp].
      apply without_no_data_emit; [done|]. apply without_no_data_status.
      eapply without_no_data_trans; [|apply without_no_data_out; apply out_tick_app].
      by apply without_no_data_status, without_no_data_out. }
  match goal with
  | |- context [populate_treeview ?x] =>
      pose proof (populate_treeview_out x) as Hp;
      destruct (populate_treeview_cases x) as (Hfull & _);
      generalize dependent (populate_treeview x)
  end.
  app_simp. intros a2 Hp Hfull. split; [|by app_simp].
  apply without_no_data_status.
  eapply without_no_data_trans; [|exact Hp].
  eapply without_no_data_trans;
    [by apply (without_no_data_status "Applying filters..." a a), without_no_data_out|].
  apply without_no_data_out. by app_simp.
Qed.

(** ** The two labels under the table *)

Lemma counts_ok_emit t a : counts_ok a -> counts_ok (emit t a).
Proof. intros H. exact H. Qed.

Lemma counts_ok_status m a : counts_ok a -> counts_ok (status m a).
Proof. intros H. exact H. Qed.

Lemma counts_ok_tick a : counts_ok a -> counts_ok (tick_app a).
Proof. intros H. exact H. Qed.

Lemma counts_ok_update a : counts_ok (Viewer.update_counts a).
Proof.
  destruct (update_counts_table a) as (_ & _ & _ & Htree & _ & Hvis & Hsel).
  unfold counts_ok. by rewrite Htree, Hvis, Hsel.
Qed.

Lemma populate_treeview_counts a : counts_ok (populate_treeview a).
Proof.
  destruct (populate_treeview_cases a) as (_ & _ & _ & _ & Hvis & Hsel & _). by split.
Qed.

Lemma apply_filters_counts a : counts_ok a -> counts_ok (apply_filters a).
Proof.
  intros Hok. rewrite apply_filters_unfold. cbv zeta.
  destruct (Viewer.inverted_range str_float (fields a)); [exact Hok|].
  destruct (filter_loop (fields a) (full_audio_data a) []) as [filtered|ex]; [|exact Hok].
  apply counts_ok_status, populate_treeview_counts.
Qed.

Lemma sort_column_counts a c : counts_ok a -> counts_ok (sort_column a c).
Proof.
  intros Hok. rewrite sort_column_unfold.
  destruct (display_audio_data (a_view a)); [exact Hok|].
  cbv zeta. destruct (sorted_by c _ _) as [sorted|ex].
  - apply counts_ok_status, populate_treeview_counts.
  - unfold Viewer.sort_failed. exact Hok.
Qed.

(** What a load does to the table, in every case. *)
Lemma load_and_display_data_cases fs a :
  let a' := load_and_display_data fs a in
  without_no_data a a'
  /\ (table_ok a -> table_ok a')
  /\ (counts_ok a -> counts_ok a')
  /\ (forall data msg n,
        Py.nonempty (selected_directory a) = true ->
        Reader.load_audio_data json_loads fs (selected_directory a) = Ok (data, msg, n) ->
        full_audio_data a' = data
        /\ (data = [] ->
            exists m, msg = Some m /\ In (ShowError "Loading Error" m) (a_out a'))).
Proof.
  cbv zeta. unfold Viewer.load_and_display_data, Viewer.now_app.
  cbv beta iota zeta.
  destruct (Py.nonempty (selected_directory a)) eqn:Hne; cbn [negb].
  2:{ split; [by apply without_no_data_emit, without_no_data_out|].
      split; [|split; [by apply counts_ok_emit|done]].
      intros Hok. eapply table_ok_ext; [..|exact Hok]; by app_simp. }
  set (a0 := Viewer.update_counts _).
  assert (without_no_data a a0 /\ full_audio_data a0 = []
          /\ display_audio_data (a_view a0) = []
          /\ (table_ok a -> table_ok a0) /\ counts_ok a0)
    as (Hout0 & Hfull0 & Hdisp0 & Hok0 & Hcounts0).
  { split; [|split; [|split; [|split; [|apply counts_ok_update]]]];
      unfold a0, Viewer.update_counts;
      destruct (clear_treeview_table
                  (set_display (set_full (status "Loading data..." a) []) []))
        as (Hf & Hv & _ & Ho & _).
    - eapply without_no_data_trans;
        [by apply (without_no_data_status "Loading data..." a a), without_no_data_out|].
      apply without_no_data_out. app_simp. rewrite Ho. by app_simp.
    - app_simp. rewrite Hf. by app_simp.
    - app_simp. rewrite Hv. by app_simp.
    - intros Hok.
      match goal with
      | |- table_ok (set_labels ?x _ _) => apply (table_ok_ext x); [by app_simp..|]
      end.
      apply clear_treeview_ok; app_simp; [done|]. by destruct Hok as (_ & _ & _ & H). }
  clearbody a0.
  destruct (Reader.load_audio_data json_loads fs (selected_directory a))
    as [[[data msg] n]|ex] eqn:Hload.
  2:{ split.
      { apply without_no_data_emit; [done|]. apply without_no_data_status.
        eapply without_no_data_trans; [exact Hout0|].
        apply without_no_data_out. by app_simp. }
      split; [|split; [|done]].
      - intros Hok. eapply table_ok_ext; [..|apply Hok0, Hok]; by app_simp.
      - intros _. by apply counts_ok_emit, counts_ok_status, counts_ok_tick, counts_ok_tick. }
  pose proof (LoaderFacts.load_audio_data_message json_loads _ _ _ _ _ Hload) as Hmsg.
  set (a2 := if (100000 <? _)%Z then _ else _).
  assert (without_no_data a a2 /\ full_audio_data a2 = []
          /\ a_view a2 = a_view a0 /\ tree a2 = tree a0 /\ counts_ok a2)
    as (Hout2 & Hfull2 & Hview2 & Htree2 & Hcounts2).
  { unfold a2. destruct (100000 <? _)%Z.
    - split; [|split; [|split; [|split]]];
        [|by app_simp..|by apply counts_ok_emit, counts_ok_tick, counts_ok_tick].
      apply without_no_data_emit; [done|].
      eapply without_no_data_trans; [exact Hout0|]. apply without_no_data_out. by app_simp.
    - split; [|split; [|split; [|split]]];
        [|by app_simp..|by apply counts_ok_tick, counts_ok_tick].
      eapply without_no_data_trans; [exact Hout0|]. apply without_no_data_out. by app_simp. }
  clearbody a2.
  destruct msg as [m|].
  - destruct Hmsg as [-> Hm]. rewrite Hm.
    split; [by apply without_no_data_status, without_no_data_emit|].
    split.
    { intros Hok. apply (table_ok_ext a0); [app_simp; congruence..|apply Hok0, Hok]. }
    split; [intros _; by apply counts_ok_status, counts_ok_emit|].
    intros data' msg' n' _ [= <- <- <-]. split; [by app_simp|].
    intros _. exists m. split; [done|]. app_simp.
    apply in_or_app. left. apply in_or_app. right. by left.
  - destruct data as [|e l]; [done|].
    destruct (apply_filters_out (set_full a2 (e :: l))) as [Hfo Hff].
    pose proof (apply_filters_ok (set_full a2 (e :: l))) as Hfok.
    pose proof (apply_filters_counts (set_full a2 (e :: l))) as Hfc.
    generalize dependent (apply_filters (set_full a2 (e :: l))).
    app_simp. intros a3 Hfo Hff Hfok Hfc.
    split.
    { apply without_no_data_status. eapply without_no_data_trans; [exact Hout2|].
      eapply without_no_data_trans; [|exact Hfo]. apply without_no_data_out. by app_simp. }
    split.
    { intros Hok. eapply table_ok_ext; [by app_simp..|]. apply Hfok.
      specialize (Hok0 Hok). unfold table_ok in *. app_simp.
      rewrite Hview2, Htree2, Hdisp0. rewrite Hdisp0 in Hok0.
      destruct Hok0 as (_ & Hpre & Hnd & Htok). split; [by intros x []|done]. }
    split; [intros _; apply counts_ok_status, Hfc; exact Hcounts2|].
    intros data' msg' n' _ [= <- <- <-]. split; [by app_simp|done].
Qed.

(** X19. A load never shows the dialog "No Data".  With a directory
    selected and the loader returning, the loaded list of the application
    is the list the loader returned, also when it is empty; an empty list
    always comes with a message, which is shown in the dialog "Loading
    Error"; and no load, whatever its outcome, shows the dialog "No
    Data". *)
Theorem load_never_reports_no_data (fs : gmap string node) (a : review_app) :
  let a' := load_and_display_data fs a in
  without_no_data a a'
  /\ (forall data msg n,
        Py.nonempty (selected_directory a) = true ->
        Reader.load_audio_data json_loads fs (selected_directory a) = Ok (data, msg, n) ->
        full_audio_data a' = data
        /\ (data = [] ->
            exists m, msg = Some m /\ In (ShowError "Loading Error" m) (a_out a'))).
Proof.
  destruct (load_and_display_data_cases fs a) as (Hout & _ & _ & Hload). by split.
Qed.

(** ** Every state the window reaches *)

Lemma step_ok a ev :
  table_ok a -> table_ok (Viewer.step O json_loads str_float fmt_4f tcl_traceback str_lower unordered a ev).
Proof.
  intros Hok. destruct ev; simpl.
  - by apply browse_directory_ok.
  - by apply (load_and_display_data_cases fs a).
  - eapply table_ok_ext; [..|exact Hok]; by app_simp.
  - by apply apply_filters_ok.
  - apply apply_filters_ok. eapply table_ok_ext; [..|exact Hok]; by app_simp.
  - by apply sort_column_ok.
  - by apply select_all_visible_ok.
  - by apply deselect_all_ok.
  - by apply user_selects_ok.
Qed.

Lemma run_ok events :
  table_ok (Viewer.run O json_loads str_float fmt_4f tcl_traceback str_lower unordered events).
Proof.
  unfold Viewer.run.
  assert (table_ok app0) as H0.
  { unfold table_ok. simpl. split; [by intros x []|]. split; [by exists []|].
    split; [constructor|done]. }
  revert H0. generalize app0. induction events as [|ev events IH]; intros a Ha; simpl.
  - done.
  - apply IH. by apply step_ok.
Qed.

Lemma step_counts a ev :
  counts_ok a -> counts_ok (Viewer.step O json_loads str_float fmt_4f tcl_traceback str_lower unordered a ev).
Proof.
  intros Hok. destruct ev; simpl.
  - unfold Viewer.browse_directory. destruct (Py.nonempty directory); [|done].
    apply counts_ok_update.
  - by apply (load_and_display_data_cases fs a).
  - exact Hok.
  - by apply apply_filters_counts.
  - apply apply_filters_counts. exact Hok.
  - by apply sort_column_counts.
  - apply counts_ok_status, counts_ok_update.
  - unfold Viewer.deselect_all. destruct (selection (tree a)); [done|].
    apply counts_ok_status, counts_ok_update.
  - unfold Viewer.user_selects. destruct (forallb _ items); [|done].
    apply counts_ok_update.
Qed.

(** X20. The counts under the table are never stale.  Whatever the user
    did with the table since the window opened, the label "Visible" shows
    the number of rows of the table and the label "Selected" the number of
    selected rows. *)
Theorem counts_follow_the_table (events : list Viewer.table_event) :
  let a := Viewer.run O json_loads str_float fmt_4f tcl_traceback str_lower unordered events in
  visible_count_label a
  = "Visible: " +:+ Py.str_of_nat (length (get_children (tree a)))
  /\ selected_count_label a
     = "Selected: " +:+ Py.str_of_nat (length (selection (tree a))).
Proof.
  cbv zeta. unfold Viewer.run.
  assert (counts_ok app0) as H0 by (by split).
  revert H0. generalize app0.
  induction events as [|ev events IH]; intros a Ha; simpl; [exact Ha|].
  apply IH. by apply step_counts.
Qed.

Lemma selection_in t i : In i (selection t) -> In i (get_children t).
Proof. unfold selection. rewrite filter_In. by intros [H _]. Qed.

Lemma find_path data i :
  In i (List.map path data) ->
  exists e, List.find (fun e => String.eqb (path e) i) data = Some e
            /\ path e = i /\ In e data.
Proof.
  induction data as [|e data IH]; simpl; [done|].
  destruct (String.eqb (path e) i) eqn:Heq.
  - intros _. exists e. apply String.eqb_eq in Heq. auto.
  - intros [H|H]; [apply String.eqb_neq in Heq; done|].
    destruct (IH H) as (e' & Hf & Hp & Hin). exists e'. auto.
Qed.

(** In a table that is in order, a selected item is the path of a loaded
    record. *)
Lemma table_ok_selected a i :
  table_ok a -> In i (selection (tree a)) ->
  exists e, Viewer.get_entry_by_iid a i = Some e /\ path e = i
            /\ In e (full_audio_data a).
Proof.
  intros (Hincl & (rest & Hpre) & _ & _) Hi. apply selection_in in Hi.
  unfold Viewer.get_entry_by_iid. apply find_path.
  assert (In i (List.map path (display_audio_data (a_view a)))) as Hd.
  { rewrite Hpre. apply in_or_app. by left. }
  apply in_map_iff in Hd as (e & <- & He). apply in_map, Hincl, He.
Qed.

(** X21. Whatever the user did with the table since the window opened
    (choosing a directory, loading, editing and applying or clearing the
    filters, clicking headings, selecting and deselecting), every selected
    item is the path of a loaded record: [get_entry_by_iid] finds a record
    for it, the first loaded one with this path.  The rows of the table
    have different ids, and they are the paths of the first displayed
    records, which are loaded records. *)
Theorem selected_items_are_loaded_records (events : list Viewer.table_event) :
  let a := Viewer.run O json_loads str_float fmt_4f tcl_traceback str_lower unordered events in
  table_ok a
  /\ forall i,
       In i (selection (tree a)) ->
       exists e, Viewer.get_entry_by_iid a i = Some e /\ path e = i
                 /\ In e (full_audio_data a).
Proof.
  intros a. pose proof (run_ok events) as Hok. fold a in Hok. split; [done|].
  intros i Hi. by apply table_ok_selected.
Qed.

End ViewerFacts.

End ViewerFacts.

(** * Properties of the task queue *)

Module QueueFacts.
Import QueueSpec WriterSpec.

#[local] Arguments List.last : simpl never.
#[local] Arguments String.app : simpl never.

Section QueueFacts.

Variable call_dialog : task -> option exn.

Local Abbreviation run_task := (TaskQueue.run_task call_dialog).
Local Abbreviation drain := (TaskQueue.drain call_dialog).
Local Abbreviation process_queue := (TaskQueue.process_queue call_dialog).

Lemma last_cons {A : Type} (x d : A) (l : list A) : List.last (x :: l) d = List.last l x.
Proof.
  revert x d. induction l as [|y l IH]; intros x d; [done|].
  change (List.last (x :: y :: l) d) with (List.last (y :: l) d). by rewrite !IH.
Qed.

Lemma status_texts_app q1 q2 : status_texts (q1 ++ q2) = status_texts q1 ++ status_texts q2.
Proof. apply flat_map_app. Qed.

(** The loop on a queue whose message boxes all return: every task is run,
    and the status texts of the progress tasks come last. *)
Lemma drain_all q : forall acc g fuel,
  (forall t, In t (q ++ acc) -> is_dialog t = true -> call_dialog t = None) ->
  requeued acc = [] ->
  task_queue g = q ++ acc ->
  TaskQueue.calls_ahead q + length acc < fuel ->
  drain fuel g
  = (Window (List.last (status_texts (q ++ acc ++ requeued q)) (status_label g))
       (log_text g +:+ concat_lines (logged (q ++ acc)))
       (shown g ++ List.filter is_dialog (q ++ acc)) [] (scheduled g),
     None).
Proof.
  induction q as [|t q IH].
  - induction acc as [|t acc IH]; intros g fuel Hquiet Hacc Hq Hfuel.
    + destruct fuel; [simpl in Hfuel; lia|]. simpl in *. rewrite Hq.
      rewrite TextFacts.append_nil_r, List.app_nil_r. rewrite <- Hq. by destruct g.
    + destruct fuel; [simpl in Hfuel; lia|].
      cbn [TaskQueue.drain]. rewrite Hq. cbn [List.app].
      assert (forall t', In t' ([] ++ acc) -> is_dialog t' = true -> call_dialog t' = None)
        as Hquiet' by (intros t' Ht'; apply Hquiet; by right).
      destruct t as [s|m|c n m|ti m|ti m|ti m]; cbn [TaskQueue.run_task].
      * rewrite (IH _ fuel Hquiet') by (simpl in *; done || lia).
        cbn [status_label log_text shown scheduled set_queue task_queue List.app].
        simpl. by rewrite last_cons.
      * rewrite (IH _ fuel Hquiet') by (simpl in *; done || lia).
        cbn [status_label log_text shown scheduled set_queue task_queue List.app].
        simpl. by rewrite !TextFacts.append_assoc.
      * simpl in Hacc. done.
      * rewrite (Hquiet (ShowError ti m)) by (by left || done).
        rewrite (IH _ fuel Hquiet') by (simpl in *; done || lia).
        cbn [status_label log_text shown scheduled set_queue task_queue List.app].
        simpl. by rewrite <- List.app_assoc.
      * rewrite (Hquiet (ShowInfo ti m)) by (by left || done).
        rewrite (IH _ fuel Hquiet') by (simpl in *; done || lia).
        cbn [status_label log_text shown scheduled set_queue task_queue List.app].
        simpl. by rewrite <- List.app_assoc.
      * rewrite (Hquiet (ShowWarning ti m)) by (by left || done).
        rewrite (IH _ fuel Hquiet') by (simpl in *; done || lia).
        cbn [status_label log_text shown scheduled set_queue task_queue List.app].
        simpl. by rewrite <- List.app_assoc.
  - intros acc g fuel Hquiet Hacc Hq Hfuel.
    destruct fuel; [simpl in Hfuel; lia|].
    cbn [TaskQueue.drain]. rewrite Hq. cbn [List.app].
    assert (forall t', In t' (q ++ acc) -> is_dialog t' = true -> call_dialog t' = None)
      as Hquiet' by (intros t' Ht'; apply Hquiet; by right).
    unfold TaskQueue.calls_ahead in *.
    destruct t as [s|m|c n m|ti m|ti m|ti m]; cbn [TaskQueue.run_task].
    + rewrite (IH acc _ fuel Hquiet' Hacc) by (simpl in *; done || lia).
      cbn [status_label log_text shown scheduled set_queue task_queue].
      simpl. by rewrite last_cons.
    + rewrite (IH acc _ fuel Hquiet' Hacc) by (simpl in *; done || lia).
      cbn [status_label log_text shown scheduled set_queue task_queue].
      simpl. by rewrite !TextFacts.append_assoc.
    + cbn [set_queue status_label log_text shown scheduled task_queue].
      rewrite (IH (acc ++ [StatusText ("Status: " +:+ m)]) _ fuel).
      * cbn [status_label log_text shown scheduled].
        unfold logged, requeued. simpl.
        rewrite !List.app_assoc, !flat_map_app, !List.filter_app. simpl.
        rewrite !List.app_nil_r, <- !List.app_assoc. done.
      * intros t' Ht'. rewrite List.app_assoc in Ht'.
        apply in_app_or in Ht' as [Ht'|[<-|[]]]; [by apply Hquiet'|done].
      * unfold requeued in *. by rewrite flat_map_app, Hacc.
      * simpl. by rewrite <- List.app_assoc.
      * rewrite List.length_app. simpl in *. lia.
    + rewrite (Hquiet (ShowError ti m)) by (by left || done).
      rewrite (IH acc _ fuel Hquiet' Hacc) by (simpl in *; done || lia).
      cbn [status_label log_text shown scheduled set_queue task_queue].
      simpl. by rewrite <- List.app_assoc.
    + rewrite (Hquiet (ShowInfo ti m)) by (by left || done).
      rewrite (IH acc _ fuel Hquiet' Hacc) by (simpl in *; done || lia).
      cbn [status_label log_text shown scheduled set_queue task_queue].
      simpl. by rewrite <- List.app_assoc.
    + rewrite (Hquiet (ShowWarning ti m)) by (by left || done).
      rewrite (IH acc _ fuel Hquiet' Hacc) by (simpl in *; done || lia).
      cbn [status_label log_text shown scheduled set_queue task_queue].
      simpl. by rewrite <- List.app_assoc.
Qed.

(** The loop up to a message box that raises: the tasks behind it stay in
    the queue, before the status texts that the progress tasks queued. *)
Lemma drain_raises t e before : forall acc g fuel,
  (forall t', In t' before -> is_dialog t' = true -> call_dialog t' = None) ->
  is_dialog t = true -> call_dialog t = Some e ->
  task_queue g = before ++ t :: acc ->
  length before < fuel ->
  drain fuel g
  = (Window (List.last (status_texts before) (status_label g))
       (log_text g +:+ concat_lines (logged before))
       (shown g ++ List.filter is_dialog before) (acc ++ requeued before) (scheduled g),
     Some e).
Proof.
  induction before as [|t0 before IH]; intros acc g fuel Hquiet Ht He Hq Hfuel.
  - destruct fuel; [simpl in Hfuel; lia|].
    cbn [TaskQueue.drain]. rewrite Hq. cbn [List.app].
    destruct t as [s|m|c n m|ti m|ti m|ti m]; try done;
      cbn [TaskQueue.run_task]; rewrite He; simpl;
      by rewrite TextFacts.append_nil_r, !List.app_nil_r.
  - destruct fuel; [simpl in Hfuel; lia|].
    cbn [TaskQueue.drain]. rewrite Hq. cbn [List.app].
    assert (forall t', In t' before -> is_dialog t' = true -> call_dialog t' = None)
      as Hquiet' by (intros t' Ht'; apply Hquiet; by right).
    destruct t0 as [s|m|c n m|ti m|ti m|ti m]; cbn [TaskQueue.run_task].
    + rewrite (IH acc _ fuel Hquiet' Ht He) by (simpl in *; done || lia).
      cbn [status_label log_text shown scheduled set_queue task_queue].
      simpl. by rewrite last_cons.
    + rewrite (IH acc _ fuel Hquiet' Ht He) by (simpl in *; done || lia).
      cbn [status_label log_text shown scheduled set_queue task_queue].
      simpl. by rewrite !TextFacts.append_assoc.
    + cbn [set_queue status_label log_text shown scheduled task_queue].
      rewrite (IH (acc ++ [StatusText ("Status: " +:+ m)]) _ fuel Hquiet' Ht He).
      * cbn [status_label log_text shown scheduled]. simpl.
        by rewrite <- List.app_assoc.
      * simpl. by rewrite <- List.app_assoc.
      * simpl in *. lia.
    + rewrite (Hquiet (ShowError ti m)) by (by left || done).
      rewrite (IH acc _ fuel Hquiet' Ht He) by (simpl in *; done || lia).
      cbn [status_label log_text shown scheduled set_queue task_queue].
      simpl. by rewrite <- List.app_assoc.
    + rewrite (Hquiet (ShowInfo ti m)) by (by left || done).
      rewrite (IH acc _ fuel Hquiet' Ht He) by (simpl in *; done || lia).
      cbn [status_label log_text shown scheduled set_queue task_queue].
      simpl. by rewrite <- List.app_assoc.
    + rewrite (Hquiet (ShowWarning ti m)) by (by left || done).
      rewrite (IH acc _ fuel Hquiet' Ht He) by (simpl in *; done || lia).
      cbn [status_label log_text shown scheduled set_queue task_queue].
      simpl. by rewrite <- List.app_assoc.
Qed.

Lemma requeued_status_texts q :
  status_texts (requeued q)
  = flat_map (fun t => match t with
                       | PreprocessStatus _ _ m => ["Status: " +:+ m]
                       | _ => []
                       end) q.
Proof.
  induction q as [|t q IH]; [done|].
  destruct t; simpl; by rewrite ?IH.
Qed.

(** X22. A check of the queue whose message boxes all return runs every
    task and empties the queue: the log gets the messages of the log tasks,
    each with a newline, in their order; the message boxes are shown in
    their order; the next check is scheduled once; and the status bar ends
    with the last of the status texts, where the texts of the progress
    tasks count as queued behind all the others. *)
Theorem process_queue_runs_every_task (g : window) :
  (forall t, In t (task_queue g) -> is_dialog t = true -> call_dialog t = None) ->
  let q := task_queue g in
  process_queue g
  = (Window (List.last (status_texts (q ++ requeued q)) (status_label g))
       (log_text g +:+ concat_lines (logged q))
       (shown g ++ List.filter is_dialog q) [] (S (scheduled g)),
     None).
Proof.
  intros Hquiet q. unfold TaskQueue.process_queue.
  rewrite (drain_all q [] g).
  - cbn [List.app]. by rewrite !List.app_nil_r.
  - by rewrite List.app_nil_r.
  - done.
  - by rewrite List.app_nil_r.
  - fold q. simpl. lia.
Qed.

(** X23. A progress text overtakes the status texts queued behind it.
    When a check of the queue finds a progress task with status tasks but
    no other progress task behind it, and every message box returns, the
    status bar ends with the text of the progress task, not with the text
    of the last status task. *)
Theorem progress_text_overtakes_status_texts (g : window) (before rest : list task)
    (current total : nat) (message : string) :
  (forall t, In t (task_queue g) -> is_dialog t = true -> call_dialog t = None) ->
  task_queue g = before ++ PreprocessStatus current total message :: rest ->
  requeued rest = [] ->
  status_label (process_queue g).1 = "Status: " +:+ message.
Proof.
  intros Hquiet Hq Hrest. unfold TaskQueue.process_queue.
  rewrite (drain_all (task_queue g) [] g); try done.
  - cbn [List.app fst status_label]. rewrite Hq.
    assert (requeued (before ++ PreprocessStatus current total message :: rest)
            = requeued before ++ [StatusText ("Status: " +:+ message)]) as ->.
    { unfold requeued in *. rewrite flat_map_app. cbn [flat_map]. by rewrite Hrest. }
    rewrite !status_texts_app. cbn [status_texts flat_map List.app].
    by rewrite !List.app_assoc, List.last_last.
  - by rewrite List.app_nil_r.
  - by rewrite List.app_nil_r.
  - simpl. lia.
Qed.

(** X24. A message box that raises ends the check of the queue.  The
    tasks in front of it were run; the exception leaves [process_queue];
    the box is not shown; the tasks behind it stay in the queue, followed
    by the status texts that the progress tasks in front of it queued; and
    the next check is scheduled all the same. *)
Theorem raising_dialog_leaves_the_rest_queued (g : window) (before rest : list task)
    (t : task) (e : exn) :
  (forall t', In t' before -> is_dialog t' = true -> call_dialog t' = None) ->
  is_dialog t = true -> call_dialog t = Some e ->
  task_queue g = before ++ t :: rest ->
  process_queue g
  = (Window (List.last (status_texts before) (status_label g))
       (log_text g +:+ concat_lines (logged before))
       (shown g ++ List.filter is_dialog before) (rest ++ requeued before)
       (S (scheduled g)),
     Some e).
Proof.
  intros Hquiet Ht He Hq. unfold TaskQueue.process_queue.
  rewrite (drain_raises t e before rest g); try done.
  rewrite Hq. unfold TaskQueue.calls_ahead. rewrite List.length_app. simpl. lia.
Qed.

End QueueFacts.

(** A queue as a preprocessing run leaves it, with message boxes that
    return. *)
Lemma process_queue_runs_every_task_witness :
  TaskQueue.process_queue QueueExamples.returns QueueExamples.busy_window
  = (Window "Status: Indexing: 100/250" ("started" +:+ "Index complete." +:+ nl)
       [ShowInfo "Preprocessing Complete" "Done."] [] 1,
     None).
Proof. apply (process_queue_runs_every_task QueueExamples.returns QueueExamples.busy_window). by intros. Defined.

(** The same queue: the status bar ends with the progress text. *)
Lemma progress_text_overtakes_status_texts_witness :
  status_label (TaskQueue.process_queue QueueExamples.returns QueueExamples.busy_window).1
  = "Status: Indexing: 100/250".
Proof.
  apply (progress_text_overtakes_status_texts QueueExamples.returns QueueExamples.busy_window []
           [AppendLog "Index complete."; StatusText "Status: Running audio-aes...";
            ShowInfo "Preprocessing Complete" "Done."] 100 250 "Indexing: 100/250");
    [by intros | reflexivity | reflexivity].
Defined.

(** A queue whose message box raises. *)
Lemma raising_dialog_leaves_the_rest_queued_witness :
  TaskQueue.process_queue QueueExamples.rejects QueueExamples.stuck_window
  = (Window "Status: Ready" EmptyString []
       [AppendLog "later"; StatusText "Status: Indexing: 1/2"] 1,
     Some (Exn TypeError
             "showinfo() takes from 0 to 2 positional arguments but 3 were given")).
Proof.
  apply (raising_dialog_leaves_the_rest_queued QueueExamples.rejects
           QueueExamples.stuck_window
           [PreprocessStatus 1 2 "Indexing: 1/2"] [AppendLog "later"]
           (ShowInfo "Preprocessing Complete" "Done.")
           (Exn TypeError
              "showinfo() takes from 0 to 2 positional arguments but 3 were given"));
    [by intros t' [<-|[]] | reflexivity | reflexivity | reflexivity].
Defined.

End QueueFacts.

(** * Properties of playing and exporting the selection *)

Module SelectionFacts.
Import FilterSpec TableViewSpec WriterSpec ExportSpec.

#[local] Arguments status : simpl never.
#[local] Arguments emit : simpl never.

(** The rows that are among the selected items are the selected items. *)
Lemma chosen_selection (a : review_app) :
  chosen a (selection (tree a)) = selection (tree a).
Proof.
  unfold chosen, selection. apply filter_ext_in. intros i Hi.
  destruct (string_mem i (selected (tree a))) eqn:Hsel.
  - apply ViewerFacts.string_mem_in, filter_In. split; [done|exact Hsel].
  - apply not_true_is_false. intros Hm.
    apply ViewerFacts.string_mem_in, filter_In in Hm as [_ Hm]. congruence.
Qed.

Section Player.

Variable O : oracles.
Variable json_loads : string -> option json.
Variable str_float : string -> option pyfloat.
Variable fmt_4f : pyfloat -> string.
Variable tcl_traceback : string -> string.
Variable str_lower : string -> string.
Variable unordered : nan_sort.
Variable mixer_play : gmap string node -> string -> option exn.
Variable pygame_error : exn -> bool.

(** X25. Playing from the table.  Whatever the user did with the table
    since the window opened, with playback enabled: without a selection
    only the status text asks for one; otherwise the record of the first
    selected row, in the order of the table, is found, so the text "Error
    finding data for selected item" is never queued; a file that is missing
    gives the dialog "File Not Found" and nothing plays; and when the file
    is there and the mixer accepts it, it is this file that plays. *)
Theorem play_selected_plays_the_first_selected_row
    (events : list Viewer.table_event) (fs : gmap string node) :
  let a := Viewer.run O json_loads str_float fmt_4f tcl_traceback str_lower unordered events in
  let r := Player.play_selected O mixer_play pygame_error true fs a in
  match selection (tree a) with
  | [] => r = (status "Select a file to play." a, None)
  | item_id :: others =>
      let noted :=
        match others with
        | [] => []
        | _ => [StatusText "Status: Multiple files selected. Playing the first one."]
        end in
      exists entry,
        Viewer.get_entry_by_iid a item_id = Some entry
        /\ path entry = item_id
        /\ (FS.exists_ fs item_id = false ->
            r.2 = None
            /\ a_out r.1
               = a_out a ++ noted
                 ++ [StatusText ("Status: Error - File not found: " +:+ filename entry);
                     ShowError "File Not Found"
                       ("The audio file could not be found at the expected path:" +:+ nl
                        +:+ item_id)])
        /\ (FS.exists_ fs item_id = true -> mixer_play fs item_id = None ->
            r.2 = Some item_id
            /\ a_out r.1
               = a_out a ++ noted
                 ++ [StatusText ("Status: Playing: " +:+ filename entry)])
  end.
Proof.
  intros a r. pose proof (ViewerFacts.run_ok O json_loads str_float fmt_4f tcl_traceback str_lower unordered events)
    as Hok.
  fold a in Hok. unfold r, Player.play_selected. cbn [negb].
  destruct (selection (tree a)) as [|item_id others] eqn:Hsel; [done|].
  destruct (ViewerFacts.table_ok_selected a item_id Hok) as (entry & Hget & Hpath & _).
  { rewrite Hsel. by left. }
  cbv zeta. exists entry. split; [done|]. split; [done|].
  assert (forall x, Viewer.get_entry_by_iid
                      match others with [] => a | _ => status x a end item_id
                    = Some entry) as -> by (intros x; by destruct others).
  rewrite Hpath. split.
  - intros ->. cbn [negb snd fst]. split; [done|].
    destruct others; unfold status, emit; simpl; by rewrite <- ?List.app_assoc.
  - intros -> ->. cbn [negb snd fst]. split; [done|].
    destruct others; unfold status, emit; simpl; by rewrite <- ?List.app_assoc.
Qed.

End Player.

Section ListExport.

Variable O : oracles.
Variable json_dumps_path : string -> string.
Variable write_error : string -> option exn.
Variable json_loads : string -> option json.

Local Abbreviation line_of := (ListExport.line_of json_dumps_path).
Local Abbreviation write_paths := (ListExport.write_paths json_dumps_path write_error).
Local Abbreviation export_selected_list :=
  (ListExport.export_selected_list O json_dumps_path write_error).

(** The loop of writes, when every write returns. *)
Lemma write_paths_all output_path paths : forall content count,
  (forall p, In p paths -> write_error (line_of output_path p) = None) ->
  write_paths output_path paths content count
  = (content +:+ concat_lines (List.map (line_of output_path) paths),
     count + length paths, None).
Proof.
  induction paths as [|p paths IH]; intros content count Hw; simpl.
  - by rewrite TextFacts.append_nil_r, Nat.add_0_r.
  - rewrite (Hw p) by (by left).
    rewrite IH by (intros q Hq; apply Hw; by right).
    by rewrite TextFacts.append_assoc, Nat.add_succ_r.
Qed.

(** [export_selected_list], as one expression of the selection. *)
Lemma export_selected_list_unfold fs a output_path :
  export_selected_list fs a output_path
  = match selection (tree a) with
    | [] =>
        (fs, emit (ShowInfo "No Selection"
                     "Please select one or more files to export their paths.") a)
    | _ =>
        if negb (Py.nonempty output_path) then (fs, a)
        else
          let a1 := status ("Exporting " +:+ Py.str_of_nat (length (selection (tree a)))
                            +:+ " file paths...") a in
          match FS.write fs output_path EmptyString with
          | Raise e => (fs, ListExport.export_failed O e a1)
          | Ok fs0 =>
              let '(content, count, raised) :=
                write_paths output_path (selection (tree a)) EmptyString 0 in
              let fs1 := <[output_path := File content]> fs0 in
              match raised with
              | Some e => (fs1, ListExport.export_failed O e a1)
              | None =>
                  (fs1,
                   emit (ShowInfo "Export Complete"
                           ("Successfully exported " +:+ Py.str_of_nat count
                            +:+ " file paths to:" +:+ nl +:+ output_path))
                     (status ("Successfully exported " +:+ Py.str_of_nat count
                              +:+ " file paths to " +:+ Path.name output_path +:+ ".") a1))
              end
          end
    end.
Proof.
  unfold ListExport.export_selected_list.
  pose proof (chosen_selection a) as Hc. unfold chosen in Hc.
  destruct (selection (tree a)) as [|i l] eqn:Hsel; [done|].
  rewrite Hc. done.
Qed.

(** X26. The list of the selected files.  Without a selection, or with
    the file dialog cancelled, nothing is written.  When the file cannot be
    opened, nothing is written and the dialog "Export Error" is shown.
    When it can and every write returns, the file holds one line for each
    selected row, in the order of the table (the path itself, or its JSON
    object when the name of the file ends in ".jsonl", in any case of the
    letters), no other file is changed, and the dialog "Export Complete"
    gives the number of selected rows. *)
Theorem export_selected_list_writes_the_selection
    (fs : gmap string node) (a : review_app) (output_path : string) :
  let r := export_selected_list fs a output_path in
  let paths := selection (tree a) in
  (paths = [] \/ Py.nonempty output_path = false -> r.1 = fs)
  /\ (paths <> [] -> Py.nonempty output_path = true ->
      match FS.write fs output_path EmptyString with
      | Raise e =>
          r.1 = fs
          /\ last_out r.2
             = Some (ShowError "Export Error"
                       ("Could not write the file list:" +:+ nl +:+ exn_msg e +:+ nl +:+ nl
                        +:+ format_exc O e))
      | Ok fs0 =>
          (forall p, In p paths -> write_error (line_of output_path p) = None) ->
          let text := concat_lines (List.map (line_of output_path) paths) in
          FS.read r.1 output_path = Ok text
          /\ (forall q, q <> output_path -> r.1 !! q = fs0 !! q)
          /\ last_out r.2
             = Some (ShowInfo "Export Complete"
                       ("Successfully exported " +:+ Py.str_of_nat (length paths)
                        +:+ " file paths to:" +:+ nl +:+ output_path))
      end).
Proof.
  cbv zeta. rewrite export_selected_list_unfold. split.
  - intros [Hp | Hp].
    + by rewrite Hp.
    + rewrite Hp. by destruct (selection (tree a)).
  - intros Hp Hne. rewrite Hne. cbn [negb].
    destruct (selection (tree a)) as [|i l] eqn:Hsel; [done|]. cbv zeta.
    destruct (FS.write fs output_path EmptyString) as [fs0|e].
    + intros Hw. rewrite (write_paths_all _ _ _ _ Hw).
      cbn [fst snd]. split; [|split].
      * unfold FS.read. by rewrite lookup_insert_eq.
      * intros q Hq. by rewrite lookup_insert_ne.
      * unfold last_out, status, emit. cbn [a_out].
        rewrite List.map_app. simpl. by rewrite List.last_last.
    + cbn [fst snd]. split; [done|].
      unfold last_out, ListExport.export_failed, status, emit. cbn [a_out].
      rewrite List.map_app. simpl. by rewrite List.last_last.
Qed.

(** X27. An exported ".jsonl" list is a manifest.  When [json.dumps]
    gives, for each selected path, a line without a newline in it that
    [json.loads] reads back as the object with this path, the file that
    [export_selected_list] leaves is read by the manifest loop of
    [load_audio_data] as the objects of the selected paths, in the order of
    the table, with no line counted as invalid. *)
Theorem exported_list_round_trip
    (fs fs0 : gmap string node) (a : review_app) (output_path : string) (invalid : nat) :
  selection (tree a) <> [] ->
  ListExport.is_jsonl output_path = true ->
  FS.write fs output_path EmptyString = Ok fs0 ->
  (forall p, In p (selection (tree a)) ->
     write_error (json_dumps_path p +:+ nl) = None
     /\ newline_free (json_dumps_path p) = true
     /\ json_loads (json_dumps_path p +:+ nl) = Some (JObj [("path", JStr p)])) ->
  let r := export_selected_list fs a output_path in
  exists text,
    FS.read r.1 output_path = Ok text
    /\ Reader.read_paths json_loads (Py.lines text) invalid
       = (List.map (fun p => JObj [("path", JStr p)]) (selection (tree a)), invalid).
Proof.
  intros Hsel Hjsonl Hopen Hlines r. unfold r. rewrite export_selected_list_unfold.
  assert (Py.nonempty output_path = true) as -> by (by destruct output_path).
  destruct (selection (tree a)) as [|i l] eqn:Hs; [done|]. rewrite <- Hs in *. clear Hs i l.
  cbn [negb]. cbv zeta. rewrite Hopen.
  assert (forall p, line_of output_path p = json_dumps_path p +:+ nl) as Hline
    by (intros p; unfold ListExport.line_of; by rewrite Hjsonl).
  rewrite write_paths_all by (intros p Hp; rewrite Hline; by apply Hlines).
  cbn [fst snd]. eexists. split; [unfold FS.read; by rewrite lookup_insert_eq|].
  change (EmptyString +:+ ?x) with x.
  generalize dependent (selection (tree a)). intros paths _ Hlines.
  assert (List.map (line_of output_path) paths
          = List.map (fun line => line +:+ nl) (List.map json_dumps_path paths)) as ->.
  { rewrite List.map_map. apply List.map_ext. exact Hline. }
  rewrite ManifestFacts.lines_concat.
  2:{ apply List.Forall_forall. intros line Hin. apply in_map_iff in Hin as (p & <- & Hp).
      by apply Hlines. }
  rewrite (ReaderFacts.read_paths_spec json_loads).
  assert (ReaderSpec.parsed json_loads
            (List.map (fun line => line +:+ nl) (List.map json_dumps_path paths))
          = List.map (fun p => JObj [("path", JStr p)]) paths
          /\ ReaderSpec.valid_lines json_loads
               (List.map (fun line => line +:+ nl) (List.map json_dumps_path paths))
             = List.map (fun line => line +:+ nl) (List.map json_dumps_path paths))
    as [-> ->].
  { induction paths as [|p paths IH]; [done|].
    destruct IH as [IH1 IH2]; [intros q Hq; apply Hlines; by right|].
    destruct (Hlines p) as (_ & _ & Hjson); [by left|].
    simpl. rewrite Hjson. simpl. by rewrite IH1, IH2. }
  f_equal. lia.
Qed.

End ListExport.

#[local] Arguments put : simpl never.
#[local] Arguments _update_status : simpl never.
#[local] Arguments _append_log : simpl never.
#[local] Arguments tick : simpl never.
#[local] Arguments set_fs : simpl never.

Lemma queue_put t w : w_queue (put t w) = w_queue w ++ [t].
Proof. reflexivity. Qed.
Lemma queue_status m w :
  w_queue (_update_status m w) = w_queue w ++ [StatusText ("Status: " +:+ m)].
Proof. reflexivity. Qed.
Lemma queue_log m w : w_queue (_append_log m w) = w_queue w ++ [AppendLog m].
Proof. reflexivity. Qed.
Lemma queue_set_fs w fs : w_queue (set_fs w fs) = w_queue w.
Proof. reflexivity. Qed.
Lemma clock_put t w : w_clock (put t w) = w_clock w.
Proof. reflexivity. Qed.
Lemma clock_status m w : w_clock (_update_status m w) = w_clock w.
Proof. reflexivity. Qed.
Lemma clock_log m w : w_clock (_append_log m w) = w_clock w.
Proof. reflexivity. Qed.

(** Reduces the queue, the clock and the files of a world built by queuing. *)
Ltac queue_simp :=
  repeat match goal with
    | |- context [w_queue (put ?t ?w)] => rewrite (queue_put t w)
    | |- context [w_queue (_update_status ?m ?w)] => rewrite (queue_status m w)
    | |- context [w_queue (_append_log ?m ?w)] => rewrite (queue_log m w)
    | |- context [w_queue (set_fs ?w ?fs)] => rewrite (queue_set_fs w fs)
    | |- context [w_queue (tick ?w)] => rewrite (RunFacts.queue_tick w)
    | |- context [w_clock (put ?t ?w)] => rewrite (clock_put t w)
    | |- context [w_clock (_update_status ?m ?w)] => rewrite (clock_status m w)
    | |- context [w_clock (_append_log ?m ?w)] => rewrite (clock_log m w)
    end; RunFacts.fs_simp.

Section AudioExport.

Variable O : oracles.
Variable segment : Type.
Variable from_wav : gmap string node -> string -> result segment.
Variable concat : segment -> segment -> segment.
Variable export :
  segment -> string -> string -> gmap string node -> gmap string node * option exn.
Variable couldnt_encode : exn -> bool.
Variable class_name : exn -> string.

Local Abbreviation export_item := (AudioExport.export_item segment from_wav concat class_name).
Local Abbreviation export_loop := (AudioExport.export_loop segment from_wav concat class_name).
Local Abbreviation _perform_audio_export :=
  (AudioExport._perform_audio_export O segment from_wav concat export couldnt_encode
     class_name).
Local Abbreviation segments := (segments segment from_wav).
Local Abbreviation failing := (failing segment from_wav).
Local Abbreviation segment_of := (segment_of segment from_wav).

(** The next value of [combined_audio]. *)
Local Abbreviation add_segment :=
  (fun (c : option segment) (seg : segment) =>
     Some match c with None => seg | Some combined => concat combined seg end).

Lemma fold_add_segment segs : forall c,
  fold_left add_segment segs (Some c) = Some (fold_left concat segs c).
Proof. induction segs as [|seg segs IH]; intros c; [done|]. simpl. by rewrite IH. Qed.

Lemma fold_joined segs : fold_left add_segment segs None = joined segment concat segs.
Proof. destruct segs as [|seg segs]; [done|]. simpl. by rewrite fold_add_segment. Qed.

(** The tasks a turn of the loop queues are status texts and log lines. *)
Lemma export_item_spec a total s w i p :
  let r := export_item a total (s, w) i p in
  w_fs r.2 = w_fs w
  /\ w_clock r.2 = w_clock w
  /\ (exists added,
        w_queue r.2 = w_queue w ++ added
        /\ List.filter QueueSpec.is_dialog added = [])
  /\ match segment_of (w_fs w) p with
     | Some seg =>
         combined_audio r.1 = add_segment (combined_audio s) seg
         /\ exported_count r.1 = S (exported_count s)
         /\ error_files r.1 = error_files s
     | None =>
         combined_audio r.1 = combined_audio s
         /\ exported_count r.1 = exported_count s
         /\ exists name, error_files r.1 = error_files s ++ [name]
     end.
Proof.
  cbv zeta. unfold AudioExport.export_item, ExportSpec.segment_of.
  RunFacts.fs_simp.
  destruct (FS.exists_ (w_fs w) p); cbn [negb].
  - destruct (from_wav (w_fs w) p) as [seg|e].
    + cbn [fst snd combined_audio exported_count error_files]. queue_simp.
      split; [done|]. split; [done|]. split; [|done].
      eexists. split; [by rewrite <- List.app_assoc|done].
    + destruct (exn_cls e);
        cbn [fst snd combined_audio exported_count error_files]; queue_simp;
        (split; [done|]); (split; [done|]);
        (split; [eexists; split; [by rewrite <- !List.app_assoc|done]|]);
        (split; [done|]); (split; [done|]); by eexists.
  - cbn [fst snd combined_audio exported_count error_files]. queue_simp.
    split; [done|]. split; [done|].
    split; [eexists; split; [by rewrite <- !List.app_assoc|done]|].
    split; [done|]. split; [done|]. by eexists.
Qed.

Lemma export_loop_spec a total paths : forall i s w,
  let r := export_loop a total paths i (s, w) in
  w_fs r.2 = w_fs w
  /\ w_clock r.2 = w_clock w
  /\ (exists added,
        w_queue r.2 = w_queue w ++ added
        /\ List.filter QueueSpec.is_dialog added = [])
  /\ combined_audio r.1
     = fold_left add_segment (segments (w_fs w) paths) (combined_audio s)
  /\ exported_count r.1 = exported_count s + length (segments (w_fs w) paths)
  /\ exists names,
       error_files r.1 = error_files s ++ names
       /\ length names = length (failing (w_fs w) paths).
Proof.
  induction paths as [|p paths IH]; intros i s w.
  - cbn [AudioExport.export_loop fst snd]. unfold ExportSpec.segments, ExportSpec.failing.
    simpl. split; [done|]. split; [done|].
    split; [exists []; by rewrite List.app_nil_r|].
    split; [done|]. split; [lia|]. exists []. by rewrite List.app_nil_r.
  - cbn [AudioExport.export_loop].
    destruct (export_item_spec a total s w i p) as (Hfs & Hclock & (q1 & Hq1 & Hd1) & Hitem).
    destruct (export_item a total (s, w) i p) as [s1 w1]. cbn [fst snd] in *.
    destruct (IH (S i) s1 w1) as (Hfs' & Hclock' & (q2 & Hq2 & Hd2) & Hc & Hn & names & He & Hl).
    rewrite Hfs in *. cbv zeta.
    split; [done|]. split; [congruence|]. split.
    { exists (q1 ++ q2). rewrite Hq2, Hq1, List.app_assoc, List.filter_app, Hd1, Hd2. done. }
    unfold ExportSpec.segments, ExportSpec.failing in *. cbn [flat_map List.filter].
    destruct (ExportSpec.segment_of segment from_wav (w_fs w) p) as [seg|].
    + destruct Hitem as (Hc1 & Hn1 & He1). cbn [List.app fold_left].
      rewrite Hc, Hc1, Hn, Hn1, He, He1. repeat split; [simpl; lia|by exists names].
    + destruct Hitem as (Hc1 & Hn1 & name & He1). cbn [List.app].
      rewrite Hc, Hc1, Hn, Hn1, He, He1. repeat split.
      exists (name :: names). rewrite <- List.app_assoc. simpl. by rewrite Hl.
Qed.

Lemma segments_failing fs paths :
  length (segments fs paths) + length (failing fs paths) = length paths.
Proof.
  unfold ExportSpec.segments, ExportSpec.failing.
  induction paths as [|p paths IH]; [done|]. simpl.
  destruct (ExportSpec.segment_of segment from_wav fs p); simpl; lia.
Qed.

(** X28. The combined audio file accounts for every selected row.  Each
    selected row of the table either gives a segment (its file is there
    and can be read) or an entry in the list of errors.  Without any
    segment nothing is exported and the one dialog queued is "Export
    Failed".  Otherwise the segments, joined in the order of the table, are
    exported once; and when the export returns, the one dialog queued is
    "Export Complete" with the number of segments, or, when some row gave
    no segment, "Export Complete with Errors" with one entry for each such
    row. *)
Theorem audio_export_accounts_for_every_selected_row
    (a : review_app) (w : world) (selected_iids : list string)
    (output_path output_format : string) :
  let w' := _perform_audio_export a w selected_iids output_path output_format in
  let paths := chosen a selected_iids in
  let segs := segments (w_fs w) paths in
  let final_message :=
    "Successfully exported " +:+ Py.str_of_nat (length segs)
    +:+ " combined audio files to:" +:+ nl +:+ output_path in
  length segs + length (failing (w_fs w) paths) = length paths
  /\ exists added dialog,
       w_queue w' = w_queue w ++ added
       /\ List.filter QueueSpec.is_dialog added = [dialog]
       /\ match joined segment concat segs with
          | None =>
              w_fs w' = w_fs w
              /\ dialog = ShowError "Export Failed"
                            "No valid audio files could be processed for export."
          | Some audio =>
              w_fs w' = (export audio output_path output_format (w_fs w)).1
              /\ ((export audio output_path output_format (w_fs w)).2 = None ->
                  exists errors,
                    length errors = length (failing (w_fs w) paths)
                    /\ dialog
                       = match errors with
                         | [] => ShowInfo "Export Complete" final_message
                         | _ =>
                             ShowWarning "Export Complete with Errors"
                               (final_message +:+ AudioExport.skipped_note errors)
                         end)
          end.
Proof.
  cbv zeta. split; [apply segments_failing|].
  unfold AudioExport._perform_audio_export, now. cbv beta iota zeta.
  fold (chosen a selected_iids).
  match goal with
  | |- context [export_loop a ?total ?paths 0 (?s, ?w0)] =>
      destruct (export_loop_spec a total paths 0 s w0)
        as (Hfs & Hclock & (q1 & Hq1 & Hd1) & Hc & Hn & names & He & Hl);
      destruct (export_loop a total paths 0 (s, w0)) as [s1 w1]
  end.
  rewrite (RunFacts.fs_log _ (tick w)), (RunFacts.fs_tick w) in Hfs, Hc, Hn, Hl.
  rewrite (queue_log _ (tick w)), (RunFacts.queue_tick w) in Hq1.
  cbn [fst snd combined_audio exported_count error_files List.app] in *.
  rewrite fold_joined in Hc. rewrite Hc. clear Hc.
  destruct (joined segment concat _) as [audio|].
  - RunFacts.fs_simp. rewrite Hfs.
    destruct (export audio output_path output_format (w_fs w)) as [fs' [e|]].
    + destruct (couldnt_encode e); queue_simp; cbn [fst snd];
        rewrite Hq1; (eexists _, _; split; [by rewrite <- !List.app_assoc|]);
        rewrite !List.filter_app, Hd1; (split; [done|]); by split.
    + cbn [fst snd]. rewrite He, Hn.
      destruct names as [|name names]; cbn [List.app]; queue_simp;
        rewrite Hq1; (eexists _, _; split; [by rewrite <- !List.app_assoc|]);
        rewrite !List.filter_app, Hd1; (split; [done|]); (split; [done|]); intros _.
      * by exists [].
      * by exists (name :: names).
  - queue_simp. rewrite Hq1, Hfs.
    eexists _, _. split; [by rewrite <- !List.app_assoc|].
    rewrite !List.filter_app, Hd1. split; [done|]. by split.
Qed.

End AudioExport.

End SelectionFacts.

(** * The theorems at the examples *)

Module Instances.
Import ReaderExamples JobExamples RunExamples SortExamples TableExamples.

(** The manifest written for subdirectory A of the example is read back
    as the objects of its two media files. *)
Lemma manifest_round_trip_witness :
  exists text,
    FS.read (Writer.create_wav_jsonl job_oracles data_fs "/data/A" PATHS_FILENAME None tt).1.2
      (Path.join "/data/A" PATHS_FILENAME) = Ok text
    /\ Reader.read_paths json_loads (Py.lines text) 0
       = (List.map (fun name => JObj [("path", JStr ("/data/A/" +:+ name))])
            (List.filter Writer.is_wav ["x.wav"; "y.wav"; "paths.jsonl"; "scores.jsonl"]),
          0)
    /\ (Writer.create_wav_jsonl job_oracles data_fs "/data/A" PATHS_FILENAME None tt).1.1.1
       = Z.of_nat
           (length (List.filter Writer.is_wav
                      ["x.wav"; "y.wav"; "paths.jsonl"; "scores.jsonl"])).
Proof.
  apply (ManifestFacts.manifest_round_trip job_oracles json_loads None data_fs "/data/A" tt
           ["x.wav"; "y.wav"; "paths.jsonl"; "scores.jsonl"]
           (fun name => "/data/A/" +:+ name) 0).
  - reflexivity.
  - intros name [<-|[<-|[<-|[<-|[]]]]] Hw; try (vm_compute in Hw; discriminate);
      eexists; (split; [reflexivity|]); split; reflexivity.
  - by vm_compute.
Defined.

(** The progress reports of the index of subdirectory A. *)
Lemma create_wav_jsonl_reports_every_100_witness :
  let r := Writer.create_wav_jsonl job_oracles data_fs "/data/A" "paths.jsonl"
             (Some WriterSpec.record_progress) [] in
  ((r.1.1.1 < 0)%Z -> r.2 = [] ++ [(0, 2)])
  /\ ((0 <= r.1.1.1)%Z ->
      r.2 = [] ++ [(0, 2)]
            ++ List.map (fun j => (j, 2)) (List.filter (fun j => j mod 100 =? 0) (seq 1 2))
            ++ [(Z.to_nat r.1.1.1, 2)]).
Proof.
  apply (ManifestFacts.create_wav_jsonl_reports_every_100 job_oracles data_fs "/data/A"
           "paths.jsonl" [] ["x.wav"; "y.wav"; "paths.jsonl"; "scores.jsonl"]).
  reflexivity.
Defined.

(** The scorer on subdirectory A of the job example. *)
Lemma run_audio_aes_success_leaves_the_output_witness :
  exists stdout stderr,
    subprocess_run job_oracles job_fs (RunSpec.command_line "audio-aes" "paths.jsonl" 100)
      "/job/A" = Exited 0 stdout stderr
    /\ RunSpec.has_input job_fs "/job/A" "paths.jsonl" = true
    /\ w_fs (Current.run_audio_aes job_oracles (job_world job_fs) "/job/A" "audio-aes"
               "paths.jsonl" "scores.jsonl" 100).2
       = w_fs (V1_1.run_audio_aes job_oracles (job_world job_fs) "/job/A" "audio-aes"
                 "paths.jsonl" "scores.jsonl" 100).2
    /\ FS.read
         (w_fs (Current.run_audio_aes job_oracles (job_world job_fs) "/job/A" "audio-aes"
                  "paths.jsonl" "scores.jsonl" 100).2)
         (Path.join "/job/A" "scores.jsonl") = Ok stdout
    /\ (forall q,
          FS.isdir
            (w_fs (Current.run_audio_aes job_oracles (job_world job_fs) "/job/A"
                     "audio-aes" "paths.jsonl" "scores.jsonl" 100).2) q
          = FS.isdir job_fs q)
    /\ (forall q content,
          q <> Path.join "/job/A" "scores.jsonl" ->
          w_fs (Current.run_audio_aes job_oracles (job_world job_fs) "/job/A" "audio-aes"
                  "paths.jsonl" "scores.jsonl" 100).2 !! q = Some (File content)
          <-> job_fs !! q = Some (File content)).
Proof.
  apply (ScorerFacts.run_audio_aes_success_leaves_the_output job_oracles
           (job_world job_fs) "/job/A" "audio-aes" "paths.jsonl" "scores.jsonl" 100
           ("Successfully created scores.jsonl." +:+ nl +:+ "  Command stderr output:"
            +:+ nl +:+ "warning: slow")).
  left. reflexivity.
Defined.

(** A second run on the example of the loader, where every subdirectory
    has its scores. *)
Lemma rerun_skips_scored_subdirectories_witness :
  let w := job_world data_fs in
  let r := Current._perform_preprocessing job_oracles w "/data" "audio-aes" 100 false in
  let r' := V1_1._perform_preprocessing job_oracles w "/data" "audio-aes" 100 false in
  r.1 = Current.Summarised (Counters 0 0 0 (length ["A"; "B"; "C"]))
  /\ OrchestratorSpec.untouched w r.2
  /\ (exists j n, r'.1 = V1_1.Summarised j (Counters 0 0 0 n) /\ n <= length ["A"; "B"; "C"])
  /\ OrchestratorSpec.untouched w r'.2.
Proof.
  apply (RunFacts.rerun_skips_scored_subdirectories job_oracles (job_world data_fs) "/data"
           "audio-aes" 100 ["A"; "B"; "C"]); [reflexivity | discriminate | reflexivity].
Defined.

(** A run of revision 1.1 with the stop requested before it starts. *)
Lemma stop_before_the_first_subdirectory_witness :
  let w := World run_fs [] [] 0 2 None in
  let r := V1_1._perform_preprocessing stopping_oracles w "/run" "audio-aes" 100 false in
  r.1 = V1_1.Summarised V1_1.HALTED counters0
  /\ OrchestratorSpec.untouched w r.2
  /\ w_thread r.2 = None
  /\ In (AppendLog ("Stop requested. Halting preprocessing before processing '"
                    +:+ "A" +:+ "'."))
       (w_queue r.2).
Proof.
  apply (RunFacts.stop_before_the_first_subdirectory stopping_oracles
           (World run_fs [] [] 0 2 None) "/run" "audio-aes" 100 false "A" ["E"]).
  - reflexivity.
  - intros n Hn. exact (proj2 (Nat.leb_le 2 n) Hn).
Defined.

(** The run on the job example: one directory processed, one command. *)
Lemma processed_directories_ran_the_command_witness :
  exists ran,
    w_calls (Current._perform_preprocessing job_oracles (job_world job_fs) "/job"
               "audio-aes" 100 false).2
    = w_calls (job_world job_fs) ++ ran
    /\ processed_count (Counters 1 0 0 1) <= length ran
       <= processed_count (Counters 1 0 0 1) + error_count (Counters 1 0 0 1).
Proof.
  apply (RunFacts.processed_directories_ran_the_command job_oracles (job_world job_fs)
           "/job" "audio-aes" 100 false (Counters 1 0 0 1)).
  reflexivity.
Defined.

(** The subdirectories of the run example, sorted. *)
Lemma find_subdirs_sorted_witness :
  exists subdirs_found,
    find_subdirs run_fs "/run" = Ok subdirs_found
    /\ Permutation (LoaderSpec.subdirectories run_fs "/run" ["E"; "A"; "notes.txt"])
         subdirs_found
    /\ StronglySorted (fun a b => String.leb a b = true) subdirs_found.
Proof.
  apply (RunFacts.find_subdirs_sorted run_fs "/run" ["E"; "A"; "notes.txt"]).
  reflexivity.
Defined.

(** The three records of the sort example, by CE. *)
Lemma sort_column_orders_the_table_witness :
  let v := View [no_ce; inf_ce; low_ce] None false in
  let v1 := (Sorter.sort_column str_float str_lower keep_order v ColCE).1 in
  StronglySorted
    (fun x y =>
       TableSpec.in_order str_float str_lower ColCE (current_sort_reverse v1) x y = true)
    (display_audio_data v1).
Proof.
  apply (TableFacts.sort_column_orders_the_table str_float str_lower keep_order
           (View [no_ce; inf_ce; low_ce] None false) ColCE);
    [discriminate | reflexivity | reflexivity].
Defined.

(** Two clicks on the heading of the path column. *)
Lemma second_click_reverses_the_table_witness :
  let v := View [no_ce; inf_ce; low_ce] None false in
  let v1 := (Sorter.sort_column str_float str_lower keep_order v ColPath).1 in
  let v2 := (Sorter.sort_column str_float str_lower keep_order v1 ColPath).1 in
  display_audio_data v2 = List.rev (display_audio_data v1).
Proof.
  apply (TableFacts.second_click_reverses_the_table str_float str_lower keep_order
           (View [no_ce; inf_ce; low_ce] None false) ColPath);
    [discriminate | reflexivity | reflexivity].
Defined.

(** The table filled with two records. *)
Lemma populate_treeview_shows_the_records_witness :
  let a' := Viewer.populate_treeview job_oracles four_decimals no_traceback two_shown in
  rows (tree a')
  = [Row "/data/c.wav" ["c.wav"; "5.5000"; "N/A"; "N/A"; "7.0000"; "/data/c.wav"];
     Row "/data/b.wav" ["b.wav"; "inf"; "N/A"; "N/A"; "7.0000"; "/data/b.wav"]]
  /\ get_children (tree a') = List.map path (display_audio_data (a_view two_shown))
  /\ selection (tree a') = []
  /\ visible_count_label a'
     = "Visible: " +:+ Py.str_of_nat (length (display_audio_data (a_view two_shown)))
  /\ selected_count_label a' = "Selected: " +:+ Py.str_of_nat 0
  /\ exists statuses,
       a_out a' = a_out two_shown ++ statuses
       /\ Forall (fun t => match t with StatusText _ => True | _ => False end) statuses.
Proof.
  apply (ViewerFacts.populate_treeview_shows_the_records job_oracles four_decimals
           no_traceback two_shown).
  - reflexivity.
  - apply List.NoDup_cons; [intros [H|[]]; discriminate|].
    apply List.NoDup_cons; [intros []|constructor].
  - reflexivity.
Defined.

(** The table filled with one record twice, in both revisions. *)
Lemma repeated_path_in_the_table_witness :
  let paths := List.map path (display_audio_data (a_view one_twice)) in
  let a' := Viewer.populate_treeview job_oracles four_decimals no_traceback one_twice in
  let a1 := Viewer.populate_treeview_1_1 job_oracles four_decimals one_twice in
  (exists shown i rest,
     paths = shown ++ i :: rest
     /\ In i shown
     /\ List.NoDup shown
     /\ get_children (tree a') = shown
     /\ exists t, In t (a_out a') /\ TableViewSpec.is_display_error t = true)
  /\ List.NoDup (get_children (tree a1))
  /\ (forall p, In p (get_children (tree a1)) <-> In p paths)
  /\ exists statuses,
       a_out a1 = a_out one_twice ++ statuses
       /\ Forall (fun t => match t with StatusText _ => True | _ => False end) statuses.
Proof.
  apply (ViewerFacts.repeated_path_in_the_table job_oracles four_decimals no_traceback
           one_twice
           [Row "/data/c.wav" ["c.wav"; "5.5000"; "N/A"; "N/A"; "7.0000"; "/data/c.wav"];
            Row "/data/c.wav" ["c.wav"; "5.5000"; "N/A"; "N/A"; "7.0000"; "/data/c.wav"]]).
  - reflexivity.
  - intros H. apply List.NoDup_cons_iff in H as [H _]. apply H. by left.
Defined.

(** A table whose first record has the integer 10^400 as CE: the click on
    the CE heading ends in the "Sort Error" dialog with the view as it was,
    and the fill of the table ends in the "Display Error" dialog with no
    row. *)
Example huge_integer_in_the_table :
  let a := set_view app0 (View [huge_ce; low_ce] None false) in
  let a1 := Viewer.sort_column job_oracles str_float four_decimals no_traceback
              str_lower keep_order a ColCE in
  let a2 := Viewer.populate_treeview job_oracles four_decimals no_traceback a in
  a_view a1 = a_view a
  /\ a_out a1
     = [StatusText "Status: Sorting by CE...";
        StatusText "Status: Error during sorting.";
        ShowError "Sort Error"
          ("Could not sort column 'CE': int too large to convert to float"
           +:+ nl +:+ nl +:+ "Traceback (most recent call last): ...")]
  /\ rows (tree a2) = []
  /\ a_out a2
     = [StatusText "Status: Error populating table.";
        ShowError "Display Error"
          ("An error occurred displaying the data:" +:+ nl
           +:+ "int too large to convert to float"
           +:+ nl +:+ nl +:+ "Traceback (most recent call last): ...")].
Proof. vm_compute. repeat split; reflexivity. Qed.

(** The two selected rows of the example, exported as a ".jsonl" list and
    read back. *)
Lemma exported_list_round_trip_witness :
  exists text,
    FS.read
      (ListExport.export_selected_list job_oracles path_json (fun _ => None) data_fs
         both_selected "/data/list.jsonl").1
      "/data/list.jsonl" = Ok text
    /\ Reader.read_paths json_loads (Py.lines text) 0
       = (List.map (fun p => JObj [("path", JStr p)]) (selection (tree both_selected)), 0).
Proof.
  apply (SelectionFacts.exported_list_round_trip job_oracles path_json (fun _ => None)
           json_loads data_fs
           (<["/data/list.jsonl" := File EmptyString]>
              (<["/data" := Dir ["A"; "B"; "C"; "list.jsonl"]]> data_fs))
           both_selected "/data/list.jsonl" 0).
  - discriminate.
  - reflexivity.
  - reflexivity.
  - intros p [<-|[<-|[]]]; (split; [reflexivity|]); split; reflexivity.
Defined.

End Instances.
